(* ===== verification/_CoqProject ===== *)
-Q . S2P
Prelude.v
GoStrings.v
GoUtf8.v
GoNum.v
GoBase64.v
GoNet.v
GoMd5.v
GoTime.v
GoMail.v
GoScan.v
GoRegexp.v
RateLimit.v
Stats.v
Auth.v
GoIO.v
Session.v
Container.v
Config.v
Storage.v
Fs.v
Persist.v
Maildir.v
UidList.v
Mailbox.v
MailFiles.v
Confined.v
CopyFiles.v
Queue.v
Smtp.v
SmtpSession.v
SmtpSafety.v
SmtpWorld.v
SmtpFlow.v
Pop3.v
Pop3Safety.v
Pop3Maildrop.v
Pop3Update.v
Pop3Flow.v
ImapParse.v
ImapFetch.v
Imap.v
ImapSafety.v
ImapFlow.v
ImapSearch.v
MailAuth.v
Reputation.v
Blacklist.v
Bayes.v
Antivirus.v
TlsStore.v
Dkim.v
Antispam.v
Daemon.v
DaemonSafety.v
Outbound.v
MailAccess.v
Logging.v
Server.v
Runtime.v
Api.v
Checks.v
SecurityCheck.v
SmtpProbe.v
Bootstrap.v
Commands.v
Lifecycle.v
CommandLine.v
