(* ===== verification/Prelude.v ===== *)
(** * Kavira: a verification development

    Kavira is a mail server in Go: SMTP on ports 25, 587 and 465, IMAP and
    POP3 for mail access, an outbound queue, an administrative API and the
    commands of its operator.  This library translates its code, file by
    file, into executable definitions and proves what makes each part, and
    their composition, correct.

    ** How the program works, and where its parts are modelled

    A client's connection is admitted by a server ([smtp/server.go],
    [imap/server.go], [pop3/pop3.go]) and becomes a session, a loop that
    reads a line and runs a command.  An SMTP session asks its backend,
    closures made in [cmd/kavira/main.go], whether a domain is hosted, which
    mailbox an address denotes, whether a login is valid, what to think of a
    message, and hands it to the mail store or the queue.  An IMAP or POP3
    session works on the maildir of the account that logged in.  The main
    loop reloads the configuration and the certificates under all of them,
    a scheduler works on the queue beside the sessions, and a timer saves
    what was learned.

    - The language and its library: [GoStrings], [GoUtf8], [GoNum]
      (float64 by [SpecFloat], durations), [GoBase64], [GoNet], [GoMd5],
      [GoTime], [GoMail], [GoScan], [GoRegexp], [GoIO].  Only what the code
      uses is there.  Strings are sequences of bytes, machine integers are
      [Z] with their wrap-around written out.
    - The operating system: [Fs] has files, directories and the calls the
      code makes; an environment decides which calls fail and how much a
      failing write leaves.  [Persist] is the write-and-rename idiom.
    - [RateLimit] ([ratelimit]), [Stats] ([stats]), [Auth] ([auth]: hashes,
      lockout), [Container] ([container]), [Config] ([config], [paths]),
      [Storage] ([storage]).
    - The mail store: [Maildir] ([maildir.go], [flags.go]), [UidList] and
      [Mailbox] ([mailbox.go]), [MailFiles] (which files a mailbox has),
      [Confined] (what stays inside one directory), [CopyFiles] (which
      files a copy writes).
    - [Queue] ([queue]): the directory, the scheduler, the bounce, the
      choice of hosts; [Outbound] puts the scheduler into the daemon, with
      its calls between those of the sessions.  [Logging] ([logging]).
    - Sessions: [Session] is the state monad, the connection and the
      program logic they share.  SMTP: [Smtp], [SmtpSession], with
      [SmtpSafety], [SmtpWorld], [SmtpFlow].  POP3: [Pop3], with
      [Pop3Safety], [Pop3Maildrop], [Pop3Update], [Pop3Flow].  IMAP:
      [ImapParse] ([parse.go]), [ImapFetch] (the pure part of [fetch.go]),
      [Imap] ([session.go] and the commands of [fetch.go]), with
      [ImapSafety], [ImapFlow], [ImapSearch].  [Server] is what accepts
      their connections, the same code in the three packages.
    - Judging mail: [MailAuth] ([mailauth]), [Reputation] ([reputation]),
      [Blacklist] ([blacklist]), [Bayes] and [Antispam] ([antispam]),
      [Antivirus] ([antivirus]).
    - Keys: [TlsStore] ([tls]), [Dkim] ([dkim]).
    - The process: [Daemon] (the backend and the authentication of mail
      access), [DaemonSafety] and [MailAccess] (sessions run against them),
      [Runtime] (listeners, reloads, shutdown), [Lifecycle] (the learned
      state and the pidfile over the daemon's life), [Api] ([api]).
    - The operator: [Checks] ([checks.go], [audit.go], [container.go]),
      [SecurityCheck] ([security.go]), [SmtpProbe] (that check against this
      server), [Bootstrap] ([bootstrap] and the first start), [Commands]
      ([proc], [status] and commands of [main.go]), [CommandLine] (the
      arguments of [main]).

    Functions keep the names they have in the code; [cmdRcpt] of
    [SmtpSession] is [cmdRcpt] of [smtp/session.go].  A function that the
    code passes as a parameter or keeps in a struct is a field of a class
    ([Backend], [AuthLib], [KeyLib], [Host], [Machine], [Network]), so that
    a client is proved against the interface and instantiated by the
    component: [Daemon.backend] is the instance of the SMTP backend.

    ** What the theorems show

    The comment of a theorem that states a property of the program begins
    with its number.  By subject:

    - Abuse: a session of port 25 only writes mail of domains the server
      hosts, into the directories of their mailboxes, and queues nothing; a
      submission session queues mail only under the address of a login whose
      password was checked, over TLS ([inbound_end_to_end],
      [submission_end_to_end], on the composed daemon).
    - Protocols as state machines: every run of the SMTP, IMAP and POP3
      loops is a run of an abstract machine ([run_refines], [imap_refines],
      [pop3_transaction]), passwords are taken under TLS only and nothing
      precedes a login ([imap_safe], [pop3_safe]), a POP3 session of the
      daemon changes nothing outside the maildirs of the accounts it logged
      in to ([pop3_end_to_end]), what was sent in clear before STARTTLS is
      forgotten ([starttls_isolates]),
      a mailbox opened with EXAMINE is only written by a COPY into it
      ([examine_read_only]), every session ends ([imap_total]).
    - Mail is not lost: delivery through [tmp] and [new] ([Deliver_spec]),
      UIDs that are unique, ascending and stable over a reopening
      ([Refresh_spec], [reopen_same]), QUIT removes the marked messages and
      no other ([pop3_quit]), MOVE removes what it copied and nothing before
      all is copied ([move_copies_first]), STORE tries every message it
      selects ([store_spec]), SEARCH finds what it says ([search_spec]), the
      queue
      is atomic on disk, retries end, and each attempt either removes,
      defers or bounces ([bounded_retries], [Process_spec], [write_atomic]).
      Whatever sessions, failures and crashes come between the scheduler's
      calls, a message that was queued is still queued, was taken over by
      a host, or the notice made for it was delivered to its sender, unless
      that sender has no mailbox here or that very delivery failed
      ([mail_kept]; [session_steps] and [round_is_Process] tie its
      steps to the sessions and to [Process]).
    - Concurrency: no interleaving of the accepting loop, the sessions and
      [Shutdown] serves more clients than there are workers or leaks one
      ([sessions_capped]), and a server that was closed comes to an end
      ([shutdown_terminates]).
    - Guessing and pace: lockout ([lockout_after_max]), the warm-up ceiling,
      which sessions that ask at the same time exceed by their number
      ([warmup_cap]).
    - Judgement: the strictest of the checks decides ([screen_strictest]),
      DMARC ([check_disposition]), the range of a reputation and its exact
      value where float64 is exact ([score_exact]),
      spam points within bounds ([verdict_spec]), and what was learned
      survives a restart or a crash as of the last save ([state_survives],
      for both stores through one interface).
    - Operation: whatever reloads by signal, over the API and refreshes
      interleave, all listeners serve one loaded configuration, with the
      certificates for it but for one race, and none takes passwords
      without a certificate ([runtime_invariant]), a reload keeps the
      configuration valid ([reload_spec]), SNI
      ([sni_certificate]), the API ([api_guarded], [api_reveals]), the
      audit's exit code ([audit_exit]), the security check against this
      server ([probe_passes]), keys ([generate_dkim_spec]), installation,
      the first start and removal ([init_spec], [start_provisions],
      [purge_spec]), the command line ([flags_read_back], [purge_asks]), the
      pidfile ([pidfile_removed]), a log that loses no line to a rotation
      ([rotation_loses_nothing]).
    - Parsing: printed IMAP commands parse back ([parse_printed]), wildcards
      of LIST match as their definition says ([matchPattern_spec]).

    Other theorems and examples of the files complete these, and some
    record where the code does not do what it means to ([subdomain_policy],
    [false_alarm], [floor_not_raised], [folder_escape], [notice_lost],
    [running_daemon_unregistered], [drained_lost], [late_session],
    [deaf_shutdown], [accept_error_ends], [torn_refresh], [cap_overshot],
    [empty_folder_validity], [flaky_resolver_rejects], [purge_overlooks],
    [stat_failure_overwrites]).

    ** Failure, time and interleaving

    Every call of the file system may fail, at any point, unless a theorem
    assumes a [reliable] environment; such an assumption is made where the
    code takes a failed [Stat] for an absent file, or where the claim is
    that something succeeds.  Settings and configuration are read at every
    use from an arbitrary sequence, each closure of the backend reading its
    own, so theorems hold under reloads at any moment; [Runtime] has the
    two reads of a refresh and of a reload as steps of their own.  Between two commands of an IMAP or POP3 session other
    processes may change the mailbox arbitrarily.  Clocks, random bytes
    and the answers of remote hosts are arguments.

    ** Fuel

    A loop over input that shrinks has the length of the input as fuel,
    which is never exhausted: each round takes at least one byte (lines,
    header fields, stream chunks, parser tokens).  A session's loop takes
    one unit per command; [run_total], [pop3_total] and [imap_total] show
    that enough fuel always exists and gives a result.  The remaining bounds are constants of the
    formats (eight groups of an IPv6 address, digits of a 64-bit number).

    ** Not modelled

    Goroutines have no memory model: a session, the scheduler, the
    accepting loop and the main loop are each sequential, and interleave at
    their calls of shared state ([Outbound], [Server]) or see what runs
    beside them as an arbitrary change of the world.  Sockets, TLS itself,
    DNS, JSON and YAML, the password and signature algorithms and the
    multiplexer of [net/http] are libraries and stay parameters.  What is
    logged and the status socket's transport are output.  Deadlines are
    ends of streams.  Permissions and ownership of mail files, symbolic
    links, listing the network interfaces and the Windows variants of files
    are left out.  There is no theorem that IMAP sessions stay inside their
    account: the code lets folder names escape ([folder_escape]). *)

From stdpp Require Export base option list strings gmap pretty sorting.
From Stdlib Require Export Ascii ZArith Lia.
From Stdlib Require String.

(** Go integers are [Z]; string literals are Go strings. *)
#[global] Open Scope string_scope.
#[global] Open Scope list_scope.
#[global] Open Scope Z_scope.

#[global] Arguments String.append !_ _ / : simpl nomatch.

(** ** Results: Go's [(value, error)] pairs *)

(** The errors the modelled code tells apart.  [ENotExist] is what
    [os.IsNotExist] recognises; every other error is a message. *)
Inductive error :=
  | ENotExist
  | EMsg (msg : string).

#[global] Instance error_eq_dec : EqDecision error.
Proof. solve_decision. Defined.

Inductive result (A : Type) :=
  | Ok (a : A)
  | Err (e : error).
Arguments Ok {A} a.
Arguments Err {A} e.

#[global] Instance result_ret : MRet result := @Ok.
#[global] Instance result_bind : MBind result := λ A B f m,
  match m with Ok a => f a | Err e => Err e end.
#[global] Instance result_fmap : FMap result := λ A B f m,
  match m with Ok a => Ok (f a) | Err e => Err e end.

Definition is_ok {A} (r : result A) : bool :=
  match r with Ok _ => true | Err _ => false end.

(** ** Machine integers *)

(** Conversion to [uint32]: the low 32 bits. *)
Definition u32 (z : Z) : Z := z mod 2 ^ 32.
(** Conversion to [uint64]. *)
Definition u64 (z : Z) : Z := z mod 2 ^ 64.

(** Wrap-around of [int64] arithmetic. *)
Definition i64 (z : Z) : Z := (z + 2 ^ 63) mod 2 ^ 64 - 2 ^ 63.

Definition max_int64 : Z := 2 ^ 63 - 1.
Definition min_int64 : Z := - 2 ^ 63.

Lemma i64_small z : 0 <= z < 2 ^ 63 → i64 z = z.
Proof. intros Hz. unfold i64. rewrite Z.mod_small; lia. Qed.

(** Length of a list or a string as a Go [int]. *)
Definition llen {A} (l : list A) : Z := Z.of_nat (length l).
Definition slen (s : string) : Z := Z.of_nat (String.length s).

(** ** Tactics *)

(** Case analysis on the discriminee of a [match] or [if] in the goal. *)
Ltac case_goal :=
  match goal with
  | |- context [match ?x with _ => _ end] =>
      let E := fresh "E" in destruct x eqn:E
  end.

(** The same on a hypothesis. *)
Ltac case_hyp H :=
  match type of H with
  | context [match ?x with _ => _ end] =>
      let E := fresh "E" in destruct x eqn:E
  end.

(** Turns boolean tests of hypotheses into the propositions they decide. *)
Ltac reflect_bool :=
  repeat match goal with
  | H : (_ && _)%bool = true |- _ => apply andb_true_iff in H as [? ?]
  | H : (_ || _)%bool = false |- _ => apply orb_false_iff in H as [? ?]
  | H : negb _ = true |- _ => apply negb_true_iff in H
  | H : negb _ = false |- _ => apply negb_false_iff in H
  | H : (_ <=? _) = true |- _ => apply Z.leb_le in H
  | H : (_ <=? _) = false |- _ => apply Z.leb_gt in H
  | H : (_ <? _) = true |- _ => apply Z.ltb_lt in H
  | H : (_ <? _) = false |- _ => apply Z.ltb_ge in H
  | H : (_ =? _) = true |- _ => apply Z.eqb_eq in H
  | H : (_ =? _) = false |- _ => apply Z.eqb_neq in H
  | H : bool_decide _ = true |- _ => apply bool_decide_eq_true in H
  | H : bool_decide _ = false |- _ => apply bool_decide_eq_false in H
  | H : String.eqb _ _ = true |- _ => apply String.eqb_eq in H
  | H : String.eqb _ _ = false |- _ => apply String.eqb_neq in H
  end.

(** Peels one step off a monadic computation that succeeded. *)
Tactic Notation "bind_ok" hyp(H) "as" simple_intropattern(x) "eqn" ident(E) :=
  match type of H with
  | mbind ?f ?m = Ok _ =>
      destruct m as [x|] eqn:E; [cbn [mbind result_bind] in H|discriminate H]
  end.

Create HintDb kavira discriminated.

(** ** Lists *)

Lemma llen_nonneg {A} (l : list A) : 0 <= llen l.
Proof. unfold llen; lia. Qed.

Lemma llen_app {A} (l k : list A) : llen (l ++ k) = llen l + llen k.
Proof. unfold llen. rewrite length_app. lia. Qed.

Lemma llen_cons {A} (x : A) l : llen (x :: l) = llen l + 1.
Proof. unfold llen. simpl. lia. Qed.

Lemma last_cons {A} (x d : A) l : List.last (x :: l) d = List.last l x.
Proof.
  revert x d. induction l as [|y l IH]; intros x d; [done|].
  change (List.last (x :: y :: l) d) with (List.last (y :: l) d). by rewrite !IH.
Qed.

Lemma filter_none {A} (P : A → Prop) `{∀ x, Decision (P x)} l :
  (∀ x, x ∈ l → ¬ P x) → filter P l = [].
Proof.
  induction l as [|x l IH]; intros Hl; [done|].
  rewrite filter_cons_False by (apply Hl, list_elem_of_here).
  apply IH. intros y Hy. by apply Hl, list_elem_of_further.
Qed.

Lemma filter_all {A} (P : A → Prop) `{∀ x, Decision (P x)} (l : list A) :
  (∀ x, x ∈ l → P x) → filter P l = l.
Proof.
  induction l as [|x l IH]; intros Hl; [done|].
  rewrite filter_cons_True by (apply Hl, list_elem_of_here). f_equal.
  apply IH. intros y Hy. by apply Hl, list_elem_of_further.
Qed.

Lemma filter_fmap {A B} (f : A → B) (P : B → Prop) `{∀ y, Decision (P y)} (l : list A) :
  filter P (f <$> l) = f <$> filter (λ x, P (f x)) l.
Proof. induction l as [|x l IH]; [done|]. rewrite fmap_cons, !filter_cons, IH. by case_decide. Qed.

(** [existsb]-style membership with a decidable equality. *)
Definition mem {A} `{EqDecision A} (x : A) (l : list A) : bool :=
  bool_decide (x ∈ l).

(** ** Sorting as [sort.Slice] specifies it

    [sort.Slice] only promises a permutation of the slice, sorted for the
    given [less] when [less] is a strict weak order; the order of
    equivalent elements is unspecified.  The development therefore takes
    the sort as an interface: every theorem holds for every function with
    these two laws. *)

(** What [sort.Slice] needs of [less] for its result to be specified. *)
Record strict_weak {A} (less : A → A → bool) : Prop := {
  sw_irrefl x : less x x = false;
  sw_trans x y z : less x y = true → less y z = true → less x z = true;
  sw_incomp x y z : less x y = false → less y z = false → less x z = false;
}.

Class SliceSort := {
  sort_slice : ∀ {A}, (A → A → bool) → list A → list A;
  sort_slice_perm : ∀ {A} (less : A → A → bool) l, sort_slice less l ≡ₚ l;
  sort_slice_sorted : ∀ {A} (less : A → A → bool) l,
    strict_weak less →
    StronglySorted (λ x y, less y x = false) (sort_slice less l);
}.

(** Insertion sort, which is what the runtime runs on up to 12 elements. *)
Section insertion.
Context {A : Type} (less : A → A → bool).

Fixpoint insert_sorted (x : A) (l : list A) : list A :=
  match l with
  | [] => [x]
  | y :: l' => if less y x then y :: insert_sorted x l' else x :: y :: l'
  end.

Fixpoint insertion_sort (l : list A) : list A :=
  match l with
  | [] => []
  | x :: l' => insert_sorted x (insertion_sort l')
  end.

Lemma insert_sorted_perm x l : insert_sorted x l ≡ₚ x :: l.
Proof.
  induction l as [|y l IH]; simpl; [done|].
  destruct (less y x); [|done]. rewrite IH. apply Permutation_swap.
Qed.

Lemma insertion_sort_perm l : insertion_sort l ≡ₚ l.
Proof.
  induction l as [|x l IH]; simpl; [done|].
  by rewrite insert_sorted_perm, IH.
Qed.

Lemma insert_sorted_sorted x l :
  strict_weak less →
  StronglySorted (λ x y, less y x = false) l →
  StronglySorted (λ x y, less y x = false) (insert_sorted x l).
Proof.
  intros W. induction 1 as [|y l Hl IH Hy]; simpl; [by repeat constructor|].
  destruct (less y x) eqn:E; constructor.
  - done.
  - rewrite insert_sorted_perm. constructor; [|done].
    destruct (less x y) eqn:E'; [|done].
    by rewrite <- (sw_irrefl _ W x), (sw_trans _ W x y x).
  - by constructor.
  - constructor; [done|]. eapply Forall_impl; [exact Hy|].
    intros z Hz. cbn in Hz |- *. by apply (sw_incomp _ W z y x).
Qed.

Lemma insertion_sort_sorted l :
  strict_weak less →
  StronglySorted (λ x y, less y x = false) (insertion_sort l).
Proof.
  intros W. induction l; simpl; [constructor|]. by apply insert_sorted_sorted.
Qed.
End insertion.

#[global] Instance insertion_slice_sort : SliceSort | 100 := {
  sort_slice := @insertion_sort;
  sort_slice_perm := @insertion_sort_perm;
  sort_slice_sorted := @insertion_sort_sorted;
}.

(** [less] by an integer key, the shape of every comparison the code
    passes to [sort.Slice]. *)
Definition less_by {A} (key : A → Z) (x y : A) : bool := key x <? key y.

Lemma less_by_strict_weak {A} (key : A → Z) : strict_weak (less_by key).
Proof.
  split; unfold less_by; intros; reflect_bool; try apply Z.ltb_lt; try apply Z.ltb_ge; lia.
Qed.

Lemma sort_by_sorted `{SliceSort} {A} (key : A → Z) l :
  StronglySorted (λ x y, key x <= key y) (sort_slice (less_by key) l).
Proof.
  pose proof (sort_slice_sorted (less_by key) l (less_by_strict_weak key)) as Hs.
  induction Hs as [|x k Hk IH Hx]; constructor; [done|].
  eapply Forall_impl; [exact Hx|]. unfold less_by. intros y Hy. by apply Z.ltb_ge.
Qed.

Lemma StronglySorted_snoc {A} (R : A → A → Prop) l x :
  StronglySorted R l → Forall (λ y, R y x) l → StronglySorted R (l ++ [x]).
Proof.
  induction 1 as [|y l Hs IH Hy]; simpl; [by repeat constructor|].
  intros [Hyx Hl]%Forall_cons. constructor; [auto|]. rewrite Forall_app. auto.
Qed.

Lemma StronglySorted_rev {A} (R : A → A → Prop) l :
  StronglySorted R l → StronglySorted (λ x y, R y x) (rev l).
Proof.
  induction 1 as [|x l Hs IH Hx]; simpl; [constructor|].
  apply StronglySorted_snoc; [done|]. by rewrite <- Permutation_rev.
Qed.

Lemma StronglySorted_filter {A} (R : A → A → Prop) (P : A → Prop) `{∀ x, Decision (P x)} l :
  StronglySorted R l → StronglySorted R (filter P l).
Proof.
  induction 1 as [|x l Hs IH Hx]; [constructor|].
  rewrite filter_cons. case_decide; [|done]. constructor; [done|].
  rewrite Forall_forall in Hx |- *. intros y [_ Hy]%list_elem_of_filter. auto.
Qed.

Lemma map_Forall_filtered {K A} `{Countable K} (P : K → A → Prop) (Q : K * A → Prop)
    `{∀ x, Decision (Q x)} (m : gmap K A) :
  map_Forall P m → map_Forall P (filter Q m).
Proof.
  intros Hm. apply map_Forall_lookup_2. intros k x [Hk _]%map_lookup_filter_Some.
  by apply (map_Forall_lookup_1 _ _ _ _ Hm Hk).
Qed.

#[export] Hint Resolve llen_nonneg less_by_strict_weak : kavira.
