(* ===== verification/GoStrings.v ===== *)
(** * The Go string library

    Go strings are byte sequences; they are modelled by [string], one
    [ascii] per byte.  This file models the functions of the packages
    [strings] and [strconv] that the source calls.  Case mapping and the
    notion of white space are those of ASCII: they agree with Go's on
    every ASCII string, and bytes above 127 are left unchanged. *)

From S2P Require Import Prelude.

(** ** Bytes *)

Definition byte_of (c : ascii) : Z := Z.of_N (N_of_ascii c).
Definition byte (z : Z) : ascii := ascii_of_N (Z.to_N z).
Definition chr (z : Z) : string := String (byte z) "".

Lemma byte_of_range c : 0 <= byte_of c < 256.
Proof. destruct c as [[] [] [] [] [] [] [] []]; vm_compute; split; discriminate || reflexivity. Qed.

Lemma byte_byte_of c : byte (byte_of c) = c.
Proof. unfold byte, byte_of. rewrite N2Z.id. apply ascii_N_embedding. Qed.

Definition LF : ascii := byte 10.
Definition CR : ascii := byte 13.
Definition TAB : ascii := byte 9.
Definition DQUOTE : ascii := byte 34.
Definition CRLF : string := String CR (String LF "").

Definition is_upper (c : ascii) : bool := (65 <=? byte_of c) && (byte_of c <=? 90).
Definition is_lower (c : ascii) : bool := (97 <=? byte_of c) && (byte_of c <=? 122).
Definition is_digit (c : ascii) : bool := (48 <=? byte_of c) && (byte_of c <=? 57).
(** White space as [unicode.IsSpace] sees it below 128. *)
Definition is_space (c : ascii) : bool :=
  (byte_of c =? 32) || ((9 <=? byte_of c) && (byte_of c <=? 13)).

Definition lower_byte (c : ascii) : ascii :=
  if is_upper c then byte (byte_of c + 32) else c.
Definition upper_byte (c : ascii) : ascii :=
  if is_lower c then byte (byte_of c - 32) else c.

(** ** Construction and slicing *)

Fixpoint smap (f : ascii → ascii) (s : string) : string :=
  match s with "" => "" | String c s' => String (f c) (smap f s') end.

Fixpoint schars (s : string) : list ascii :=
  match s with "" => [] | String c s' => c :: schars s' end.

Fixpoint of_chars (l : list ascii) : string :=
  match l with [] => "" | c :: l' => String c (of_chars l') end.

Fixpoint sall (p : ascii → bool) (s : string) : bool :=
  match s with "" => true | String c s' => p c && sall p s' end.

Fixpoint stake (n : nat) (s : string) : string :=
  match n, s with
  | S n', String c s' => String c (stake n' s')
  | _, _ => ""
  end.

Fixpoint sdrop (n : nat) (s : string) : string :=
  match n, s with
  | S n', String _ s' => sdrop n' s'
  | O, _ => s
  | _, "" => ""
  end.

(** [s[:n]] and [s[n:]], for [n] within the string. *)
Definition slice_to (s : string) (n : Z) : string := stake (Z.to_nat n) s.
Definition slice_from (s : string) (n : Z) : string := sdrop (Z.to_nat n) s.

Definition is_empty (s : string) : bool := match s with "" => true | _ => false end.

Lemma is_empty_false s : is_empty s = false → s ≠ "".
Proof. by destruct s. Qed.

(** ** Package [strings] *)

Definition ToLower : string → string := smap lower_byte.
Definition ToUpper : string → string := smap upper_byte.
Definition EqualFold (a b : string) : bool := String.eqb (ToLower a) (ToLower b).

Fixpoint HasPrefix (s p : string) {struct p} : bool :=
  match p, s with
  | "", _ => true
  | String c p', String d s' => Ascii.eqb c d && HasPrefix s' p'
  | _, "" => false
  end.

Fixpoint sskip (p s : string) : string :=
  match p, s with String _ p', String _ s' => sskip p' s' | _, _ => s end.

Definition TrimPrefix (s p : string) : string := if HasPrefix s p then sskip p s else s.
Definition CutPrefix (s p : string) : string * bool :=
  if HasPrefix s p then (sskip p s, true) else (s, false).

Definition HasSuffix (s p : string) : bool :=
  (String.length p <=? String.length s)%nat &&
  String.eqb (sdrop (String.length s - String.length p) s) p.
Definition TrimSuffix (s p : string) : string :=
  if HasSuffix s p then stake (String.length s - String.length p) s else s.

(** Position of the first occurrence, -1 when there is none. *)
Fixpoint Index (s sub : string) : Z :=
  if HasPrefix s sub then 0 else
  match s with
  | "" => -1
  | String _ s' => let i := Index s' sub in if i <? 0 then -1 else i + 1
  end.
Definition Contains (s sub : string) : bool := 0 <=? Index s sub.

Fixpoint IndexByte (s : string) (c : ascii) : Z :=
  match s with
  | "" => -1
  | String d s' =>
      if Ascii.eqb d c then 0
      else let i := IndexByte s' c in if i <? 0 then -1 else i + 1
  end.

Fixpoint LastIndexByte (s : string) (c : ascii) : Z :=
  match s with
  | "" => -1
  | String d s' =>
      let i := LastIndexByte s' c in
      if 0 <=? i then i + 1 else if Ascii.eqb d c then 0 else -1
  end.

Fixpoint CountByte (s : string) (c : ascii) : Z :=
  match s with
  | "" => 0
  | String d s' => (if Ascii.eqb d c then 1 else 0) + CountByte s' c
  end.

(** [Cut s sep]: the text before and after the first [sep]. *)
Fixpoint cut_opt (s sep : string) : option (string * string) :=
  if HasPrefix s sep then Some ("", sskip sep s) else
  match s with
  | "" => None
  | String c s' =>
      match cut_opt s' sep with
      | Some (a, b) => Some (String c a, b)
      | None => None
      end
  end.
Definition Cut (s sep : string) : string * string * bool :=
  match cut_opt s sep with Some (a, b) => (a, b, true) | None => (s, "", false) end.

(** [Split] with a one-byte separator: always at least one field. *)
Fixpoint Split (s : string) (sep : ascii) : list string :=
  match s with
  | "" => [""]
  | String c s' =>
      if Ascii.eqb c sep then "" :: Split s' sep
      else match Split s' sep with
           | f :: r => String c f :: r
           | [] => [String c ""]
           end
  end.

(** [SplitAfter]: the fields keep their separator. *)
Fixpoint SplitAfter (s : string) (sep : ascii) : list string :=
  match s with
  | "" => [""]
  | String c s' =>
      if Ascii.eqb c sep then String c "" :: SplitAfter s' sep
      else match SplitAfter s' sep with
           | f :: r => String c f :: r
           | [] => [String c ""]
           end
  end.

Fixpoint Join (l : list string) (sep : string) : string :=
  match l with
  | [] => ""
  | [s] => s
  | s :: l' => s +:+ sep +:+ Join l' sep
  end.

Fixpoint trim_left (p : ascii → bool) (s : string) : string :=
  match s with
  | "" => ""
  | String c s' => if p c then trim_left p s' else s
  end.

Fixpoint trim_right (p : ascii → bool) (s : string) : string :=
  match s with
  | "" => ""
  | String c s' =>
      match trim_right p s' with
      | "" => if p c then "" else String c ""
      | r => String c r
      end
  end.

Definition TrimSpace (s : string) : string := trim_right is_space (trim_left is_space s).

Fixpoint in_set (cutset : string) (c : ascii) : bool :=
  match cutset with "" => false | String d s' => Ascii.eqb d c || in_set s' c end.
Definition Trim (s cutset : string) : string :=
  trim_right (in_set cutset) (trim_left (in_set cutset) s).
Definition TrimRight (s cutset : string) : string := trim_right (in_set cutset) s.

(** [FieldsFunc]: the maximal runs of bytes that do not satisfy [p]. *)
Fixpoint fields_go (p : ascii → bool) (s cur : string) : list string :=
  match s with
  | "" => if is_empty cur then [] else [cur]
  | String c s' =>
      if p c then (if is_empty cur then [] else [cur]) ++ fields_go p s' ""
      else fields_go p s' (cur +:+ String c "")
  end.
Definition FieldsFunc (p : ascii → bool) (s : string) : list string := fields_go p s "".
Definition Fields (s : string) : list string := FieldsFunc is_space s.

(** [ReplaceAll s old new] for a non-empty [old]; the recursion consumes
    at least one byte per step, so the length of [s] is enough fuel. *)
Fixpoint replace_go (n : nat) (s old new : string) : string :=
  match n with
  | O => s
  | S n' =>
      match cut_opt s old with
      | Some (a, b) => a +:+ new +:+ replace_go n' b old new
      | None => s
      end
  end.
Definition ReplaceAll (s old new : string) : string :=
  replace_go (String.length s) s old new.

(** ** Package [strconv] *)

(** Decimal digits, most significant first. *)
Fixpoint digits_val (acc : Z) (s : string) : option Z :=
  match s with
  | "" => Some acc
  | String c s' =>
      if is_digit c then digits_val (acc * 10 + (byte_of c - 48)) s' else None
  end.

(** [ParseUint s 10 bits]: [None] stands for a syntax or range error. *)
Definition ParseUint (s : string) (bits : Z) : option Z :=
  if is_empty s then None else
  match digits_val 0 s with
  | Some n => if n <? 2 ^ bits then Some n else None
  | None => None
  end.

(** [ParseInt s 10 64], which is also [Atoi] on a 64-bit platform. *)
Definition ParseInt (s : string) : option Z :=
  let '(neg, body) :=
    match s with
    | String "+" s' => (false, s')
    | String "-" s' => (true, s')
    | _ => (false, s)
    end in
  if is_empty body then None else
  match digits_val 0 body with
  | Some n =>
      if neg then (if n <=? 2 ^ 63 then Some (- n) else None)
      else (if n <? 2 ^ 63 then Some n else None)
  | None => None
  end.
Definition Atoi (s : string) : option Z := ParseInt s.

(** [%d] of [fmt]. *)
Definition dec (z : Z) : string := pretty z.

Create Rewrite HintDb gostr.

(** [%x] of [fmt] on a natural number: the recursion divides by 16, so
    64 digits are enough for every machine integer. *)
Definition hex_digit (v : Z) : ascii := if v <? 10 then byte (48 + v) else byte (87 + v).
Fixpoint hex_go (fuel : nat) (z : Z) (acc : string) : string :=
  match fuel with
  | O => acc
  | S fuel =>
      let acc := String (hex_digit (z mod 16)) acc in
      if z <? 16 then acc else hex_go fuel (z / 16) acc
  end.
Definition hex (z : Z) : string := hex_go 64 z "".

(** ** Laws *)

Lemma sapp_nil_l s : "" +:+ s = s.
Proof. done. Qed.

Lemma sapp_nil_r s : s +:+ "" = s.
Proof. induction s; simpl; congruence. Qed.

Lemma sapp_assoc a b c : (a +:+ b) +:+ c = a +:+ (b +:+ c).
Proof. induction a; simpl; congruence. Qed.

Lemma slength_app a b :
  String.length (a +:+ b) = (String.length a + String.length b)%nat.
Proof. induction a; simpl; congruence. Qed.

Lemma slen_nonneg s : 0 <= slen s.
Proof. unfold slen; lia. Qed.

Lemma slen_app a b : slen (a +:+ b) = slen a + slen b.
Proof. unfold slen. rewrite slength_app. lia. Qed.

Lemma slen_cons c s : slen (String c s) = slen s + 1.
Proof. unfold slen. simpl. lia. Qed.

Lemma slen_zero s : slen s = 0 → s = "".
Proof. destruct s; [done|]. unfold slen. simpl. lia. Qed.

Lemma sapp_cons c a b : String c a +:+ b = String c (a +:+ b).
Proof. done. Qed.

Lemma sall_app p a b : sall p (a +:+ b) = sall p a && sall p b.
Proof. induction a as [|c a IH]; simpl; [done|]. by rewrite IH, andb_assoc. Qed.

Lemma sall_impl (p q : ascii → bool) s :
  (∀ c, p c = true → q c = true) → sall p s = true → sall q s = true.
Proof.
  intros Hpq. induction s as [|c s IH]; simpl; [done|].
  intros [? ?]%andb_true_iff. by rewrite Hpq, IH.
Qed.

Lemma sapp_inv_head a b c : a +:+ b = a +:+ c → b = c.
Proof. induction a; simpl; intros H; [done|]. injection H. auto. Qed.

Lemma stake_app a b : stake (String.length a) (a +:+ b) = a.
Proof. induction a; simpl; [by destruct b|]. by f_equal. Qed.

Lemma sdrop_app a b : sdrop (String.length a) (a +:+ b) = b.
Proof. induction a; simpl; done. Qed.

Lemma slice_to_app a b : slice_to (a +:+ b) (slen a) = a.
Proof. unfold slice_to, slen. rewrite Nat2Z.id. apply stake_app. Qed.

Lemma slice_from_app a b : slice_from (a +:+ b) (slen a) = b.
Proof. unfold slice_from, slen. rewrite Nat2Z.id. apply sdrop_app. Qed.

Lemma stake_sdrop n s : stake n s +:+ sdrop n s = s.
Proof. revert s; induction n as [|n IH]; intros [|c s]; simpl; [done..|]. by rewrite IH. Qed.

Lemma stake_length n s : (String.length (stake n s) <= n)%nat.
Proof. revert s; induction n as [|n IH]; intros [|c s]; simpl; [lia..|]. specialize (IH s). lia. Qed.

Lemma sskip_app p r : sskip p (p +:+ r) = r.
Proof. induction p; simpl; [by destruct r|done]. Qed.

Lemma HasPrefix_app p r : HasPrefix (p +:+ r) p = true.
Proof. induction p as [|c p IH]; simpl; [by destruct r|]. by rewrite Ascii.eqb_refl, IH. Qed.

Lemma HasPrefix_spec s p : HasPrefix s p = true → s = p +:+ sskip p s.
Proof.
  revert s; induction p as [|c p IH]; intros [|d s]; simpl; try done.
  intros [->%Ascii.eqb_eq H]%andb_true_iff. f_equal. by apply IH.
Qed.

(** *** [Cut] *)

Lemma cut_opt_Some s sep a b : cut_opt s sep = Some (a, b) → s = a +:+ sep +:+ b.
Proof.
  revert a b; induction s as [|c s IH]; intros a b; cbn [cut_opt].
  - destruct (HasPrefix "" sep) eqn:E; [|done]. intros [= <- <-]. by apply HasPrefix_spec.
  - destruct (HasPrefix (String c s) sep) eqn:E.
    + intros [= <- <-]. by apply HasPrefix_spec.
    + destruct (cut_opt s sep) as [[a' b']|]; [|done]. intros [= <- <-].
      simpl. f_equal. by apply IH.
Qed.

Lemma Cut_found s sep a b : Cut s sep = (a, b, true) → s = a +:+ sep +:+ b.
Proof.
  unfold Cut. destruct (cut_opt s sep) as [[a' b']|] eqn:E; [|done].
  intros [= <- <-]. by apply cut_opt_Some.
Qed.

Lemma Cut_not_found s sep a b : Cut s sep = (a, b, false) → a = s ∧ b = "".
Proof. unfold Cut. destruct (cut_opt s sep) as [[a' b']|]; [done|]. by intros [= <- <-]. Qed.

(** The bytes of [s] are all different from [c]. *)
Definition avoids (c : ascii) (s : string) : bool := sall (λ d, negb (Ascii.eqb d c)) s.

Lemma avoids_cons c d s : avoids c (String d s) = true ↔ d ≠ c ∧ avoids c s = true.
Proof.
  unfold avoids. simpl. rewrite andb_true_iff, negb_true_iff, Ascii.eqb_neq. done.
Qed.

Lemma avoids_app c a b : avoids c (a +:+ b) = true ↔ avoids c a = true ∧ avoids c b = true.
Proof. unfold avoids. by rewrite sall_app, andb_true_iff. Qed.

Lemma Cut_byte a c b :
  avoids c a = true → Cut (a +:+ String c b) (String c "") = (a, b, true).
Proof.
  unfold Cut. intros Ha.
  enough (cut_opt (a +:+ String c b) (String c "") = Some (a, b)) as -> by done.
  induction a as [|d a IH]; simpl.
  - by rewrite Ascii.eqb_refl.
  - apply avoids_cons in Ha as [Hd Ha]. rewrite IH by done.
    destruct (Ascii.eqb_spec c d) as [->|]; [done|]. done.
Qed.

Lemma IndexByte_app a c b :
  avoids c a = true → IndexByte (a +:+ String c b) c = slen a.
Proof.
  induction a as [|d a IH]; simpl; intros Ha.
  - by rewrite Ascii.eqb_refl.
  - apply avoids_cons in Ha as [Hd Ha]. rewrite IH by done.
    rewrite (proj2 (Ascii.eqb_neq d c)) by done.
    pose proof (slen_nonneg a). rewrite slen_cons.
    destruct (Z.ltb_spec (slen a) 0); lia.
Qed.

Lemma IndexByte_spec s c i :
  IndexByte s c = i → 0 <= i →
  ∃ a b, s = a +:+ String c b ∧ slen a = i ∧ avoids c a = true.
Proof.
  revert i; induction s as [|d s IH]; simpl; intros i Hi Hp; [lia|].
  destruct (Ascii.eqb_spec d c) as [->|Hd].
  - exists "", s. by split_and!.
  - destruct (Z.ltb_spec (IndexByte s c) 0); [lia|].
    destruct (IH _ eq_refl) as (a & b & -> & Ha & Hav); [lia|].
    exists (String d a), b.
    split_and!; [done|rewrite slen_cons; lia|by apply avoids_cons].
Qed.

Lemma LastIndexByte_bound s c : -1 <= LastIndexByte s c < slen s.
Proof.
  induction s as [|d s IH]; simpl; [unfold slen; simpl; lia|].
  rewrite slen_cons. pose proof (slen_nonneg s).
  destruct (Z.leb_spec 0 (LastIndexByte s c)); [lia|].
  destruct (Ascii.eqb d c); lia.
Qed.

Lemma LastIndexByte_spec s c :
  0 <= LastIndexByte s c →
  ∃ a b, s = a +:+ String c b ∧ slen a = LastIndexByte s c ∧ avoids c b = true.
Proof.
  induction s as [|d s IH]; simpl; [lia|].
  destruct (Z.leb_spec 0 (LastIndexByte s c)) as [Hl|Hl].
  - intros _. destruct IH as (a & b & Hs & Ha & Hb); [done|].
    exists (String d a), b. rewrite slen_cons, Ha. by rewrite Hs at 1.
  - destruct (Ascii.eqb_spec d c) as [->|Hd]; [|lia]. intros _.
    exists "", s. split_and!; [done..|].
    clear IH. induction s as [|e s IHs]; [done|]. simpl in Hl.
    destruct (Z.leb_spec 0 (LastIndexByte s c)); [lia|].
    destruct (Ascii.eqb_spec e c) as [->|]; [lia|].
    apply avoids_cons. split; [done|]. by apply IHs.
Qed.

Lemma LastIndexByte_app a c b :
  avoids c b = true → LastIndexByte (a +:+ String c b) c = slen a.
Proof.
  intros Hb. induction a as [|d a IH]; simpl.
  - assert (LastIndexByte b c = -1) as ->.
    { induction b as [|e b IHb]; [done|]. apply avoids_cons in Hb as [He Hb].
      simpl. rewrite IHb by done. by rewrite (proj2 (Ascii.eqb_neq e c)). }
    by rewrite Ascii.eqb_refl.
  - rewrite IH, slen_cons. pose proof (slen_nonneg a).
    destruct (Z.leb_spec 0 (slen a)); lia.
Qed.

(** *** [Split] and [Join] *)

Lemma Split_nonempty s c : Split s c ≠ [].
Proof. destruct s as [|d s]; simpl; [done|]. destruct (Ascii.eqb d c), (Split s c); done. Qed.

Lemma Join_cons_app x l sep : l ≠ [] → Join (x :: l) sep = x +:+ sep +:+ Join l sep.
Proof. by destruct l. Qed.

Lemma Join_Split s c : Join (Split s c) (String c "") = s.
Proof.
  induction s as [|d s IH]; simpl; [done|].
  destruct (Ascii.eqb_spec d c) as [->|].
  - rewrite Join_cons_app by apply Split_nonempty. simpl. by rewrite IH.
  - destruct (Split s c) as [|f r] eqn:E; [by destruct (Split_nonempty s c)|].
    destruct r; simpl in *; by rewrite IH.
Qed.

Lemma Split_avoids s c : avoids c s = true → Split s c = [s].
Proof.
  induction s as [|d s IH]; simpl; [done|]. intros [Hd Hs]%avoids_cons.
  rewrite (proj2 (Ascii.eqb_neq d c)) by done. by rewrite IH.
Qed.

Lemma Split_app a c b :
  avoids c a = true → Split (a +:+ String c b) c = a :: Split b c.
Proof.
  induction a as [|d a IH]; simpl; intros Ha; [by rewrite Ascii.eqb_refl|].
  apply avoids_cons in Ha as [Hd Ha].
  rewrite (proj2 (Ascii.eqb_neq d c)) by done. by rewrite IH.
Qed.

Lemma Split_Join l c :
  l ≠ [] → Forall (λ s, avoids c s = true) l → Split (Join l (String c "")) c = l.
Proof.
  intros Hl. induction 1 as [|s l Hs Hr IH]; [done|].
  destruct l as [|s' l]; [by apply Split_avoids|].
  rewrite Join_cons_app, sapp_cons, sapp_nil_l, Split_app by done. by rewrite IH.
Qed.

Lemma Split_fields_avoid s c : Forall (λ f, avoids c f = true) (Split s c).
Proof.
  induction s as [|d s IH]; simpl; [by repeat constructor|].
  destruct (Ascii.eqb_spec d c) as [->|Hd]; [by constructor|].
  inversion IH as [E|f r Hf Hr E]; [by constructor; [apply avoids_cons|]|].
  constructor; [by apply avoids_cons|done].
Qed.

(** *** Decimal numerals *)

Lemma is_digit_pretty_char x :
  (x < 10)%N →
  is_digit (pretty_N_char x) = true ∧ byte_of (pretty_N_char x) - 48 = Z.of_N x.
Proof.
  intros Hx.
  assert (x = 0 ∨ x = 1 ∨ x = 2 ∨ x = 3 ∨ x = 4 ∨ x = 5 ∨ x = 6 ∨ x = 7 ∨ x = 8 ∨ x = 9)%N
    as Hc by lia.
  destruct_or! Hc; subst x; done.
Qed.

Lemma digits_val_pretty_go x s acc :
  digits_val acc (pretty_N_go x s) =
  digits_val (match x with 0%N => acc | _ => acc * 10 ^ slen (pretty_N_go x "") + Z.of_N x end) s.
Proof.
  revert s acc. induction (N.lt_wf_0 x) as [x _ IH]; intros s acc.
  destruct (decide (x = 0)%N) as [->|Hx]; [by rewrite pretty_N_go_0|].
  assert (Hlen : ∀ y t, slen (pretty_N_go y t) = slen (pretty_N_go y "") + slen t).
  { clear. intros y. induction (N.lt_wf_0 y) as [y _ IH]. intros t.
    destruct (decide (y = 0)%N) as [->|Hy]; [by rewrite !pretty_N_go_0|].
    rewrite (pretty_N_go_step y t), (pretty_N_go_step y "") by lia.
    assert (Hd : (y `div` 10 < y)%N) by (apply N.div_lt; lia).
    generalize (pretty_N_char (y `mod` 10)); intros c.
    rewrite (IH _ Hd (String c t)), (IH _ Hd (String c "")), !slen_cons.
    change (slen "") with 0. lia. }
  assert (x `div` 10 < x)%N by (apply N.div_lt; lia).
  rewrite (pretty_N_go_step x s), (pretty_N_go_step x ""), IH by (done || lia). simpl.
  destruct (is_digit_pretty_char (x `mod` 10)) as [-> ->]; [by apply N.mod_lt|].
  f_equal.
  assert (Hd : Z.of_N x = Z.of_N (x `div` 10) * 10 + Z.of_N (x `mod` 10))
    by (rewrite (N.div_mod x 10) at 1 by done; lia).
  rewrite (Hlen _ (String _ "")). rewrite slen_cons. change (slen "") with 0.
  pose proof (slen_nonneg (pretty_N_go (x `div` 10) "")).
  rewrite Z.add_0_l, Z.pow_add_r by lia. rewrite Z.pow_1_r.
  destruct (x `div` 10)%N eqn:Ed.
  - rewrite pretty_N_go_0. change (slen "") with 0. destruct x; [done|]. lia.
  - destruct x; [done|]. lia.
Qed.

Lemma digits_val_dec z : 0 <= z → digits_val 0 (dec z) = Some z.
Proof.
  intros Hz. unfold dec. destruct z as [|p|p]; [done| |lia].
  unfold pretty, pretty_Z, pretty, pretty_positive, pretty, pretty_N.
  rewrite decide_False by done. by rewrite digits_val_pretty_go.
Qed.

Lemma digits_val_digits acc s n : digits_val acc s = Some n → sall is_digit s = true.
Proof.
  revert acc; induction s as [|c s IH]; simpl; intros acc; [done|].
  destruct (is_digit c); [|done]. apply IH.
Qed.

Lemma digits_val_nonneg acc s n : 0 <= acc → digits_val acc s = Some n → 0 <= n.
Proof.
  revert acc. induction s as [|c s IH]; intros acc Ha; simpl; [congruence|].
  destruct (is_digit c) eqn:Hc; [|done]. apply IH. unfold is_digit in Hc. reflect_bool. lia.
Qed.

Lemma dec_digits z : 0 <= z → sall is_digit (dec z) = true.
Proof. intros Hz. by eapply digits_val_digits, digits_val_dec. Qed.

Lemma dec_nonempty z : 0 <= z → is_empty (dec z) = false.
Proof.
  intros Hz. pose proof (digits_val_dec z Hz) as Hd.
  destruct (dec z) eqn:E; [|done]. injection Hd as <-. done.
Qed.

(** Printing a number with [%d] and reading it back is the identity. *)
Lemma ParseUint_dec z bits : 0 <= z < 2 ^ bits → ParseUint (dec z) bits = Some z.
Proof.
  intros [Hz Hb]. unfold ParseUint. rewrite dec_nonempty, digits_val_dec by lia.
  by apply Z.ltb_lt in Hb as ->.
Qed.

(** A string of digits avoids every byte that is not a digit. *)
Lemma Atoi_dec z : 0 <= z < 2 ^ 63 → Atoi (dec z) = Some z.
Proof.
  intros Hz. unfold Atoi, ParseInt. pose proof (digits_val_dec z ltac:(lia)) as Hv.
  pose proof (dec_digits z ltac:(lia)) as Hd. pose proof (dec_nonempty z ltac:(lia)) as He.
  destruct (dec z) as [|c s] eqn:E; [done|]. cbn [sall] in Hd. apply andb_true_iff in Hd as [Hc _].
  assert (c ≠ "+"%char ∧ c ≠ "-"%char) as [H1 H2] by (by split; intros ->).
  assert (Hm : (match String c s with String "+" s' => (false, s') | String "-" s' => (true, s')
    | _ => (false, String c s) end) = (false, String c s)).
  { destruct c as [[] [] [] [] [] [] [] []]; done. }
  rewrite Hm. cbn [is_empty]. rewrite Hv. by rewrite (proj2 (Z.ltb_lt _ _)) by lia.
Qed.

Lemma digits_avoid c s : is_digit c = false → sall is_digit s = true → avoids c s = true.
Proof.
  intros Hc. apply sall_impl. intros d Hd. apply negb_true_iff, Ascii.eqb_neq.
  by intros ->; rewrite Hc in Hd.
Qed.

Lemma dec_avoids c z : 0 <= z → is_digit c = false → avoids c (dec z) = true.
Proof. intros Hz Hc. by apply digits_avoid, dec_digits. Qed.

Lemma pretty_N_go_length n x s : (x < 10 ^ N.of_nat n)%N →
  slen (pretty_N_go x s) <= slen s + Z.of_nat n.
Proof.
  revert x s. induction n as [|n IH]; intros x s Hx.
  - replace x with 0%N by (simpl in Hx; lia). rewrite pretty_N_go_0. lia.
  - destruct (decide (x = 0)%N) as [->|H0]; [rewrite pretty_N_go_0; lia|].
    rewrite pretty_N_go_step by lia. etransitivity; [apply IH|rewrite slen_cons; lia].
    apply N.Div0.div_lt_upper_bound. rewrite Nat2N.inj_succ, N.pow_succ_r' in Hx. lia.
Qed.

Lemma dec_length z n : 0 <= z < 10 ^ Z.of_nat n → (0 < n)%nat → slen (dec z) <= Z.of_nat n.
Proof.
  intros [Hz Hlt] Hn. unfold dec. destruct z as [|p|p]; [change (slen _) with 1; lia| |lia].
  unfold pretty, pretty_Z, pretty, pretty_positive, pretty, pretty_N. rewrite decide_False by done.
  change (Z.of_nat n) with (slen "" + Z.of_nat n). apply pretty_N_go_length.
  apply N2Z.inj_lt. rewrite N2Z.inj_pow. by rewrite nat_N_Z.
Qed.

(** *** Case mapping *)

Lemma smap_length f s : String.length (smap f s) = String.length s.
Proof. induction s; simpl; congruence. Qed.

Lemma ToLower_idemp s : ToLower (ToLower s) = ToLower s.
Proof.
  unfold ToLower. induction s as [|c s IH]; simpl; [done|]. rewrite IH. f_equal.
  destruct c as [[] [] [] [] [] [] [] []]; vm_compute; reflexivity.
Qed.

Lemma ToLower_app a b : ToLower (a +:+ b) = ToLower a +:+ ToLower b.
Proof. unfold ToLower. induction a as [|c a IH]; simpl; [done|]. by rewrite IH. Qed.

Lemma lower_byte_avoids c d : is_upper c = false → is_lower c = false →
  lower_byte d = c → d = c.
Proof.
  intros Hu Hl <-. revert Hu Hl.
  destruct d as [[] [] [] [] [] [] [] []]; vm_compute; congruence.
Qed.

(** A byte property decided on all 256 bytes. *)
Lemma byte_cases (P : ascii → bool) :
  forallb (λ n, P (ascii_of_nat n)) (seq 0 256) = true → ∀ c, P c = true.
Proof.
  intros H c. rewrite forallb_forall in H. specialize (H (nat_of_ascii c)).
  rewrite ascii_nat_embedding in H. apply H, in_seq.
  pose proof (nat_ascii_bounded c). lia.
Qed.

Lemma is_space_lower c : is_space (lower_byte c) = is_space c.
Proof.
  apply Bool.eqb_true_iff. revert c. apply (byte_cases (λ c, Bool.eqb (is_space (lower_byte c)) (is_space c))).
  vm_compute. reflexivity.
Qed.

Lemma trim_left_smap p f s :
  (∀ c, p (f c) = p c) → trim_left p (smap f s) = smap f (trim_left p s).
Proof. intros Hp. induction s as [|c s IH]; simpl; [done|]. rewrite Hp. by destruct (p c). Qed.

Lemma trim_right_smap p f s :
  (∀ c, p (f c) = p c) → trim_right p (smap f s) = smap f (trim_right p s).
Proof.
  intros Hp. induction s as [|c s IH]; simpl; [done|]. rewrite IH, Hp.
  destruct (trim_right p s); simpl; [by destruct (p c)|done].
Qed.

Lemma trim_right_idemp p s : trim_right p (trim_right p s) = trim_right p s.
Proof.
  induction s as [|c s IH]; simpl; [done|].
  destruct (trim_right p s) as [|d r] eqn:E; [destruct (p c) eqn:Hc; simpl; by rewrite ?Hc|].
  simpl in *. by rewrite IH.
Qed.

Lemma trim_left_length p s : (String.length (trim_left p s) <= String.length s)%nat.
Proof. induction s as [|c s IH]; simpl; [done|]. destruct (p c); simpl; lia. Qed.

Lemma trim_left_head p s :
  trim_left p s = "" ∨ ∃ c r, trim_left p s = String c r ∧ p c = false.
Proof.
  induction s as [|c s IH]; simpl; [by left|]. destruct (p c) eqn:Hc; [done|]. right; eauto.
Qed.

Lemma trim_idemp p s :
  trim_right p (trim_left p (trim_right p (trim_left p s))) = trim_right p (trim_left p s).
Proof.
  destruct (trim_left_head p s) as [->|(c & r & -> & Hc)]; [done|].
  assert (H : trim_left p (trim_right p (String c r)) = trim_right p (String c r)).
  { simpl. destruct (trim_right p r); simpl; rewrite ?Hc; simpl; by rewrite ?Hc. }
  by rewrite H, trim_right_idemp.
Qed.

Lemma TrimSpace_idemp s : TrimSpace (TrimSpace s) = TrimSpace s.
Proof. apply trim_idemp. Qed.

Lemma TrimSpace_ToLower s : TrimSpace (ToLower s) = ToLower (TrimSpace s).
Proof.
  unfold TrimSpace, ToLower.
  by rewrite trim_left_smap, trim_right_smap by apply is_space_lower.
Qed.

Lemma LastIndexByte_ToLower s c :
  is_upper c = false → is_lower c = false → LastIndexByte (ToLower s) c = LastIndexByte s c.
Proof.
  intros Hu Hl. unfold ToLower. induction s as [|d s IH]; simpl; [done|]. rewrite IH.
  destruct (Ascii.eqb_spec (lower_byte d) c) as [He|He].
  - apply lower_byte_avoids in He as ->; [|done..]. by rewrite Ascii.eqb_refl.
  - destruct (Ascii.eqb_spec d c) as [->|]; [|done].
    exfalso. apply He. unfold lower_byte. by rewrite Hu.
Qed.

Lemma smap_stake f n s : smap f (stake n s) = stake n (smap f s).
Proof. revert s; induction n as [|n IH]; intros [|c s]; simpl; [done..|]. by rewrite IH. Qed.

Lemma smap_sdrop f n s : smap f (sdrop n s) = sdrop n (smap f s).
Proof. revert s; induction n as [|n IH]; intros [|c s]; simpl; [done..|]. by rewrite IH. Qed.

Lemma slen_ToLower s : slen (ToLower s) = slen s.
Proof. unfold slen, ToLower. by rewrite smap_length. Qed.

Lemma EqualFold_refl s : EqualFold s s = true.
Proof. apply String.eqb_refl. Qed.

#[export] Hint Rewrite sapp_nil_l sapp_nil_r sapp_assoc sapp_cons slen_app slen_cons : gostr.
#[export] Hint Resolve slen_nonneg : kavira.

Lemma dec_avoids_any c z : is_digit c = false → c ≠ "-"%char → avoids c (dec z) = true.
Proof.
  intros Hc Hm. destruct (Z.le_gt_cases 0 z); [by apply dec_avoids|].
  destruct z as [| |p]; try lia. change (dec (Zneg p)) with ("-" +:+ dec (Zpos p)).
  apply avoids_app. split; [|by apply dec_avoids; [lia|]].
  apply avoids_cons. split; [congruence|done].
Qed.

Lemma hex_go_avoids c n z acc : (∀ v, 0 <= v < 16 → hex_digit v ≠ c) → avoids c acc = true →
  avoids c (hex_go n z acc) = true.
Proof.
  intros Hc. revert z acc. induction n as [|n IH]; intros z acc Ha; simpl; [done|].
  assert (0 <= z mod 16 < 16) by (apply Z.mod_pos_bound; lia).
  repeat case_goal; try apply IH; apply avoids_cons; auto.
Qed.

(** *** Suffixes *)

Lemma sdrop_length n s : String.length (sdrop n s) = (String.length s - n)%nat.
Proof. revert s; induction n as [|n IH]; intros [|c s]; simpl; try lia. apply IH. Qed.

Lemma HasSuffix_app a p : HasSuffix (a +:+ p) p = true.
Proof.
  unfold HasSuffix. rewrite slength_app. apply andb_true_iff. split; [apply Nat.leb_le; lia|].
  replace (_ + _ - _)%nat with (String.length a) by lia. rewrite sdrop_app. apply String.eqb_refl.
Qed.

Lemma HasSuffix_spec s p :
  HasSuffix s p = true → s = stake (String.length s - String.length p) s +:+ p.
Proof.
  intros [_ H%String.eqb_eq]%andb_true_iff.
  rewrite <- (stake_sdrop (String.length s - String.length p) s) at 1. by rewrite H.
Qed.

Lemma sapp_inv_tail a b c : a +:+ c = b +:+ c → a = b.
Proof.
  intros H. assert (String.length a = String.length b).
  { apply (f_equal String.length) in H. rewrite !slength_app in H. lia. }
  rewrite <- (stake_app a c), <- (stake_app b c). congruence.
Qed.

(** The last byte decides a suffix that ends differently. *)
Lemma sapp_last_neq a b c d x y : c ≠ d →
  a +:+ (x +:+ String c "") ≠ b +:+ (y +:+ String d "").
Proof.
  intros Hcd H. rewrite <- !sapp_assoc in H. revert H.
  generalize (a +:+ x), (b +:+ y). clear -Hcd. intros a b H.
  assert (Hl : String.length a = String.length b).
  { apply (f_equal String.length) in H. rewrite !slength_app in H. simpl in H. lia. }
  pose proof (sdrop_app a (String c "")) as Ha. pose proof (sdrop_app b (String d "")) as Hb.
  rewrite H, Hl in Ha. congruence.
Qed.

Lemma trim_right_app_keep p a b : b ≠ "" → trim_right p b = b → trim_right p (a +:+ b) = a +:+ b.
Proof.
  intros Hb Ht. induction a as [|c a IH]; [done|]. rewrite sapp_cons. cbn [trim_right]. rewrite IH.
  by destruct (a +:+ b) eqn:E; [destruct a|].
Qed.

Lemma trim_right_keep p s : sall (λ c, negb (p c)) s = true → trim_right p s = s.
Proof.
  induction s as [|c s IH]; [done|]. cbn [sall trim_right]. intros [Hc%negb_true_iff Hs]%andb_true_iff.
  rewrite IH by done. destruct s; [by rewrite Hc|done].
Qed.

Lemma TrimSuffix_app a p : TrimSuffix (a +:+ p) p = a.
Proof. unfold TrimSuffix. rewrite HasSuffix_app. rewrite slength_app, Nat.add_sub. apply stake_app. Qed.

Lemma HasSuffix_last a x c p d : c ≠ d → HasSuffix (a +:+ (x +:+ String c "")) (p +:+ String d "") = false.
Proof.
  intros Hcd. destruct (HasSuffix _ _) eqn:E; [|done]. apply HasSuffix_spec in E. by apply sapp_last_neq in E.
Qed.

Lemma Join_nil_cons x (xs : list string) : Join (x :: xs) "" = x +:+ Join xs "".
Proof. destruct xs; simpl; by rewrite ?sapp_nil_r. Qed.

Lemma Join_empty_app l1 l2 : Join (l1 ++ l2) "" = Join l1 "" +:+ Join l2 "".
Proof.
  induction l1 as [|x l1 IH]; [done|]. destruct l1 as [|y l1].
  - cbn [app Join]. destruct l2; [by rewrite sapp_nil_r|done].
  - change ((x :: y :: l1) ++ l2) with (x :: (y :: l1) ++ l2). cbn [app] in IH |- *. cbn [Join] in IH |- *.
    rewrite IH, !sapp_assoc. done.
Qed.

Lemma Join_map_cons {X} (f : X → string) x l : Join (f <$> x :: l) "" = f x +:+ Join (f <$> l) "".
Proof. rewrite fmap_cons. destruct l; [by cbn [fmap list_fmap Join]; rewrite sapp_nil_r|done]. Qed.
