(* ===== verification/GoUtf8.v ===== *)
(** * Runes

    The decoding of a string into runes, as [range] over a string and
    [unicode/utf8] do it, and the functions of [strings] that work on
    runes.  The tables of package [unicode] are a class of their own: the
    code relies on what they say below 128 and on the lower case of a
    rune above being above or a letter. *)

From S2P Require Import Prelude GoStrings.

(** ** Decoding *)

Definition between (a b : Z) (c : ascii) : bool := (a <=? byte_of c) && (byte_of c <=? b).
Definition cont (c : ascii) : bool := between 128 191 c.

(** The bytes of the first rune of a string, as [utf8.DecodeRune] counts
    them: an ill-formed sequence is one byte. *)
Definition rune_len (s : string) : nat :=
  match s with
  | String a (String b s1) =>
      if between 194 223 a && cont b then 2%nat else
      match s1 with
      | String c s2 =>
          let second :=
            (Ascii.eqb a (byte 224) && between 160 191 b)
            || ((between 225 236 a || between 238 239 a) && cont b)
            || (Ascii.eqb a (byte 237) && between 128 159 b) in
          if second && cont c then 3%nat else
          match s2 with
          | String d _ =>
              let second :=
                (Ascii.eqb a (byte 240) && between 144 191 b)
                || (between 241 243 a && cont b)
                || (Ascii.eqb a (byte 244) && between 128 143 b) in
              if second && cont c && cont d then 4%nat else 1%nat
          | "" => 1%nat
          end
      | "" => 1%nat
      end
  | _ => 1%nat
  end.

Definition RuneError : Z := 65533.

(** The low bits of a byte. *)
Definition bits (n : Z) (c : ascii) : Z := Z.land (byte_of c) (2 ^ n - 1).

(** The first rune. *)
Definition rune_value (s : string) : Z :=
  match rune_len s, s with
  | 2%nat, String a (String b _) => Z.shiftl (bits 5 a) 6 + bits 6 b
  | 3%nat, String a (String b (String c _)) => Z.shiftl (bits 4 a) 12 + Z.shiftl (bits 6 b) 6 + bits 6 c
  | 4%nat, String a (String b (String c (String d _))) =>
      Z.shiftl (bits 3 a) 18 + Z.shiftl (bits 6 b) 12 + Z.shiftl (bits 6 c) 6 + bits 6 d
  | _, String a _ => if byte_of a <? 128 then byte_of a else RuneError
  | _, "" => RuneError
  end.

(** The runes with the bytes they are written with; [skip] bytes belong
    to the rune before. *)
Fixpoint runes_go (skip : nat) (s : string) : list (Z * string) :=
  match s, skip with
  | "", _ => []
  | String _ s', S k => runes_go k s'
  | String _ s', O => (rune_value s, stake (rune_len s) s) :: runes_go (rune_len s - 1) s'
  end.
Definition runes : string → list (Z * string) := runes_go 0.

Definition encode_rune (r : Z) : string :=
  let low n := byte (128 + Z.land (Z.shiftr r n) 63) in
  if (0 <=? r) && (r <? 128) then chr r
  else if (128 <=? r) && (r <? 2048) then String (byte (192 + Z.shiftr r 6)) (String (low 0) "")
  else if (2048 <=? r) && (r <? 65536) && negb ((55296 <=? r) && (r <=? 57343)) then
    String (byte (224 + Z.shiftr r 12)) (String (low 6) (String (low 0) ""))
  else if (65536 <=? r) && (r <=? 1114111) then
    String (byte (240 + Z.shiftr r 18)) (String (low 12) (String (low 6) (String (low 0) "")))
  else String (byte 239) (String (byte 191) (String (byte 189) "")).

Example runes_sample :
  fst <$> runes (String "a" (encode_rune 233 +:+ encode_rune 8364 +:+ chr 255 +:+ encode_rune 128512))
  = [97; 233; 8364; RuneError; 128512].
Proof. vm_compute. reflexivity. Qed.

(** ** Package [unicode] *)

Class Unicode := {
  IsLetter : Z → bool;
  IsDigit : Z → bool;
  rune_lower : Z → Z;
}.

Definition ascii_letter (r : Z) : bool := ((65 <=? r) && (r <=? 90)) || ((97 <=? r) && (r <=? 122)).

Class UnicodeOk `{Unicode} := {
  IsLetter_ascii r : 0 <= r < 128 → IsLetter r = ascii_letter r;
  IsDigit_ascii r : 0 <= r < 128 → IsDigit r = (48 <=? r) && (r <=? 57);
  lower_ascii r : 0 <= r < 128 → rune_lower r = if (65 <=? r) && (r <=? 90) then r + 32 else r;
  lower_high r : 128 <= r → 128 <= rune_lower r ∨ ascii_letter (rune_lower r) = true;
}.

(** [unicode.IsSpace] *)
Definition rune_IsSpace (r : Z) : bool :=
  ((9 <=? r) && (r <=? 13)) || (r =? 32) || (r =? 133) || (r =? 160) || (r =? 5760)
  || ((8192 <=? r) && (r <=? 8202)) || (r =? 8232) || (r =? 8233) || (r =? 8239) || (r =? 8287) || (r =? 12288).

(** ** Functions of [strings] on runes *)

Definition bytes_of (rs : list (Z * string)) : string := Join (snd <$> rs) "".

Definition rune_ToLower `{Unicode} (s : string) : string :=
  Join ((λ r, encode_rune (rune_lower r.1)) <$> runes s) "".

Fixpoint drop_runes (p : Z → bool) (rs : list (Z * string)) : list (Z * string) :=
  match rs with
  | r :: rest => if p r.1 then drop_runes p rest else rs
  | [] => []
  end.

Definition rune_TrimSpace (s : string) : string :=
  bytes_of (reverse (drop_runes rune_IsSpace (reverse (drop_runes rune_IsSpace (runes s))))).

Fixpoint rune_fields_go (p : Z → bool) (rs : list (Z * string)) (cur : string) : list string :=
  match rs with
  | [] => if is_empty cur then [] else [cur]
  | (r, b) :: rs =>
      if p r then (if is_empty cur then [] else [cur]) ++ rune_fields_go p rs ""
      else rune_fields_go p rs (cur +:+ b)
  end.
Definition rune_FieldsFunc (p : Z → bool) (s : string) : list string := rune_fields_go p (runes s) "".

(** ** Bytes and runes *)

Definition high (c : ascii) : bool := 128 <=? byte_of c.

Lemma bits_nonneg n c : 0 <= n → 0 <= bits n c.
Proof. intros Hn. unfold bits. apply Z.land_nonneg. left. apply byte_of_range. Qed.

Lemma lead_bits (a : ascii) :
  (between 194 223 a = true → 2 <= bits 5 a) ∧
  (between 225 239 a = true → 1 <= bits 4 a) ∧
  (between 241 244 a = true → 1 <= bits 3 a) ∧
  (between 160 191 a = true → 32 <= bits 6 a) ∧
  (between 144 191 a = true → 16 <= bits 6 a).
Proof.
  assert (H : (implb (between 194 223 a) (2 <=? bits 5 a) && implb (between 225 239 a) (1 <=? bits 4 a) &&
    implb (between 241 244 a) (1 <=? bits 3 a) && implb (between 160 191 a) (32 <=? bits 6 a) &&
    implb (between 144 191 a) (16 <=? bits 6 a)) = true)
    by (revert a; apply byte_cases; vm_compute; reflexivity).
  rewrite !andb_true_iff in H. destruct H as ((((H1&H2)&H3)&H4)&H5).
  split_and!; intros E; rewrite E in *; simpl in *; reflect_bool; done.
Qed.

(** The forms of the first rune. *)
Inductive rune_form (s : string) : nat → Prop :=
  | form1 : rune_form s 1
  | form2 a b t : s = String a (String b t) → between 194 223 a = true → cont b = true → rune_form s 2
  | form3 a b c t : s = String a (String b (String c t)) → cont b = true → cont c = true →
      (a = byte 224 ∧ between 160 191 b = true) ∨ between 225 239 a = true → rune_form s 3
  | form4 a b c d t : s = String a (String b (String c (String d t))) → cont b = true → cont c = true → cont d = true →
      (a = byte 240 ∧ between 144 191 b = true) ∨ between 241 244 a = true → rune_form s 4.

Lemma between_weaken lo hi lo' hi' c : lo' <= lo → hi <= hi' → between lo hi c = true → between lo' hi' c = true.
Proof. unfold between. rewrite !andb_true_iff, !Z.leb_le. lia. Qed.

Ltac weaken := eapply between_weaken; [| |eassumption]; lia.

Lemma rune_len_form s : rune_form s (rune_len s).
Proof.
  destruct s as [|a [|b s1]]; [constructor..|]. cbn [rune_len].
  destruct (between 194 223 a && cont b) eqn:E2; [apply andb_true_iff in E2 as []; by eapply form2|].
  destruct s1 as [|c s2]; [constructor|].
  destruct ((_ || _ || _) && cont c) eqn:E3.
  - apply andb_true_iff in E3 as [E3 Hc]. rewrite !orb_true_iff, !andb_true_iff, !orb_true_iff in E3.
    destruct E3 as [[[E Hb]|[E Hb]]|[E Hb]].
    + apply Ascii.eqb_eq in E as ->. eapply form3; [done|unfold cont; weaken|done|by left].
    + eapply form3; [done|done|done|right]. destruct E; weaken.
    + apply Ascii.eqb_eq in E as ->. eapply form3; [done|unfold cont; weaken|done|by right].
  - destruct s2 as [|d s3]; [constructor|]. clear E3.
    destruct ((_ || _ || _) && cont c && cont d) eqn:E4; [|constructor].
    rewrite !andb_true_iff, !orb_true_iff, !andb_true_iff in E4.
    destruct E4 as [[[[[E Hb]|[E Hb]]|[E Hb]] Hc] Hd].
    + apply Ascii.eqb_eq in E as ->. eapply form4; [done|unfold cont; weaken|done|done|by left].
    + eapply form4; [done|done|done|done|right]. weaken.
    + apply Ascii.eqb_eq in E as ->. eapply form4; [done|unfold cont; weaken|done|done|by right].
Qed.

Lemma between_high lo hi c : 128 <= lo → between lo hi c = true → high c = true.
Proof. unfold between, high. rewrite andb_true_iff, !Z.leb_le. lia. Qed.

(** The first rune is an ASCII byte, or it is above and so are its bytes. *)
Lemma rune_first x s :
  (byte_of x < 128 ∧ rune_len (String x s) = 1%nat ∧ rune_value (String x s) = byte_of x) ∨
  (128 <= rune_value (String x s) ∧ sall high (stake (rune_len (String x s)) (String x s)) = true).
Proof.
  unfold rune_value. destruct (rune_len_form (String x s)) as [|a b t E Ha Hb|a b c t E Hb Hc Hab|a b c d t E Hb Hc Hd Hab].
  - destruct (Z.ltb_spec (byte_of x) 128); [by left|right]. split; [done|].
    cbn [stake sall]. unfold high. destruct s; cbn; rewrite (proj2 (Z.leb_le _ _)) by done; done.
  - injection E as -> ->. right. cbn [stake sall].
    rewrite (between_high 194 223 a ltac:(done) Ha), (between_high 128 191 b ltac:(done) Hb). split; [|by destruct t].
    destruct (lead_bits a) as (Hl&_). specialize (Hl Ha). pose proof (bits_nonneg 6 b). rewrite Z.shiftl_mul_pow2 by done. lia.
  - injection E as -> ->. right. cbn [stake sall].
    assert (Hh : high a = true) by (destruct Hab as [[-> _]|Hab]; [done|by apply (between_high 225 239)]).
    rewrite Hh, (between_high 128 191 b ltac:(done) Hb), (between_high 128 191 c ltac:(done) Hc).
    split; [|by destruct t]. destruct (lead_bits a) as (_&Hl&_), (lead_bits b) as (_&_&_&Hm&_).
    pose proof (bits_nonneg 6 b). pose proof (bits_nonneg 6 c). pose proof (bits_nonneg 4 a).
    rewrite !Z.shiftl_mul_pow2 by done. destruct Hab as [[-> Hab]|Hab]; [specialize (Hm Hab)|specialize (Hl Hab)]; lia.
  - injection E as -> ->. right. cbn [stake sall].
    assert (Hh : high a = true) by (destruct Hab as [[-> _]|Hab]; [done|by apply (between_high 241 244)]).
    rewrite Hh, (between_high 128 191 b ltac:(done) Hb), (between_high 128 191 c ltac:(done) Hc),
      (between_high 128 191 d ltac:(done) Hd).
    split; [|by destruct t]. destruct (lead_bits a) as (_&_&Hl&_), (lead_bits b) as (_&_&_&_&Hm).
    pose proof (bits_nonneg 6 b). pose proof (bits_nonneg 6 c). pose proof (bits_nonneg 6 d). pose proof (bits_nonneg 3 a).
    rewrite !Z.shiftl_mul_pow2 by done. destruct Hab as [[-> Hab]|Hab]; [specialize (Hm Hab)|specialize (Hl Hab)]; lia.
Qed.

(** Every rune of a string is an ASCII byte of it or is above. *)
Lemma runes_spec s r b : (r, b) ∈ runes s →
  (0 <= r < 128 ∧ b = chr r ∧ ∀ q, sall q s = true → q (byte r) = true) ∨ (128 <= r ∧ sall high b = true).
Proof.
  unfold runes. generalize 0%nat. induction s as [|c s IH]; intros [|k]; cbn [runes_go]; [by intros ?%elem_of_nil..| |].
  - rewrite elem_of_cons. intros [[-> ->]%pair_eq|Hin].
    + destruct (rune_first c s) as [(Hc&Hl&Hv)|[Hv Hh]]; [|by right]. left.
      rewrite Hv, Hl. pose proof (byte_of_range c). unfold chr. rewrite byte_byte_of. split_and!; [lia|lia|by destruct s|].
      intros q Hq. by apply andb_true_iff in Hq as [].
    + destruct (IH _ Hin) as [(Hr&Hb&Hq)|Hr]; [left|by right]. split_and!; [lia|lia|done|].
      intros q Hs. apply Hq. by apply andb_true_iff in Hs as [].
  - intros Hin. destruct (IH _ Hin) as [(Hr&Hb&Hq)|Hr]; [left|by right]. split_and!; [lia|lia|done|].
    intros q Hs. apply Hq. by apply andb_true_iff in Hs as [].
Qed.

Lemma byte_of_byte z : 0 <= z < 256 → byte_of (byte z) = z.
Proof. intros Hz. unfold byte_of, byte. rewrite N_ascii_embedding by lia. lia. Qed.

Lemma encode_high r : 128 <= r → sall high (encode_rune r) = true.
Proof.
  intros Hr. unfold encode_rune.
  assert (Hlow : ∀ n, high (byte (128 + Z.land (Z.shiftr r n) 63)) = true).
  { intros n. pose proof (Z.land_ones (Z.shiftr r n) 6 ltac:(done)) as E. change (Z.ones 6) with 63 in E.
    pose proof (Z.mod_pos_bound (Z.shiftr r n) (2 ^ 6) ltac:(done)).
    unfold high. rewrite byte_of_byte by lia. apply Z.leb_le. lia. }
  assert (Hup : ∀ n k m, 0 <= n → 192 <= k → r < m → k + m / 2 ^ n < 256 → high (byte (k + Z.shiftr r n)) = true).
  { intros n k m Hn Hk Hm Hb. rewrite Z.shiftr_div_pow2 by done.
    pose proof (Z.div_pos r (2 ^ n) ltac:(lia) ltac:(lia)). pose proof (Z.div_le_mono r m (2 ^ n) ltac:(lia) ltac:(lia)).
    unfold high. rewrite byte_of_byte by lia. apply Z.leb_le. lia. }
  repeat case_goal; reflect_bool; try lia; cbn [sall]; rewrite ?Hlow.
  - by rewrite (Hup 6 192 2048).
  - by rewrite (Hup 12 224 65536).
  - by rewrite (Hup 18 240 1114112) by (done || lia).
  - done.
Qed.

Lemma sall_Join q l : Forall (λ s, sall q s = true) l → sall q (Join l "") = true.
Proof.
  induction 1 as [|x l Hx Hl IH]; [done|]. destruct l as [|y l]; [done|].
  rewrite Join_cons_app, sall_app, Hx by done. exact IH.
Qed.

Lemma rune_ToLower_all `{UnicodeOk} q s :
  (∀ c, high c = true → q c = true) →
  (∀ r, ascii_letter r = true → q (byte r) = true) →
  (∀ c, q c = true → byte_of c < 128 → q (lower_byte c) = true) →
  sall q s = true → sall q (rune_ToLower s) = true.
Proof.
  intros Hhigh Hletter Hlower Hs. unfold rune_ToLower. apply sall_Join, Forall_forall. intros x (r&->&Hin)%list_elem_of_fmap.
  destruct r as [r b]. cbn [fst]. destruct (runes_spec _ _ _ Hin) as [(Hr&_&Hq)|[Hr _]].
  - specialize (Hq q Hs). rewrite lower_ascii by done. specialize (Hlower _ Hq). rewrite byte_of_byte in Hlower by lia.
    specialize (Hlower ltac:(lia)). unfold lower_byte, is_upper in Hlower. rewrite byte_of_byte in Hlower by lia.
    case_goal; reflect_bool.
    + unfold encode_rune. rewrite (proj2 (Z.leb_le _ _)), (proj2 (Z.ltb_lt _ _)) by lia. cbn. by rewrite Hlower.
    + unfold encode_rune. rewrite (proj2 (Z.leb_le _ _)), (proj2 (Z.ltb_lt _ _)) by lia. cbn. by rewrite Hq.
  - destruct (lower_high r Hr) as [Hl|Hl].
    + eapply sall_impl; [exact Hhigh|by apply encode_high].
    + specialize (Hletter _ Hl). unfold ascii_letter in Hl. rewrite orb_true_iff, !andb_true_iff, !Z.leb_le in Hl.
      unfold encode_rune. rewrite (proj2 (Z.leb_le _ _)), (proj2 (Z.ltb_lt _ _)) by lia. cbn. by rewrite Hletter.
Qed.

(** The bytes of a field are those of runes that are not separators. *)
Lemma rune_fields_all p q s : (∀ c, high c = true → q c = true) →
  (∀ r, 0 <= r < 128 → p r = false → q (byte r) = true) →
  Forall (λ f, sall q f = true) (rune_FieldsFunc p s).
Proof.
  intros Hhigh Hlow. unfold rune_FieldsFunc.
  assert (Hr : ∀ r b, (r, b) ∈ runes s → p r = false → sall q b = true).
  { intros r b Hin Hp. destruct (runes_spec _ _ _ Hin) as [(Hr&->&_)|[_ Hb]].
    - unfold chr. cbn. by rewrite (Hlow r Hr Hp).
    - eapply sall_impl; [exact Hhigh|done]. }
  assert (Hcur : sall q "" = true) by done. revert Hcur. generalize "".
  induction (runes s) as [|[r b] rs IH]; intros cur Hcur; cbn [rune_fields_go].
  - destruct (is_empty cur); by repeat constructor.
  - assert (IH' := IH (λ r b Hin, Hr r b (list_elem_of_further _ _ _ Hin))). destruct (p r) eqn:Ep.
    + apply Forall_app. split; [destruct (is_empty cur); by repeat constructor|by apply IH'].
    + apply IH'. rewrite sall_app, Hcur. apply (Hr r b); [left|done].
Qed.
