(* ===== verification/GoNum.v ===== *)
(** * Go numbers and times

    [float64] is IEEE 754 binary64 with round to nearest even, given by
    the executable reference semantics of [SpecFloat] at precision 53 and
    maximal exponent 1024; no real-number idealisation is involved.  The
    operations are evaluated one by one, as on amd64 (the language allows
    an arm64 compiler to fuse a multiplication with an addition).

    Instants are nanoseconds since the zero [time.Time]; a [Duration] is a
    64-bit count of nanoseconds. *)

From S2P Require Import Prelude GoStrings.
From Stdlib Require Export SpecFloat.

(** ** Binary64 *)

Abbreviation f64 := spec_float.

Definition f64_of_Z (z : Z) : f64 := binary_normalize 53 1024 z 0 false.
Definition fadd : f64 → f64 → f64 := SFadd 53 1024.
Definition fsub : f64 → f64 → f64 := SFsub 53 1024.
Definition fmul : f64 → f64 → f64 := SFmul 53 1024.
Definition fdiv : f64 → f64 → f64 := SFdiv 53 1024.
Definition flt : f64 → f64 → bool := SFltb.
Definition fle : f64 → f64 → bool := SFleb.
Definition fge (x y : f64) : bool := fle y x.
Definition fgt (x y : f64) : bool := flt y x.

#[global] Arguments f64_of_Z : simpl never.
#[global] Arguments fadd : simpl never.
#[global] Arguments fsub : simpl never.
#[global] Arguments fmul : simpl never.
#[global] Arguments fdiv : simpl never.

(** The positive finite numbers. *)
Definition fpos (x : f64) : bool :=
  match x with S754_finite false _ _ => true | _ => false end.

#[global] Instance f64_eq_dec : EqDecision f64.
Proof. solve_decision. Defined.

Lemma flt_irrefl x : flt x x = false.
Proof.
  destruct x as [[]|[]| |[] m e]; try done; unfold flt, SFltb; simpl;
    by rewrite Z.compare_refl, Pos.compare_cont_refl.
Qed.

(** On positive numbers the comparison is lexicographic on exponent and
    mantissa, hence total. *)
Lemma fpos_cases x y :
  fpos x = true → fpos y = true →
  (x = y ∧ fle x y = true ∧ flt x y = false) ∨ (fle x y = true ∧ flt x y = true ∧ flt y x = false)
  ∨ (fle x y = false ∧ flt x y = false ∧ flt y x = true).
Proof.
  destruct x as [|s| |[] m e], y as [|s'| |[] m' e']; try done. intros _ _.
  unfold fle, flt, SFleb, SFltb; simpl.
  rewrite (Z.compare_antisym e e').
  destruct (Z.compare_spec e e') as [->|He|He]; simpl; [|naive_solver..].
  change (Pos.compare_cont Eq m m') with (m ?= m')%positive.
  change (Pos.compare_cont Eq m' m) with (m' ?= m)%positive.
  rewrite (Pos.compare_antisym m m').
  destruct (Pos.compare_spec m m') as [->|Hm|Hm]; simpl; naive_solver.
Qed.

Lemma fle_trans_pos x y z :
  fpos x = true → fpos y = true → fpos z = true →
  fle x y = true → fle y z = true → fle x z = true.
Proof.
  destruct x as [|s| |[] m e], y as [|s'| |[] m' e'], z as [|s''| |[] m'' e'']; try done.
  intros _ _ _. unfold fle, SFleb; simpl.
  change (Pos.compare_cont Eq m m') with (m ?= m')%positive.
  change (Pos.compare_cont Eq m' m'') with (m' ?= m'')%positive.
  change (Pos.compare_cont Eq m m'') with (m ?= m'')%positive.
  destruct (Z.compare_spec e e') as [->|He|He], (Z.compare_spec e' e'') as [->|He'|He'];
    try done; intros H1 H2.
  - destruct (Pos.compare_spec m m') as [->|Hm|Hm]; try done.
    destruct (Pos.compare_spec m' m'') as [->|Hm'|Hm']; try done;
      by rewrite (proj2 (Pos.compare_lt_iff m m'')) by lia.
  - by rewrite (proj2 (Z.compare_lt_iff e e'')).
  - by rewrite (proj2 (Z.compare_lt_iff e e'')) by lia.
Qed.

Lemma fle_not_flt_pos x y :
  fpos x = true → fpos y = true → fle x y = true → flt y x = false.
Proof.
  intros Hx Hy Hle.
  destruct (fpos_cases x y Hx Hy) as [(->&_&?)|[(_&_&?)|(?&_)]]; congruence.
Qed.

(** A positive number is only equivalent to itself. *)
Lemma fle_antisym_pos x y : fpos x = true → fle x y = true → flt x y = false → y = x.
Proof.
  intros Hx Hle Hlt. destruct (fpos y) eqn:Hy.
  - destruct (fpos_cases x y Hx Hy) as [(->&_)|[(_&?&_)|(?&_)]]; congruence.
  - destruct x as [|s| |[] m e], y as [[]|[]| |[] m' e']; done.
Qed.

(** ** Numbers and [NaN] *)

Definition is_num (x : f64) : bool := match x with S754_nan => false | _ => true end.
Definition is_finite (x : f64) : bool := match x with S754_zero _ | S754_finite _ _ _ => true | _ => false end.

Lemma shr_1_nonneg r : 0 <= shr_m r → 0 <= shr_m (shr_1 r).
Proof. destruct r as [[|[p|p|]|p] b c]; simpl; lia. Qed.

Lemma iter_shr_nonneg n r : 0 <= shr_m r → 0 <= shr_m (iter_pos shr_1 n r).
Proof. revert r. induction n as [n IH|n IH|]; intros r Hr; simpl; [apply IH, IH, shr_1_nonneg, Hr|apply IH, IH, Hr|by apply shr_1_nonneg]. Qed.

Lemma shr_fexp_nonneg m e l : 0 <= m → 0 <= shr_m (shr_fexp 53 1024 m e l).1.
Proof.
  intros Hm. unfold shr_fexp, shr. destruct (_ - _); simpl; [| |]; try apply iter_shr_nonneg;
    destruct l as [|[]]; simpl; done.
Qed.

Lemma round_aux_num s m e l : 0 <= m → is_num (binary_round_aux 53 1024 s m e l) = true.
Proof.
  intros Hm. unfold binary_round_aux. pose proof (shr_fexp_nonneg m e l Hm) as H1.
  destruct (shr_fexp 53 1024 m e l) as [r1 e1]. cbn [fst] in H1.
  assert (H2 : 0 <= round_nearest_even (shr_m r1) (loc_of_shr_record r1)).
  { unfold round_nearest_even. destruct (loc_of_shr_record r1) as [|[]]; [done| |done|lia]. destruct (Z.even _); lia. }
  pose proof (shr_fexp_nonneg _ e1 loc_Exact H2) as H3.
  destruct (shr_fexp 53 1024 _ e1 loc_Exact) as [r2 e2]. cbn [fst] in H3.
  destruct (shr_m r2) as [|p|p]; [done| |lia]. by destruct (_ <=? _).
Qed.

Lemma normalize_num m e s : is_num (binary_normalize 53 1024 m e s) = true.
Proof.
  destruct m; [done|..]; unfold binary_normalize, binary_round; destruct (shl_align _ _ _); by apply round_aux_num.
Qed.

Lemma fadd_num x y : is_num x = true → is_finite y = true → is_num (fadd x y) = true.
Proof.
  intros Hx Hy. unfold fadd. destruct x as [sx|sx| |sx mx ex], y as [sy|sy| |sy my ey]; try done; simpl;
    try apply normalize_num; by destruct sx, sy.
Qed.

Lemma fadd_num_r x y : is_finite x = true → is_num y = true → is_num (fadd x y) = true.
Proof.
  intros Hx Hy. unfold fadd. destruct x as [sx|sx| |sx mx ex], y as [sy|sy| |sy my ey]; try done; simpl;
    try apply normalize_num; by destruct sx, sy.
Qed.

Lemma fsub_num_r x y : is_finite x = true → is_num y = true → is_num (fsub x y) = true.
Proof.
  intros Hx Hy. unfold fsub. destruct x as [sx|sx| |sx mx ex], y as [sy|sy| |sy my ey]; try done; simpl;
    try apply normalize_num; by destruct sx, sy.
Qed.

(** Numbers are totally ordered. *)
Lemma flt_total x y : is_num x = true → is_num y = true → flt x y = false → fle y x = true.
Proof.
  unfold flt, fle, SFltb, SFleb. destruct x as [[]|[]| |[] mx ex], y as [[]|[]| |[] my ey]; try done; intros _ _; simpl.
  all: change (Pos.compare_cont Eq ?a ?b) with (a ?= b)%positive.
  all: rewrite (Z.compare_antisym ex ey), (Pos.compare_antisym mx my).
  all: destruct (ex ?= ey); simpl; try done; by destruct (mx ?= my)%positive.
Qed.

(** ** [math.Min], [math.Max] and [math.Abs] *)

Definition signbit (x : f64) : bool :=
  match x with S754_zero s | S754_infinity s | S754_finite s _ _ => s | S754_nan => false end.
Definition is_zero (x : f64) : bool := match x with S754_zero _ => true | _ => false end.
Definition is_inf (s : bool) (x : f64) : bool := match x with S754_infinity s' => Bool.eqb s s' | _ => false end.

Definition fMin (x y : f64) : f64 :=
  if is_inf true x || is_inf true y then S754_infinity true
  else if negb (is_num x) || negb (is_num y) then S754_nan
  else if is_zero x && is_zero y then (if signbit x then x else y)
  else if flt x y then x else y.

Definition fMax (x y : f64) : f64 :=
  if is_inf false x || is_inf false y then S754_infinity false
  else if negb (is_num x) || negb (is_num y) then S754_nan
  else if is_zero x && is_zero y then (if signbit x then y else x)
  else if fgt x y then x else y.

Definition fAbs : f64 → f64 := SFabs.

(** ** Times *)

(** [t.Sub u], saturated to the range of [Duration]. *)
Definition time_Sub (t u : Z) : Z := Z.max min_int64 (Z.min max_int64 (t - u)).
Definition time_Before (t u : Z) : bool := t <? u.
Definition time_After (t u : Z) : bool := u <? t.

Definition Millisecond : Z := 1000000.
Definition Second : Z := 1000000000.
Definition Minute : Z := 60 * Second.
Definition Hour : Z := 60 * Minute.

(** [d.Hours()]: the whole hours and the rest are converted apart. *)
Definition Hours (d : Z) : f64 :=
  fadd (f64_of_Z (Z.quot d Hour)) (fdiv (f64_of_Z (Z.rem d Hour)) (f64_of_Z Hour)).

(** A number without its fraction; [NaN] and the infinities have no
    integer, and the code converts none. *)
Definition trunc (x : f64) : Z :=
  match x with
  | S754_finite s m e =>
      let a := if 0 <=? e then Zpos m * 2 ^ e else Zpos m / 2 ^ (- e) in if s then - a else a
  | _ => 0
  end.

(** The Unix epoch on the scale of the zero time, and the conversions. *)
Definition unix_epoch : Z := 62135596800 * Second.
Definition Unix (t : Z) : Z := (t - unix_epoch) / Second.
Definition UnixNano (t : Z) : Z := i64 (t - unix_epoch).
Definition Nanosecond (t : Z) : Z := (t - unix_epoch) mod Second.
Definition time_IsZero (t : Z) : bool := t =? 0.

(** ** Formatting *)

(** The quotient rounded to the nearest integer, half to even. *)
Definition div_even (n d : Z) : Z :=
  let q := n / d in
  let r := n mod d in
  if (d <? 2 * r) || ((2 * r =? d) && Z.odd q) then q + 1 else q.

(** [m 2^e] in units of [1/k]. *)
Definition in_units (k m e : Z) : Z := if 0 <=? e then k * m * 2 ^ e else div_even (k * m) (2 ^ (- e)).

(** [%.1f] *)
Definition fmt1 (x : f64) : string :=
  match x with
  | S754_zero s => if s then "-0.0" else "0.0"
  | S754_infinity s => if s then "-Inf" else "+Inf"
  | S754_nan => "NaN"
  | S754_finite s m e =>
      let t := in_units 10 (Zpos m) e in
      (if s then "-" else "") +:+ dec (t / 10) +:+ "." +:+ dec (t mod 10)
  end.

(** [%.0f] *)
Definition fmt0 (x : f64) : string :=
  match x with
  | S754_zero s => if s then "-0" else "0"
  | S754_infinity s => if s then "-Inf" else "+Inf"
  | S754_nan => "NaN"
  | S754_finite s m e => (if s then "-" else "") +:+ dec (in_units 1 (Zpos m) e)
  end.

Fixpoint octal_go (fuel : nat) (z : Z) (acc : string) : string :=
  match fuel with
  | O => acc
  | S fuel => let acc := String (hex_digit (z mod 8)) acc in if z <? 8 then acc else octal_go fuel (z / 8) acc
  end.

(** [%04o] of a number that is not negative. *)
Definition octal4 (z : Z) : string :=
  let s := octal_go 22 z "" in of_chars (replicate (4 - String.length s) "0"%char) +:+ s.

Example formats : (fmt0 <$> [f64_of_Z 5; fdiv (f64_of_Z 5) (f64_of_Z 2); fdiv (f64_of_Z 7) (f64_of_Z 2)], octal4 <$> [416; 448; 0; 4095])
  = (["5"; "2"; "4"], ["0640"; "0700"; "0000"; "7777"]).
Proof. vm_compute. reflexivity. Qed.
