(* ===== verification/GoBase64.v ===== *)
(** * Package [encoding/base64]

    [StdEncoding] (padded) and [RawStdEncoding] (unpadded), as the
    runtime decodes them: carriage returns and line feeds are skipped
    anywhere, padding may only end the input, and the unused low bits of
    the last group are not checked. *)

From S2P Require Import Prelude GoStrings.

#[local] Ltac Zify.zify_post_hook ::= Z.div_mod_to_equations.

(** ** The alphabet *)

Definition b64_char (v : Z) : ascii :=
  if v <? 26 then byte (65 + v)
  else if v <? 52 then byte (97 + (v - 26))
  else if v <? 62 then byte (48 + (v - 52))
  else if v =? 62 then "+"%char else "/"%char.

Definition b64_val (c : ascii) : option Z :=
  if is_upper c then Some (byte_of c - 65)
  else if is_lower c then Some (byte_of c - 97 + 26)
  else if is_digit c then Some (byte_of c - 48 + 52)
  else if Ascii.eqb c "+"%char then Some 62
  else if Ascii.eqb c "/"%char then Some 63 else None.

(** ** Encoding *)

(** The bits [lo .. lo+5] of a 24-bit group. *)
Definition sextet (n lo : Z) : Z := (n / 2 ^ lo) mod 64.
Definition octet (n lo : Z) : ascii := byte ((n / 2 ^ lo) mod 256).

Fixpoint encode_go (pad : bool) (s : string) : string :=
  match s with
  | "" => ""
  | String a "" =>
      let n := byte_of a * 65536 in
      String (b64_char (sextet n 18)) (String (b64_char (sextet n 12))
        (if pad then "==" else ""))
  | String a (String b "") =>
      let n := byte_of a * 65536 + byte_of b * 256 in
      String (b64_char (sextet n 18)) (String (b64_char (sextet n 12))
        (String (b64_char (sextet n 6)) (if pad then "=" else "")))
  | String a (String b (String c s')) =>
      let n := byte_of a * 65536 + byte_of b * 256 + byte_of c in
      String (b64_char (sextet n 18)) (String (b64_char (sextet n 12))
        (String (b64_char (sextet n 6)) (String (b64_char (sextet n 0)) (encode_go pad s'))))
  end.

Definition EncodeToString (s : string) : string := encode_go true s.
Definition RawEncodeToString (s : string) : string := encode_go false s.

(** ** Decoding *)

Fixpoint strip_newlines (s : string) : string :=
  match s with
  | "" => ""
  | String c s' =>
      if Ascii.eqb c CR || Ascii.eqb c LF then strip_newlines s'
      else String c (strip_newlines s')
  end.

(** Input that ends inside a group, before any padding. *)
Definition decode_end (pad : bool) (vs : list Z) : option string :=
  match vs with
  | [] => Some ""
  | [v1; v2] =>
      if pad then None
      else Some (String (octet (v1 * 2 ^ 18 + v2 * 2 ^ 12) 16) "")
  | [v1; v2; v3] =>
      if pad then None
      else let n := v1 * 2 ^ 18 + v2 * 2 ^ 12 + v3 * 2 ^ 6 in
           Some (String (octet n 16) (String (octet n 8) ""))
  | _ => None
  end.

(** A padding byte with the group [vs] read so far and [rest] after it. *)
Definition decode_padding (vs : list Z) (rest : string) : option string :=
  match vs with
  | [v1; v2] =>
      if String.eqb rest "="
      then Some (String (octet (v1 * 2 ^ 18 + v2 * 2 ^ 12) 16) "") else None
  | [v1; v2; v3] =>
      if is_empty rest
      then let n := v1 * 2 ^ 18 + v2 * 2 ^ 12 + v3 * 2 ^ 6 in
           Some (String (octet n 16) (String (octet n 8) ""))
      else None
  | _ => None
  end.

(** [vs] holds the values of the current group, at most three of them. *)
Fixpoint decode_go (pad : bool) (vs : list Z) (s : string) : option string :=
  match s with
  | "" => decode_end pad vs
  | String c s' =>
      match b64_val c with
      | Some v =>
          match vs with
          | [v1; v2; v3] =>
              let n := v1 * 2 ^ 18 + v2 * 2 ^ 12 + v3 * 2 ^ 6 + v in
              match decode_go pad [] s' with
              | Some r => Some (String (octet n 16) (String (octet n 8) (String (octet n 0) r)))
              | None => None
              end
          | _ => decode_go pad (vs ++ [v]) s'
          end
      | None =>
          if pad && Ascii.eqb c "="%char then decode_padding vs s' else None
      end
  end.

(** [StdEncoding.DecodeString]: [None] stands for an error. *)
Definition DecodeString (s : string) : option string := decode_go true [] (strip_newlines s).
(** [RawStdEncoding.DecodeString] *)
Definition RawDecodeString (s : string) : option string := decode_go false [] (strip_newlines s).

(** ** Round trip *)

Lemma b64_char_table :
  forallb (λ v, bool_decide (b64_val (b64_char (Z.of_nat v)) = Some (Z.of_nat v)) &&
                negb (Ascii.eqb (b64_char (Z.of_nat v)) CR || Ascii.eqb (b64_char (Z.of_nat v)) LF))
          (seq 0 64) = true.
Proof. vm_compute. reflexivity. Qed.

Lemma b64_char_facts v :
  0 <= v < 64 →
  b64_val (b64_char v) = Some v ∧
  Ascii.eqb (b64_char v) CR || Ascii.eqb (b64_char v) LF = false.
Proof.
  intros Hv. pose proof b64_char_table as Ht. rewrite forallb_forall in Ht.
  specialize (Ht (Z.to_nat v)). rewrite Z2Nat.id in Ht by lia.
  assert (In (Z.to_nat v) (seq 0 64)) as Hin by (apply in_seq; lia).
  specialize (Ht Hin). apply andb_true_iff in Ht as [?%bool_decide_eq_true ?%negb_true_iff].
  done.
Qed.

Lemma sextet_range n lo : 0 <= sextet n lo < 64.
Proof. unfold sextet. apply Z.mod_pos_bound. lia. Qed.

Lemma b64_val_sextet n lo : b64_val (b64_char (sextet n lo)) = Some (sextet n lo).
Proof. apply b64_char_facts, sextet_range. Qed.

(** Induction by groups of three bytes, the recursion of the encoder. *)
Lemma string_ind3 (P : string → Prop) :
  P "" → (∀ a, P (String a "")) → (∀ a b, P (String a (String b ""))) →
  (∀ a b c s, P s → P (String a (String b (String c s)))) → ∀ s, P s.
Proof.
  intros H0 H1 H2 H3. fix IH 1. intros [|a [|b [|c s]]]; [done..|].
  apply H3, IH.
Qed.

Lemma strip_sextet n lo t :
  strip_newlines (String (b64_char (sextet n lo)) t) =
  String (b64_char (sextet n lo)) (strip_newlines t).
Proof. simpl. by destruct (b64_char_facts (sextet n lo) (sextet_range n lo)) as [_ ->]. Qed.

Lemma strip_encode_go pad s : strip_newlines (encode_go pad s) = encode_go pad s.
Proof.
  induction s as [|a|a b|a b c s IH] using string_ind3; cbn [encode_go];
    rewrite ?strip_sextet; by rewrite ?IH || destruct pad.
Qed.

Lemma octet_byte n lo c : n / 2 ^ lo mod 256 = byte_of c → octet n lo = c.
Proof. unfold octet. intros ->. apply byte_byte_of. Qed.

(** The four sextets of a 24-bit number give the number back. *)
Lemma sextets_join n :
  0 <= n < 2 ^ 24 →
  sextet n 18 * 2 ^ 18 + sextet n 12 * 2 ^ 12 + sextet n 6 * 2 ^ 6 + sextet n 0 = n.
Proof. unfold sextet. intros Hn. lia. Qed.

Ltac octets :=
  repeat f_equal; apply octet_byte;
  repeat match goal with
  | |- context [byte_of ?c] =>
      lazymatch goal with
      | _ : 0 <= byte_of c < 256 |- _ => fail
      | _ => pose proof (byte_of_range c)
      end
  end; lia.

Lemma decode_group pad n t :
  0 <= n < 2 ^ 24 →
  decode_go pad [] (String (b64_char (sextet n 18)) (String (b64_char (sextet n 12))
    (String (b64_char (sextet n 6)) (String (b64_char (sextet n 0)) t)))) =
  match decode_go pad [] t with
  | Some r => Some (String (octet n 16) (String (octet n 8) (String (octet n 0) r)))
  | None => None
  end.
Proof.
  intros Hn. cbn [decode_go app]. rewrite !b64_val_sextet. cbn [decode_go app].
  by rewrite sextets_join.
Qed.

Lemma decode_encode_go pad s : decode_go pad [] (encode_go pad s) = Some s.
Proof.
  induction s as [|a|a b|a b c s IH] using string_ind3; [done|..]; cbn [encode_go].
  - pose proof (byte_of_range a).
    assert (Hn : sextet (byte_of a * 65536) 18 * 2 ^ 18 + sextet (byte_of a * 65536) 12 * 2 ^ 12
                 = byte_of a * 65536) by (unfold sextet; lia).
    cbn [decode_go app]. rewrite !b64_val_sextet.
    destruct pad; cbn [decode_go decode_end decode_padding app b64_val String.eqb];
      simpl; rewrite Hn; octets.
  - pose proof (byte_of_range a). pose proof (byte_of_range b).
    set (n := byte_of a * 65536 + byte_of b * 256).
    assert (Hn : sextet n 18 * 2 ^ 18 + sextet n 12 * 2 ^ 12 + sextet n 6 * 2 ^ 6 = n)
      by (unfold sextet, n; lia).
    cbn [decode_go app]. rewrite !b64_val_sextet. cbn [decode_go app].
    destruct pad; simpl; rewrite Hn; unfold n; octets.
  - pose proof (byte_of_range a). pose proof (byte_of_range b). pose proof (byte_of_range c).
    rewrite decode_group by lia. rewrite IH. octets.
Qed.

(** Decoding what the encoder printed gives the text back. *)
Lemma DecodeString_Encode s : DecodeString (EncodeToString s) = Some s.
Proof. unfold DecodeString, EncodeToString. by rewrite strip_encode_go, decode_encode_go. Qed.

Lemma RawDecodeString_Encode s : RawDecodeString (RawEncodeToString s) = Some s.
Proof. unfold RawDecodeString, RawEncodeToString. by rewrite strip_encode_go, decode_encode_go. Qed.

Example decode_prompts :
  DecodeString "VXNlcm5hbWU6" = Some "Username:" ∧ DecodeString "UGFzc3dvcmQ6" = Some "Password:".
Proof. split; vm_compute; reflexivity. Qed.

(** The encoder prints only alphabet bytes and padding. *)
Lemma encode_go_avoids pad c s :
  b64_val c = None → Ascii.eqb c "="%char = false → avoids c (encode_go pad s) = true.
Proof.
  intros Hc Hp.
  assert (Hs : ∀ n lo t, avoids c t = true → avoids c (String (b64_char (sextet n lo)) t) = true).
  { intros n lo t Ht. apply avoids_cons. split; [|done].
    intros Heq. by rewrite <- Heq, b64_val_sextet in Hc. }
  assert (Hq : ∀ t, avoids c t = true → avoids c (String "=" t) = true).
  { intros t Ht. apply avoids_cons. split; [|done]. by intros <-. }
  induction s as [|a|a b|a b d s IH] using string_ind3; cbn [encode_go]; [done|..];
    destruct pad; auto.
Qed.
