(* ===== verification/GoNet.v ===== *)
(** * Package [net]: textual addresses

    [ParseIP], the predicates on [net.IP] and [SplitHostPort], as the
    runtime implements them.  An [IP] is its 16-byte form. *)

From S2P Require Import Prelude GoStrings.

Abbreviation IP := (list Z).

(** ** IPv4 *)

(** A decimal octet without leading zero. *)
Definition parse_octet (s : string) : option Z :=
  match s with
  | String "0" (String _ _) => None
  | _ => match ParseUint s 64 with
         | Some n => if n <=? 255 then Some n else None
         | None => None
         end
  end.

Definition parseIPv4 (s : string) : option IP :=
  match mapM parse_octet (Split s ".") with
  | Some [a; b; c; d] => Some [a; b; c; d]
  | _ => None
  end.

Definition v4_in_v6 (v4 : IP) : IP := replicate 10 0 ++ [255; 255] ++ v4.

(** ** IPv6 *)

Definition hex_val (c : ascii) : option Z :=
  if is_digit c then Some (byte_of c - 48)
  else if (97 <=? byte_of c) && (byte_of c <=? 102) then Some (byte_of c - 87)
  else if (65 <=? byte_of c) && (byte_of c <=? 70) then Some (byte_of c - 55)
  else None.

(** A group of hexadecimal digits: value, number of digits, rest. *)
Fixpoint span_hex (acc : Z) (off : Z) (s : string) : Z * Z * string :=
  match s with
  | String c s' =>
      match hex_val c with
      | Some v => span_hex (acc * 16 + v) (off + 1) s'
      | None => (acc, off, s)
      end
  | "" => (acc, off, "")
  end.

(** The groups from the [length ip / 2]-th on; [ell] is the position of
    the ellipsis.  Returns the bytes read, the ellipsis and the text
    left.  Eight groups fit, so eight units of fuel are enough. *)
Fixpoint ipv6_groups (fuel : nat) (ip : IP) (ell : option nat) (s : string)
    : option (IP * option nat * string) :=
  match fuel with
  | O => Some (ip, ell, s)
  | S fuel =>
      let '(acc, off, rest) := span_hex 0 0 s in
      if (off =? 0) || (4 <? off) then None else
      match rest with
      | String "." _ =>
          if (match ell with None => negb (length ip =? 12)%nat | Some _ => false end)
             || (12 <? length ip)%nat then None
          else match parseIPv4 s with
               | Some v4 => Some (ip ++ v4, ell, "")
               | None => None
               end
      | "" => Some (ip ++ [acc / 256; acc mod 256], ell, "")
      | String ":" (String c s') =>
          let ip := ip ++ [acc / 256; acc mod 256] in
          if Ascii.eqb c ":"%char then
            match ell with
            | Some _ => None
            | None => if is_empty s' then Some (ip, Some (length ip), "")
                      else ipv6_groups fuel ip (Some (length ip)) s'
            end
          else ipv6_groups fuel ip ell (String c s')
      | _ => None
      end
  end.

Definition parseIPv6 (s : string) : option IP :=
  let '(ell, s) := match s with String ":" (String ":" s') => (Some 0%nat, s') | _ => (None, s) end in
  if is_empty s then (match ell with Some _ => Some (replicate 16 0) | None => None end) else
  match ipv6_groups 8 [] ell s with
  | Some (ip, ell, "") =>
      match ell with
      | None => if (length ip =? 16)%nat then Some ip else None
      | Some e =>
          if (16 <=? length ip)%nat then None
          else Some (take e ip ++ replicate (16 - length ip) 0 ++ drop e ip)
      end
  | _ => None
  end.

(** The first of the bytes that select a syntax. *)
Fixpoint first_mark (s : string) : option ascii :=
  match s with
  | "" => None
  | String c s' =>
      if Ascii.eqb c "."%char || Ascii.eqb c ":"%char || Ascii.eqb c "%"%char then Some c
      else first_mark s'
  end.

(** [net.ParseIP]: [None] stands for nil.  An address with a zone is
    refused. *)
Definition ParseIP (s : string) : option IP :=
  match first_mark s with
  | Some "."%char => v4_in_v6 <$> parseIPv4 s
  | Some ":"%char => if 0 <=? IndexByte s "%" then None else parseIPv6 s
  | _ => None
  end.

(** ** Predicates *)

Definition To4 (ip : IP) : option IP :=
  if bool_decide (take 12 ip = replicate 10 0 ++ [255; 255]) then Some (drop 12 ip) else None.

Definition at_ (ip : IP) (i : nat) : Z := nth i ip 0.

Definition IsLoopback (ip : IP) : bool :=
  match To4 ip with
  | Some v4 => at_ v4 0 =? 127
  | None => bool_decide (ip = replicate 15 0 ++ [1])
  end.

Definition IsPrivate (ip : IP) : bool :=
  match To4 ip with
  | Some v4 =>
      (at_ v4 0 =? 10)
      || ((at_ v4 0 =? 172) && (Z.land (at_ v4 1) 240 =? 16))
      || ((at_ v4 0 =? 192) && (at_ v4 1 =? 168))
  | None => Z.land (at_ ip 0) 254 =? 252
  end.

Definition IsLinkLocalUnicast (ip : IP) : bool :=
  match To4 ip with
  | Some v4 => (at_ v4 0 =? 169) && (at_ v4 1 =? 254)
  | None => (at_ ip 0 =? 254) && (Z.land (at_ ip 1) 192 =? 128)
  end.

Definition IsLinkLocalMulticast (ip : IP) : bool :=
  match To4 ip with
  | Some v4 => (at_ v4 0 =? 224) && (at_ v4 1 =? 0) && (at_ v4 2 =? 0)
  | None => (at_ ip 0 =? 255) && (Z.land (at_ ip 1) 15 =? 2)
  end.

Definition IsUnspecified (ip : IP) : bool :=
  bool_decide (ip = v4_in_v6 [0; 0; 0; 0]) || bool_decide (ip = replicate 16 0).

(** ** [SplitHostPort] *)

Definition SplitHostPort (hp : string) : result (string * string) :=
  let i := LastIndexByte hp ":" in
  if i <? 0 then Err (EMsg "missing port in address") else
  let finish host j k :=
    if 0 <=? IndexByte (slice_from hp j) "[" then Err (EMsg "unexpected '[' in address")
    else if 0 <=? IndexByte (slice_from hp k) "]" then Err (EMsg "unexpected ']' in address")
    else Ok (host, slice_from hp (i + 1)) in
  match hp with
  | String "[" rest =>
      let fin := IndexByte hp "]" in
      if fin <? 0 then Err (EMsg "missing ']' in address")
      else if fin + 1 =? i then finish (slice_to rest (fin - 1)) 1 (fin + 1)
      else if HasPrefix (slice_from hp (fin + 1)) ":" then Err (EMsg "too many colons in address")
      else Err (EMsg "missing port in address")
  | _ =>
      let host := slice_to hp i in
      if 0 <=? IndexByte host ":" then Err (EMsg "too many colons in address")
      else finish host 0 0
  end.

Example parse_ip_examples :
  ParseIP "192.168.1.20" = Some (v4_in_v6 [192; 168; 1; 20]) ∧
  ParseIP "::1" = Some (replicate 15 0 ++ [1]) ∧
  ParseIP "2001:db8::5:1.2.3.4" = Some ([32; 1; 13; 184] ++ replicate 6 0 ++ [0; 5; 1; 2; 3; 4]) ∧
  ParseIP "1.2.3.04" = None ∧ ParseIP "fe80::1%eth0" = None ∧ ParseIP "mail" = None ∧
  SplitHostPort "[::1]:25" = Ok ("::1", "25") ∧ SplitHostPort ":25" = Ok ("", "25").
Proof. vm_compute. repeat split. Qed.
