(* ===== verification/GoMd5.v ===== *)
(** * MD5

    [crypto/md5] and [encoding/hex], as [internal/pop3] uses them to turn
    the name of a message into a unique id.  Words are 32-bit integers;
    the digest is computed, so that ids can be evaluated. *)

From S2P Require Import Prelude GoStrings.

Definition md5_k : list Z :=
  [
   0xd76aa478; 0xe8c7b756; 0x242070db; 0xc1bdceee;
   0xf57c0faf; 0x4787c62a; 0xa8304613; 0xfd469501;
   0x698098d8; 0x8b44f7af; 0xffff5bb1; 0x895cd7be;
   0x6b901122; 0xfd987193; 0xa679438e; 0x49b40821;
   0xf61e2562; 0xc040b340; 0x265e5a51; 0xe9b6c7aa;
   0xd62f105d; 0x02441453; 0xd8a1e681; 0xe7d3fbc8;
   0x21e1cde6; 0xc33707d6; 0xf4d50d87; 0x455a14ed;
   0xa9e3e905; 0xfcefa3f8; 0x676f02d9; 0x8d2a4c8a;
   0xfffa3942; 0x8771f681; 0x6d9d6122; 0xfde5380c;
   0xa4beea44; 0x4bdecfa9; 0xf6bb4b60; 0xbebfbc70;
   0x289b7ec6; 0xeaa127fa; 0xd4ef3085; 0x04881d05;
   0xd9d4d039; 0xe6db99e5; 0x1fa27cf8; 0xc4ac5665;
   0xf4292244; 0x432aff97; 0xab9423a7; 0xfc93a039;
   0x655b59c3; 0x8f0ccc92; 0xffeff47d; 0x85845dd1;
   0x6fa87e4f; 0xfe2ce6e0; 0xa3014314; 0x4e0811a1;
   0xf7537e82; 0xbd3af235; 0x2ad7d2bb; 0xeb86d391].

Definition md5_shift (i : nat) : Z :=
  let row := match (i / 16)%nat with
             | 0%nat => [7; 12; 17; 22] | 1%nat => [5; 9; 14; 20]
             | 2%nat => [4; 11; 16; 23] | _ => [6; 10; 15; 21]
             end in
  nth (i mod 4) row 0.

Definition not32 (x : Z) : Z := Z.lxor x (2 ^ 32 - 1).
Definition rotl32 (x n : Z) : Z := Z.lor (u32 (Z.shiftl x n)) (Z.shiftr x (32 - n)).

Definition md5_state : Type := Z * Z * Z * Z.
Definition md5_init : md5_state := (0x67452301, 0xefcdab89, 0x98badcfe, 0x10325476).

(** Step [i] on the words of a block. *)
Definition md5_step (ws : list Z) (st : md5_state) (i : nat) : md5_state :=
  let '(a, b, c, d) := st in
  let '(f, g) := match (i / 16)%nat with
    | 0%nat => (Z.lor (Z.land b c) (Z.land (not32 b) d), i)
    | 1%nat => (Z.lor (Z.land d b) (Z.land (not32 d) c), (5 * i + 1) mod 16)%nat
    | 2%nat => (Z.lxor b (Z.lxor c d), (3 * i + 5) mod 16)%nat
    | _ => (Z.lxor c (Z.lor b (not32 d)), (7 * i) mod 16)%nat
    end in
  (d, u32 (b + rotl32 (u32 (f + a + nth i md5_k 0 + nth g ws 0)) (md5_shift i)), b, c).

Definition md5_block (st : md5_state) (ws : list Z) : md5_state :=
  let '(a, b, c, d) := st in
  let '(a', b', c', d') := foldl (md5_step ws) st (seq 0 64) in
  (u32 (a + a'), u32 (b + b'), u32 (c + c'), u32 (d + d')).

(** [n] bytes, low byte first. *)
Fixpoint le_bytes (n : nat) (z : Z) : list Z :=
  match n with O => [] | S n => z mod 256 :: le_bytes n (z / 256) end.

Fixpoint le_value (bs : list Z) : Z :=
  match bs with [] => 0 | b :: bs => b + 256 * le_value bs end.

(** The message, a one bit, zeros up to 56 modulo 64 and the length in
    bits. *)
Definition md5_pad (s : string) : list Z :=
  let n := slen s in
  (byte_of <$> schars s) ++ [128] ++ replicate (Z.to_nat ((55 - n) mod 64)) 0 ++ le_bytes 8 (u64 (8 * n)).

(** Consecutive groups of [k] elements. *)
Fixpoint chunks {A} (fuel k : nat) (l : list A) : list (list A) :=
  match fuel, l with
  | S fuel, _ :: _ => take k l :: chunks fuel k (drop k l)
  | _, _ => []
  end.

Definition md5_Sum (s : string) : list Z :=
  let bytes := md5_pad s in
  let blocks := chunks (length bytes) 64 bytes in
  let '(a, b, c, d) := foldl (λ st blk, md5_block st (le_value <$> chunks 64 4 blk)) md5_init blocks in
  le_bytes 4 a ++ le_bytes 4 b ++ le_bytes 4 c ++ le_bytes 4 d.

Definition hex_EncodeToString (bs : list Z) : string :=
  of_chars (bs ≫= λ b, [hex_digit (b / 16); hex_digit (b mod 16)]).

(** The test vectors of RFC 1321. *)
Example md5_empty : hex_EncodeToString (md5_Sum "") = "d41d8cd98f00b204e9800998ecf8427e".
Proof. vm_compute. reflexivity. Qed.

Example md5_abc : hex_EncodeToString (md5_Sum "abc") = "900150983cd24fb0d6963f7d28e17f72".
Proof. vm_compute. reflexivity. Qed.

Example md5_two_blocks : hex_EncodeToString (md5_Sum
  "12345678901234567890123456789012345678901234567890123456789012345678901234567890") =
  "57edf4a22be3c955ac49da2e2107b67a".
Proof. vm_compute. reflexivity. Qed.
