(* ===== verification/GoTime.v ===== *)
(** * Dates: package [time]

    The part of [time] the mail store's clients see: the civil date of an
    instant, the two layouts of IMAP dates, and the days of [SEARCH].
    Instants are nanoseconds since the first of January of year 1, as in
    [GoNum]; a location is the offset from UTC it has at an instant. *)

From S2P Require Import Prelude GoStrings GoNum.

Definition Day : Z := 24 * Hour.

(** ** The calendar

    Years are counted from March, so that the leap day is the last one. *)

Definition march_days (y m : Z) : Z := 365 * y + y / 4 - y / 100 + y / 400 + (153 * m + 2) / 5.

(** Days from the first of January of year 1. *)
Definition days_of (y m d : Z) : Z :=
  let '(y, m) := if m <=? 2 then (y - 1, m + 9) else (y, m - 3) in
  march_days y m + d - 1 - 306.

(** Year, month and day of a day. *)
Definition civil (n : Z) : Z * Z * Z :=
  let z := n + 306 in
  let era := z / 146097 in
  let doe := z mod 146097 in
  let yoe := (doe - doe / 1460 + doe / 36524 - doe / 146096) / 365 in
  let doy := doe - (365 * yoe + yoe / 4 - yoe / 100) in
  let mp := (5 * doy + 2) / 153 in
  let d := doy - (153 * mp + 2) / 5 + 1 in
  let m := if mp <? 10 then mp + 3 else mp - 9 in
  (yoe + era * 400 + (if m <=? 2 then 1 else 0), m, d).

Definition isLeap (y : Z) : bool :=
  (y mod 4 =? 0) && (negb (y mod 100 =? 0) || (y mod 400 =? 0)).
Definition daysIn (m y : Z) : Z :=
  if m =? 2 then (if isLeap y then 29 else 28)
  else if mem m [4; 6; 9; 11] then 30 else 31.

(** [Time.Date] and [Time.Clock] at an offset in seconds. *)
Definition Date (off t : Z) : Z * Z * Z := civil ((t + off * Second) / Day).
Definition Clock (off t : Z) : Z * Z * Z :=
  let s := ((t + off * Second) mod Day) / Second in (s / 3600, s / 60 mod 60, s mod 60).

(** [time.Date] with the location UTC, for a valid date. *)
Definition date_UTC (y m d h mi s ns : Z) : Z :=
  days_of y m d * Day + (h * 3600 + mi * 60 + s) * Second + ns.

(** [t.Truncate(24 * time.Hour)]: counted from the zero time. *)
Definition truncate_day (t : Z) : Z := t - t mod Day.

(** ** [Format] *)

Definition months : list string :=
  ["Jan"; "Feb"; "Mar"; "Apr"; "May"; "Jun"; "Jul"; "Aug"; "Sep"; "Oct"; "Nov"; "Dec"].

Fixpoint zeros (n : nat) : string := match n with O => "" | S n => String "0" (zeros n) end.
(** [appendInt]: padded with zeros to a width. *)
Definition pad (width : nat) (z : Z) : string :=
  if z <? 0 then "-" +:+ zeros (width - String.length (dec (- z))) +:+ dec (- z)
  else zeros (width - String.length (dec z)) +:+ dec z.

(** The layout [-0700]. *)
Definition format_zone (off : Z) : string :=
  let zone := Z.quot off 60 in
  (if zone <? 0 then "-" else "+") +:+ pad 2 (Z.abs zone / 60) +:+ pad 2 (Z.abs zone mod 60).

(** [t.Format("02-Jan-2006 15:04:05 -0700")] *)
Definition Format_date_time (off t : Z) : string :=
  let '(y, m, d) := Date off t in
  let '(h, mi, s) := Clock off t in
  pad 2 d +:+ "-" +:+ nth (Z.to_nat (m - 1)) months "" +:+ "-" +:+ pad 4 y +:+ " " +:+
  pad 2 h +:+ ":" +:+ pad 2 mi +:+ ":" +:+ pad 2 s +:+ " " +:+ format_zone off.

(** ** [Parse] *)

Definition digit_val (c : ascii) : Z := byte_of c - 48.

(** [getnum]: two digits, or one unless [fixed]. *)
Definition getnum (fixed : bool) (s : string) : option (Z * string) :=
  match s with
  | String a r =>
      if negb (is_digit a) then None else
      match r with
      | String b r' =>
          if is_digit b then Some (digit_val a * 10 + digit_val b, r')
          else if fixed then None else Some (digit_val a, r)
      | "" => if fixed then None else Some (digit_val a, "")
      end
  | "" => None
  end.

Definition cutspace (s : string) : string := trim_left (λ c, Ascii.eqb c " ") s.

(** [skip]: the literal text between two elements; any number of spaces
    matches one. *)
Definition skip (prefix : ascii) (s : string) : option string :=
  if Ascii.eqb prefix " " then
    match s with
    | String c _ => if Ascii.eqb c " " then Some (cutspace s) else None
    | "" => Some ""
    end
  else match s with
       | String c r => if Ascii.eqb c prefix then Some r else None
       | "" => None
       end.

(** [lookup] in the short month names, regardless of case. *)
Fixpoint lookup_month (i : Z) (l : list string) (s : string) : option (Z * string) :=
  match l with
  | [] => None
  | n :: l =>
      if EqualFold n (stake 3 s) then Some (i, sdrop 3 s)
      else lookup_month (i + 1) l s
  end.

Definition parse_year (s : string) : option (Z * string) :=
  let p := stake 4 s in
  if slen p <? 4 then None else
  match digits_val 0 p with Some y => Some (y, sdrop 4 s) | None => None end.

(** A fraction of a second, which may follow the seconds though no layout
    here asks for it. *)
Fixpoint span_digits (s : string) : string * string :=
  match s with
  | String c r => if is_digit c then let '(a, b) := span_digits r in (String c a, b) else ("", s)
  | "" => ("", "")
  end.
Definition fraction (s : string) : Z * string :=
  match s with
  | String c r =>
      if Ascii.eqb c "." || Ascii.eqb c "," then
        let '(ds, rest) := span_digits r in
        if is_empty ds then (0, s) else
        let ds := stake 9 ds in
        (match digits_val 0 ds with Some v => v * 10 ^ (9 - slen ds) | None => 0 end, rest)
      else (0, s)
  | "" => (0, s)
  end.

(** The layout [-0700]: the offset in seconds. *)
Definition parse_zone (s : string) : option (Z * string) :=
  match s with
  | String sign r =>
      hr ← getnum true (stake 2 r);
      mm ← getnum true (stake 2 (sdrop 2 r));
      if (24 <? hr.1) || (60 <? mm.1) then None else
      let off := (hr.1 * 60 + mm.1) * 60 in
      if Ascii.eqb sign "+" then Some (off, sdrop 4 r)
      else if Ascii.eqb sign "-" then Some (- off, sdrop 4 r) else None
  | "" => None
  end.

(** Day, month and year of the layout [02-Jan-2006], and what follows. *)
Definition parse_date_part (s : string) : option (Z * Z * Z * string) :=
  d ← getnum true s;
  s ← skip "-" d.2;
  m ← lookup_month 1 months s;
  s ← skip "-" m.2;
  y ← parse_year s;
  Some (y.1, m.1, d.1, y.2).

Definition valid_day (y m d : Z) : bool := (1 <=? d) && (d <=? daysIn m y).

(** [time.Parse("02-Jan-2006", s)] *)
Definition Parse_date (s : string) : option Z :=
  x ← parse_date_part s;
  let '(y, m, d, rest) := x in
  if is_empty rest && valid_day y m d then Some (date_UTC y m d 0 0 0 0) else None.

(** An element with its range. *)
Definition below_limit (lim : Z) (x : option (Z * string)) : option (Z * string) :=
  v ← x; if v.1 <? lim then Some v else None.

(** [time.Parse("02-Jan-2006 15:04:05 -0700", s)] *)
Definition Parse_date_time (s : string) : option Z :=
  x ← parse_date_part s;
  let '(y, m, d, s) := x in
  s ← skip " " s;
  h ← below_limit 24 (getnum false s);
  s ← skip ":" h.2;
  mi ← below_limit 60 (getnum true s);
  s ← skip ":" mi.2;
  sec ← below_limit 60 (getnum true s);
  let '(ns, s) := fraction sec.2 in
  s ← skip " " s;
  z ← parse_zone s;
  if is_empty z.2 && valid_day y m d then Some (date_UTC y m d h.1 mi.1 sec.1 ns - z.1 * Second)
  else None.

Example Format_example : Format_date_time 7200 (date_UTC 2024 2 29 23 5 9 17) = "01-Mar-2024 01:05:09 +0200".
Proof. vm_compute. reflexivity. Qed.
Example Parse_example : Parse_date_time "01-mar-2024 1:05:09.5  -0230" = Some (date_UTC 2024 3 1 3 35 9 500000000).
Proof. vm_compute. reflexivity. Qed.
(** A day of one digit is refused. *)
Example Parse_one_digit : Parse_date "1-Mar-2024" = None ∧ Parse_date "31-Apr-2024" = None.
Proof. split; vm_compute; reflexivity. Qed.

(** ** Laws of the calendar *)

Lemma march_days_era y m e : march_days (y + e * 400) m = march_days y m + e * 146097.
Proof.
  unfold march_days. replace (y + e * 400) with (y + (e * 100) * 4) at 2 by lia.
  replace (y + e * 400) with (y + (e * 4) * 100) at 2 by lia.
  rewrite !Z.div_add by lia. lia.
Qed.

Lemma isLeap_era y e : isLeap (y + e * 400) = isLeap y.
Proof.
  unfold isLeap. replace (y + e * 400) with (y + (e * 100) * 4) at 1 by lia.
  replace (y + e * 400) with (y + (e * 4) * 100) at 1 by lia. rewrite !Z.mod_add by lia. done.
Qed.

(** The year within an era. *)
Lemma year_of_era doe : 0 <= doe < 146097 →
  let yoe := (doe - doe / 1460 + doe / 36524 - doe / 146096) / 365 in
  let doy := doe - (365 * yoe + yoe / 4 - yoe / 100) in
  0 <= yoe <= 399 ∧ 0 <= doy <= 365 ∧
  (doy = 365 → (yoe + 1) mod 4 = 0 ∧ ((yoe + 1) mod 100 ≠ 0 ∨ yoe = 399)).
Proof. intros H yoe doy. subst yoe doy. split_and!; Z.div_mod_to_equations; lia. Qed.

(** The month and the day within a year that starts in March. *)
Definition good_day_of_year (doy : Z) : bool :=
  let mp := (5 * doy + 2) / 153 in
  let d := doy - (153 * mp + 2) / 5 + 1 in
  let m := if mp <? 10 then mp + 3 else mp - 9 in
  (0 <=? mp) && (mp <=? 11) && (1 <=? m) && (m <=? 12) && (1 <=? d) &&
  Bool.eqb (m <=? 2) (10 <=? mp) && Bool.eqb (doy <? 306) (mp <? 10) &&
  (if m =? 2 then (d <=? if doy =? 365 then 29 else 28) else d <=? daysIn m 0).

Lemma good_days_of_year doy : 0 <= doy <= 365 → good_day_of_year doy = true.
Proof.
  intros Hd. assert (H : forallb good_day_of_year (seqZ 0 366) = true) by (vm_compute; reflexivity).
  rewrite forallb_forall in H. apply H, list_elem_of_In, elem_of_seqZ. lia.
Qed.

(** The date of a day is a valid date, and names that day. *)
Lemma civil_spec n : let '(y, m, d) := civil n in
  days_of y m d = n ∧ 1 <= m <= 12 ∧ valid_day y m d = true ∧ (0 <= n < 3652059 → 1 <= y < 10000).
Proof.
  unfold civil. cbv zeta. pose proof (Z.div_mod (n + 306) 146097 ltac:(lia)) as Hn.
  pose proof (Z.mod_pos_bound (n + 306) 146097 ltac:(lia)) as Hb.
  set (era := (n + 306) / 146097) in *. set (doe := (n + 306) mod 146097) in *.
  destruct (year_of_era doe Hb) as (Hy&Hd&Hl). cbv zeta in Hy, Hd, Hl.
  set (yoe := (doe - doe / 1460 + doe / 36524 - doe / 146096) / 365) in *.
  set (doy := doe - (365 * yoe + yoe / 4 - yoe / 100)) in *.
  pose proof (good_days_of_year doy Hd) as Hg. unfold good_day_of_year in Hg. cbv zeta in Hg.
  set (mp := (5 * doy + 2) / 153) in *. set (m := if mp <? 10 then mp + 3 else mp - 9) in *.
  reflect_bool. repeat match goal with H : Bool.eqb _ _ = true |- _ => apply Bool.eqb_prop in H end.
  assert (Hm : (if m <=? 2 then m + 9 else m - 3) = mp).
  { subst m. destruct (mp <? 10) eqn:E; reflect_bool; destruct (_ <=? 2) eqn:E2; reflect_bool; lia. }
  split_and!; try lia.
  - unfold days_of. assert (Hd2 : march_days (yoe + era * 400) mp = 365 * yoe + yoe / 4 - yoe / 100 + (153 * mp + 2) / 5 + era * 146097).
    { rewrite march_days_era. unfold march_days. rewrite (Z.div_small yoe 400); lia. }
    destruct (m <=? 2); rewrite Hm.
    + replace (yoe + era * 400 + 1 - 1) with (yoe + era * 400) by lia. rewrite Hd2. subst doy. lia.
    + rewrite Z.add_0_r, Hd2. subst doy. lia.
  - unfold valid_day. apply andb_true_intro. split; [by apply Z.leb_le|]. apply Z.leb_le.
    unfold daysIn in *. destruct (m =? 2) eqn:Em; reflect_bool; [|done].
    assert (Hm2 : (m <=? 2) = true) by (apply Z.leb_le; lia). rewrite Hm2.
    replace (yoe + era * 400 + 1) with (yoe + 1 + era * 400) by lia. rewrite isLeap_era.
    destruct (doy =? 365) eqn:E; reflect_bool; [|destruct (isLeap _); lia].
    destruct (Hl E) as [Hl4 Hl100]. unfold isLeap. rewrite Hl4. destruct Hl100 as [Hl100| ->]; [|simpl; lia].
    rewrite (proj2 (Z.eqb_neq _ _) Hl100). simpl. lia.
  - intros Hr. assert (0 <= era <= 24) by (subst era; Z.div_mod_to_equations; lia).
    assert (Hmp : m <= 2 ↔ 306 <= doy).
    { repeat match goal with H : (_ <=? _) = (_ <=? _) |- _ => revert H | H : (_ <? _) = (_ <? _) |- _ => revert H end.
      destruct (m <=? 2) eqn:E1, (10 <=? mp) eqn:E2, (doy <? 306) eqn:E3, (mp <? 10) eqn:E4; intros;
        reflect_bool; try done; lia. }
    assert (Hdoy : doy = doe - (365 * yoe + yoe / 4 - yoe / 100)) by done.
    clearbody doy m. destruct (m <=? 2) eqn:E; reflect_bool; Z.div_mod_to_equations; lia.
Qed.

(** ** A date survives printing and parsing *)

Lemma zeros_digits n s : digits_val 0 (zeros n +:+ s) = digits_val 0 s ∧
  String.length (zeros n +:+ s) = (n + String.length s)%nat ∧
  (sall is_digit s = true → sall is_digit (zeros n +:+ s) = true).
Proof. induction n as [|n (IH1&IH2&IH3)]; simpl; [done|]. split_and!; auto. Qed.

Lemma pad_spec w z : 0 <= z < 10 ^ Z.of_nat w → (0 < w)%nat →
  digits_val 0 (pad w z) = Some z ∧ String.length (pad w z) = w ∧ sall is_digit (pad w z) = true.
Proof.
  intros Hz Hw. unfold pad. destruct (z <? 0) eqn:E; reflect_bool; [lia|].
  destruct (zeros_digits (w - String.length (dec z)) (dec z)) as (H1&H2&H3).
  pose proof (dec_length z w Hz Hw) as Hl. unfold slen in Hl.
  rewrite H1, H2. split_and!; [apply digits_val_dec; lia|lia|apply H3, dec_digits; lia].
Qed.

Lemma getnum_pad fixed z r : 0 <= z < 100 → getnum fixed (pad 2 z +:+ r) = Some (z, r).
Proof.
  intros Hz. destruct (pad_spec 2 z) as (H1&H2&H3); [lia|lia|].
  destruct (pad 2 z) as [|a [|b [|]]]; try discriminate. clear H2. simpl in *.
  destruct (is_digit a); [|done]. destruct (is_digit b); [|done]. simpl in *.
  unfold digit_val. by injection H1 as <-.
Qed.

Lemma pad_stake w z r : 0 <= z < 10 ^ Z.of_nat w → (0 < w)%nat →
  stake w (pad w z +:+ r) = pad w z ∧ sdrop w (pad w z +:+ r) = r.
Proof.
  intros Hz Hw. destruct (pad_spec w z Hz Hw) as (_&Hl&_). rewrite <- Hl at 1 4.
  split; [apply stake_app|apply sdrop_app].
Qed.

Lemma parse_year_pad y r : 1 <= y < 10000 → parse_year (pad 4 y +:+ r) = Some (y, r).
Proof.
  intros Hy. destruct (pad_stake 4 y r) as [H1 H2]; [lia|lia|]. destruct (pad_spec 4 y) as (H3&H4&_); [lia|lia|].
  unfold parse_year. rewrite H1, H2, H3. unfold slen. by rewrite H4.
Qed.

Lemma lookup_month_spec m r : 1 <= m <= 12 →
  lookup_month 1 months (nth (Z.to_nat (m - 1)) months "" +:+ r) = Some (m, r).
Proof.
  intros Hm. assert (H : m ∈ seqZ 1 12) by (apply elem_of_seqZ; lia). revert H.
  change (seqZ 1 12) with [1; 2; 3; 4; 5; 6; 7; 8; 9; 10; 11; 12]. clear Hm.
  rewrite !elem_of_cons, elem_of_nil. intros H. by repeat destruct H as [-> | H].
Qed.

(** The offset of a location: a number of minutes of less than a day. *)
Definition zone_ok (off : Z) : Prop := off mod 60 = 0 ∧ Z.abs off < 86400.

Lemma parse_zone_format off : zone_ok off → parse_zone (format_zone off) = Some (off, "").
Proof.
  intros [Hm Ha]. unfold format_zone. set (zone := Z.quot off 60).
  assert (Hz : off = zone * 60) by (subst zone; apply Z.mod_divide in Hm as [k ->]; [|lia]; rewrite Z.quot_mul; lia).
  clearbody zone. set (h := Z.abs zone / 60). set (mi := Z.abs zone mod 60).
  assert (Hh : 0 <= h < 24 ∧ 0 <= mi < 60 ∧ Z.abs zone = h * 60 + mi)
    by (subst h mi; Z.div_mod_to_equations; lia).
  clearbody h mi. destruct Hh as (Hh&Hmi&Hzone).
  destruct (pad_stake 2 h (pad 2 mi)) as [H1 H2]; [lia|lia|].
  pose proof (getnum_pad true h "" ltac:(lia)) as G1. pose proof (getnum_pad true mi "" ltac:(lia)) as G2.
  rewrite sapp_nil_r in G1, G2. destruct (pad_spec 2 mi) as (_&L2&_); [lia|lia|].
  assert (Hs : stake 2 (pad 2 mi) = pad 2 mi)
    by (destruct (pad_stake 2 mi "") as [X _]; [lia|lia|]; by rewrite sapp_nil_r in X).
  assert (Hd4 : sdrop 4 (pad 2 h +:+ pad 2 mi) = "").
  { destruct (pad_spec 2 h) as (_&L1&_); [lia|lia|].
    destruct (pad 2 h) as [|a [|b [|]]]; try discriminate. by destruct (pad 2 mi) as [|? [|? [|]]]. }
  destruct (zone <? 0) eqn:E; reflect_bool; cbn [String.append parse_zone];
    rewrite H1, H2, Hs, G1; cbn [mbind option_bind fst snd]; rewrite G2; cbn [mbind option_bind fst snd];
    rewrite (proj2 (Z.ltb_ge 24 h)), (proj2 (Z.ltb_ge 60 mi)) by lia; cbn [orb]; rewrite Hd4; simpl; do 2 f_equal; lia.
Qed.

Lemma skip_byte c r : Ascii.eqb c " " = false → skip c (String c r) = Some r.
Proof. intros Hc. unfold skip. by rewrite Hc, Ascii.eqb_refl. Qed.

Lemma cutspace_digits w z r : 0 <= z < 10 ^ Z.of_nat w → (0 < w)%nat →
  skip " " (String " " (pad w z +:+ r)) = Some (pad w z +:+ r).
Proof.
  intros Hz Hw. destruct (pad_spec w z Hz Hw) as (_&Hl&Hd). unfold skip, cutspace. simpl.
  destruct (pad w z) as [|a s]; simpl in Hl, Hd |- *; [lia|].
  destruct (Ascii.eqb a " ") eqn:E; [|done]. apply Ascii.eqb_eq in E as ->. done.
Qed.

Lemma skip_zone off : skip " " (String " " (format_zone off)) = Some (format_zone off).
Proof. unfold format_zone. by destruct (_ <? 0). Qed.

Lemma Clock_spec off t : let '(h, mi, s) := Clock off t in
  0 <= h < 24 ∧ 0 <= mi < 60 ∧ 0 <= s < 60 ∧
  h * 3600 + mi * 60 + s = ((t + off * Second) mod Day) / Second.
Proof.
  unfold Clock. pose proof (Z.mod_pos_bound (t + off * Second) Day ltac:(done)) as Hb.
  set (x := (t + off * Second) mod Day) in *. clearbody x.
  unfold Day, Hour, Minute, Second in *. Z.div_mod_to_equations. lia.
Qed.

(** Steps a computation of options whose parts are known. *)
Ltac opt := cbn [mbind option_bind fst snd].

(** An instant printed as an IMAP date and time, in any location, and read
    again is the instant cut to the second. *)
Lemma Parse_Format off t : zone_ok off → 0 <= t + off * Second < 3652059 * Day →
  Parse_date_time (Format_date_time off t) = Some (t - t mod Second).
Proof.
  intros Hoff Ht. unfold Format_date_time, Date. set (n := (t + off * Second) / Day).
  assert (Hn : 0 <= n < 3652059) by (subst n; unfold Day, Hour, Minute, Second in *; Z.div_mod_to_equations; lia).
  pose proof (civil_spec n) as Hc. destruct (civil n) as [[y m] d]. destruct Hc as (Hday&Hm&Hv&Hy).
  specialize (Hy Hn). pose proof (Clock_spec off t) as Hk. destruct (Clock off t) as [[h mi] s].
  destruct Hk as (Hh&Hmi&Hs&Hsum).
  assert (Hd : 1 <= d <= 31).
  { revert Hv. unfold valid_day, daysIn. intros Hv. reflect_bool.
    repeat case_match; lia. }
  unfold Parse_date_time, parse_date_part. rewrite getnum_pad by lia. cbn [String.append]. opt.
  rewrite skip_byte by done. opt. rewrite lookup_month_spec by done.
  opt. rewrite skip_byte by done. opt.
  rewrite parse_year_pad by done. opt. rewrite cutspace_digits by lia.
  opt. rewrite getnum_pad by lia. unfold below_limit.
  opt. rewrite (proj2 (Z.ltb_lt h 24)) by lia. opt.
  rewrite skip_byte by done. opt. rewrite getnum_pad by lia.
  opt. rewrite (proj2 (Z.ltb_lt mi 60)) by lia. opt.
  rewrite skip_byte by done. opt. rewrite getnum_pad by lia.
  opt. rewrite (proj2 (Z.ltb_lt s 60)) by lia. opt.
  change (fraction (String " " (format_zone off))) with (0, String " " (format_zone off)). cbv beta iota.
  rewrite skip_zone. opt. rewrite parse_zone_format by done.
  opt. cbn [is_empty andb]. rewrite Hv. f_equal.
  unfold date_UTC. rewrite Hday, Hsum. subst n. clear -Hoff.
  unfold Day, Hour, Minute, Second in *. Z.div_mod_to_equations. lia.
Qed.
