(* ===== verification/GoMail.v ===== *)
(** * Message headers: packages [net/mail] and [net/textproto]

    [mail.ReadMessage] up to the end of the header, [Header.Get] and the
    search for the line between header and body the code does itself. *)

From S2P Require Import Prelude GoStrings.

(** ** Lines *)

(** [ReadLine]: the line without its end, [None] at the end of the input. *)
Definition read_line (s : string) : option (string * string) :=
  if is_empty s then None else
  match cut_opt s (String LF "") with
  | Some (l, rest) => Some (TrimSuffix l (String CR ""), rest)
  | None => Some (s, "")
  end.

Definition is_blank (c : ascii) : bool := Ascii.eqb c " " || Ascii.eqb c TAB.
Definition trim_blanks (s : string) : string := trim_right is_blank (trim_left is_blank s).

(** The continuation lines that follow: every turn consumes a byte. *)
Fixpoint continued (fuel : nat) (buf s : string) : string * string :=
  match fuel with
  | O => (buf, s)
  | S fuel =>
      match s with
      | String c _ =>
          if is_blank c then
            match read_line (trim_left is_blank s) with
            | Some (l, rest) => continued fuel (buf +:+ " " +:+ trim_blanks l) rest
            | None => (buf +:+ " ", "")
            end
          else (buf, s)
      | "" => (buf, s)
      end
  end.

(** [ReadContinuedLine] *)
Definition ReadContinuedLine (s : string) : option (string * string) :=
  match read_line s with
  | None => None
  | Some (l, rest) =>
      if is_empty l then Some ("", rest) else Some (continued (String.length rest) (trim_blanks l) rest)
  end.

(** ** Fields *)

(** The bytes of a field name. *)
Definition token_byte (c : ascii) : bool :=
  is_upper c || is_lower c || is_digit c || in_set "!#$%&'*+-.^_`|~" c.

Fixpoint canonical_go (upper : bool) (s : string) : string :=
  match s with
  | "" => ""
  | String c s =>
      String (if upper then upper_byte c else lower_byte c) (canonical_go (Ascii.eqb c "-") s)
  end.
Definition CanonicalMIMEHeaderKey (s : string) : string :=
  if sall token_byte s then canonical_go true s else s.

Abbreviation Header := (gmap string (list string)).

Definition add_field (k v : string) (h : Header) : Header :=
  <[k := default [] (h !! k) ++ [v]]> h.

Inductive header_end := EndBlank | EndEOF | EndMalformed.

(** [readHeader]: every turn consumes a byte. *)
Fixpoint readHeader (fuel : nat) (h : Header) (s : string) : Header * header_end :=
  match fuel with
  | O => (h, EndEOF)
  | S fuel =>
      match ReadContinuedLine s with
      | None => (h, EndEOF)
      | Some (kv, rest) =>
          if is_empty kv then (h, EndBlank) else
          match cut_opt kv ":" with
          | None => (h, EndMalformed)
          | Some (k, v) =>
              let key := CanonicalMIMEHeaderKey k in
              if is_empty key then readHeader fuel h rest
              else readHeader fuel (add_field key (trim_left is_blank v) h) rest
          end
      end
  end.

(** [mail.ReadMessage]: [None] is an error. *)
Definition ReadMessage (data : string) : option Header :=
  match data with
  | String c _ => if is_blank c then None else
      match readHeader (S (String.length data)) ∅ data with
      | (h, EndBlank) => Some h
      | (h, EndEOF) => if bool_decide (h = ∅) then None else Some h
      | (_, EndMalformed) => None
      end
  | "" => None
  end.

(** [Header.Get] *)
Definition Get (h : Header) (key : string) : string :=
  match h !! CanonicalMIMEHeaderKey key with Some (v :: _) => v | _ => "" end.

Record Address := MkAddress { a_Name : string; a_Address : string }.

(** [Header.AddressList], with the parser of an address list. *)
Definition AddressList (ParseAddressList : string → option (list Address)) (h : Header) (key : string)
    : option (list Address) :=
  let v := Get h key in if is_empty v then None else ParseAddressList v.

(** ** The blank line *)

(** Header, its end included, and body of a message; [None] without a
    blank line. *)
Definition split_message (data : string) : option (string * string) :=
  match cut_opt data (CRLF +:+ CRLF) with
  | Some (h, b) => Some (h +:+ CRLF +:+ CRLF, b)
  | None =>
      match cut_opt data (String LF (String LF "")) with
      | Some (h, b) => Some (h +:+ String LF (String LF ""), b)
      | None => None
      end
  end.

Definition headerOf (data : string) : string :=
  match split_message data with Some (h, _) => h | None => data end.
Definition bodyOf (data : string) : string :=
  match split_message data with Some (_, b) => b | None => "" end.

(** The two parts of a message are the message. *)
Lemma header_body data : headerOf data +:+ bodyOf data = data.
Proof.
  unfold headerOf, bodyOf, split_message.
  destruct (cut_opt data (CRLF +:+ CRLF)) as [[h b]|] eqn:E.
  - apply cut_opt_Some in E as ->. by rewrite !sapp_assoc.
  - destruct (cut_opt data (String LF (String LF ""))) as [[h b]|] eqn:E2.
    + apply cut_opt_Some in E2 as ->. by rewrite !sapp_assoc.
    + apply sapp_nil_r.
Qed.

(** ** Field names are found regardless of case *)

Lemma token_byte_lower c : token_byte (lower_byte c) = token_byte c.
Proof.
  apply Bool.eqb_true_iff. revert c. apply (byte_cases (λ c, Bool.eqb (token_byte (lower_byte c)) (token_byte c))).
  vm_compute. reflexivity.
Qed.

Lemma upper_lower_byte c : upper_byte (lower_byte c) = upper_byte c ∧ lower_byte (lower_byte c) = lower_byte c ∧
  Ascii.eqb (lower_byte c) "-" = Ascii.eqb c "-".
Proof.
  assert (H := byte_cases (λ c, (Ascii.eqb (upper_byte (lower_byte c)) (upper_byte c) &&
    Ascii.eqb (lower_byte (lower_byte c)) (lower_byte c) &&
    Bool.eqb (Ascii.eqb (lower_byte c) "-") (Ascii.eqb c "-"))%bool) eq_refl c). cbv beta in H.
  apply andb_true_iff in H as [[H1 H2]%andb_true_iff H3].
  by rewrite (proj1 (Ascii.eqb_eq _ _) H1), (proj1 (Ascii.eqb_eq _ _) H2), (Bool.eqb_prop _ _ H3).
Qed.

Lemma canonical_go_lower b s : canonical_go b (ToLower s) = canonical_go b s.
Proof.
  revert b. induction s as [|c s IH]; intros b; [done|]. cbn [ToLower smap canonical_go].
  destruct (upper_lower_byte c) as (H1&H2&H3). rewrite H1, H2, H3. f_equal. apply IH.
Qed.

Lemma sall_token_lower s : sall token_byte (ToLower s) = sall token_byte s.
Proof. induction s as [|c s IH]; [done|]. cbn [ToLower smap sall]. rewrite token_byte_lower. f_equal. apply IH. Qed.

Lemma Get_case h k k' : sall token_byte k = true → ToLower k = ToLower k' → Get h k = Get h k'.
Proof.
  intros Hk Hl. unfold Get, CanonicalMIMEHeaderKey.
  assert (Hk' : sall token_byte k' = true) by (by rewrite <- sall_token_lower, <- Hl, sall_token_lower).
  by rewrite Hk, Hk', <- canonical_go_lower, Hl, canonical_go_lower.
Qed.

(** ** Folded fields *)

Lemma cut_opt_byte a c b : avoids c a = true → cut_opt (a +:+ String c b) (String c "") = Some (a, b).
Proof.
  intros Ha. pose proof (Cut_byte a c b Ha) as E. unfold Cut in E.
  destruct (cut_opt _ _) as [[x y]|]; congruence.
Qed.

Lemma read_line_CRLF x rest : avoids LF x = true → read_line (x +:+ CRLF +:+ rest) = Some (x, rest).
Proof.
  intros Hx. unfold read_line.
  assert (E : is_empty (x +:+ CRLF +:+ rest) = false) by (destruct x; reflexivity). rewrite E.
  replace (x +:+ CRLF +:+ rest) with ((x +:+ String CR "") +:+ String LF rest) by (by rewrite sapp_assoc).
  rewrite cut_opt_byte by (apply avoids_app; by split). unfold TrimSuffix. rewrite HasSuffix_app.
  do 2 f_equal. rewrite slength_app, Nat.add_sub. apply stake_app.
Qed.

Lemma trim_left_app_stop p s c t : p c = false → trim_left p (s +:+ String c t) = trim_left p s +:+ String c t.
Proof. intros Hc. induction s as [|d s IH]; simpl; [by rewrite Hc|]. destruct (p d); [done|reflexivity]. Qed.

Lemma trim_left_avoids p c s : avoids c s = true → avoids c (trim_left p s) = true.
Proof. induction s as [|d s IH]; [done|]. cbn [trim_left]. destruct (p d); [|done]. intros [_ ?]%avoids_cons. by apply IH. Qed.

Lemma trim_left_idemp p s : trim_left p (trim_left p s) = trim_left p s.
Proof. destruct (trim_left_head p s) as [->|(c&r&->&Hc)]; [done|]. simpl. by rewrite Hc. Qed.

(** Continuation lines as the code writes them. *)
Fixpoint folded (ls : list string) : string :=
  match ls with [] => "" | l :: ls => String TAB (l +:+ CRLF +:+ folded ls) end.

Definition unfolded (first : string) (ls : list string) : string :=
  foldl (λ b l, b +:+ " " +:+ trim_blanks l) first ls.

Definition no_blank_start (s : string) : Prop := match s with String c _ => is_blank c = false | "" => True end.

Lemma continued_folded ls : ∀ fuel buf rest, Forall (λ l, avoids LF l = true) ls → no_blank_start rest →
  (String.length (folded ls +:+ rest) <= fuel)%nat →
  continued fuel buf (folded ls +:+ rest) = (unfolded buf ls, rest).
Proof.
  induction ls as [|l ls IH]; intros fuel buf rest Hl Hr Hf; cbn [folded].
  { change ("" +:+ rest) with rest. destruct fuel; [done|]. cbn [continued]. destruct rest; [done|]. simpl in Hr. by rewrite Hr. }
  apply Forall_cons in Hl as [Hl Hls]. cbn [folded] in Hf. rewrite sapp_cons in *.
  destruct fuel as [|fuel]; [cbn in Hf; lia|]. cbn [continued].
  assert (Et : trim_left is_blank (String TAB ((l +:+ CRLF +:+ folded ls) +:+ rest)) =
    trim_left is_blank l +:+ CRLF +:+ folded ls +:+ rest).
  { change (trim_left is_blank (String TAB ((l +:+ CRLF +:+ folded ls) +:+ rest)))
      with (trim_left is_blank ((l +:+ CRLF +:+ folded ls) +:+ rest)).
    rewrite !sapp_assoc. unfold CRLF. rewrite !sapp_cons. by apply trim_left_app_stop. }
  cbv beta iota. change (is_blank TAB) with true. cbv iota. rewrite Et, read_line_CRLF by (by apply trim_left_avoids).
  rewrite IH; [|done..|].
  - cbn [unfolded foldl]. unfold unfolded, trim_blanks. by rewrite trim_left_idemp.
  - cbn [String.length] in Hf. rewrite !slength_app in *. lia.
Qed.

Lemma ReadContinuedLine_folded first ls rest : first ≠ "" → avoids LF first = true →
  Forall (λ l, avoids LF l = true) ls → no_blank_start rest →
  ReadContinuedLine (first +:+ CRLF +:+ folded ls +:+ rest) = Some (unfolded (trim_blanks first) ls, rest).
Proof.
  intros Hne Hf Hls Hr. unfold ReadContinuedLine. rewrite read_line_CRLF by done.
  destruct (is_empty first) eqn:E; [by destruct first|]. by rewrite continued_folded.
Qed.

(** ** Reading a header ends *)

Lemma read_line_length s l rest : read_line s = Some (l, rest) → (String.length rest < String.length s)%nat.
Proof.
  unfold read_line. destruct s as [|c s]; [done|]. cbn [is_empty].
  destruct (cut_opt _ _) as [[x y]|] eqn:E; intros [= <- <-]; [|cbn; lia].
  apply cut_opt_Some in E. rewrite E, !slength_app. cbn. lia.
Qed.

Lemma continued_length fuel : ∀ buf s b rest, continued fuel buf s = (b, rest) →
  (String.length rest <= String.length s)%nat.
Proof.
  induction fuel as [|fuel IH]; intros buf s b rest; cbn [continued]; [by intros [= _ <-]|].
  destruct s as [|c s]; [by intros [= _ <-]|]. destruct (is_blank c); [|by intros [= _ <-]].
  destruct (read_line _) as [[l r]|] eqn:E; [|intros [= _ <-]; cbn; lia].
  intros Hc%IH. apply read_line_length in E. pose proof (trim_left_length is_blank (String c s)). lia.
Qed.

Lemma ReadContinuedLine_length s kv rest : ReadContinuedLine s = Some (kv, rest) →
  (String.length rest < String.length s)%nat.
Proof.
  unfold ReadContinuedLine. destruct (read_line s) as [[l r]|] eqn:E; [|done]. apply read_line_length in E.
  destruct (is_empty l); [by intros [= _ <-]|]. intros [= Hc]. apply continued_length in Hc. lia.
Qed.

Lemma readHeader_fuel n : ∀ m h s, (String.length s < n)%nat → (String.length s < m)%nat →
  readHeader n h s = readHeader m h s.
Proof.
  induction n as [|n IH]; intros m h s Hn Hm; [lia|]. destruct m as [|m]; [lia|]. cbn [readHeader].
  destruct (ReadContinuedLine s) as [[kv rest]|] eqn:E; [|done]. apply ReadContinuedLine_length in E.
  destruct (is_empty kv); [done|]. destruct (cut_opt kv ":") as [[k v]|]; [|done]. cbv zeta.
  destruct (is_empty _); apply IH; lia.
Qed.

(** Two headers that differ in one field stay so. *)
Lemma readHeader_agree K fuel : ∀ h1 h2 s, (∀ k, k ≠ K → h1 !! k = h2 !! k) →
  (readHeader fuel h1 s).2 = (readHeader fuel h2 s).2 ∧
  ∀ k, k ≠ K → (readHeader fuel h1 s).1 !! k = (readHeader fuel h2 s).1 !! k.
Proof.
  induction fuel as [|fuel IH]; intros h1 h2 s Hh; cbn [readHeader]; [done|].
  destruct (ReadContinuedLine s) as [[kv rest]|]; [|done]. destruct (is_empty kv); [done|].
  destruct (cut_opt kv ":") as [[k v]|]; [|done]. cbv zeta. destruct (is_empty _); apply IH; [done|].
  intros k' Hk'. unfold add_field. destruct (decide (k' = CanonicalMIMEHeaderKey k)) as [->|Hne].
  - by rewrite !lookup_insert_eq, Hh.
  - rewrite !lookup_insert_ne by done. by apply Hh.
Qed.

(** The first value of a field stays the first. *)
Lemma readHeader_first K v fuel : ∀ h s, head (default [] (h !! K)) = Some v →
  head (default [] ((readHeader fuel h s).1 !! K)) = Some v.
Proof.
  induction fuel as [|fuel IH]; intros h s Hh; cbn [readHeader]; [done|].
  destruct (ReadContinuedLine s) as [[kv rest]|]; [|done]. destruct (is_empty kv); [done|].
  destruct (cut_opt kv ":") as [[k w]|]; [|done]. cbv zeta. destruct (is_empty _); apply IH; [done|].
  unfold add_field. destruct (decide (CanonicalMIMEHeaderKey k = K)) as [->|Hne].
  - rewrite lookup_insert_eq. cbn. destruct (h !! K) as [[|]|]; [done..|]. done.
  - by rewrite lookup_insert_ne.
Qed.

(** A field put in front of a message is read first and changes no other. *)
Lemma ReadMessage_prepend key name value data pre h :
  CanonicalMIMEHeaderKey name = key → key ≠ "" →
  ReadContinuedLine (pre +:+ data) = Some (name +:+ String ":" value, data) → avoids ":" name = true → name ≠ "" →
  no_blank_start (pre +:+ data) → pre ≠ "" → ReadMessage data = Some h →
  ∃ h', ReadMessage (pre +:+ data) = Some h' ∧
    head (default [] (h' !! key)) = Some (trim_left is_blank value) ∧ ∀ k, k ≠ key → h' !! k = h !! k.
Proof.
  intros Hkey Hke Hread Hav Hne Hnb Hpre Hm. pose proof (ReadContinuedLine_length _ _ _ Hread) as Hlen.
  set (h0 := add_field key (trim_left is_blank value) ∅ : Header).
  assert (E : readHeader (S (String.length (pre +:+ data))) ∅ (pre +:+ data) = readHeader (S (String.length data)) h0 data).
  { set (r := readHeader (S (String.length data)) h0 data). cbn [readHeader]. rewrite Hread. destruct (is_empty (name +:+ String ":" value)) eqn:Ee; [by destruct name|].
    rewrite cut_opt_byte by done. cbv zeta. rewrite Hkey. destruct (is_empty key) eqn:Ek; [by destruct key|].
    unfold r. apply readHeader_fuel; lia. }
  assert (Hag := readHeader_agree key (S (String.length data)) h0 ∅ data).
  destruct Hag as [Hend Hag].
  { intros k Hk. unfold h0, add_field. by rewrite lookup_insert_ne by congruence. }
  assert (Hfirst : head (default [] ((readHeader (S (String.length data)) h0 data).1 !! key)) = Some (trim_left is_blank value)).
  { apply readHeader_first. unfold h0, add_field. by rewrite lookup_insert_eq. }
  unfold ReadMessage in *. destruct data as [|d data']; [done|]. destruct (is_blank d); [done|].
  destruct (pre +:+ String d data') as [|c rest] eqn:Ep; [by destruct pre|]. cbn in Hnb. rewrite Hnb, E.
  destruct (readHeader _ h0 _) as [h1 e1], (readHeader _ ∅ _) as [h2 e2]. cbn [fst snd] in *. subst e2.
  exists h1. destruct e1; [injection Hm as <-|case_bool_decide; [done|injection Hm as <-]|done].
  - split_and!; [done|done|exact Hag].
  - split_and!; [|done|exact Hag]. rewrite bool_decide_false; [done|]. intros ->. by rewrite lookup_empty in Hfirst.
Qed.

Example ReadMessage_example :
  (λ h, (Get h "message-id", Get h "SUBJECT", Get h "to")) <$>
    ReadMessage ("Subject: a" +:+ CRLF +:+ "  b" +:+ CRLF +:+ "Message-Id:  <1>" +:+ CRLF +:+ CRLF +:+ "x") =
  Some ("<1>", "a b", "").
Proof. vm_compute. reflexivity. Qed.
