(* ===== verification/GoScan.v ===== *)
(** * Text files read line by line

    [bufio.Scanner] with [ScanLines] and a bounded buffer, and the lemmas
    on fields and numbers that the files of lines share. *)

From S2P Require Import Prelude GoStrings.

(** [bufio.ScanLines]: lines without their end, a final one without
    [LF] included; a line that does not fit the buffer ends the scan. *)
Definition drop_cr (s : string) : string := TrimSuffix s (String CR "").

Fixpoint scan_lines_go (s cur : string) : list string :=
  match s with
  | "" => if is_empty cur then [] else [cur]
  | String c s => if Ascii.eqb c LF then cur :: scan_lines_go s "" else scan_lines_go s (cur +:+ String c "")
  end.

(** The lines before the first that is too long, and whether there is one. *)
Fixpoint until_too_long (max : Z) (l : list string) : list string * bool :=
  match l with
  | x :: l =>
      if slen x <? max then let '(ls, e) := until_too_long max l in (drop_cr x :: ls, e) else ([], true)
  | [] => ([], false)
  end.

Definition scan (max : Z) (s : string) : list string * bool := until_too_long max (scan_lines_go s "").

(** ** Scanning *)

Lemma scan_lines_go_line l rest cur : avoids LF l = true →
  scan_lines_go (l +:+ String LF "" +:+ rest) cur = (cur +:+ l) :: scan_lines_go rest "".
Proof.
  revert cur. induction l as [|c l IH]; intros cur H.
  - simpl. by rewrite sapp_nil_r.
  - apply avoids_cons in H as [Hc Hl]. rewrite !sapp_cons. cbn [scan_lines_go].
    rewrite (proj2 (Ascii.eqb_neq _ _) Hc), IH by done. by rewrite sapp_assoc.
Qed.

(** A line that is read back as it was written. *)
Definition clean_line (max : Z) (l : string) : Prop :=
  avoids LF l = true ∧ slen l < max ∧ HasSuffix l (String CR "") = false.

Lemma drop_cr_clean max l : clean_line max l → drop_cr l = l.
Proof. intros (_&_&H). unfold drop_cr, TrimSuffix. by rewrite H. Qed.

Lemma scan_clean max ls : Forall (clean_line max) ls →
  scan max (Join ((λ l, l +:+ String LF "") <$> ls) "") = (ls, false).
Proof.
  unfold scan. induction 1 as [|l ls Hl Hls IH]; [done|].
  rewrite fmap_cons, Join_nil_cons, sapp_assoc, scan_lines_go_line by apply Hl. cbn [until_too_long]. change ("" +:+ l) with l.
  rewrite (proj2 (Z.ltb_lt _ _)) by apply Hl. rewrite IH. by rewrite (drop_cr_clean max).
Qed.

(** ** Fields *)

Lemma fields_go_word p w rest cur : sall (λ c, negb (p c)) w = true →
  fields_go p (w +:+ rest) cur = fields_go p rest (cur +:+ w).
Proof.
  revert cur. induction w as [|c w IH]; intros cur H; [by rewrite sapp_nil_r|].
  apply andb_true_iff in H as [Hc Hw]. rewrite sapp_cons. cbn [fields_go].
  apply negb_true_iff in Hc. rewrite Hc, IH by done. by rewrite sapp_assoc.
Qed.

Lemma Fields_two a b : sall (λ c, negb (is_space c)) a = true → sall (λ c, negb (is_space c)) b = true →
  a ≠ "" → b ≠ "" → Fields (a +:+ " " +:+ b) = [a; b].
Proof.
  intros Ha Hb Hna Hnb. unfold Fields, FieldsFunc. rewrite fields_go_word by done.
  simpl. destruct a as [|c a]; [done|]. simpl. f_equal.
  rewrite <- (sapp_nil_r b) at 1. rewrite fields_go_word by done. simpl.
  by destruct b.
Qed.

Lemma digits_not_space s : sall is_digit s = true → sall (λ c, negb (is_space c)) s = true.
Proof.
  apply sall_impl. intros c Hc.
  assert (H : implb (is_digit c) (negb (is_space c)) = true)
    by (revert c Hc; intros c _; revert c; apply byte_cases; vm_compute; reflexivity).
  by rewrite Hc in H.
Qed.

Lemma HasSuffix_char s c : HasSuffix s (String c "") = true → ∃ t, s = t +:+ String c "".
Proof. intros H%HasSuffix_spec. eauto. Qed.

Lemma dec_length32 z : 0 <= z < 2 ^ 32 → slen (dec z) <= 10.
Proof. intros Hz. apply (dec_length z 10); [|lia]. change (10 ^ Z.of_nat 10) with 10000000000. lia. Qed.

Lemma ParseUint_range s bits n : ParseUint s bits = Some n → 0 <= n < 2 ^ bits.
Proof.
  unfold ParseUint. destruct (is_empty s); [done|]. destruct (digits_val 0 s) as [z|] eqn:E; [|done].
  case_goal; [|done]. intros [=<-]. reflect_bool. split; [|done]. by eapply digits_val_nonneg in E.
Qed.

