(* ===== verification/GoRegexp.v ===== *)
(** * Regular expressions: package [regexp]

    The constructs the code uses, matched leftmost-first as the package
    does: greedy repetition, alternation in order, one capture group, word
    boundaries and case folding.  Texts are bytes; a folded letter also
    stands for the two non-ASCII letters that fold to it, U+017F for [s]
    and U+212A for [k]. *)

From S2P Require Import Prelude GoStrings.

Inductive re :=
  | RClass (p : ascii → bool)
  | RSeq (a b : re)
  | RAlt (a b : re)
  (** one or more times, as often as possible *)
  | RPlus (a : re)
  (** zero or one time, if possible *)
  | ROpt (a : re)
  | RGroup (a : re)
  (** [\b] *)
  | RBoundary.

Definition RStar (a : re) : re := ROpt (RPlus a).

Definition is_word (c : ascii) : bool := is_upper c || is_lower c || is_digit c || Ascii.eqb c "_".
Definition word_at (c : option ascii) : bool := match c with Some c => is_word c | None => false end.
Definition head_byte (s : string) : option ascii := match s with String c _ => Some c | "" => None end.
Fixpoint last_byte (prev : option ascii) (s : string) : option ascii :=
  match s with "" => prev | String c s => last_byte (Some c) s end.

(** The bytes of [s] before its suffix [t]. *)
Definition before (s t : string) : string := stake (String.length s - String.length t) s.

(** The byte before a position, the text from it on, and the group. *)
Record pos := MkPos { p_prev : option ascii; p_rest : string; p_group : string }.

(** Matching with a continuation: the first way in which the expression and
    what follows it match.  A repetition consumes bytes on every turn, so
    the length of the text bounds it. *)
Fixpoint exec {R} (r : re) (p : pos) (k : pos → option R) : option R :=
  match r with
  | RClass q =>
      match p_rest p with
      | String c s => if q c then k (MkPos (Some c) s (p_group p)) else None
      | "" => None
      end
  | RSeq a b => exec a p (λ p, exec b p k)
  | RAlt a b => match exec a p k with Some x => Some x | None => exec b p k end
  | RPlus a =>
      (fix loop (n : nat) (p : pos) : option R :=
         exec a p (λ p',
           match n with
           | O => k p'
           | S n => match loop n p' with Some x => Some x | None => k p' end
           end)) (String.length (p_rest p)) p
  | ROpt a => match exec a p k with Some x => Some x | None => k p end
  | RGroup a => exec a p (λ p', k (MkPos (p_prev p') (p_rest p') (before (p_rest p) (p_rest p'))))
  | RBoundary => if xorb (word_at (p_prev p)) (word_at (head_byte (p_rest p))) then k p else None
  end.

(** The match at a position: the text after it and the group. *)
Definition match_here (r : re) (prev : option ascii) (s : string) : option (string * string) :=
  exec r (MkPos prev s "") (λ p, Some (p_rest p, p_group p)).

(** The groups of all matches, from the left and without overlap; no
    expression of the code matches the empty text.  Every turn consumes a
    byte. *)
Fixpoint find_all (fuel : nat) (r : re) (prev : option ascii) (s : string) : list string :=
  match fuel with
  | O => []
  | S fuel =>
      match match_here r prev s with
      | Some (rest, g) => g :: find_all fuel r (last_byte prev (before s rest)) rest
      | None =>
          match s with
          | "" => []
          | String c s => find_all fuel r (Some c) s
          end
      end
  end.
Definition FindAllStringSubmatch (r : re) (s : string) : list string := find_all (S (String.length s)) r None s.

Fixpoint match_from (r : re) (prev : option ascii) (s : string) : bool :=
  match match_here r prev s with
  | Some _ => true
  | None => match s with "" => false | String c s => match_from r (Some c) s end
  end.
Definition MatchString (r : re) (s : string) : bool := match_from r None s.

(** ** Building expressions *)

Definition RByte (c : ascii) : re := RClass (Ascii.eqb c).

(** A letter regardless of case. *)
Definition long_s : re := RSeq (RByte (byte 197)) (RByte (byte 191)).
Definition kelvin : re := RSeq (RByte (byte 226)) (RSeq (RByte (byte 132)) (RByte (byte 170))).
Definition RFold (c : ascii) : re :=
  let r := RClass (λ d, Ascii.eqb (lower_byte d) c) in
  if Ascii.eqb c "s" then RAlt r long_s else if Ascii.eqb c "k" then RAlt r kelvin else r.

(** The letters and some other bytes, regardless of case. *)
Definition RLetters (other : ascii → bool) : re :=
  RAlt (RClass (λ c, is_upper c || is_lower c || other c)) (RAlt long_s kelvin).

Fixpoint RText (byte : ascii → re) (c : ascii) (s : string) : re :=
  match s with "" => byte c | String d s => RSeq (byte c) (RText byte d s) end.
Definition RLit (s : string) : re := match s with String c s => RText RByte c s | "" => ROpt RBoundary end.
Definition RWord (s : string) : re := match s with String c s => RText RFold c s | "" => ROpt RBoundary end.

Definition blank_class : re := RClass (λ c, in_set (of_chars [byte 9; byte 10; byte 12; byte 13; byte 32]) c).

Example re_alternation :
  FindAllStringSubmatch (RSeq (RAlt (RWord "filename") (RWord "name")) (RSeq (RByte "=") (RGroup (RPlus (RClass is_lower)))))
    "FileName=ab;name=c" = ["ab"; "c"].
Proof. vm_compute. reflexivity. Qed.

Example re_backtrack :
  MatchString (RSeq (RPlus (RClass is_digit)) (RSeq (RByte "1") RBoundary)) "x 211" = true ∧
  MatchString (RSeq (RPlus (RClass is_digit)) (RSeq (RByte "1") RBoundary)) "x 211a" = false.
Proof. vm_compute. by split. Qed.

(** ** What is matched *)

(** The texts an expression can consume, whatever surrounds them. *)
Inductive lang : re → string → Prop :=
  | l_class q c : q c = true → lang (RClass q) (String c "")
  | l_seq a b x y : lang a x → lang b y → lang (RSeq a b) (x +:+ y)
  | l_alt_l a b x : lang a x → lang (RAlt a b) x
  | l_alt_r a b x : lang b x → lang (RAlt a b) x
  | l_plus_one a x : lang a x → lang (RPlus a) x
  | l_plus_more a x y : lang a x → lang (RPlus a) y → lang (RPlus a) (x +:+ y)
  | l_opt_none a : lang (ROpt a) ""
  | l_opt_some a x : lang a x → lang (ROpt a) x
  | l_group a x : lang a x → lang (RGroup a) x
  | l_boundary : lang RBoundary "".

Lemma exec_lang {R} r : ∀ p (k : pos → option R) v, exec r p k = Some v →
  ∃ x p', lang r x ∧ p_rest p = x +:+ p_rest p' ∧ k p' = Some v.
Proof.
  induction r as [q|a IHa b IHb|a IHa b IHb|a IHa|a IHa|a IHa|]; intros p k v; cbn [exec].
  - destruct (p_rest p) as [|c s] eqn:E; [done|]. destruct (q c) eqn:Hq; [|done]. intros Hk.
    exists (String c ""), (MkPos (Some c) s (p_group p)). split; [by constructor|done].
  - intros (x&p1&Hx&E1&(y&p2&Hy&E2&Hk)%IHb)%IHa. exists (x +:+ y), p2. split; [by constructor|].
    split; [by rewrite E1, E2, sapp_assoc|done].
  - destruct (exec a p k) eqn:E.
    + intros [= <-]. apply IHa in E as (x&p'&Hx&?&?). exists x, p'. split; [by constructor|done].
    + intros (x&p'&Hx&?&?)%IHb. exists x, p'. split; [by constructor|done].
  - generalize (String.length (p_rest p)) as n. intros n. revert p. induction n as [|n IHn]; intros p;
      intros (x&p1&Hx&E1&Hk)%IHa.
    + exists x, p1. split; [by constructor|done].
    + match type of Hk with match ?m with _ => _ end = _ => destruct m eqn:E end.
      * injection Hk as <-. apply IHn in E as (y&p2&Hy&E2&Hk). exists (x +:+ y), p2.
        split; [by constructor|]. split; [by rewrite E1, E2, sapp_assoc|done].
      * exists x, p1. split; [by constructor|done].
  - destruct (exec a p k) eqn:E.
    + intros [= <-]. apply IHa in E as (x&p'&Hx&?&?). exists x, p'. split; [by constructor|done].
    + intros Hk. exists "", p. split; [constructor|done].
  - intros (x&p'&Hx&E&Hk)%IHa. eexists x, _. split; [by constructor|]. by split; [|exact Hk].
  - destruct (xorb _ _); [|done]. intros Hk. exists "", p. split; [constructor|done].
Qed.

(** A class is repeated up to the first byte outside it. *)
Lemma exec_plus_class {R} q x c rest prev g (k : pos → option R) v : x ≠ "" → sall q x = true → q c = false →
  k (MkPos (last_byte prev x) (String c rest) g) = Some v →
  exec (RPlus (RClass q)) (MkPos prev (x +:+ String c rest) g) k = Some v.
Proof.
  intros Hne Hx Hc Hk. cbn [exec p_rest p_prev p_group].
  assert (Hn : (String.length x <= String.length (x +:+ String c rest))%nat) by (rewrite slength_app; lia).
  revert Hn. generalize (String.length (x +:+ String c rest)) as n. intros n. revert prev x Hne Hx Hk.
  induction n as [|n IH]; intros prev x Hne Hx Hk Hn; destruct x as [|d x]; cbn [String.length] in Hn; try done; try lia.
  apply andb_true_iff in Hx as [Hd Hx]. cbn [last_byte] in Hk. rewrite sapp_cons. cbv beta iota. cbn [p_rest p_group]. rewrite Hd.
  destruct x as [|d' x].
  - destruct n as [|n]; change ("" +:+ String c rest) with (String c rest);
      cbn [p_rest]; rewrite Hc; exact Hk.
  - rewrite IH; [done|done|done|done|lia].
Qed.

Lemma exec_alt_l {R} a b p (k : pos → option R) v : exec a p k = Some v → exec (RAlt a b) p k = Some v.
Proof. intros E. cbn [exec]. by rewrite E. Qed.

Lemma exec_opt {R} a p (k : pos → option R) v : exec a p k = Some v → exec (ROpt a) p k = Some v.
Proof. intros E. cbn [exec]. by rewrite E. Qed.

Lemma exec_star_none {R} q c s prev g (k : pos → option R) : q c = false →
  exec (RStar (RClass q)) (MkPos prev (String c s) g) k = k (MkPos prev (String c s) g).
Proof. intros Hq. unfold RStar. cbn [exec p_rest String.length]. by rewrite Hq. Qed.

(** Bytes at which nothing matches are skipped; a match before the end of
    the text is found. *)
Lemma find_all_skip r g rest target : ∀ pre fuel prev,
  (∀ x y z, pre = x +:+ y → y ≠ "" → match_here r z (y +:+ target) = None) →
  (∀ z, match_here r z target = Some (rest, g)) → (String.length (pre +:+ target) < fuel)%nat →
  g ∈ find_all fuel r prev (pre +:+ target).
Proof.
  intros pre. induction pre as [|c pre IH]; intros fuel prev Hno Hyes Hf; (destruct fuel as [|fuel]; [lia|]); cbn [find_all].
  - change ("" +:+ target) with target. rewrite Hyes. by left.
  - rewrite (Hno "" (String c pre)) by done. rewrite sapp_cons in *. cbn [String.length] in Hf. apply IH; [|done|lia].
    intros x y z -> Hy. by apply (Hno (String c x) y z).
Qed.

(** ** Words *)

Lemma lang_class q x : lang (RClass q) x → ∃ c, q c = true ∧ x = String c "".
Proof. inversion 1. by eexists. Qed.

Lemma lang_seq a b x : lang (RSeq a b) x → ∃ y z, x = y +:+ z ∧ lang a y ∧ lang b z.
Proof. inversion 1. by do 2 eexists. Qed.

Lemma lang_alt a b x : lang (RAlt a b) x → lang a x ∨ lang b x.
Proof. inversion 1; [by left|by right]. Qed.

Lemma lang_plus_class q x : lang (RPlus (RClass q)) x → sall q x = true.
Proof.
  intros Hl. remember (RPlus (RClass q)) as r eqn:E. induction Hl; simplify_eq.
  - apply lang_class in Hl as (c&Hc&->). cbn. by rewrite Hc.
  - apply lang_class in Hl1 as (c&Hc&->). cbn. by rewrite Hc, IHHl2.
Qed.

Lemma lang_star_class q x : lang (RStar (RClass q)) x → sall q x = true.
Proof. inversion 1; [done|by apply lang_plus_class]. Qed.

(** A word without the letters that have other forms is matched by texts
    of its length made of letters. *)
Definition plain_letter (c : ascii) : bool := is_lower c && negb (Ascii.eqb c "s") && negb (Ascii.eqb c "k").

Lemma lang_fold c x : plain_letter c = true → lang (RFold c) x → ∃ d, x = String d "" ∧ is_lower (lower_byte d) = true.
Proof.
  unfold plain_letter, RFold. intros [[Hl Hs%negb_true_iff]%andb_true_iff Hk%negb_true_iff]%andb_true_iff. rewrite Hs, Hk.
  intros (d&Hd%Ascii.eqb_eq&->)%lang_class. exists d. by rewrite Hd.
Qed.

Lemma lang_word s x : s ≠ "" → sall plain_letter s = true → lang (RWord s) x →
  String.length x = String.length s ∧ sall (λ c, is_lower (lower_byte c)) x = true.
Proof.
  destruct s as [|c s]; [done|]. intros _. unfold RWord. revert c x. induction s as [|d s IH]; intros c x Hs Hl; cbn [RText] in Hl.
  - apply andb_true_iff in Hs as [Hc _]. apply lang_fold in Hl as (e&->&He); [|done]. cbn. by rewrite He.
  - apply andb_true_iff in Hs as [Hc Hs]. apply lang_seq in Hl as (y&z&->&Hy&Hz). apply lang_fold in Hy as (e&->&He); [|done].
    apply IH in Hz as [Hlen Hz]; [|done]. rewrite sall_app, slength_app, Hlen. cbn. by rewrite He, Hz.
Qed.
