(* ===== verification/RateLimit.v ===== *)
(** * Rate limiting: per-key token buckets

    Models [internal/ratelimit].  A [Limiter] is a map from keys to
    buckets; [Allow] takes one token of the bucket of a key, refilled with
    the time elapsed since its last use.  The mutex makes every call
    atomic, so a concurrent history is a sequence of calls. *)

From S2P Require Import Prelude GoNum.

(** ** The token bucket *)

Record bucket := Bucket { tokens : f64; last : Z }.

Record Limiter := MkLimiter {
  limit : f64;
  window : Z;
  buckets : gmap string bucket;
}.

(** [New] *)
Definition New (lim : Z) (win : Z) : Limiter :=
  {| limit := f64_of_Z lim; window := win; buckets := ∅ |}.

(** The tokens a bucket earned since it was last used. *)
Definition earned (l : Limiter) (b : bucket) (now : Z) : f64 :=
  fmul (fdiv (f64_of_Z (time_Sub now (last b))) (f64_of_Z (window l))) (limit l).

(** A bucket that would refill completely carries no state. *)
Definition prunable (l : Limiter) (now : Z) (b : bucket) : bool :=
  fge (fadd (tokens b) (earned l b now)) (limit l).

Definition prune (l : Limiter) (now : Z) : Limiter :=
  {| limit := limit l; window := window l;
     buckets := filter (λ kb, prunable l now kb.2 = false) (buckets l) |}.

Definition max_buckets : Z := 65536.

(** The map and the balance on which a call decides: a new bucket starts
    full, an old one is refilled up to the limit. *)
Definition refill (l : Limiter) (key : string) (now : Z) : gmap string bucket * f64 :=
  match buckets l !! key with
  | None =>
      (buckets (if max_buckets <=? Z.of_nat (size (buckets l)) then prune l now else l),
       limit l)
  | Some b =>
      let t := fadd (tokens b) (earned l b now) in
      (buckets l, if fgt t (limit l) then limit l else t)
  end.

(** [Allow] *)
Definition Allow (l : Limiter) (key : string) (now : Z) : bool * Limiter :=
  let '(m, t) := refill l key now in
  let store t' :=
    {| limit := limit l; window := window l; buckets := <[key := Bucket t' now]> m |} in
  if flt t (f64_of_Z 1) then (false, store t)
  else (true, store (fsub t (f64_of_Z 1))).

(** ** The limiter sets of a listener

    A [nil] set allows everything. *)

Record Inbound := { in_conns : Limiter; in_msgs : Limiter; in_rcpts : Limiter }.

Definition NewInbound (connsPerMin msgsPerMin rcptsPerMin : Z) : Inbound :=
  {| in_conns := New connsPerMin Minute;
     in_msgs := New msgsPerMin Minute;
     in_rcpts := New rcptsPerMin Minute |}.

Definition ConnAllowed (i : option Inbound) (ip : string) (now : Z) : bool * option Inbound :=
  match i with
  | None => (true, None)
  | Some i =>
      let '(ok, l) := Allow (in_conns i) ip now in
      (ok, Some {| in_conns := l; in_msgs := in_msgs i; in_rcpts := in_rcpts i |})
  end.

Definition in_MsgAllowed (i : option Inbound) (ip : string) (now : Z) : bool * option Inbound :=
  match i with
  | None => (true, None)
  | Some i =>
      let '(ok, l) := Allow (in_msgs i) ip now in
      (ok, Some {| in_conns := in_conns i; in_msgs := l; in_rcpts := in_rcpts i |})
  end.

Definition in_RcptAllowed (i : option Inbound) (ip : string) (now : Z) : bool * option Inbound :=
  match i with
  | None => (true, None)
  | Some i =>
      let '(ok, l) := Allow (in_rcpts i) ip now in
      (ok, Some {| in_conns := in_conns i; in_msgs := in_msgs i; in_rcpts := l |})
  end.

Record Outbound := { out_msgs : Limiter; out_rcpts : Limiter }.

Definition NewOutbound (msgsPerHour rcptsPerHour : Z) : Outbound :=
  {| out_msgs := New msgsPerHour Hour; out_rcpts := New rcptsPerHour Hour |}.

Definition out_MsgAllowed (o : option Outbound) (user : string) (now : Z) : bool * option Outbound :=
  match o with
  | None => (true, None)
  | Some o =>
      let '(ok, l) := Allow (out_msgs o) user now in
      (ok, Some {| out_msgs := l; out_rcpts := out_rcpts o |})
  end.

Definition out_RcptAllowed (o : option Outbound) (user : string) (now : Z) : bool * option Outbound :=
  match o with
  | None => (true, None)
  | Some o =>
      let '(ok, l) := Allow (out_rcpts o) user now in
      (ok, Some {| out_msgs := out_msgs o; out_rcpts := l |})
  end.

(** ** Sequences of calls *)

(** The answers to a sequence of calls, and the limiter they leave. *)
Fixpoint allow_all (l : Limiter) (calls : list (string * Z)) : list bool * Limiter :=
  match calls with
  | [] => ([], l)
  | (key, now) :: calls =>
      let '(b, l1) := Allow l key now in
      let '(bs, l2) := allow_all l1 calls in (b :: bs, l2)
  end.

(** ** Laws *)

Lemma Allow_bucket l key now :
  buckets (Allow l key now).2 !! key =
    Some (Bucket (let t := (refill l key now).2 in
                  if flt t (f64_of_Z 1) then t else fsub t (f64_of_Z 1)) now).
Proof.
  unfold Allow. destruct (refill l key now) as [m t]; simpl.
  destruct (flt t _); apply lookup_insert_eq.
Qed.

Lemma Allow_answer l key now :
  (Allow l key now).1 = negb (flt (refill l key now).2 (f64_of_Z 1)).
Proof. unfold Allow. destruct (refill l key now) as [m t]. simpl. by destruct (flt t _). Qed.

Lemma Allow_limit l key now : limit (Allow l key now).2 = limit l.
Proof. unfold Allow. destruct (refill l key now) as [m t]; simpl. by destruct (flt t _). Qed.

Lemma Allow_window l key now : window (Allow l key now).2 = window l.
Proof. unfold Allow. destruct (refill l key now) as [m t]; simpl. by destruct (flt t _). Qed.

Lemma Allow_other_refill l key key' now :
  key ≠ key' →
  buckets (Allow l key now).2 !! key' = (refill l key now).1 !! key'.
Proof.
  intros Hk. unfold Allow. destruct (refill l key now) as [m t]; simpl.
  destruct (flt t _); by apply lookup_insert_ne.
Qed.

Lemma prune_lookup l now key :
  buckets (prune l now) !! key =
    match buckets l !! key with
    | Some b => if prunable l now b then None else Some b
    | None => None
    end.
Proof.
  unfold prune; simpl. rewrite map_lookup_filter.
  destruct (buckets l !! key) as [b|]; simpl; [|done].
  by destruct (prunable l now b) eqn:E; simplify_option_eq.
Qed.

(** The key of a refill is looked up in the map before any pruning. *)
Lemma refill_present l key now b :
  buckets l !! key = Some b →
  (refill l key now).2 =
    let t := fadd (tokens b) (earned l b now) in
    if fgt t (limit l) then limit l else t.
Proof. unfold refill. intros ->. reflexivity. Qed.

Lemma refill_absent l key now :
  buckets l !! key = None → (refill l key now).2 = limit l.
Proof. unfold refill. intros ->. reflexivity. Qed.

(** A limiter decides on its parameters and on the bucket of the key. *)
Lemma refill_balance_ext l l' key now :
  limit l = limit l' → window l = window l' →
  buckets l !! key = buckets l' !! key →
  (refill l key now).2 = (refill l' key now).2.
Proof.
  unfold refill, earned. intros <- <- <-. by destruct (buckets l !! key).
Qed.

(** The elapsed time of two calls at the same instant is a zero credit. *)
Lemma earned_zero l b now :
  last b = now → fpos (f64_of_Z (window l)) = true → fpos (limit l) = true →
  earned l b now = S754_zero false.
Proof.
  intros <- Hw Hl. unfold earned, time_Sub. rewrite Z.sub_diag.
  change (f64_of_Z (Z.max min_int64 (Z.min max_int64 0))) with (S754_zero false).
  destruct (f64_of_Z (window l)) as [| | |[] mw ew]; try done.
  destruct (limit l) as [| | |[] ml el]; done.
Qed.

(** *** Integral balances

    The defaults of the configuration are at most 1000; the facts about
    binary64 integers that the burst theorem needs are checked by
    computation up to [burst_bound]. *)

Definition burst_bound : nat := 1024.

Definition integral_ok (k : nat) : bool :=
  let t := f64_of_Z (Z.of_nat k) in
  fpos (f64_of_Z (Z.of_nat (S k))) &&
  fle (f64_of_Z (Z.of_nat (S k))) (f64_of_Z (Z.of_nat (S (S k)))) &&
  bool_decide (fadd t (S754_zero false) = t) &&
  negb (flt (f64_of_Z (Z.of_nat (S k))) (f64_of_Z 1)) &&
  bool_decide (fsub (f64_of_Z (Z.of_nat (S k))) (f64_of_Z 1) = t).

Lemma integral_table : forallb integral_ok (seq 0 (S burst_bound)) = true.
Proof. vm_compute. reflexivity. Qed.

Lemma integral_facts k :
  (k <= burst_bound)%nat →
  let t := f64_of_Z (Z.of_nat k) in
  let t1 := f64_of_Z (Z.of_nat (S k)) in
  fpos t1 = true ∧ fle t1 (f64_of_Z (Z.of_nat (S (S k)))) = true ∧
  fadd t (S754_zero false) = t ∧ flt t1 (f64_of_Z 1) = false ∧
  fsub t1 (f64_of_Z 1) = t.
Proof.
  intros Hk t t1. pose proof integral_table as Ht. rewrite forallb_forall in Ht.
  specialize (Ht k). unfold integral_ok in Ht. fold t t1 in Ht.
  assert (In k (seq 0 (S burst_bound))) as Hin by (apply in_seq; lia).
  specialize (Ht Hin). reflect_bool. done.
Qed.

Lemma integral_le k n :
  (1 <= k)%nat → (k <= n)%nat → (n <= burst_bound)%nat →
  fle (f64_of_Z (Z.of_nat k)) (f64_of_Z (Z.of_nat n)) = true.
Proof.
  intros Hk Hkn Hn. induction Hkn as [|n Hkn IH].
  - destruct k as [|k]; [lia|]. destruct (integral_facts k) as (Hp&_); [lia|].
    by destruct (fpos_cases _ _ Hp Hp) as [(_&?&_)|[(?&_)|(_&_&Hx)]];
      rewrite ?flt_irrefl in *.
  - destruct k as [|k], n as [|n]; try lia.
    destruct (integral_facts k) as (Hp1&_); [lia|].
    destruct (integral_facts n) as (Hp2&Hs&_); [lia|].
    destruct (integral_facts (S n)) as (Hp3&_); [lia|].
    eapply (fle_trans_pos _ _ _ Hp1 Hp2 Hp3); [apply IH; lia|done].
Qed.

(** Refilling a bucket of [k] tokens at the instant of its last use
    leaves it at [k] tokens. *)
Lemma refill_integral l key now k n :
  fpos (f64_of_Z (window l)) = true →
  limit l = f64_of_Z (Z.of_nat n) → (1 <= n)%nat → (k <= n)%nat → (n <= burst_bound)%nat →
  buckets l !! key = Some (Bucket (f64_of_Z (Z.of_nat k)) now) →
  (refill l key now).2 = f64_of_Z (Z.of_nat k).
Proof.
  intros Hw Hl Hn Hk Hb Hkey.
  assert (Hp : fpos (limit l) = true).
  { rewrite Hl. destruct n as [|n]; [lia|]. apply (integral_facts n). lia. }
  rewrite (refill_present _ _ _ _ Hkey). cbn [tokens].
  rewrite (earned_zero l (Bucket (f64_of_Z (Z.of_nat k)) now) now) by done.
  destruct (integral_facts k) as (_&_&->&_); [lia|].
  destruct (fgt (f64_of_Z (Z.of_nat k)) (limit l)) eqn:E; [|done].
  exfalso. revert E. rewrite Hl. unfold fgt. destruct k as [|k].
  - change (f64_of_Z (Z.of_nat 0)) with (S754_zero false). rewrite <- Hl.
    by destruct (limit l) as [| | |[] m e].
  - destruct (integral_facts k) as (Hpk&_); [lia|]. rewrite Hl in Hp.
    rewrite fle_not_flt_pos; [done..|]. apply integral_le; lia.
Qed.

(** ** Properties *)

(** From a balance of [k] tokens, [m] calls at one instant are answered
    by [k] acceptances followed by refusals. *)
Lemma burst_from l key now n k m :
  fpos (f64_of_Z (window l)) = true →
  limit l = f64_of_Z (Z.of_nat n) → (1 <= n)%nat → (k <= n)%nat → (n <= burst_bound)%nat →
  (refill l key now).2 = f64_of_Z (Z.of_nat k) →
  (allow_all l (replicate m (key, now))).1 =
    replicate (m `min` k) true ++ replicate (m - k) false.
Proof.
  intros Hw Hl Hn Hk Hb. revert l k Hw Hl Hk.
  induction m as [|m IH]; intros l k Hw Hl Hk Hr; [done|]. simpl.
  pose proof (Allow_answer l key now) as Ha. pose proof (Allow_bucket l key now) as Hbk.
  pose proof (Allow_limit l key now) as Hlim. pose proof (Allow_window l key now) as Hwin.
  destruct (Allow l key now) as [b l1]. simpl in *. rewrite Hr in Ha, Hbk.
  destruct k as [|k].
  - change (flt (f64_of_Z (Z.of_nat 0)) (f64_of_Z 1)) with true in Ha, Hbk. simpl in Ha, Hbk.
    specialize (IH l1 O). rewrite Hwin, Hlim in IH.
    destruct (allow_all l1 _) as [bs l2]. simpl in *. subst b.
    rewrite Nat.min_0_r in *. rewrite Nat.sub_0_r in IH. simpl. f_equal.
    apply IH; try (done || lia).
    eapply refill_integral; [by rewrite Hwin|by rewrite Hlim|lia..|done].
  - destruct (integral_facts k) as (_&_&_&Hf&Hs); [lia|]. rewrite Hf in Ha, Hbk.
    cbn zeta iota in Hbk. rewrite Hs in Hbk.
    specialize (IH l1 k). rewrite Hwin, Hlim in IH.
    destruct (allow_all l1 _) as [bs l2]. simpl in *. subst b. f_equal.
    apply IH; try (done || lia).
    eapply refill_integral; [by rewrite Hwin|by rewrite Hlim|lia..|done].
Qed.

(** a key that has no bucket yet is granted exactly its burst: of any
    number of calls at one instant the first [n] are allowed and all the
    later ones refused, [n] being the configured limit. *)
Theorem burst_exact l key now n m :
  fpos (f64_of_Z (window l)) = true →
  limit l = f64_of_Z (Z.of_nat n) → (1 <= n)%nat → (n <= burst_bound)%nat →
  buckets l !! key = None →
  (allow_all l (replicate m (key, now))).1 =
    replicate (m `min` n) true ++ replicate (m - n) false.
Proof.
  intros Hw Hl Hn Hb Hk. apply (burst_from l key now n n m); try done.
  by rewrite refill_absent.
Qed.

Lemma burst_exact_witness :
  (allow_all (New 3 Minute) (replicate 5 ("10.0.0.1", 7))).1 = [true; true; true; false; false].
Proof. apply (burst_exact (New 3 Minute) "10.0.0.1" 7 3 5); reflexivity || lia || idtac. all: unfold burst_bound; lia. Defined.

(** Only a full map is pruned. *)
Lemma refill_map l key now :
  Z.of_nat (size (buckets l)) < max_buckets → (refill l key now).1 = buckets l.
Proof.
  intros Hs. unfold refill. destruct (buckets l !! key); [done|]. simpl.
  destruct (Z.leb_spec max_buckets (Z.of_nat (size (buckets l)))); [lia|done].
Qed.

Lemma Allow_other l key key' now :
  Z.of_nat (size (buckets l)) < max_buckets → key ≠ key' →
  buckets (Allow l key now).2 !! key' = buckets l !! key'.
Proof. intros Hs Hk. by rewrite Allow_other_refill, refill_map. Qed.

Lemma Allow_size l key now :
  Z.of_nat (size (buckets l)) < max_buckets →
  (size (buckets (Allow l key now).2) <= S (size (buckets l)))%nat.
Proof.
  intros Hs. pose proof (refill_map l key now Hs) as Hm. unfold Allow.
  destruct (refill l key now) as [m t]. simpl in Hm. subst m.
  assert (∀ b, size (<[key:=b]> (buckets l)) <= S (size (buckets l)))%nat.
  { intros b. rewrite map_size_insert. destruct (buckets l !! key); simpl; lia. }
  by destruct (flt t _); simpl.
Qed.

(** Two limiters that agree on the bucket of a key. *)
Definition agree (key : string) (l l' : Limiter) : Prop :=
  limit l = limit l' ∧ window l = window l' ∧ buckets l !! key = buckets l' !! key.

Lemma Allow_agree l l' key now :
  agree key l l' →
  (Allow l key now).1 = (Allow l' key now).1 ∧
  agree key (Allow l key now).2 (Allow l' key now).2.
Proof.
  intros (Hl&Hw&Hb). pose proof (refill_balance_ext l l' key now Hl Hw Hb) as Hr.
  rewrite !Allow_answer, Hr. split; [done|]. unfold agree.
  by rewrite !Allow_limit, !Allow_window, !Allow_bucket, Hr.
Qed.

(** keys do not interfere: in any sequence of calls that cannot fill
    the table, the answers given to a key are those it would get if the
    calls of the other keys were removed. *)
Theorem keys_independent l calls key :
  Z.of_nat (size (buckets l)) + llen calls <= max_buckets →
  (filter (λ cb, cb.1.1 = key) (zip calls (allow_all l calls).1)).*2 =
  (allow_all l (filter (λ c, c.1 = key) calls)).1.
Proof.
  enough (H : ∀ l', agree key l l' → Z.of_nat (size (buckets l)) + llen calls <= max_buckets →
    (filter (λ cb, cb.1.1 = key) (zip calls (allow_all l calls).1)).*2 =
    (allow_all l' (filter (λ c, c.1 = key) calls)).1) by (intros; by apply H).
  revert l. induction calls as [|[k now] calls IH]; intros l l' Hag Hs; [done|].
  rewrite llen_cons in Hs. pose proof (llen_nonneg calls).
  assert (Hlt : Z.of_nat (size (buckets l)) < max_buckets) by lia.
  pose proof (Allow_size l k now Hlt) as Hsz.
  rewrite filter_cons. simpl. destruct (decide (k = key)) as [->|Hk].
  - destruct (Allow_agree l l' key now Hag) as [Ha Hag']. simpl.
    destruct (Allow l key now) as [b l1], (Allow l' key now) as [b' l1']. simpl in *. subst b'.
    specialize (IH l1 l1' Hag'). 
    destruct (allow_all l1 calls) as [bs l2], (allow_all l1' _) as [bs' l2']. simpl in *.
    rewrite filter_cons_True by done. simpl. f_equal. apply IH. lia.
  - assert (Hag' : agree key (Allow l k now).2 l').
    { destruct Hag as (?&?&?). unfold agree.
      by rewrite Allow_limit, Allow_window, Allow_other. }
    destruct (Allow l k now) as [b l1]. specialize (IH l1 l' Hag').
    destruct (allow_all l1 calls) as [bs l2]. simpl in *.
    rewrite filter_cons_False by done. apply IH. lia.
Qed.

Lemma keys_independent_witness :
  let calls := [("a", 0); ("b", 1); ("a", 5)] in
  (filter (λ cb, cb.1.1 = "a") (zip calls (allow_all (New 1 Minute) calls).1)).*2 = [true; false].
Proof.
  intros calls. etransitivity.
  - apply (keys_independent (New 1 Minute) calls "a"). vm_compute. discriminate.
  - vm_compute. reflexivity.
Defined.

(** pruning is unobservable: at the instant of a pruning, dropping
    the buckets it drops changes neither the answer a key gets nor the
    bucket it is left with. *)
Theorem prune_unobservable l key now :
  fpos (limit l) = true →
  (Allow (prune l now) key now).1 = (Allow l key now).1 ∧
  buckets (Allow (prune l now) key now).2 !! key = buckets (Allow l key now).2 !! key.
Proof.
  intros Hp. enough (Hr : (refill (prune l now) key now).2 = (refill l key now).2).
  { by rewrite !Allow_answer, !Allow_bucket, Hr. }
  destruct (buckets l !! key) as [b|] eqn:Hb.
  - pose proof (prune_lookup l now key) as Hpl. rewrite Hb in Hpl.
    destruct (prunable l now b) eqn:E.
    + rewrite (refill_absent _ _ _ Hpl), (refill_present _ _ _ _ Hb). cbn zeta.
      destruct (fgt _ _) eqn:Hg; [done|]. symmetry. by apply fle_antisym_pos.
    + by rewrite (refill_present _ _ _ _ Hpl), (refill_present _ _ _ _ Hb).
  - rewrite !refill_absent; [done..|]. by rewrite prune_lookup, Hb.
Qed.

Lemma prune_unobservable_witness :
  (Allow (prune (New 2 Minute) 9) "k" 9).1 = true.
Proof.
  destruct (prune_unobservable (New 2 Minute) "k" 9) as [-> _]; reflexivity.
Defined.
