(* ===== verification/Stats.v ===== *)
(** * Event counters

    Models [internal/stats]: ten [atomic.Uint64] counters behind methods
    that tolerate a nil receiver ([None] here). *)

From S2P Require Import Prelude.

Record Counters := MkCounters {
  received : Z; rejected : Z; spam : Z; relayDeny : Z;
  submitted : Z; authOK : Z; authFail : Z;
  delivered : Z; bounced : Z; deferred : Z;
}.

Definition zero_counters : Counters := MkCounters 0 0 0 0 0 0 0 0 0 0.

(** The increments: a 64-bit addition that wraps around. *)
Definition IncReceived (c : option Counters) : option Counters :=
  (λ c, MkCounters (u64 (received c + 1)) (rejected c) (spam c) (relayDeny c) (submitted c)
          (authOK c) (authFail c) (delivered c) (bounced c) (deferred c)) <$> c.
Definition IncRejected (c : option Counters) : option Counters :=
  (λ c, MkCounters (received c) (u64 (rejected c + 1)) (spam c) (relayDeny c) (submitted c)
          (authOK c) (authFail c) (delivered c) (bounced c) (deferred c)) <$> c.
Definition IncSpam (c : option Counters) : option Counters :=
  (λ c, MkCounters (received c) (rejected c) (u64 (spam c + 1)) (relayDeny c) (submitted c)
          (authOK c) (authFail c) (delivered c) (bounced c) (deferred c)) <$> c.
Definition IncRelayDeny (c : option Counters) : option Counters :=
  (λ c, MkCounters (received c) (rejected c) (spam c) (u64 (relayDeny c + 1)) (submitted c)
          (authOK c) (authFail c) (delivered c) (bounced c) (deferred c)) <$> c.
Definition IncSubmitted (c : option Counters) : option Counters :=
  (λ c, MkCounters (received c) (rejected c) (spam c) (relayDeny c) (u64 (submitted c + 1))
          (authOK c) (authFail c) (delivered c) (bounced c) (deferred c)) <$> c.
Definition IncAuthOK (c : option Counters) : option Counters :=
  (λ c, MkCounters (received c) (rejected c) (spam c) (relayDeny c) (submitted c)
          (u64 (authOK c + 1)) (authFail c) (delivered c) (bounced c) (deferred c)) <$> c.
Definition IncAuthFail (c : option Counters) : option Counters :=
  (λ c, MkCounters (received c) (rejected c) (spam c) (relayDeny c) (submitted c)
          (authOK c) (u64 (authFail c + 1)) (delivered c) (bounced c) (deferred c)) <$> c.
Definition IncDelivered (c : option Counters) : option Counters :=
  (λ c, MkCounters (received c) (rejected c) (spam c) (relayDeny c) (submitted c)
          (authOK c) (authFail c) (u64 (delivered c + 1)) (bounced c) (deferred c)) <$> c.
Definition IncBounced (c : option Counters) : option Counters :=
  (λ c, MkCounters (received c) (rejected c) (spam c) (relayDeny c) (submitted c)
          (authOK c) (authFail c) (delivered c) (u64 (bounced c + 1)) (deferred c)) <$> c.
Definition IncDeferred (c : option Counters) : option Counters :=
  (λ c, MkCounters (received c) (rejected c) (spam c) (relayDeny c) (submitted c)
          (authOK c) (authFail c) (delivered c) (bounced c) (u64 (deferred c + 1))) <$> c.

(** [Snapshot]: zeros for a nil receiver. *)
Definition Snapshot (c : option Counters) : Counters := default zero_counters c.
