(* ===== verification/Auth.v ===== *)
(** * Authentication

    Models [internal/auth]: the password formats ([password.go]), the
    brute-force guard ([guard.go]) and the authenticator that combines
    them ([auth.go]).  The key derivations of [golang.org/x/crypto] are
    parameters. *)

From S2P Require Import Prelude GoStrings GoNum GoBase64.

(** ** Password hashes *)

(** [fmt.Sscanf] on the formats the code uses: literal bytes and [%d].
    A scanner returns the value with the input left. *)
Definition scan_lit (lit : string) (s : string) : option string :=
  if HasPrefix s lit then Some (sskip lit s) else None.

Fixpoint span_digits (s : string) : string * string :=
  match s with
  | String c s' =>
      if is_digit c then let '(d, r) := span_digits s' in (String c d, r) else ("", s)
  | "" => ("", "")
  end.

Definition scan_space (c : ascii) : bool := is_space c && negb (Ascii.eqb c LF).

(** [%d] into an unsigned variable of [bits] bits. *)
Definition scan_uint (bits : Z) (s : string) : option (Z * string) :=
  let '(d, r) := span_digits (trim_left scan_space s) in
  match ParseUint d bits with Some n => Some (n, r) | None => None end.

(** [%d] into an [int]. *)
Definition scan_int (s : string) : option (Z * string) :=
  let s := trim_left scan_space s in
  let '(sign, body) :=
    match s with
    | String "+" s' => ("+", s')
    | String "-" s' => ("-", s')
    | _ => ("", s)
    end in
  let '(d, r) := span_digits body in
  match ParseInt (sign +:+ d) with Some n => Some (n, r) | None => None end.

Definition argon2_Version : Z := 19.

(** [fmt.Sscanf(s, "v=%d", &version)] *)
Definition scan_version (s : string) : option Z :=
  scan_lit "v=" s ≫= λ s, scan_int s ≫= λ '(n, _), Some n.

(** [fmt.Sscanf(s, "m=%d,t=%d,p=%d", &m, &t, &p)] *)
Definition scan_params (s : string) : option (Z * Z * Z) :=
  s ← scan_lit "m=" s; '(m, s) ← scan_uint 32 s;
  s ← scan_lit ",t=" s; '(t, s) ← scan_uint 32 s;
  s ← scan_lit ",p=" s; '(p, s) ← scan_uint 8 s;
  Some (m, t, p).

Definition dummyHash : string :=
  "$argon2id$v=19$m=65536,t=3,p=4$AAAAAAAAAAAAAAAAAAAAAA$q1YkYWjm9jT8sMuqXt8zGJfhY8QhpUKGYs1hK2fBTnM".

Section passwords.
(** [argon2.IDKey password salt time memory threads keyLen] and
    [bcrypt.CompareHashAndPassword hash password = nil]. *)
Context (argon2_IDKey : string → string → Z → Z → Z → Z → string).
Context (bcrypt_ok : string → string → bool).

Definition verifyArgon2id (phc password : string) : bool :=
  match Split phc "$" with
  | [_; alg; ver; params; salt64; key64] =>
      if negb (String.eqb alg "argon2id") then false else
      match scan_version ver with
      | None => false
      | Some version =>
          if negb (version =? argon2_Version) then false else
          match scan_params params with
          | None => false
          | Some (m, t, p) =>
              if (m =? 0) || (t =? 0) || (p =? 0) || (1024 * 1024 <? m) then false else
              match RawDecodeString salt64 with
              | None => false
              | Some salt =>
                  match RawDecodeString key64 with
                  | None => false
                  | Some want =>
                      if is_empty want then false
                      else String.eqb (argon2_IDKey password salt t m p (u32 (slen want))) want
                  end
              end
          end
      end
  | _ => false
  end.

Definition VerifyPassword (hash password : string) : bool :=
  if HasPrefix hash "$argon2id$" then verifyArgon2id hash password
  else if HasPrefix hash "$2a$" || HasPrefix hash "$2b$" || HasPrefix hash "$2y$"
  then bcrypt_ok hash password
  else false.

(** [HashArgon2id] with the random salt as an argument. *)
Definition HashArgon2id (salt password : string) : string :=
  let key := argon2_IDKey password salt 3 (64 * 1024) 4 32 in
  "$argon2id$v=" +:+ dec argon2_Version +:+ "$m=" +:+ dec (64 * 1024) +:+ ",t=" +:+ dec 3
    +:+ ",p=" +:+ dec 4 +:+ "$" +:+ RawEncodeToString salt +:+ "$" +:+ RawEncodeToString key.
End passwords.

Definition KnownHashFormat (hash : string) : bool :=
  HasPrefix hash "$argon2id$" || HasPrefix hash "$2a$" || HasPrefix hash "$2b$"
  || HasPrefix hash "$2y$".

(** ** The guard *)

Record guardEntry := GuardEntry { fails : Z; lockedUntil : Z; last : Z }.

Record Guard := MkGuard {
  maxFailures : Z;
  lockout : Z;
  entries : gmap string guardEntry;
}.

Definition NewGuard (maxFailures lockout : Z) : Guard := MkGuard maxFailures lockout ∅.

Definition Blocked (g : Guard) (key : string) (now : Z) : bool :=
  match entries g !! key with
  | None => false
  | Some e => time_Before now (lockedUntil e)
  end.

Definition stale (g : Guard) (now : Z) (e : guardEntry) : bool :=
  time_After now (lockedUntil e) && (i64 (2 * lockout g) <? time_Sub now (last e)).

Definition guard_prune (g : Guard) (now : Z) : Guard :=
  MkGuard (maxFailures g) (lockout g) (filter (λ ke, stale g now ke.2 = false) (entries g)).

Definition Fail (g : Guard) (key : string) (now : Z) : Z * Guard :=
  let '(m, e) :=
    match entries g !! key with
    | Some e => (entries g, e)
    | None =>
        (entries (if 65536 <=? Z.of_nat (size (entries g)) then guard_prune g now else g),
         GuardEntry 0 0 0)
    end in
  let n := (if i64 (2 * lockout g) <? time_Sub now (last e) then 0 else fails e) + 1 in
  let until := if maxFailures g <=? n then now + lockout g else lockedUntil e in
  let shift := if 4 <? n - 1 then 4 else n - 1 in
  (Z.shiftl (250 * Millisecond) shift,
   MkGuard (maxFailures g) (lockout g) (<[key := GuardEntry n until now]> m)).

Definition Success (g : Guard) (key : string) : Guard :=
  MkGuard (maxFailures g) (lockout g) (delete key (entries g)).

(** ** The authenticator *)

Inductive auth_error := ErrInvalid | ErrLocked.

#[global] Instance auth_error_eq_dec : EqDecision auth_error.
Proof. solve_decision. Defined.

(** The outcome of [Verify]: the error ([None] for nil), the delay slept
    before answering, and the new guard.  [clock] gives the instants of
    its successive readings of the clock. *)
Record verdict := Verdict {
  v_err : option auth_error;
  v_delay : Z;
  v_guard : Guard;
}.

Definition userKey (email : string) : string := "u:" +:+ ToLower (TrimSpace email).
Definition ipKey (ip : string) : string := "ip:" +:+ ip.

Definition Verify (Lookup : string → option string) (check : string → string → bool)
    (g : Guard) (clock : nat → Z) (email password ip : string) : verdict :=
  let name := ToLower (TrimSpace email) in
  if Blocked g (userKey email) (clock 0%nat) || Blocked g (ipKey ip) (clock 1%nat)
  then Verdict (Some ErrLocked) 0 g
  else
    let '(hash, ok) :=
      match Lookup name with Some h => (h, true) | None => (dummyHash, false) end in
    if negb (check hash password) || negb ok then
      let '(d1, g) := Fail g (userKey email) (clock 2%nat) in
      let '(d2, g) := Fail g (ipKey ip) (clock 3%nat) in
      Verdict (Some ErrInvalid) (if d1 <? d2 then d2 else d1) g
    else
      Verdict None 0 (Success (Success g (userKey email)) (ipKey ip)).

(** ** Passwords *)

(** a generated hash verifies exactly the passwords that derive the
    same key: in particular the password it was made from. *)
Theorem hash_verify argon2_IDKey bcrypt_ok salt password password' :
  slen (argon2_IDKey password salt 3 (64 * 1024) 4 32) = 32 →
  VerifyPassword argon2_IDKey bcrypt_ok (HashArgon2id argon2_IDKey salt password) password' =
  String.eqb (argon2_IDKey password' salt 3 (64 * 1024) 4 32)
             (argon2_IDKey password salt 3 (64 * 1024) 4 32).
Proof.
  intros Hlen. unfold HashArgon2id. cbv zeta.
  set (key := argon2_IDKey password salt _ _ _ _) in *.
  assert (Hkey : is_empty key = false) by (destruct key; done).
  assert (Havoid : ∀ s, avoids "$" (RawEncodeToString s) = true)
    by (intros s; by apply encode_go_avoids).
  change ("$argon2id$v=" +:+ _) with ("$argon2id$v=19$m=65536,t=3,p=4$" +:+ RawEncodeToString salt
                            +:+ "$" +:+ RawEncodeToString key).
  set (phc := "$argon2id$v=19$m=65536,t=3,p=4$" +:+ _).
  assert (Hprefix : HasPrefix phc "$argon2id$" = true) by done.
  assert (Hsplit : Split phc "$" = [""; "argon2id"; "v=19"; "m=65536,t=3,p=4";
                                    RawEncodeToString salt; RawEncodeToString key]).
  { unfold phc. cbn. rewrite Split_app, Split_avoids by done. done. }
  unfold VerifyPassword. rewrite Hprefix. unfold verifyArgon2id. rewrite Hsplit.
  change (String.eqb "argon2id" "argon2id") with true.
  change (scan_version "v=19") with (Some 19).
  change (scan_params "m=65536,t=3,p=4") with (Some (64 * 1024, 3, 4)).
  cbn [negb]. change (19 =? argon2_Version) with true. cbn [negb].
  rewrite !RawDecodeString_Encode, Hkey, Hlen. reflexivity.
Qed.

Lemma hash_verify_witness :
  let kdf := λ p s t m h k : _, "0123456789abcdef0123456789abcde" +:+ slice_to p 1 in
  VerifyPassword kdf (λ _ _, false) (HashArgon2id kdf "saltsaltsaltsalt" "secret") "guess" = false.
Proof.
  intros kdf. etransitivity.
  - apply (hash_verify kdf (λ _ _, false) "saltsaltsaltsalt" "secret" "guess"). reflexivity.
  - reflexivity.
Defined.

(** ** Lockout *)

(** The guard after failures of [key] at the given instants. *)
Fixpoint fail_all (g : Guard) (key : string) (times : list Z) : Guard :=
  match times with [] => g | t :: ts => fail_all (Fail g key t).2 key ts end.

(** Each failure follows the previous one within twice the lockout. *)
Fixpoint steady (span : Z) (prev : Z) (times : list Z) : Prop :=
  match times with
  | [] => True
  | t :: ts => prev <= t <= prev + span ∧ steady span t ts
  end.

Lemma Fail_entry g key now :
  entries (Fail g key now).2 !! key =
    Some (let e := default (GuardEntry 0 0 0) (entries g !! key) in
          let n := (if i64 (2 * lockout g) <? time_Sub now (last e) then 0 else fails e) + 1 in
          GuardEntry n (if maxFailures g <=? n then now + lockout g else lockedUntil e) now).
Proof. unfold Fail. destruct (entries g !! key) as [e|]; simpl; by rewrite lookup_insert_eq. Qed.

Lemma Fail_params g key now :
  maxFailures (Fail g key now).2 = maxFailures g ∧ lockout (Fail g key now).2 = lockout g.
Proof. unfold Fail. by destruct (entries g !! key). Qed.

Lemma fail_all_entry g key n until t0 ts :
  0 < lockout g < 2 ^ 61 → 1 <= n →
  entries g !! key = Some (GuardEntry n until t0) →
  steady (2 * lockout g) t0 ts →
  ∃ until', entries (fail_all g key ts) !! key =
      Some (GuardEntry (n + llen ts) until' (List.last ts t0)) ∧
    (ts = [] → until' = until) ∧
    (maxFailures g <= n + llen ts → ts ≠ [] → until' = List.last ts t0 + lockout g) ∧
    (n + llen ts < maxFailures g → until' = until).
Proof.
  intros Hlk. revert g n until t0 Hlk. induction ts as [|t ts IH]; intros g n until t0 Hlk Hn He Hst.
  - exists until. change (llen []) with 0. rewrite Z.add_0_r. by repeat split.
  - destruct Hst as [Ht Hst]. pose proof (Fail_entry g key t) as Hf. rewrite He in Hf. simpl in Hf.
    destruct (Fail_params g key t) as [Hm Hlo].
    assert (Hi : i64 (2 * lockout g) = 2 * lockout g) by (unfold i64; rewrite Z.mod_small; lia).
    assert (Hnot : (i64 (2 * lockout g) <? time_Sub t t0) = false).
    { rewrite Hi. apply Z.ltb_ge. unfold time_Sub, min_int64, max_int64. lia. }
    rewrite Hnot in Hf. rewrite llen_cons. pose proof (llen_nonneg ts).
    destruct (IH (Fail g key t).2 (n + 1) (if maxFailures g <=? n + 1 then t + lockout g else until) t)
      as (u & Hu & H0 & H1 & H2); rewrite ?Hlo; try (done || lia).
    rewrite Hm, Hlo in *. exists u. rewrite last_cons. cbn [fail_all]. split_and!.
    + rewrite Hu. do 2 f_equal. lia.
    + done.
    + intros Hmx _. destruct ts as [|t' ts].
      * rewrite H0 by done. change (llen []) with 0 in Hmx.
        destruct (Z.leb_spec (maxFailures g) (n + 1)); [done|lia].
      * rewrite H1 by (done || lia). done.
    + intros Hmx. rewrite H2 by lia.
      destruct (Z.leb_spec (maxFailures g) (n + 1)); [lia|done].
Qed.

(** C26: of the guard alone, not of [Verify], which calls it: a run of
    failures, each within twice the lockout of the previous one, blocks
    the key if and only if it reached [maxFailures], and then exactly until
    [lockout] after the last failure. *)
Theorem lockout_after_max g key t ts now :
  0 < lockout g < 2 ^ 61 → 0 <= now →
  entries g !! key = None → steady (2 * lockout g) t ts →
  Blocked (fail_all g key (t :: ts)) key now =
    (maxFailures g <=? llen (t :: ts)) && (now <? List.last ts t + lockout g).
Proof.
  intros Hlk Hnow He Hst. simpl.
  pose proof (Fail_entry g key t) as Hf. rewrite He in Hf. simpl in Hf.
  destruct (Fail_params g key t) as [Hm Hlo].
  assert (H1 : (if i64 (2 * lockout g) <? time_Sub t 0 then 0 else 0) + 1 = 1)
    by (by destruct (_ <? _)).
  rewrite H1 in Hf.
  destruct (fail_all_entry (Fail g key t).2 key 1
              (if maxFailures g <=? 1 then t + lockout g else 0) t ts)
    as (u & Hu & Hnil & Hmax & Hlow); rewrite ?Hlo; try (done || lia).
  unfold Blocked. rewrite Hu. simpl. unfold time_Before. rewrite llen_cons.
  rewrite Hm, Hlo in *. replace (llen ts + 1) with (1 + llen ts) by lia.
  destruct (Z.leb_spec (maxFailures g) (1 + llen ts)) as [Hle|Hle]; simpl.
  - destruct ts as [|t' ts].
    + rewrite Hnil by done. change (llen []) with 0 in Hle.
      destruct (Z.leb_spec (maxFailures g) 1); [done|lia].
    + by rewrite Hmax.
  - rewrite Hlow by lia. pose proof (llen_nonneg ts).
    destruct (Z.leb_spec (maxFailures g) 1); [lia|]. apply Z.ltb_ge. lia.
Qed.

Lemma lockout_after_max_witness :
  let g := NewGuard 3 (15 * Minute) in
  Blocked (fail_all g "u:a@b" [Second; 2 * Second; 3 * Second]) "u:a@b" (10 * Minute) = true.
Proof.
  intros g. etransitivity.
  - apply (lockout_after_max g "u:a@b" Second [2 * Second; 3 * Second] (10 * Minute));
      [vm_compute; split; reflexivity|vm_compute; discriminate|reflexivity|].
    vm_compute. repeat split; discriminate.
  - reflexivity.
Defined.

(** The delay of a failure: 250 ms doubled for each failure of the run,
    and never more than 4 s. *)
Lemma Fail_delay g key now n until t0 :
  0 < lockout g < 2 ^ 61 → entries g !! key = Some (GuardEntry n until t0) → 0 <= n →
  t0 <= now <= t0 + 2 * lockout g →
  (Fail g key now).1 = 250 * Millisecond * 2 ^ Z.min n 4.
Proof.
  intros Hlk He Hn Ht. unfold Fail. rewrite He. simpl.
  assert (Hi : i64 (2 * lockout g) = 2 * lockout g) by (unfold i64; rewrite Z.mod_small; lia).
  assert (Hnot : (i64 (2 * lockout g) <? time_Sub now t0) = false).
  { rewrite Hi. apply Z.ltb_ge. unfold time_Sub, min_int64, max_int64. lia. }
  rewrite Hnot. replace (n + 1 - 1) with n by lia.
  rewrite Z.shiftl_mul_pow2 by (destruct (Z.ltb_spec 4 n); lia).
  destruct (Z.ltb_spec 4 n); [rewrite Z.min_r by lia|rewrite Z.min_l by lia]; done.
Qed.

(** ** The authenticator *)

(** Failure counts are natural numbers. *)
Definition guard_ok (g : Guard) : Prop := map_Forall (λ _ e, 0 <= fails e) (entries g).

Lemma Fail_ok g key now : guard_ok g → guard_ok (Fail g key now).2.
Proof.
  intros Hg. unfold guard_ok, Fail. destruct (entries g !! key) as [e|] eqn:He; simpl.
  - apply map_Forall_insert_2; [|done]. simpl.
    pose proof (map_Forall_lookup_1 _ _ _ _ Hg He). simpl in *. destruct (_ <? _); lia.
  - apply map_Forall_insert_2; [by simpl; destruct (_ <? _)|].
    destruct (65536 <=? _); [|done]. simpl.
    by apply map_Forall_filtered.
Qed.

Lemma Fail_delay_bounds g key now :
  guard_ok g → 250 * Millisecond <= (Fail g key now).1 <= 4 * Second.
Proof.
  intros Hg. unfold Fail.
  assert (H : ∀ k, 0 <= k → 250 * Millisecond <=
      Z.shiftl (250 * Millisecond) (if 4 <? k then 4 else k) <= 4 * Second).
  { intros k Hk. rewrite Z.shiftl_mul_pow2 by (destruct (Z.ltb_spec 4 k); lia).
    assert (k = 0 ∨ k = 1 ∨ k = 2 ∨ k = 3 ∨ 4 <= k) as Hc by lia.
    destruct_or! Hc; subst; [vm_compute; split; discriminate..|].
    destruct (Z.ltb_spec 4 k); [|replace k with 4 by lia]; vm_compute; split; discriminate. }
  destruct (entries g !! key) as [e|] eqn:He; simpl; apply H.
  - pose proof (map_Forall_lookup_1 _ _ _ _ Hg He). simpl in *. destruct (_ <? _); lia.
  - destruct (_ <? _); lia.
Qed.

(** Whether an attempt is refused without looking at the password. *)
Definition locked (g : Guard) (clock : nat → Z) (email ip : string) : bool :=
  Blocked g (userKey email) (clock 0%nat) || Blocked g (ipKey ip) (clock 1%nat).

(** Whether the credentials are those of a configured account. *)
Definition valid_credentials (Lookup : string → option string) (check : string → string → bool)
    (email password : string) : bool :=
  match Lookup (ToLower (TrimSpace email)) with Some h => check h password | None => false end.

(** An accepted attempt had valid credentials. *)
Lemma Verify_accepts Lookup check g clock email password ip :
  v_err (Verify Lookup check g clock email password ip) = None → valid_credentials Lookup check email password = true.
Proof.
  unfold Verify, valid_credentials. destruct (_ || _); [done|]. destruct (Lookup _) as [h|].
  - destruct (check h password); [done|]. simpl. by repeat case_match.
  - rewrite orb_true_r. by repeat case_match.
Qed.

(** the authenticator accepts exactly the valid credentials of an
    account, from a source neither of which is locked out; a locked
    attempt leaves the guard as it was whatever the password, a success
    clears both keys, and a failure is charged to both keys and answered
    after 250 ms to 4 s. *)
Theorem Verify_correct Lookup check g clock email password ip :
  guard_ok g →
  let r := Verify Lookup check g clock email password ip in
  let ok := valid_credentials Lookup check email password in
  (locked g clock email ip = true → r = Verdict (Some ErrLocked) 0 g) ∧
  (locked g clock email ip = false → ok = true →
     v_err r = None ∧ v_delay r = 0 ∧
     entries (v_guard r) = delete (ipKey ip) (delete (userKey email) (entries g))) ∧
  (locked g clock email ip = false → ok = false →
     v_err r = Some ErrInvalid ∧ 250 * Millisecond <= v_delay r <= 4 * Second ∧
     v_guard r = (Fail (Fail g (userKey email) (clock 2%nat)).2 (ipKey ip) (clock 3%nat)).2).
Proof.
  intros Hg r ok. subst r ok. unfold Verify, locked, valid_credentials.
  destruct (Blocked g (userKey email) (clock 0%nat) || Blocked g (ipKey ip) (clock 1%nat)); [done|].
  split; [done|]. destruct (Lookup (ToLower (TrimSpace email))) as [h|].
  - destruct (check h password); simpl.
    { split; intros; [by split_and!|done]. }
    split; [intros _ [=]|]. intros _ _.
    pose proof (Fail_delay_bounds g (userKey email) (clock 2%nat) Hg).
    pose proof (Fail_ok g (userKey email) (clock 2%nat) Hg) as Hg'.
    pose proof (Fail_delay_bounds _ (ipKey ip) (clock 3%nat) Hg').
    destruct (Fail g (userKey email) (clock 2%nat)) as [d1 g1]. simpl in *.
    destruct (Fail g1 (ipKey ip) (clock 3%nat)) as [d2 g2]. simpl in *.
    destruct (d1 <? d2); split_and!; done || lia.
  - rewrite orb_true_r. split; [intros _ [=]|]. intros _ _.
    pose proof (Fail_delay_bounds g (userKey email) (clock 2%nat) Hg).
    pose proof (Fail_ok g (userKey email) (clock 2%nat) Hg) as Hg'.
    pose proof (Fail_delay_bounds _ (ipKey ip) (clock 3%nat) Hg').
    destruct (Fail g (userKey email) (clock 2%nat)) as [d1 g1]. simpl in *.
    destruct (Fail g1 (ipKey ip) (clock 3%nat)) as [d2 g2]. simpl in *.
    destruct (d1 <? d2); split_and!; done || lia.
Qed.

Lemma Verify_correct_witness :
  v_err (Verify (λ _, None) (λ _ _, true) (NewGuard 5 Minute) (λ _, Second) "x@y" "pw" "::1")
  = Some ErrInvalid.
Proof.
  edestruct (Verify_correct (λ _, None) (λ _ _, true) (NewGuard 5 Minute) (λ _, Second)
               "x@y" "pw" "::1") as (_ & _ & H).
  - apply map_Forall_empty.
  - apply H; reflexivity.
Defined.
