(* ===== verification/GoIO.v ===== *)
(** * Reading a connection

    The parts of [bufio] and [net/textproto] the protocol sessions use,
    on the bytes the client is still going to send: [ReadSlice] with its
    bounded buffer, and the decoder of dot-stuffed text. *)

From S2P Require Import Prelude GoStrings.

(** ** Connections *)

(** The connection: what the client is still going to send; what it sends
    once a handshake has succeeded, [None] when the handshake fails; how
    many more flushes reach it; and the lines it was sent, without their
    line ends. *)
Record Conn := MkConn {
  c_in : string;
  c_tls : option string;
  c_writes : nat;
  c_out : list string;
}.

(** What the client may still send. *)
Definition budget (c : Conn) : nat :=
  String.length (c_in c) + match c_tls c with Some b => S (String.length b) | None => 0 end.

(** ** [bufio.Reader.ReadSlice] *)

Inductive slice_status := SliceOk | SliceFull | SliceEOF.

(** Reads through the first [LF] of the next [size] bytes; [size] bytes
    without one fill the buffer; the end of the stream returns what is
    left of it. *)
Fixpoint ReadSlice (size : nat) (s : string) : string * slice_status * string :=
  match size, s with
  | O, _ => ("", SliceFull, s)
  | S _, "" => ("", SliceEOF, "")
  | S size, String c s =>
      if Ascii.eqb c LF then (String c "", SliceOk, s)
      else let '(line, st, rest) := ReadSlice size s in (String c line, st, rest)
  end.

(** Size of the buffer of every session. *)
Definition bufSize : nat := 4096.

(** The loop that discards the rest of an oversized line; every turn that
    continues consumes a full buffer, so the length of the stream is
    enough fuel. *)
Fixpoint drain_line (fuel : nat) (s : string) : string :=
  match fuel with
  | O => s
  | S fuel =>
      let '(_, st, rest) := ReadSlice bufSize s in
      match st with SliceFull => drain_line fuel rest | _ => rest end
  end.

(** A command line: its text, [None] at the end of the stream, or a line
    that was too long and has been discarded. *)
Inductive line_result := Line (l : string) | LineTooLong | LineEOF.

Definition read_command (maxLine : Z) (s : string) : line_result * string :=
  let '(line, st, rest) := ReadSlice bufSize s in
  match st with
  | SliceFull => (LineTooLong, drain_line (String.length rest) rest)
  | _ =>
      if maxLine <? slen line then (LineTooLong, rest)
      else match st with
           | SliceEOF => (LineEOF, rest)
           | _ => (Line (TrimRight line CRLF), rest)
           end
  end.

(** ** [textproto.Reader.DotReader] *)

Inductive dot_state := BeginLine | Dot | DotCR | CRSeen | InLine.

(** Prepends a byte to what is decoded after it. *)
Definition emit (c : ascii) (r : option (string * string)) : option (string * string) :=
  match r with Some (body, rest) => Some (String c body, rest) | None => None end.

(** The state machine: [None] when the stream ends before the end mark.
    Where the code puts a byte back after a carriage return, the byte is
    handled at once in the state it would be read again in. *)
Fixpoint dot_go (st : dot_state) (s : string) : option (string * string) :=
  match s with
  | "" => None
  | String c s =>
      let in_line :=
        if Ascii.eqb c CR then dot_go CRSeen s
        else if Ascii.eqb c LF then emit c (dot_go BeginLine s)
        else emit c (dot_go InLine s) in
      match st with
      | BeginLine =>
          if Ascii.eqb c "." then dot_go Dot s
          else if Ascii.eqb c CR then dot_go CRSeen s
          else emit c (dot_go InLine s)
      | Dot =>
          if Ascii.eqb c CR then dot_go DotCR s
          else if Ascii.eqb c LF then Some ("", s)
          else emit c (dot_go InLine s)
      | DotCR => if Ascii.eqb c LF then Some ("", s) else emit CR in_line
      | CRSeen => if Ascii.eqb c LF then emit c (dot_go BeginLine s) else emit CR in_line
      | InLine => in_line
      end
  end.

Definition dot_read (s : string) : option (string * string) := dot_go BeginLine s.

(** The reading of the message data: [io.Copy] through a limit of one
    byte more than the maximum, then, when the limit was hit, of the
    rest.  The limit is an [int64] sum. *)
Inductive data_result := Data (body rest : string) | DataTooLarge (rest : string) | DataBroken.

Definition read_data (max : Z) (s : string) : data_result :=
  let discard := match dot_read s with Some (_, rest) => DataTooLarge rest | None => DataBroken end in
  if i64 (max + 1) <=? 0 then (if max <? 0 then discard else Data "" s)
  else match dot_read s with
       | None => DataBroken
       | Some (body, rest) => if max <? slen body then DataTooLarge rest else Data body rest
       end.

(** What a client sends for the lines of a message: dot-stuffed, with
    [CRLF] at each end of line and the end mark. *)
Definition stuff (l : string) : string := if HasPrefix l "." then String "." l else l.

Fixpoint dot_encode (ls : list string) : string :=
  match ls with
  | [] => String "." CRLF
  | l :: ls => stuff l +:+ CRLF +:+ dot_encode ls
  end.

(** ** Laws *)

Lemma ReadSlice_spec size s : let '(line, st, rest) := ReadSlice size s in
  s = line +:+ rest ∧ (String.length line <= size)%nat ∧
  match st with
  | SliceOk => line ≠ ""
  | SliceFull => String.length line = size
  | SliceEOF => rest = ""
  end.
Proof.
  revert s. induction size as [|size IH]; intros s; simpl; [done|].
  destruct s as [|c s]; simpl; [split_and!; [done|lia|done]|].
  destruct (Ascii.eqb c LF); simpl; [split_and!; [done|lia|done]|].
  specialize (IH s). destruct (ReadSlice size s) as [[line st] rest]. destruct IH as (->&Hl&Hst).
  split_and!; [done|simpl; lia|]. destruct st; simpl; [done|lia|done].
Qed.

Lemma slen_le_app a b : (String.length b <= String.length (a +:+ b))%nat.
Proof. rewrite slength_app. lia. Qed.

Lemma drain_line_length fuel s : (String.length (drain_line fuel s) <= String.length s)%nat.
Proof.
  revert s. induction fuel as [|fuel IH]; intros s; cbn [drain_line]; [done|].
  pose proof (ReadSlice_spec bufSize s) as H. destruct (ReadSlice bufSize s) as [[line st] rest].
  destruct H as (->&_&_). pose proof (slen_le_app line rest).
  destruct st; [lia| |lia]. specialize (IH rest). lia.
Qed.

(** Every command line that is not the end of the stream consumes input. *)
Lemma read_command_progress max s : 0 <= max → let '(r, rest) := read_command max s in
  (String.length rest <= String.length s)%nat ∧
  (r ≠ LineEOF → (String.length rest < String.length s)%nat).
Proof.
  intros Hmax. unfold read_command. pose proof (ReadSlice_spec bufSize s) as H.
  destruct (ReadSlice bufSize s) as [[line st] rest]. destruct H as (->&Hl&Hst).
  pose proof (slen_le_app line rest). pose proof (drain_line_length (String.length rest) rest).
  assert (Hlen : String.length (line +:+ rest) = (String.length line + String.length rest)%nat) by apply slength_app.
  destruct st.
  - assert (0 < String.length line)%nat by (destruct line; [done|simpl; lia]).
    destruct (max <? slen line); (split; [lia|]); intros _; lia.
  - assert (0 < bufSize)%nat by (apply Nat.ltb_lt; reflexivity).
    split; [lia|]. intros _. lia.
  - destruct (max <? slen line) eqn:E; (split; [lia|]); [|done]. intros _.
    apply Z.ltb_lt in E. unfold slen in E. lia.
Qed.

Lemma dot_go_data l rest : avoids CR l = true → avoids LF l = true →
  dot_go InLine (l +:+ rest) = match dot_go InLine rest with
                               | Some (b, r) => Some (l +:+ b, r) | None => None end.
Proof.
  induction l as [|c l IH]; [intros _ _; simpl; destruct (dot_go InLine rest) as [[]|]; reflexivity|].
  intros [Hc Hl]%avoids_cons [Hc' Hl']%avoids_cons. rewrite sapp_cons. cbn [dot_go].
  rewrite (proj2 (Ascii.eqb_neq c CR) Hc), (proj2 (Ascii.eqb_neq c LF) Hc'), (IH Hl Hl').
  by destruct (dot_go InLine rest) as [[]|].
Qed.

Lemma dot_go_CRLF st rest : st = InLine ∨ st = BeginLine →
  dot_go st (CRLF +:+ rest) = emit LF (dot_go BeginLine rest).
Proof. by intros [-> | ->]. Qed.

Lemma dot_go_line l rest : avoids CR l = true → avoids LF l = true →
  dot_go BeginLine (stuff l +:+ CRLF +:+ rest) =
  match dot_go BeginLine rest with Some (b, r) => Some (l +:+ String LF b, r) | None => None end.
Proof.
  intros Ha Hb. unfold stuff.
  assert (Hd : ∀ c l', l = String c l' → c ≠ CR → c ≠ LF →
    emit c (dot_go InLine (l' +:+ CRLF +:+ rest)) =
    match dot_go BeginLine rest with Some (b, r) => Some (l +:+ String LF b, r) | None => None end).
  { intros c l' -> Hc Hc'. apply avoids_cons in Ha as [_ Ha]. apply avoids_cons in Hb as [_ Hb].
    rewrite dot_go_data, dot_go_CRLF by (done || by left).
    by destruct (dot_go BeginLine rest) as [[]|]. }
  destruct l as [|c l].
  { etransitivity; [apply (dot_go_CRLF BeginLine rest); by right|]. by destruct (dot_go BeginLine rest) as [[]|]. }
  pose proof Ha as [Hc _]%avoids_cons. pose proof Hb as [Hc' _]%avoids_cons.
  specialize (Hd c l eq_refl Hc Hc'). cbn [HasPrefix].
  destruct (Ascii.eqb_spec "."%char c) as [<-|Hdot]; simpl andb; cbv iota.
  - destruct l; exact Hd.
  - rewrite sapp_cons. cbn [dot_go].
    rewrite (proj2 (Ascii.eqb_neq c ".")), (proj2 (Ascii.eqb_neq c CR)) by congruence. exact Hd.
Qed.

Lemma dot_read_encode ls rest : Forall (λ l, avoids CR l = true ∧ avoids LF l = true) ls →
  dot_read (dot_encode ls +:+ rest) = Some (Join ((λ l, l +:+ String LF "") <$> ls) "", rest).
Proof.
  unfold dot_read. induction 1 as [|l ls [Hl Hl'] Hls IH]; [done|].
  cbn [dot_encode]. rewrite !sapp_assoc, dot_go_line, IH by done. f_equal. f_equal.
  rewrite fmap_cons. destruct ls as [|l' ls]; cbn [Join fmap list_fmap]; by rewrite ?sapp_nil_r, ?sapp_assoc.
Qed.

Lemma dot_go_length st s body rest : dot_go st s = Some (body, rest) →
  (String.length rest < String.length s)%nat.
Proof.
  revert st body. induction s as [|c s IH]; intros st body; [done|]. cbn [dot_go String.length].
  assert (Hl : ∀ st b, dot_go st s = Some (b, rest) → (String.length rest < S (String.length s))%nat)
    by (intros st' b H%IH; lia).
  assert (He : ∀ d r b, emit d r = Some (b, rest) → ∃ b', r = Some (b', rest)).
  { intros d [[b' r]|] b; simpl; [intros [= _ <-]; eauto|done]. }
  assert (Hle : ∀ d st b, emit d (dot_go st s) = Some (b, rest) → (String.length rest < S (String.length s))%nat)
    by (intros d st' b (b'&H)%He; eauto).
  set (inl := if Ascii.eqb c CR then _ else _).
  assert (Hin : ∀ b, inl = Some (b, rest) → (String.length rest < S (String.length s))%nat)
    by (unfold inl; intros b; repeat case_match; eauto).
  assert (Hein : emit CR inl = Some (body, rest) → (String.length rest < S (String.length s))%nat)
    by (intros (b'&H)%He; eauto).
  destruct st; repeat case_match; eauto; intros [= _ ->]; lia.
Qed.
