(* ===== verification/Session.v ===== *)
(** * Sessions

    What the protocol sessions share: computations over the state of a
    session, the connection they read and write, a program logic over the
    part of the state a protocol is about, and the loop that runs one
    command after another. *)

From S2P Require Import Prelude GoStrings GoIO.

(** ** Computations *)

Definition St (S A : Type) : Type := S → A * S.
#[global] Instance St_ret {S} : MRet (St S) := λ A a s, (a, s).
#[global] Instance St_bind {S} : MBind (St S) := λ A B f m s, let '(a, s) := m s in f a s.

Lemma St_bind_eq {S A B} (m : St S A) (f : A → St S B) s a s' : m s = (a, s') → (m ≫= f) s = f a s'.
Proof. intros E. unfold mbind, St_bind. by rewrite E. Qed.

(** A state with a connection. *)
Class Channel (S : Type) := {
  channel : S → Conn;
  set_channel : Conn → S → S;
  channel_set c s : channel (set_channel c s) = c;
}.

(** The part of a state a protocol is about, which does not depend on
    what is sent and received. *)
Class Observe (S V : Type) := observe : S → V.
#[global] Hint Mode Observe ! - : typeclass_instances.

Class Detached (S V : Type) `{Observe S V, Channel S} :=
  observe_set c s : observe (set_channel c s) = observe s.

Section io.
Context {S : Type} `{Channel S}.

Definition get_conn : St S Conn := λ s, (channel s, s).
Definition put_conn (c : Conn) : St S unit := λ s, (tt, set_channel c s).

(** Writes lines and flushes them; [true] is a failure. *)
Definition send_lines (ls : list string) : St S bool :=
  c ← get_conn;
  match c_writes c with
  | O => mret true
  | Datatypes.S n => put_conn (MkConn (c_in c) (c_tls c) n (c_out c ++ ls));; mret false
  end.

(** [ReadString] through the line feed, which is left out; [None] is an
    error: the client is gone. *)
Definition read_string : St S (option string) :=
  c ← get_conn;
  match cut_opt (c_in c) (String LF "") with
  | None => put_conn (MkConn "" (c_tls c) (c_writes c) (c_out c));; mret None
  | Some (line, rest) => put_conn (MkConn rest (c_tls c) (c_writes c) (c_out c));; mret (Some line)
  end.

(** The same with a limit on what was read; the line loses its end. *)
Definition read_limited (max : Z) : St S (option string) :=
  line ← read_string;
  mret (match line with
        | Some line => if max <? slen line + 1 then None else Some (TrimRight line CRLF)
        | None => None
        end).
End io.

(** ** The program logic *)

(** A computation started where the protocol sees [v] ends where the
    predicate holds. *)
Definition wp {S V A} `{Observe S V} (m : St S A) (Q : A → V → Prop) (v : V) : Prop :=
  ∀ s, observe s = v → Q (m s).1 (observe (m s).2).

(** A computation the protocol does not see. *)
Definition quiet {S V A} `{Observe S V} (m : St S A) : Prop := ∀ s, observe (m s).2 = observe s.

Section logic.
Context {S V : Type} `{Observe S V}.

Lemma wp_ret {A} (a : A) Q v : Q a v → wp (mret (M := St S) a) Q v.
Proof. by intros HQ s <-. Qed.

Lemma wp_bind {A B} (m : St S A) (f : A → St S B) Q v :
  wp m (λ a v, wp (f a) Q v) v → wp (m ≫= f) Q v.
Proof.
  intros Hm s Hs. specialize (Hm s Hs). unfold mbind, St_bind. destruct (m s) as [a s']. by apply Hm.
Qed.

Lemma wp_mono {A} (m : St S A) (Q Q' : A → V → Prop) v :
  (∀ a v, Q a v → Q' a v) → wp m Q v → wp m Q' v.
Proof. intros HQ Hm s Hs. by apply HQ, Hm. Qed.

Lemma wp_and {A} (m : St S A) (Q Q' : A → V → Prop) v : wp m Q v → wp m Q' v → wp m (λ a w, Q a w ∧ Q' a w) v.
Proof. intros H1 H2 s Hs. split; [by apply H1|by apply H2]. Qed.

Lemma wp_quiet {A} (m : St S A) (Q : A → V → Prop) v : quiet m → (∀ a, Q a v) → wp m Q v.
Proof. intros Hq HQ s <-. rewrite Hq. apply HQ. Qed.

Lemma quiet_ret {A} (a : A) : quiet (mret (M := St S) a).
Proof. done. Qed.

Lemma quiet_bind {A B} (m : St S A) (f : A → St S B) : quiet m → (∀ a, quiet (f a)) → quiet (m ≫= f).
Proof.
  intros Hm Hf s. unfold mbind, St_bind. specialize (Hm s). destruct (m s) as [a s1].
  specialize (Hf a s1). simpl in *. congruence.
Qed.

(** A computation that keeps an invariant of what the protocol sees. *)
Definition keeps {A} (I : V → Prop) (m : St S A) : Prop := ∀ v, I v → wp m (λ _, I) v.

Lemma keeps_quiet {A} I (m : St S A) : quiet m → keeps I m.
Proof. intros Hm v Hv. by apply wp_quiet. Qed.

Lemma keeps_bind {A B} I (m : St S A) (f : A → St S B) : keeps I m → (∀ a, keeps I (f a)) → keeps I (m ≫= f).
Proof.
  intros Hm Hf v Hv. apply wp_bind. eapply wp_mono; [|by apply Hm]. cbn beta. intros a v' Hv'. by apply Hf.
Qed.

Context `{!Channel S, !Detached S V}.

Lemma quiet_get_conn : quiet (S := S) get_conn.
Proof. done. Qed.

Lemma quiet_put_conn c : quiet (S := S) (put_conn c).
Proof. intros s. apply observe_set. Qed.

Lemma quiet_send_lines ls : quiet (S := S) (send_lines ls).
Proof.
  unfold send_lines. apply quiet_bind; [apply quiet_get_conn|]. intros c.
  destruct (c_writes c); [apply quiet_ret|]. apply quiet_bind; [apply quiet_put_conn|].
  intros _. apply quiet_ret.
Qed.

Lemma quiet_read_string : quiet (S := S) read_string.
Proof.
  unfold read_string. apply quiet_bind; [apply quiet_get_conn|]. intros c.
  destruct (cut_opt _ _) as [[l rest]|]; (apply quiet_bind; [apply quiet_put_conn|]); intros _; apply quiet_ret.
Qed.

Lemma quiet_read_limited max : quiet (S := S) (read_limited max).
Proof. apply quiet_bind; [apply quiet_read_string|]. intros l. apply quiet_ret. Qed.
End logic.

Create HintDb quiet discriminated.
#[export] Hint Resolve quiet_ret quiet_get_conn quiet_put_conn quiet_send_lines quiet_read_string quiet_read_limited : quiet.
#[export] Hint Extern 0 (Detached _ _) => typeclasses eauto : quiet.

(** ** The input left *)

(** A computation that reads at most. *)
Definition shrinks {S A} `{Channel S} (m : St S A) : Prop :=
  ∀ s, (budget (channel (m s).2) <= budget (channel s))%nat.

Section shrinking.
Context {S : Type} `{Channel S}.

Lemma shrinks_still {A} (m : St S A) : (∀ s, channel (m s).2 = channel s) → shrinks m.
Proof. intros Hm s. by rewrite Hm. Qed.

Lemma shrinks_ret {A} (a : A) : shrinks (mret (M := St S) a).
Proof. by apply shrinks_still. Qed.

Lemma shrinks_bind {A B} (m : St S A) (f : A → St S B) : shrinks m → (∀ a, shrinks (f a)) → shrinks (m ≫= f).
Proof.
  intros Hm Hf s. unfold mbind, St_bind. specialize (Hm s). destruct (m s) as [a s1].
  specialize (Hf a s1). simpl in *. lia.
Qed.

Lemma shrinks_get_conn {A} (f : Conn → St S A) :
  (∀ s, (budget (channel (f (channel s) s).2) <= budget (channel s))%nat) → shrinks (get_conn ≫= f).
Proof. done. Qed.

(** Putting back a connection that has no more to send. *)
Lemma shrinks_put_conn {A} c (m : St S A) s : shrinks m → (budget c <= budget (channel s))%nat →
  (budget (channel ((put_conn c;; m) s).2) <= budget (channel s))%nat.
Proof.
  intros Hm Hc. unfold mbind, St_bind, put_conn. specialize (Hm (set_channel c s)).
  rewrite channel_set in Hm. lia.
Qed.

Lemma shrinks_send_lines ls : shrinks (send_lines ls).
Proof.
  apply shrinks_get_conn. intros s. destruct (c_writes (channel s)); [done|].
  apply shrinks_put_conn; [apply shrinks_ret|done].
Qed.

Lemma read_string_budget s :
  (budget (channel (read_string s).2) <= budget (channel s))%nat ∧
  ((read_string s).1 ≠ None → (budget (channel (read_string s).2) < budget (channel s))%nat).
Proof.
  unfold read_string, mbind, St_bind, get_conn, put_conn.
  destruct (cut_opt (c_in (channel s)) (String LF "")) as [[l rest]|] eqn:E; simpl; rewrite channel_set;
    unfold budget; simpl; [|split; [lia|done]].
  apply cut_opt_Some in E as ->. rewrite !slength_app. simpl. split; intros; lia.
Qed.

Lemma shrinks_read_string : shrinks read_string.
Proof. intros s. apply read_string_budget. Qed.

Lemma read_limited_budget max s : (read_limited max s).1 ≠ None →
  (budget (channel (read_limited max s).2) < budget (channel s))%nat.
Proof.
  pose proof (proj2 (read_string_budget s)) as Hb. unfold read_limited, mbind, St_bind.
  destruct (read_string s) as [[l|] s1]; simpl in *; [|done]. intros _. by apply Hb.
Qed.

Lemma shrinks_read_limited max : shrinks (read_limited max).
Proof. apply shrinks_bind; [apply shrinks_read_string|]. intros l. apply shrinks_ret. Qed.

(** A turn that reads a line first, and ends the session without one. *)
Lemma turn_progress max (k : option string → St S bool) step : step = (read_limited max ≫= k) →
  k None = mret true → (∀ l, shrinks (k (Some l))) →
  ∀ s, (step s).1 = false → (budget (channel (step s).2) < budget (channel s))%nat.
Proof.
  intros -> Hn Hk s. pose proof (read_limited_budget max s) as Hp. unfold mbind, St_bind.
  destruct (read_limited max s) as [[l|] s1]; cbn [fst snd] in Hp |- *; [|by rewrite Hn].
  intros _. specialize (Hk l s1). specialize (Hp ltac:(done)). lia.
Qed.
End shrinking.

Create HintDb shrinks discriminated.
#[export] Hint Resolve shrinks_ret shrinks_send_lines shrinks_read_string shrinks_read_limited : shrinks.

(** Reduces a computation to its parts. *)
Ltac shrink_step :=
  lazymatch goal with
  | |- shrinks (mbind _ get_conn) => apply shrinks_get_conn; intros ?
  | |- shrinks (mbind _ _) => apply shrinks_bind; [|intros ?]
  | |- shrinks (let '(_, _) := ?x in _) => destruct x
  | |- shrinks (if ?b then _ else _) => destruct b
  | |- shrinks (match ?x with _ => _ end) => destruct x
  | |- shrinks _ => solve [auto with shrinks]
  end.
Ltac shrink := repeat shrink_step.

(** ** The loop *)

(** One turn after another until one ends the session; [None] when the
    fuel runs out. *)
Fixpoint turns {S} (step : St S bool) (fuel : nat) (s : S) : option S :=
  match fuel with
  | O => None
  | Datatypes.S fuel =>
      let '(quit, s) := step s in
      if (quit : bool) then Some s else turns step fuel s
  end.

Lemma turns_total {S} `{Channel S} (step : St S bool) fuel s :
  (∀ s, (step s).1 = false → (budget (channel (step s).2) < budget (channel s))%nat) →
  (budget (channel s) < fuel)%nat → is_Some (turns step fuel s).
Proof.
  intros Hp. revert s. induction fuel as [|fuel IH]; intros s Hf; [lia|]. cbn [turns].
  specialize (Hp s). destruct (step s) as [[] s1]; [by eexists|]. simpl in Hp. apply IH.
  specialize (Hp eq_refl). lia.
Qed.

(** What every turn keeps the session keeps, [J] before its last turn and
    [K] after it. *)
Lemma turns_keep {S V} `{Observe S V} (step : St S bool) (J K : V → Prop) :
  (∀ v, J v → wp step (λ quit v', if (quit : bool) then K v' else J v') v) →
  ∀ fuel s s', J (observe s) → turns step fuel s = Some s' → K (observe s').
Proof.
  intros Hstep fuel. induction fuel as [|fuel IH]; intros s s' HJ; [done|]. cbn [turns].
  pose proof (Hstep _ HJ s eq_refl) as Hs. destruct (step s) as [[] s1]; simpl in Hs.
  - by intros [= <-].
  - by apply IH.
Qed.
