(* ===== verification/Container.v ===== *)
(** * Public identity of a containerised server

    Models [internal/container]: the masking of internal addresses in
    trace headers, the check for host names that leak a container's own
    name, and the detection of the container engine from what the machine
    shows.  Enumerating the interfaces ([LocalAddresses]) is input/output
    and not modelled. *)

From S2P Require Import Prelude GoStrings GoNet.

Record Identity := MkIdentity {
  Enabled : bool;
  Hostname : string;
  PublicIP : string;
  InternalIP : string;
}.

Definition isInternal (ip : IP) : bool :=
  IsLoopback ip || IsPrivate ip || IsLinkLocalUnicast ip || IsLinkLocalMulticast ip
  || IsUnspecified ip.

Definition MaskIP (id : Identity) (ip : string) : string :=
  if negb (Enabled id) || is_empty (PublicIP id) then ip else
  match ParseIP ip with
  | None => PublicIP id
  | Some parsed => if isInternal parsed then PublicIP id else ip
  end.

Inductive Runtime := RuntimeNone | RuntimeLXC | RuntimeLXD | RuntimeDocker | RuntimeOther.

#[global] Instance runtime_eq_dec : EqDecision Runtime.
Proof. solve_decision. Defined.

Definition runtime_name (r : Runtime) : string :=
  match r with
  | RuntimeNone => "none" | RuntimeLXC => "lxc" | RuntimeLXD => "lxd"
  | RuntimeDocker => "docker" | RuntimeOther => "container"
  end.

(** [env] is the variable [container], [exists_] whether [os.Stat]
    succeeds, [cgroup] the contents of [/proc/1/cgroup]. *)
Definition Detect (env : string) (exists_ : string → bool) (cgroup : option string) : Runtime :=
  if negb (is_empty env) then (if String.eqb (ToLower env) "lxc" then RuntimeLXC else RuntimeOther)
  else if exists_ "/dev/.lxd-mounts" then RuntimeLXD
  else if exists_ "/.dockerenv" then RuntimeDocker
  else match cgroup with
  | Some s => if Contains s "/lxc/" then RuntimeLXC else if Contains s "/docker/" then RuntimeDocker else RuntimeNone
  | None => RuntimeNone
  end.

(** [own] is what [os.Hostname] answers. *)
Definition LeaksContainerName (own : option string) (hostname : string) : bool * string :=
  let h := ToLower (TrimSpace hostname) in
  if is_empty h then (false, "") else
  match find (λ suffix, HasSuffix h suffix) [".lxd"; ".local"; ".internal"; ".localdomain"] with
  | Some suffix => (true, "hostname ends in " +:+ suffix +:+ ", which is not publicly resolvable")
  | None =>
      if negb (Contains h ".") then (true, "hostname is not fully qualified") else
      match own with
      | Some own =>
          if EqualFold own h && negb (Contains own ".")
          then (true, "hostname equals the machine's unqualified name (" +:+ own +:+ ")")
          else (false, "")
      | None => (false, "")
      end
  end.

(** An address no trace header may carry. *)
Definition internal_text (ip : string) : bool :=
  match ParseIP ip with Some p => isInternal p | None => true end.

(** with the masking on and a public address configured, the address
    recorded for any source is a valid public one; a public source is
    recorded unchanged and every other source as the public address. *)
Theorem MaskIP_public id ip :
  Enabled id = true → internal_text (PublicIP id) = false →
  internal_text (MaskIP id ip) = false ∧
  MaskIP id ip = (if internal_text ip then PublicIP id else ip).
Proof.
  intros He Hp. unfold MaskIP. rewrite He. simpl.
  destruct (is_empty (PublicIP id)) eqn:E.
  { by destruct (PublicIP id). }
  unfold internal_text in *. destruct (ParseIP ip) as [p|] eqn:Hip; [|done].
  destruct (isInternal p) eqn:Hi; [done|]. by rewrite Hip.
Qed.

Lemma MaskIP_public_witness :
  MaskIP (MkIdentity true "mx.example.com" "203.0.113.7" "10.0.3.2") "10.0.3.9" = "203.0.113.7".
Proof.
  destruct (MaskIP_public (MkIdentity true "mx.example.com" "203.0.113.7" "10.0.3.2") "10.0.3.9")
    as [_ ->]; vm_compute; reflexivity.
Defined.

Lemma Contains_dot_lower s : Contains (ToLower s) "." = Contains s ".".
Proof.
  unfold Contains. enough (Hi : Index (ToLower s) "." = Index s ".") by by rewrite Hi.
  induction s as [|c s IH]; [done|]. unfold ToLower in *. cbn [smap Index HasPrefix]. rewrite IH.
  by destruct c as [[] [] [] [] [] [] [] []].
Qed.

(** the comparison with the machine's own name never decides: it is
    reached only for a name with a dot, which cannot equal one without. *)
Lemma own_name_unused own hostname : LeaksContainerName own hostname = LeaksContainerName None hostname.
Proof.
  unfold LeaksContainerName. set (h := ToLower (TrimSpace hostname)). destruct (is_empty h); [done|].
  destruct (find _ _); [done|]. destruct (Contains h ".") eqn:Hd; [|done]. cbn [negb]. destruct own as [own|]; [|done].
  destruct (EqualFold own h) eqn:Hf; [|done]. unfold EqualFold in Hf. apply String.eqb_eq in Hf.
  assert (Hown : Contains own "." = true).
  { rewrite <- (Contains_dot_lower own), Hf. by rewrite Contains_dot_lower. }
  by rewrite Hown.
Qed.
