(* ===== verification/Config.v ===== *)
(** * Configuration

    Models [internal/config]: the configuration record, its defaults, the
    validation that turns insecure or inconsistent settings into errors,
    the assembly of the domain files, and the reload manager.  Decoding
    YAML and reading the files are parameters. *)

From S2P Require Import Prelude GoStrings GoNum GoNet.

(** ** The record *)

Record Server := MkServer { Hostname : string; Workers : Z }.

Record Listeners := MkListeners {
  l_SMTP : string; l_SMTPS : string; l_Submission : string; l_IMAP : string;
  l_IMAPS : string; l_POP3 : string; l_POP3S : string;
}.

Record TLS := MkTLS { CertRoot : string; MinVersion : string; ExpiryWarnDays : Z }.

Record SMTP := MkSMTP { MaxSize : Z; MaxRecipients : Z }.

(** A [*bool]: [None] is nil, the unset switch. *)
Record MailAuth := MkMailAuth { ma_Enabled : option bool; ma_Enforce : option bool }.
Definition MailAuth_IsEnabled (m : MailAuth) : bool := default true (ma_Enabled m).
Definition MailAuth_IsEnforced (m : MailAuth) : bool := default true (ma_Enforce m).

Record Auth := MkAuth { MaxFailures : Z; LockoutMinutes : Z }.
Record Queue := MkQueue { q_Dir : string; q_MaxAttempts : Z }.
Record DKIM := MkDKIM { dkim_Dir : string }.

Record Antispam := MkAntispam {
  as_Enabled : option bool;
  BayesFile : string;
  TagScore : f64; QuarantineScore : f64; RejectScore : f64;
  RejectExecutables : option bool;
}.
Definition Antispam_IsEnabled (a : Antispam) : bool := default true (as_Enabled a).
Definition RejectsExecutables (a : Antispam) : bool := default true (RejectExecutables a).

Record Antivirus := MkAntivirus {
  av_Enabled : bool; Socket : string; TimeoutSeconds : Z; RejectOnError : bool;
}.

Record Blacklist := MkBlacklist {
  bl_Enabled : option bool; DNSBL : list string; URIBL : list string;
  RejectListed : bool; CacheMinutes : Z;
}.
Definition Blacklist_IsEnabled (b : Blacklist) : bool := default true (bl_Enabled b).

Record WarmUp := MkWarmUp { wu_Enabled : bool; Day1 : Z; Day7 : Z; FullPerDay : Z }.
Record Reputation := MkReputation {
  rep_Enabled : option bool; rep_File : string; rep_WarmUp : WarmUp;
}.
Definition Reputation_IsEnabled (r : Reputation) : bool := default true (rep_Enabled r).

Record Container := MkContainer {
  ct_Enabled : bool; ct_Type : string; PublicIP : string; InternalIP : string;
}.

Record UserLimits := MkUserLimits { MessagesPerHour : Z; RecipientsPerHour : Z }.
Record Outbound := MkOutbound { out_Enabled : option bool; out_User : UserLimits }.
Definition Outbound_IsEnabled (o : Outbound) : bool := default true (out_Enabled o).
Record IPLimits := MkIPLimits {
  ConnectionsPerMinute : Z; MessagesPerMinute : Z; RecipientsPerMinute : Z;
}.
Record Inbound := MkInbound { in_Enabled : option bool; in_IP : IPLimits }.
Definition Inbound_IsEnabled (i : Inbound) : bool := default true (in_Enabled i).
Record RateLimit := MkRateLimit { rl_Inbound : Inbound; rl_Outbound : Outbound }.

Record Storage := MkStorage {
  st_Type : string; st_User : string; st_Home : string; st_Maildir : string;
  st_PasswordHash : string;
}.
Record Domain := MkDomain { d_Name : string; d_Storage : Storage; d_DKIMSelector : string }.
Record User := MkUser {
  u_Email : string; u_Type : string; u_Maildir : string; u_PasswordHash : string;
}.
Record API := MkAPI { api_Enabled : bool; api_Address : string; api_Keys : list string }.
Record Log := MkLog { log_Dir : string }.

Record Config := MkConfig {
  c_Server : Server; c_Listeners : Listeners; c_TLS : TLS; c_SMTP : SMTP;
  c_MailAuth : MailAuth; c_Auth : Auth; c_Queue : Queue; c_DKIM : DKIM;
  c_Antispam : Antispam; c_Antivirus : Antivirus; c_Blacklist : Blacklist;
  c_Reputation : Reputation; c_Container : Container; c_RateLimit : RateLimit;
  c_DomainsDir : string; c_Domains : list Domain; c_Users : list User;
  c_API : API; c_Log : Log; c_Warnings : list string;
}.

Definition StorageSystemUser : string := "system_user".
Definition StorageVirtual : string := "virtual".

(** ** Lookups *)

Definition MaildirPath (s : Storage) : string := ReplaceAll (st_Maildir s) "{home}" (st_Home s).

Definition HasDomain (c : Config) (name : string) : bool :=
  existsb (λ d, String.eqb (d_Name d) name) (c_Domains c).

Definition DomainNames (c : Config) : list string := d_Name <$> c_Domains c.

Definition DKIMSelectorFor (c : Config) (domain : string) : string :=
  match find (λ d, String.eqb (d_Name d) domain) (c_Domains c) with
  | Some d => d_DKIMSelector d
  | None => ""
  end.

Definition PasswordHashFor (c : Config) (email : string) : option string :=
  match find (λ u, String.eqb (u_Email u) email && negb (is_empty (u_PasswordHash u))) (c_Users c) with
  | Some u => Some (u_PasswordHash u)
  | None =>
      let matches d :=
        String.eqb (st_Type (d_Storage d)) StorageSystemUser
        && negb (is_empty (st_PasswordHash (d_Storage d)))
        && String.eqb email (st_User (d_Storage d) +:+ "@" +:+ d_Name d) in
      match find matches (c_Domains c) with
      | Some d => Some (st_PasswordHash (d_Storage d))
      | None => None
      end
  end.

(** ** Helpers of the validation *)

Definition normalizeHost (h : string) : string := TrimSuffix (ToLower (TrimSpace h)) ".".

Definition knownHash (h : string) : bool :=
  HasPrefix h "$argon2id$" || HasPrefix h "$2a$" || HasPrefix h "$2b$" || HasPrefix h "$2y$".

Definition checkAddr (addr : string) : result unit :=
  '(host, port) ← SplitHostPort addr;
  match Atoi port with
  | Some n =>
      if (n <? 1) || (65535 <? n) then Err (EMsg "invalid port")
      else if negb (is_empty host) && match ParseIP host with None => true | Some _ => false end
      then Err (EMsg "invalid host") else Ok tt
  | None => Err (EMsg "invalid port")
  end.

Definition reject {A} (msg : string) : result A := Err (EMsg msg).

(** A validated section with the warnings it raised. *)
Abbreviation checked A := (result (A * list string)).

(** ** The sections of [validate], in the order of the code *)

Definition validate_server (s : Server) : result Server :=
  let h := normalizeHost (Hostname s) in
  if is_empty h then reject "server.hostname is required"
  else if negb (Contains h ".") then reject "server.hostname: must be a fully qualified name"
  else
    let w := if Workers s =? 0 then 50 else Workers s in
    if w <? 0 then reject "server.workers: must be positive" else Ok (MkServer h w).

Fixpoint validate_listeners (ls : list (string * string)) : result unit :=
  match ls with
  | [] => Ok tt
  | (name, addr) :: ls =>
      if is_empty addr then validate_listeners ls
      else match checkAddr addr with
           | Err _ => reject ("listeners." +:+ name)
           | Ok _ => validate_listeners ls
           end
  end.

Definition listener_table (l : Listeners) : list (string * string) :=
  [("smtp", l_SMTP l); ("smtps", l_SMTPS l); ("submission", l_Submission l);
   ("imap", l_IMAP l); ("imaps", l_IMAPS l); ("pop3", l_POP3 l); ("pop3s", l_POP3S l)].

Definition path_CertRoot : string := "/etc/letsencrypt/live".
Definition path_StateDir : string := "/var/lib/kavira".
Definition path_QueueDir : string := path_StateDir +:+ "/queue".
Definition path_DKIMDir : string := path_StateDir +:+ "/dkim".
Definition path_LogDir : string := "/var/log/kavira".

Definition or_default (s d : string) : string := if is_empty s then d else s.

Definition validate_tls (t : TLS) : result TLS :=
  if negb (String.eqb (MinVersion t) "1.2" || String.eqb (MinVersion t) "1.3")
  then reject "tls.min_version: must be 1.2 or 1.3"
  else
    let days := if ExpiryWarnDays t =? 0 then 14 else ExpiryWarnDays t in
    if days <? 0 then reject "tls.expiry_warn_days: must be positive"
    else Ok (MkTLS (or_default (CertRoot t) path_CertRoot) (MinVersion t) days).

Definition validate_smtp (s : SMTP) : result unit :=
  if MaxSize s <=? 0 then reject "smtp.max_size: must be positive"
  else if MaxRecipients s <=? 0 then reject "smtp.max_recipients: must be positive"
  else Ok tt.

Definition validate_auth (a : Auth) : result unit :=
  if MaxFailures a <=? 0 then reject "auth.max_failures: must be positive"
  else if LockoutMinutes a <=? 0 then reject "auth.lockout_minutes: must be positive"
  else Ok tt.

Definition validate_queue (q : Queue) : result Queue :=
  if q_MaxAttempts q <=? 0 then reject "queue.max_attempts: must be positive"
  else Ok (MkQueue (or_default (q_Dir q) path_QueueDir) (q_MaxAttempts q)).

Definition f_zero : f64 := f64_of_Z 0.

Definition validate_antispam (a : Antispam) : result Antispam :=
  if negb (Antispam_IsEnabled a) then Ok a
  else if fle (TagScore a) f_zero || fle (QuarantineScore a) f_zero || fle (RejectScore a) f_zero
  then reject "antispam: tag_score, quarantine_score and reject_score must be positive"
  else if negb (fle (TagScore a) (QuarantineScore a) && fle (QuarantineScore a) (RejectScore a))
  then reject "antispam: thresholds must satisfy tag_score <= quarantine_score <= reject_score"
  else Ok (MkAntispam (as_Enabled a) (or_default (BayesFile a) (path_StateDir +:+ "/bayes"))
             (TagScore a) (QuarantineScore a) (RejectScore a) (RejectExecutables a)).

Definition validate_antivirus (a : Antivirus) : result Antivirus :=
  if negb (av_Enabled a) then Ok a
  else if is_empty (Socket a) then reject "antivirus.enabled requires antivirus.socket"
  else Ok (MkAntivirus (av_Enabled a) (Socket a)
             (if TimeoutSeconds a <=? 0 then 30 else TimeoutSeconds a) (RejectOnError a)).

Definition validate_blacklist (b : Blacklist) : Blacklist * list string :=
  if negb (Blacklist_IsEnabled b) then (b, []) else
  (MkBlacklist (bl_Enabled b) (DNSBL b) (URIBL b) (RejectListed b)
     (if CacheMinutes b <=? 0 then 60 else CacheMinutes b),
   match DNSBL b, URIBL b with
   | [], [] => ["blacklist enabled but no dnsbl/uribl zones configured: no lookups will happen"]
   | _, _ => []
   end).

Definition validate_reputation (r : Reputation) : result Reputation :=
  if negb (Reputation_IsEnabled r) then Ok r else
  let w := rep_WarmUp r in
  if wu_Enabled w && ((Day1 w =? 0) || (Day7 w =? 0) || (FullPerDay w =? 0))
  then reject "reputation.warmup: day1, day7 and full_per_day must be positive"
  else if wu_Enabled w && negb ((Day1 w <=? Day7 w) && (Day7 w <=? FullPerDay w))
  then reject "reputation.warmup: the ramp must grow (day1 <= day7 <= full_per_day)"
  else Ok (MkReputation (rep_Enabled r)
             (or_default (rep_File r) (path_StateDir +:+ "/reputation.json")) w).

Definition is_ip (s : string) : bool := match ParseIP s with Some _ => true | None => false end.

Definition validate_container (c : Container) : checked unit :=
  if negb (ct_Enabled c) then Ok (tt, []) else
  if is_empty (PublicIP c) then reject "container.enabled requires container.public_ip" else
  match ParseIP (PublicIP c) with
  | None => reject "container.public_ip: not a valid IP address"
  | Some ip =>
      if negb (is_empty (InternalIP c)) && negb (is_ip (InternalIP c))
      then reject "container.internal_ip: not a valid IP address"
      else Ok (tt, if IsPrivate ip || IsLoopback ip
                   then ["container.public_ip " +:+ PublicIP c +:+ " is a private address: outgoing mail will still carry an internal address"]
                   else [])
  end.

Definition validate_rate_limit (r : RateLimit) : checked unit :=
  let ip := in_IP (rl_Inbound r) in
  let u := out_User (rl_Outbound r) in
  if Inbound_IsEnabled (rl_Inbound r) &&
     ((ConnectionsPerMinute ip <=? 0) || (MessagesPerMinute ip <=? 0) || (RecipientsPerMinute ip <=? 0))
  then reject "rate_limit.inbound.ip: all limits must be positive"
  else if Outbound_IsEnabled (rl_Outbound r) &&
     ((MessagesPerHour u <=? 0) || (RecipientsPerHour u <=? 0))
  then reject "rate_limit.outbound.user: all limits must be positive"
  else Ok (tt,
    (if Inbound_IsEnabled (rl_Inbound r) then []
     else ["inbound rate limiting is disabled: no flood protection"]) ++
    (if Outbound_IsEnabled (rl_Outbound r) then []
     else ["outbound rate limiting is disabled: no compromised-account protection"])).

Definition validate_storage (name : string) (st : Storage) : result Storage :=
  if is_empty (st_Type st) || String.eqb (st_Type st) StorageVirtual then Ok st
  else if negb (String.eqb (st_Type st) StorageSystemUser)
  then reject ("domain " +:+ name +:+ ": storage.type")
  else if is_empty (st_User st)
  then reject ("domain " +:+ name +:+ ": storage.user is required for system_user")
  else if negb (is_empty (st_PasswordHash st)) && negb (knownHash (st_PasswordHash st))
  then reject ("domain " +:+ name +:+ ": storage.password_hash: unknown format")
  else Ok (MkStorage (st_Type st) (st_User st)
             (or_default (st_Home st) ("/home/" +:+ st_User st))
             (or_default (st_Maildir st) "{home}/mail") (st_PasswordHash st)).

Fixpoint validate_domains (seen : list string) (ds : list Domain) : result (list Domain) :=
  match ds with
  | [] => Ok []
  | d :: ds =>
      let name := normalizeHost (d_Name d) in
      if is_empty name then reject "domains: name is required"
      else if negb (Contains name ".") then reject "domains: must contain a dot"
      else if mem name seen then reject "domains: duplicate domain"
      else
        st ← validate_storage name (d_Storage d);
        rest ← validate_domains (name :: seen) ds;
        Ok (MkDomain name st (d_DKIMSelector d) :: rest)
  end.

Fixpoint validate_users (domains : list Domain) (us : list User) : checked (list User) :=
  match us with
  | [] => Ok ([], [])
  | u :: us =>
      let email := ToLower (TrimSpace (u_Email u)) in
      let at_ := LastIndexByte email "@" in
      if (at_ <=? 0) || (at_ =? slen email - 1) then reject "users: invalid email address" else
      let type := or_default (u_Type u) StorageVirtual in
      if negb (String.eqb type StorageVirtual) then reject ("user " +:+ email +:+ ": type")
      else if is_empty (u_Maildir u) then reject ("user " +:+ email +:+ ": maildir is required") else
      let dom := slice_from email (at_ + 1) in
      let w := if existsb (λ d, String.eqb (d_Name d) dom) domains then []
               else ["user " +:+ email +:+ ": domain " +:+ dom +:+ " is not configured"] in
      if negb (is_empty (u_PasswordHash u)) && negb (knownHash (u_PasswordHash u))
      then reject ("user " +:+ email +:+ ": password_hash: unknown format") else
      '(rest, ws) ← validate_users domains us;
      Ok (MkUser email type (u_Maildir u) (u_PasswordHash u) :: rest, w ++ ws)
  end.

Definition validate_api (a : API) : checked API :=
  if negb (api_Enabled a) then Ok (a, []) else
  let addr := or_default (api_Address a) ":8443" in
  match checkAddr addr with
  | Err _ => reject "api.address"
  | Ok _ =>
      match api_Keys a with
      | [] => reject "api.enabled requires at least one api.keys entry"
      | keys =>
          Ok (MkAPI true addr keys,
              concat (imap (λ i k, if slen k <? 32
                then ["api.keys[" +:+ dec (Z.of_nat i)
                        +:+ "]: shorter than 32 characters, consider a stronger key"]
                else []) keys))
      end
  end.

(** [validate]: the normalised configuration, or the first error. *)
Definition validate (c : Config) : result Config :=
  server ← validate_server (c_Server c);
  _ ← validate_listeners (listener_table (c_Listeners c));
  tls ← validate_tls (c_TLS c);
  _ ← validate_smtp (c_SMTP c);
  _ ← validate_auth (c_Auth c);
  queue ← validate_queue (c_Queue c);
  let dkim := MkDKIM (or_default (dkim_Dir (c_DKIM c)) path_DKIMDir) in
  antispam ← validate_antispam (c_Antispam c);
  antivirus ← validate_antivirus (c_Antivirus c);
  let '(blacklist, w1) := validate_blacklist (c_Blacklist c) in
  reputation ← validate_reputation (c_Reputation c);
  '(_, w2) ← validate_container (c_Container c);
  '(_, w3) ← validate_rate_limit (c_RateLimit c);
  domains ← validate_domains [] (c_Domains c);
  let w4 := match domains with
            | [] => ["no domain files found in " +:+ c_DomainsDir c +:+ ": kavira will accept no mail"]
            | _ => []
            end in
  '(users, w5) ← validate_users domains (c_Users c);
  '(api, w6) ← validate_api (c_API c);
  Ok (MkConfig server (c_Listeners c) tls (c_SMTP c) (c_MailAuth c) (c_Auth c) queue dkim
        antispam antivirus blacklist reputation (c_Container c) (c_RateLimit c)
        (c_DomainsDir c) domains users api (MkLog (or_default (log_Dir (c_Log c)) path_LogDir))
        (c_Warnings c ++ w1 ++ w2 ++ w3 ++ w4 ++ w5 ++ w6)).

(** ** Defaults *)

Definition DefaultDNSBL : list string :=
  ["zen.spamhaus.org"; "b.barracudacentral.org"; "dnsbl.sorbs.net"; "dnsbl-1.uceprotect.net"].
Definition DefaultURIBL : list string := ["dbl.spamhaus.org"; "multi.uribl.com"].

Definition defaults : Config := {|
  c_Server := MkServer "" 50;
  c_Listeners := MkListeners ":25" ":465" ":587" ":143" ":993" ":110" ":995";
  c_TLS := MkTLS path_CertRoot "1.2" 14;
  c_SMTP := MkSMTP (25 * 1024 * 1024) 100;
  c_MailAuth := MkMailAuth None None;
  c_Auth := MkAuth 10 15;
  c_Queue := MkQueue path_QueueDir 10;
  c_DKIM := MkDKIM path_DKIMDir;
  c_Antispam := MkAntispam None (path_StateDir +:+ "/bayes") (f64_of_Z 5) (f64_of_Z 10)
                  (f64_of_Z 20) None;
  c_Antivirus := MkAntivirus false "/var/run/clamav/clamd.ctl" 30 false;
  c_Blacklist := MkBlacklist None DefaultDNSBL DefaultURIBL false 60;
  c_Reputation := MkReputation None (path_StateDir +:+ "/reputation.json")
                    (MkWarmUp true 100 2000 50000);
  c_Container := MkContainer false "" "" "";
  c_RateLimit := MkRateLimit (MkInbound None (MkIPLimits 30 100 500))
                   (MkOutbound None (MkUserLimits 500 1000));
  c_DomainsDir := "";
  c_Domains := []; c_Users := [];
  c_API := MkAPI false ":8443" [];
  c_Log := MkLog path_LogDir;
  c_Warnings := [];
|}.

(** ** Domain files *)

Record DomainFile := MkDomainFile {
  df_Name : string; df_DKIMSelector : string; df_Storage : Storage; df_Users : list User;
}.

(** [loadDomainFile] after decoding: the file [n] names the domain. *)
Definition loadDomainFile (n : string) (decoded : result DomainFile) : result DomainFile :=
  df ← decoded;
  let base := normalizeHost (TrimSuffix n ".yaml") in
  let name := normalizeHost (df_Name df) in
  if negb (is_empty name) && negb (String.eqb name base)
  then reject (n +:+ ": declares domain " +:+ name)
  else
    let name := or_default name base in
    if is_empty name then reject (n +:+ ": the file name does not give a domain name")
    else if negb (Contains name ".") then reject (n +:+ ": not a valid domain (no dot)")
    else Ok (MkDomainFile name (df_DKIMSelector df) (df_Storage df) (df_Users df)).

Definition is_domain_file (entry : string * bool) : bool :=
  negb entry.2 && HasSuffix entry.1 ".yaml" && negb (HasPrefix entry.1 ".").

(** What the scan of the directory adds to the configuration. *)
Record loaded := Loaded { ld_Domains : list Domain; ld_Users : list User; ld_Warnings : list string }.

(** The loop over the sorted file names; [seen] holds the domains met. *)
Fixpoint load_files (decode : string → result DomainFile) (seen : list string) (names : list string)
    : loaded :=
  match names with
  | [] => Loaded [] [] []
  | n :: names =>
      match loadDomainFile n (decode n) with
      | Err ENotExist => let r := load_files decode seen names in
          Loaded (ld_Domains r) (ld_Users r) (n :: ld_Warnings r)
      | Err (EMsg m) => let r := load_files decode seen names in
          Loaded (ld_Domains r) (ld_Users r) (m :: ld_Warnings r)
      | Ok df =>
          if mem (df_Name df) seen then
            let r := load_files decode seen names in
            Loaded (ld_Domains r) (ld_Users r)
              (("domain " +:+ df_Name df +:+ " is defined more than once, " +:+ n +:+ " ignored")
                 :: ld_Warnings r)
          else
            let r := load_files decode (df_Name df :: seen) names in
            Loaded (MkDomain (df_Name df) (df_Storage df) (df_DKIMSelector df) :: ld_Domains r)
                   (df_Users df ++ ld_Users r) (ld_Warnings r)
      end
  end.

Definition add_loaded (c : Config) (l : loaded) : Config :=
  MkConfig (c_Server c) (c_Listeners c) (c_TLS c) (c_SMTP c) (c_MailAuth c) (c_Auth c)
    (c_Queue c) (c_DKIM c) (c_Antispam c) (c_Antivirus c) (c_Blacklist c) (c_Reputation c)
    (c_Container c) (c_RateLimit c) (c_DomainsDir c) (c_Domains c ++ ld_Domains l)
    (c_Users c ++ ld_Users l) (c_API c) (c_Log c) (c_Warnings c ++ ld_Warnings l).

(** [loadDomains]; [entries] is what [os.ReadDir] answers. *)
Definition loadDomains `{SliceSort} (c : Config) (entries : result (list (string * bool)))
    (decode : string → result DomainFile) : result Config :=
  match entries with
  | Err ENotExist =>
      Ok (add_loaded c (Loaded [] [] ["domains directory " +:+ c_DomainsDir c
                                       +:+ " does not exist: no domain is served"]))
  | Err e => Err e
  | Ok es =>
      let names := sort_slice String.ltb (fst <$> filter (λ e, is_domain_file e = true) es) in
      Ok (add_loaded c (load_files decode [] names))
  end.

(** [Load] after the main file is decoded into [decoded]. *)
Definition Load `{SliceSort} (decoded : result Config) (entries : result (list (string * bool)))
    (decode : string → result DomainFile) : result Config :=
  cfg ← decoded;
  match c_Domains cfg, c_Users cfg with
  | [], [] => cfg ← loadDomains cfg entries decode; validate cfg
  | _, _ => reject "domains and users now live in one file per domain"
  end.

(** ** The manager *)

Record Manager := MkManager { current : Config; reloadErr : option error }.

(** [Reload] with the outcome of [Load] on the files as they are now. *)
Definition Reload (m : Manager) (loaded : result Config) : Manager * option error :=
  match loaded with
  | Err e => (MkManager (current m) (Some e), Some e)
  | Ok cfg => (MkManager cfg None, None)
  end.

(** ** What a validated configuration guarantees *)

Definition is_fqdn (h : string) : Prop := h ≠ "" ∧ Contains h "." = true.
Definition hash_ok (h : string) : Prop := h = "" ∨ knownHash h = true.

Definition storage_ok (st : Storage) : Prop :=
  (st_Type st = "" ∨ st_Type st = StorageVirtual) ∨
  (st_Type st = StorageSystemUser ∧ st_User st ≠ "" ∧ st_Home st ≠ "" ∧ st_Maildir st ≠ "" ∧
   hash_ok (st_PasswordHash st)).

Definition user_ok (u : User) : Prop :=
  u_Email u = ToLower (TrimSpace (u_Email u)) ∧
  0 < LastIndexByte (u_Email u) "@" < slen (u_Email u) - 1 ∧
  u_Type u = StorageVirtual ∧ u_Maildir u ≠ "" ∧ hash_ok (u_PasswordHash u).

Definition limits_ok (r : RateLimit) : Prop :=
  (Inbound_IsEnabled (rl_Inbound r) = true →
     0 < ConnectionsPerMinute (in_IP (rl_Inbound r)) ∧
     0 < MessagesPerMinute (in_IP (rl_Inbound r)) ∧
     0 < RecipientsPerMinute (in_IP (rl_Inbound r))) ∧
  (Outbound_IsEnabled (rl_Outbound r) = true →
     0 < MessagesPerHour (out_User (rl_Outbound r)) ∧
     0 < RecipientsPerHour (out_User (rl_Outbound r))).

Record valid_config (c : Config) : Prop := {
  vc_host : is_fqdn (Hostname (c_Server c));
  vc_workers : 0 < Workers (c_Server c);
  vc_tls : MinVersion (c_TLS c) = "1.2" ∨ MinVersion (c_TLS c) = "1.3";
  vc_size : 0 < MaxSize (c_SMTP c) ∧ 0 < MaxRecipients (c_SMTP c);
  vc_auth : 0 < MaxFailures (c_Auth c) ∧ 0 < LockoutMinutes (c_Auth c);
  vc_attempts : 0 < q_MaxAttempts (c_Queue c);
  vc_scores : Antispam_IsEnabled (c_Antispam c) = true →
    fle (TagScore (c_Antispam c)) (QuarantineScore (c_Antispam c)) = true ∧
    fle (QuarantineScore (c_Antispam c)) (RejectScore (c_Antispam c)) = true;
  vc_public : ct_Enabled (c_Container c) = true → is_ip (PublicIP (c_Container c)) = true;
  vc_limits : limits_ok (c_RateLimit c);
  vc_domains : NoDup (DomainNames c) ∧
    Forall (λ d, is_fqdn (d_Name d) ∧ storage_ok (d_Storage d)) (c_Domains c);
  vc_users : Forall user_ok (c_Users c);
  vc_api : api_Enabled (c_API c) = true → api_Keys (c_API c) ≠ [];
}.

(** Clears the guards of a validation step that succeeded. *)
Ltac guards H :=
  repeat match type of H with
  | (if ?b then reject _ else _) = Ok _ =>
      let E := fresh "G" in destruct b eqn:E; [discriminate H|]
  end.

Lemma or_default_nonempty s d : d ≠ "" → or_default s d ≠ "".
Proof. unfold or_default. destruct s; [done|]. by simpl. Qed.

Lemma hash_guard h : negb (is_empty h) && negb (knownHash h) = false → hash_ok h.
Proof.
  unfold hash_ok. destruct h; [by left|]. simpl. intros H%negb_false_iff. by right.
Qed.

Lemma validate_storage_ok name st st' : validate_storage name st = Ok st' → storage_ok st'.
Proof.
  unfold validate_storage. intros H.
  destruct (is_empty (st_Type st) || String.eqb (st_Type st) StorageVirtual) eqn:E.
  - injection H as <-. left. apply orb_true_iff in E as [E|E].
    + left. by destruct (st_Type st).
    + right. by apply String.eqb_eq.
  - guards H. injection H as <-. right. simpl.
    apply negb_false_iff, String.eqb_eq in G. apply is_empty_false in G0.
    split_and!; [done|done|..].
    + by apply or_default_nonempty.
    + by apply or_default_nonempty.
    + by apply hash_guard.
Qed.

Lemma validate_domains_ok seen ds ds' :
  validate_domains seen ds = Ok ds' →
  (NoDup (d_Name <$> ds') ∧ ∀ x, x ∈ seen → x ∉ d_Name <$> ds') ∧
  Forall (λ d, is_fqdn (d_Name d) ∧ storage_ok (d_Storage d)) ds'.
Proof.
  revert seen ds'; induction ds as [|d ds IH]; intros seen ds'; simpl.
  - intros [= <-]. split; [|constructor]. split; [constructor|]. intros x _. apply not_elem_of_nil.
  - intros H. guards H. bind_ok H as st eqn E. bind_ok H as rest eqn E0. injection H as <-.
    destruct (IH _ _ E0) as [[Hnd Hseen] Hall].
    apply validate_storage_ok in E. apply negb_false_iff in G0.
    apply bool_decide_eq_false in G1. apply is_empty_false in G.
    repeat split; simpl.
    + apply NoDup_cons. split; [|done]. apply Hseen. apply list_elem_of_here.
    + intros x Hx. apply not_elem_of_cons. split; [by intros ->|].
      apply Hseen. by apply list_elem_of_further.
    + by constructor.
Qed.

Lemma validate_users_ok domains us us' ws :
  validate_users domains us = Ok (us', ws) → Forall user_ok us'.
Proof.
  revert us' ws; induction us as [|u us IH]; intros us' ws; simpl.
  - intros [= <- <-]. constructor.
  - intros H. guards H. bind_ok H as [rest ws'] eqn E. injection H as <- <-.
    constructor; [|by eapply IH].
    apply orb_false_iff in G as [?%Z.leb_gt ?%Z.eqb_neq].
    pose proof (LastIndexByte_bound (ToLower (TrimSpace (u_Email u))) "@").
    apply negb_false_iff, String.eqb_eq in G0. apply is_empty_false in G1.
    repeat split; simpl; [|lia|lia|done|done|by apply hash_guard].
    by rewrite TrimSpace_ToLower, TrimSpace_idemp, ToLower_idemp.
Qed.

Lemma validate_antispam_ok a a' :
  validate_antispam a = Ok a' → Antispam_IsEnabled a' = true →
  fle (TagScore a') (QuarantineScore a') = true ∧ fle (QuarantineScore a') (RejectScore a') = true.
Proof.
  unfold validate_antispam. destruct (Antispam_IsEnabled a) eqn:E; simpl.
  - intros H _. guards H. injection H as <-. simpl.
    by apply negb_false_iff, andb_true_iff in G0.
  - intros [= <-]. by rewrite E.
Qed.

Lemma validate_rate_limit_ok r x : validate_rate_limit r = Ok x → limits_ok r.
Proof.
  unfold validate_rate_limit, limits_ok. cbv zeta. intros H. guards H. split; intros E.
  - rewrite E in G. reflect_bool. simpl in G. reflect_bool. lia.
  - rewrite E in G0. simpl in G0. reflect_bool. lia.
Qed.

Lemma validate_container_ok c x :
  validate_container c = Ok x → ct_Enabled c = true → is_ip (PublicIP c) = true.
Proof.
  unfold validate_container, is_ip. intros H Hen. rewrite Hen in H. simpl in H. guards H.
  by destruct (ParseIP (PublicIP c)).
Qed.

Lemma validate_api_ok a a' ws :
  validate_api a = Ok (a', ws) → api_Enabled a' = true → api_Keys a' ≠ [].
Proof.
  unfold validate_api. destruct (api_Enabled a) eqn:E; simpl.
  - destruct (checkAddr _); [|done]. destruct (api_Keys a); [done|]. by intros [= <- <-].
  - intros [= <- <-]. by rewrite E.
Qed.

(** A configuration that loads is secure by construction: whatever
    the files say, a validated configuration has a qualified host name,
    positive size, recipient, login-failure and rate limits, escalating
    spam thresholds, distinct well-formed domains, users with a mailbox
    and no cleartext password, and an enabled admin API only with keys. *)
Lemma validate_secure c c' : validate c = Ok c' → valid_config c'.
Proof.
  unfold validate. intros H.
  bind_ok H as server eqn Hserver. bind_ok H as [] eqn Hls. bind_ok H as tls eqn Htls.
  bind_ok H as [] eqn Hsmtp. bind_ok H as [] eqn Hauth. bind_ok H as queue eqn Hqueue.
  cbv zeta in H. bind_ok H as spam eqn Hspam. bind_ok H as av eqn Hav.
  destruct (validate_blacklist (c_Blacklist c)) as [bl w1].
  bind_ok H as rep eqn Hrep. bind_ok H as [[] w2] eqn Hct. bind_ok H as [[] w3] eqn Hrl.
  bind_ok H as domains eqn Hdom. bind_ok H as [users w5] eqn Hus. bind_ok H as [api w6] eqn Hapi.
  injection H as <-.
  apply validate_domains_ok in Hdom as [[Hnd _] Hdom].
  split; simpl.
  - unfold validate_server in Hserver. cbv zeta in Hserver. guards Hserver. injection Hserver as <-.
    split; [by apply is_empty_false|]. by apply negb_false_iff in G0.
  - unfold validate_server in Hserver. cbv zeta in Hserver. guards Hserver. injection Hserver as <-.
    simpl. destruct (Z.eqb_spec (Workers (c_Server c)) 0); reflect_bool; lia.
  - unfold validate_tls in Htls. cbv zeta in Htls. guards Htls. injection Htls as <-. simpl.
    apply negb_false_iff, orb_true_iff in G as [G|G]; apply String.eqb_eq in G; auto.
  - unfold validate_smtp in Hsmtp. guards Hsmtp. reflect_bool. lia.
  - unfold validate_auth in Hauth. guards Hauth. reflect_bool. lia.
  - unfold validate_queue in Hqueue. guards Hqueue. injection Hqueue as <-. reflect_bool. done.
  - by eapply validate_antispam_ok.
  - by eapply validate_container_ok.
  - by eapply validate_rate_limit_ok.
  - by split.
  - by eapply validate_users_ok.
  - by eapply validate_api_ok.
Qed.

(** The defaults with a host name, a hosted domain and a user. *)
Definition sample : Config :=
  MkConfig (MkServer "MX.Example.com." 0) (c_Listeners defaults) (c_TLS defaults) (c_SMTP defaults)
    (c_MailAuth defaults) (c_Auth defaults) (c_Queue defaults) (c_DKIM defaults)
    (c_Antispam defaults) (c_Antivirus defaults) (c_Blacklist defaults) (c_Reputation defaults)
    (c_Container defaults) (c_RateLimit defaults) "/etc/kavira/domains"
    [MkDomain "example.com" (MkStorage "" "" "" "" "") ""]
    [MkUser "Bob@Example.com" "" "/var/mail/example.com/bob" "$2b$12$abc"]
    (c_API defaults) (c_Log defaults) [].

Lemma validate_secure_witness :
  ∃ c, validate sample = Ok c ∧ valid_config c ∧ (u_Email <$> c_Users c) = ["bob@example.com"].
Proof.
  eexists. split; [vm_compute; reflexivity|]. split; [|reflexivity].
  apply (validate_secure sample). vm_compute. reflexivity.
Defined.

(** ** The scan of the domain files *)

Definition file_domain (n : string) : string := normalizeHost (TrimSuffix n ".yaml").

Lemma loadDomainFile_name n d df : loadDomainFile n d = Ok df → df_Name df = file_domain n.
Proof.
  unfold loadDomainFile. intros H. bind_ok H as df' eqn E. cbv zeta in H. guards H.
  injection H as <-. simpl. unfold or_default.
  destruct (is_empty (normalizeHost (df_Name df'))) eqn:Hn; [done|].
  simpl in G. by apply negb_false_iff, String.eqb_eq in G.
Qed.

(** The part of a scan that concerns domains other than [b]. *)
Definition others (b : string) (r : loaded) : list Domain :=
  filter (λ d, d_Name d ≠ b) (ld_Domains r).

Definition same_but (b : string) (seen seen' : list string) : Prop :=
  ∀ x, x ≠ b → (x ∈ seen ↔ x ∈ seen').

(** a domain file concerns its own domain only: whatever is done to
    the file [n0] - removed, broken, edited - every other domain is loaded
    exactly as before. *)
Theorem domain_files_isolated decode decode' n0 names :
  (∀ n, n ≠ n0 → decode' n = decode n) →
  others (file_domain n0) (load_files decode [] names) =
  others (file_domain n0) (load_files decode' [] names).
Proof.
  intros Hd. enough (H : ∀ seen seen', same_but (file_domain n0) seen seen' →
    others (file_domain n0) (load_files decode seen names) =
    others (file_domain n0) (load_files decode' seen' names)) by (by apply H).
  induction names as [|n names IH]; intros seen seen' Hs; [done|]. simpl.
  (* what a file of the domain [n0] contributes is filtered out *)
  assert (Hown : ∀ dec sn, file_domain n = file_domain n0 →
    ∃ sn', same_but (file_domain n0) sn sn' ∧
      others (file_domain n0) (load_files dec sn (n :: names)) =
      others (file_domain n0) (load_files dec sn' names)).
  { intros dec sn Hn. simpl. destruct (loadDomainFile n (dec n)) as [df|[|m]] eqn:E;
      [|by exists sn..]. apply loadDomainFile_name in E. rewrite Hn in E.
    destruct (mem (df_Name df) sn); [by exists sn|]. exists (df_Name df :: sn). split.
    - intros x Hx. rewrite elem_of_cons, E. tauto.
    - unfold others. simpl. by rewrite filter_cons_False by (simpl; naive_solver). }
  destruct (decide (file_domain n = file_domain n0)) as [Hn|Hn].
  - destruct (Hown decode seen Hn) as (s1 & Hs1 & E1).
    destruct (Hown decode' seen' Hn) as (s2 & Hs2 & E2). simpl in E1, E2. rewrite E1, E2.
    apply IH. intros x Hx. rewrite <- (Hs1 x Hx), <- (Hs2 x Hx). by apply Hs.
  - rewrite Hd by (intros ->; done).
    destruct (loadDomainFile n (decode n)) as [df|[|m]] eqn:E; [|by apply IH..].
    apply loadDomainFile_name in E.
    assert (Hm : mem (df_Name df) seen = mem (df_Name df) seen').
    { unfold mem. apply bool_decide_ext, Hs. by rewrite E. }
    rewrite Hm. destruct (mem (df_Name df) seen'); [by apply IH|].
    unfold others. simpl. rewrite !filter_cons_True by (simpl; by rewrite E). f_equal.
    apply IH. intros x Hx. rewrite !elem_of_cons. by rewrite (Hs x Hx).
Qed.

Lemma domain_files_isolated_witness :
  let ok n := Ok (MkDomainFile "" "" (MkStorage "" "" "" "" "") []) in
  others "b.org" (load_files ok [] ["a.org.yaml"; "b.org.yaml"]) =
  others "b.org" (load_files (λ n, if String.eqb n "b.org.yaml" then Err ENotExist else ok n) []
                    ["a.org.yaml"; "b.org.yaml"]).
Proof.
  intros ok. apply (domain_files_isolated ok _ "b.org.yaml").
  intros n Hn. apply String.eqb_neq in Hn. by rewrite Hn.
Defined.

(** A failed reload keeps the running configuration and records the
    error; a successful one replaces it and clears the error. *)
Lemma Reload_current m loaded :
  current (Reload m loaded).1 = match loaded with Ok c => c | Err _ => current m end ∧
  reloadErr (Reload m loaded).1 = match loaded with Ok _ => None | Err e => Some e end.
Proof. by destruct loaded. Qed.

(** What is loaded from files is valid, the domains of every file that is
    read included. *)
Lemma Load_valid `{SliceSort} decoded entries decode cfg : Load decoded entries decode = Ok cfg → valid_config cfg.
Proof.
  unfold Load. intros Hl. bind_ok Hl as c eqn Hc. destruct (c_Domains c); [|done]. destruct (c_Users c); [|done].
  bind_ok Hl as c' eqn Hc'. by eapply validate_secure.
Qed.
