(* ===== verification/Storage.v ===== *)
(** * Mailbox resolution

    Models [internal/storage]: the split of an address and the map from a
    recipient to its mailbox.  The account database of the host
    ([os/user.Lookup]) is a parameter. *)

From S2P Require Import Prelude GoStrings Config.

Record Mailbox := MkMailbox { Email : string; Dir : string; UID : Z; GID : Z }.

(** Local part and lowercased domain, split at the last at-sign. *)
Definition split_at_sign (email : string) : option (string * string) :=
  let at_ := LastIndexByte email "@" in
  if (at_ <=? 0) || (at_ =? slen email - 1) then None
  else Some (slice_to email at_, ToLower (slice_from email (at_ + 1))).

Definition Split (email : string) : option (string * string) := split_at_sign (TrimSpace email).

Section resolve.
(** The numeric ids of an account, as the strings [user.Lookup] gives;
    [linux] is [runtime.GOOS == "linux"]. *)
Context (linux : bool) (user_Lookup : string → option (string * string)).

Definition fillOwner (mb : Mailbox) (name : string) : Mailbox :=
  if negb linux then mb else
  match user_Lookup name with
  | None => mb
  | Some (u, g) =>
      match Atoi u with
      | None => mb
      | Some uid =>
          match Atoi g with
          | None => mb
          | Some gid => MkMailbox (Email mb) (Dir mb) uid gid
          end
      end
  end.

Definition Resolve (cfg : Config) (email : string) : option Mailbox :=
  match Split email with
  | None => None
  | Some (local, domain) =>
      let local := ToLower local in
      let addr := local +:+ "@" +:+ domain in
      match find (λ d, String.eqb (d_Name d) domain) (c_Domains cfg) with
      | None => None
      | Some d =>
          if String.eqb (st_Type (d_Storage d)) StorageSystemUser then
            if negb (String.eqb local (st_User (d_Storage d))) then None
            else Some (fillOwner (MkMailbox addr (MaildirPath (d_Storage d)) (-1) (-1))
                         (st_User (d_Storage d)))
          else
            match find (λ u, String.eqb (u_Email u) addr) (c_Users cfg) with
            | Some u => Some (MkMailbox addr (u_Maildir u) (-1) (-1))
            | None => None
            end
      end
  end.

Lemma fillOwner_Email mb name : Email (fillOwner mb name) = Email mb.
Proof. unfold fillOwner. by repeat case_goal. Qed.

Lemma fillOwner_Dir mb name : Dir (fillOwner mb name) = Dir mb.
Proof. unfold fillOwner. by repeat case_goal. Qed.
End resolve.

(** ** Splitting *)

Lemma split_at_sign_spec email local domain :
  split_at_sign email = Some (local, domain) →
  ∃ d, email = local +:+ String "@" d ∧ domain = ToLower d ∧ avoids "@" d = true ∧
       local ≠ "" ∧ d ≠ "".
Proof.
  unfold split_at_sign. intros H.
  destruct ((_ <=? 0) || _) eqn:E; [done|]. injection H as <- <-. reflect_bool.
  destruct (LastIndexByte_spec email "@") as (a & b & -> & Ha & Hb); [lia|].
  rewrite <- Ha in *. exists b.
  unfold slice_to, slice_from, slen. rewrite Nat2Z.id, stake_app.
  replace (Z.to_nat (Z.of_nat (String.length a) + 1)) with (String.length a + 1)%nat by lia.
  assert (Hd : sdrop (String.length a + 1) (a +:+ String "@" b) = b).
  { clear. induction a; simpl; [by destruct b|done]. }
  rewrite Hd. split_and!; [done..| |].
  - intros ->. unfold slen in *. simpl in *. lia.
  - intros ->. rewrite slen_app, slen_cons in *. change (slen "") with 0 in *. lia.
Qed.

(** Splitting the address built from two parts gives the parts back. *)
Lemma split_at_sign_app local d :
  local ≠ "" → d ≠ "" → avoids "@" d = true →
  split_at_sign (local +:+ String "@" d) = Some (local, ToLower d).
Proof.
  intros Hl Hd Ha. unfold split_at_sign. rewrite (LastIndexByte_app local "@" d Ha).
  rewrite slen_app, slen_cons. pose proof (slen_nonneg local). pose proof (slen_nonneg d).
  assert (slen local ≠ 0) by (by intros ?%slen_zero).
  assert (slen d ≠ 0) by (by intros ?%slen_zero).
  destruct (Z.leb_spec (slen local) 0); [lia|].
  destruct (Z.eqb_spec (slen local) (slen local + (slen d + 1) - 1)); [lia|]. simpl.
  unfold slice_to, slice_from, slen. rewrite Nat2Z.id, stake_app.
  replace (Z.to_nat (Z.of_nat (String.length local) + 1)) with (String.length local + 1)%nat by lia.
  assert (Hdr : sdrop (String.length local + 1) (local +:+ String "@" d) = d).
  { clear. induction local; simpl; [by destruct d|done]. }
  by rewrite Hdr.
Qed.

Lemma split_at_sign_ToLower email :
  split_at_sign (ToLower email) =
    match split_at_sign email with Some (l, d) => Some (ToLower l, d) | None => None end.
Proof.
  unfold split_at_sign. rewrite LastIndexByte_ToLower, slen_ToLower by done.
  destruct ((_ <=? 0) || _); [done|].
  unfold slice_to, slice_from. unfold ToLower at 1 3 4. rewrite <- !smap_stake, <- !smap_sdrop.
  f_equal. f_equal. apply ToLower_idemp.
Qed.

(** ** Resolution *)

(** The mailbox an address denotes: the account bound to its domain or
    the virtual user with exactly that address. *)
Definition denotes (cfg : Config) (addr dir : string) : Prop :=
  ∃ local domain d,
    addr = local +:+ "@" +:+ domain ∧ d ∈ c_Domains cfg ∧ d_Name d = domain ∧
    ((st_Type (d_Storage d) = StorageSystemUser ∧ local = st_User (d_Storage d) ∧
      dir = MaildirPath (d_Storage d)) ∨
     (st_Type (d_Storage d) ≠ StorageSystemUser ∧
      ∃ u, u ∈ c_Users cfg ∧ u_Email u = addr ∧ dir = u_Maildir u)).

Lemma Resolve_denotes linux user_Lookup cfg email mb :
  Resolve linux user_Lookup cfg email = Some mb →
  denotes cfg (Email mb) (Dir mb) ∧
  ∃ local domain, Split email = Some (local, domain) ∧ HasDomain cfg domain = true ∧
    Email mb = ToLower local +:+ "@" +:+ domain.
Proof.
  unfold Resolve. destruct (Split email) as [[local domain]|]; [|done].
  destruct (find _ (c_Domains cfg)) as [d|] eqn:Hd; [|done].
  apply find_some in Hd as [Hin Hname].
  assert (Hhas : HasDomain cfg domain = true)
    by (apply existsb_exists; eauto).
  apply String.eqb_eq in Hname. intros H.
  destruct (String.eqb (st_Type (d_Storage d)) StorageSystemUser) eqn:Ht.
  - destruct (String.eqb (ToLower local) (st_User (d_Storage d))) eqn:Hu; [|done].
    injection H as <-. reflect_bool. rewrite fillOwner_Email, fillOwner_Dir. simpl.
    split; [|by exists local, domain].
    exists (ToLower local), domain, d. split_and!; [done|by apply list_elem_of_In|done|].
    left. by split_and!.
  - destruct (find _ (c_Users cfg)) as [u|] eqn:Hu; [|done]. injection H as <-.
    apply find_some in Hu as [Hiu Hue]. reflect_bool. simpl.
    split; [|by exists local, domain].
    exists (ToLower local), domain, d. split_and!; [done|by apply list_elem_of_In|done|].
    right. split; [done|]. exists u. split_and!; [by apply list_elem_of_In|done..].
Qed.

(** The two parts make the normalised address. *)
Lemma Split_join email local domain : Split email = Some (local, domain) →
  ToLower local +:+ "@" +:+ domain = ToLower (TrimSpace email).
Proof.
  intros (d&->&->&_)%split_at_sign_spec. change (String "@" d) with ("@" +:+ d). by rewrite !ToLower_app.
Qed.

(** a recipient resolves only to a mailbox that the configuration
    gives to exactly its normalised address, in a hosted domain. *)
Theorem Resolve_sound linux user_Lookup cfg email mb :
  Resolve linux user_Lookup cfg email = Some mb →
  denotes cfg (ToLower (TrimSpace email)) (Dir mb) ∧ Email mb = ToLower (TrimSpace email) ∧
  ∃ local domain, Split email = Some (local, domain) ∧ HasDomain cfg domain = true.
Proof.
  intros (Hd&local&domain&Hs&Hh&He)%Resolve_denotes. rewrite <- (Split_join _ _ _ Hs), <- He. eauto 6.
Qed.

(** resolution does not depend on the case of the address nor on
    the white space around it. *)
Theorem Resolve_case_insensitive linux user_Lookup cfg email :
  Resolve linux user_Lookup cfg (ToLower (TrimSpace email)) = Resolve linux user_Lookup cfg email.
Proof.
  unfold Resolve, Split. rewrite TrimSpace_ToLower, TrimSpace_idemp, split_at_sign_ToLower.
  destruct (split_at_sign (TrimSpace email)) as [[l d]|]; [|done]. by rewrite ToLower_idemp.
Qed.

(** The sample configuration, validated. *)
Definition sample_cfg : Config :=
  match validate sample with Ok c => c | Err _ => sample end.

Lemma Resolve_sound_witness : denotes sample_cfg "bob@example.com" "/var/mail/example.com/bob".
Proof.
  destruct (Resolve_sound true (λ _, None) sample_cfg " Bob@EXAMPLE.com"
              (MkMailbox "bob@example.com" "/var/mail/example.com/bob" (-1) (-1))) as [H _].
  - vm_compute. reflexivity.
  - exact H.
Defined.
