(* ===== verification/Fs.v ===== *)
(** * The operating system as the mail store sees it

    A world of files and directories with the calls of [os] the code
    makes.  Paths are lists of components; [path_join] is
    [filepath.Join] under an absolute, clean root.  Every call that can
    fail consumes one tick; an environment says which ticks fail, what
    the clock and the random source return at each tick, and how many
    bytes a failing write leaves behind.  Symbolic links, permissions and
    other processes are not modelled. *)

From S2P Require Import Prelude GoStrings.

Definition path := list string.

Record file := MkFile { f_data : string; f_mtime : Z }.

#[global] Instance file_eq_dec : EqDecision file.
Proof. solve_decision. Defined.

Record World := MkWorld {
  w_files : gmap path file;
  w_dirs : gset path;
  w_tick : nat;
  (** the delivery counter and the host token of [internal/maildir] *)
  w_seq : Z;
  w_host : option string;
}.

Record Env := MkEnv {
  e_fail : nat → bool;
  e_short : nat → nat;
  e_clock : nat → Z;
  e_rand : nat → Z;
  e_pid : Z;
  e_hostname : string;
}.

(** A call: its result and the world after it. *)
Definition OS (A : Type) : Type := World → result A * World.

#[global] Instance OS_ret : MRet OS := λ A a w, (Ok a, w).
#[global] Instance OS_bind : MBind OS := λ A B f m w,
  let '(r, w) := m w in
  match r with Ok a => f a w | Err e => (Err e, w) end.

Definition os_err {A} (e : error) : OS A := λ w, (Err e, w).

(** The call with its error as a value: [x, err := f()]. *)
Definition os_try {A} (m : OS A) : OS (result A) := λ w, let '(r, w) := m w in (Ok r, w).

(** The call with its error discarded. *)
Definition os_ignore {A} (m : OS A) : OS unit := λ w, (Ok tt, (m w).2).

(** ** Paths *)

Definition parent (p : path) : path := removelast p.

(** One component after another onto a clean absolute path. *)
Definition join_component (p : path) (c : string) : path :=
  if (String.eqb c "" || String.eqb c ".")%bool then p
  else if String.eqb c ".." then parent p
  else p ++ [c].

Definition path_join (root : path) (elem : string) : path :=
  foldl join_component root (Split elem "/"%char).

Definition path_base (p : path) : string := List.last p "".

(** The prefixes of a path, itself included. *)
Fixpoint ancestors_go (p acc : path) : list path :=
  acc :: match p with [] => [] | c :: p => ancestors_go p (acc ++ [c]) end.
Definition ancestors (p : path) : list path := ancestors_go p [].

Fixpoint below (root p : path) : bool :=
  match root, p with
  | [], _ => true
  | c :: root, d :: p => String.eqb c d && below root p
  | _ :: _, [] => false
  end.

(** ** Calls *)

Section calls.
Context (env : Env).

Definition set_files (w : World) (fs : gmap path file) : World :=
  MkWorld fs (w_dirs w) (w_tick w) (w_seq w) (w_host w).
Definition set_dirs (w : World) (ds : gset path) : World :=
  MkWorld (w_files w) ds (w_tick w) (w_seq w) (w_host w).
Definition tick (w : World) : World :=
  MkWorld (w_files w) (w_dirs w) (S (w_tick w)) (w_seq w) (w_host w).

(** One tick, which may be a failing one. *)
Definition fallible {A} (m : OS A) : OS A := λ w,
  if e_fail env (w_tick w) then (Err (EMsg "input/output error"), tick w) else m (tick w).

Definition now : OS Z := λ w, (Ok (e_clock env (w_tick w)), tick w).
Definition rand_uint32 : OS Z := λ w, (Ok (u32 (e_rand env (w_tick w))), tick w).

Definition is_dir (w : World) (p : path) : bool := bool_decide (p ∈ w_dirs w).
Definition is_file (w : World) (p : path) : bool := bool_decide (is_Some (w_files w !! p)).

Definition MkdirAll (p : path) : OS unit := fallible (λ w,
  if existsb (is_file w) (ancestors p) then (Err (EMsg "not a directory"), w)
  else (Ok tt, set_dirs w (list_to_set (ancestors p) ∪ w_dirs w))).

Definition ReadFile (p : path) : OS string := fallible (λ w,
  match w_files w !! p with
  | Some f => (Ok (f_data f), w)
  | None => (Err (if is_dir w p then EMsg "is a directory" else ENotExist), w)
  end).

(** [os.WriteFile] and, with [excl], [os.OpenFile] with [O_EXCL]
    followed by the write.  The modification time is the clock's. *)
Definition create_file (excl : bool) (p : path) : OS unit := fallible (λ w,
  if is_dir w p then (Err (EMsg "is a directory"), w)
  else if negb (is_dir w (parent p)) then (Err ENotExist, w)
  else if excl && is_file w p then (Err (EMsg "file exists"), w)
  else (Ok tt, set_files w (<[p := MkFile "" (e_clock env (w_tick w))]> (w_files w)))).

(** A failing write leaves a prefix of the data. *)
Definition write_data (p : path) (s : string) : OS unit := λ w,
  let mt := e_clock env (w_tick w) in
  if e_fail env (w_tick w) then
    (Err (EMsg "short write"),
     tick (set_files w (<[p := MkFile (stake (e_short env (w_tick w)) s) mt]> (w_files w))))
  else (Ok tt, tick (set_files w (<[p := MkFile s mt]> (w_files w)))).

Definition WriteFile (p : path) (s : string) : OS unit :=
  create_file false p;; write_data p s.

Definition sync (p : path) : OS unit := fallible (λ w, (Ok tt, w)).

Definition Rename (p q : path) : OS unit := fallible (λ w,
  match w_files w !! p with
  | None => (Err ENotExist, w)
  | Some f =>
      if is_dir w q then (Err (EMsg "file exists"), w)
      else if negb (is_dir w (parent q)) then (Err ENotExist, w)
      else (Ok tt, set_files w (<[q := f]> (delete p (w_files w))))
  end).

(** The entries of a directory: name, whether a directory, size and
    modification time, in the order of the names. *)
Record dirent := MkDirent { d_name : string; d_isdir : bool; d_size : Z; d_mtime : Z }.

Definition children (p : path) (qs : list path) : list string :=
  omap (λ q, if bool_decide (q ≠ [] ∧ parent q = p) then Some (path_base q) else None) qs.

Definition entry_of (w : World) (p : path) (n : string) : dirent :=
  match w_files w !! (p ++ [n]) with
  | Some f => MkDirent n false (slen (f_data f)) (f_mtime f)
  | None => MkDirent n true 0 0
  end.

Definition list_dir (w : World) (p : path) : list dirent :=
  entry_of w p <$> insertion_sort String.ltb
    (children p ((map_to_list (w_files w)).*1) ++ children p (elements (w_dirs w))).

Definition ReadDir (p : path) : OS (list dirent) := fallible (λ w,
  if is_dir w p then (Ok (list_dir w p), w)
  else (Err (if is_file w p then EMsg "not a directory" else ENotExist), w)).

Definition Remove (p : path) : OS unit := fallible (λ w,
  if is_file w p then (Ok tt, set_files w (delete p (w_files w)))
  else if is_dir w p then
    match list_dir w p with
    | [] => (Ok tt, set_dirs w (w_dirs w ∖ {[p]}))
    | _ => (Err (EMsg "directory not empty"), w)
    end
  else (Err ENotExist, w)).

(** [os.RemoveAll]: no error when there is nothing to remove. *)
Definition RemoveAll (p : path) : OS unit := fallible (λ w,
  (Ok tt, MkWorld (filter (λ qf, below p qf.1 = false) (w_files w))
                  (filter (λ q, below p q = false) (w_dirs w))
                  (w_tick w) (w_seq w) (w_host w))).

Definition Stat (p : path) : OS unit := fallible (λ w,
  if (is_dir w p || is_file w p)%bool then (Ok tt, w) else (Err ENotExist, w)).

Definition Chtimes (p : path) (t : Z) : OS unit := fallible (λ w,
  match w_files w !! p with
  | Some f => (Ok tt, set_files w (<[p := MkFile (f_data f) t]> (w_files w)))
  | None => (Err ENotExist, w)
  end).
End calls.

(** An environment in which nothing fails. *)
Definition reliable (env : Env) : Prop := ∀ t, e_fail env t = false.

(** A world as a file system leaves it: every file lies in a directory
    and no path is both. *)
Record wf (w : World) : Prop := {
  wf_parent p : is_Some (w_files w !! p) → p ≠ [] ∧ parent p ∈ w_dirs w;
  wf_disjoint p : is_Some (w_files w !! p) → p ∉ w_dirs w;
  wf_up p : p ∈ w_dirs w → p ≠ [] → parent p ∈ w_dirs w;
}.

(** ** Laws *)

Lemma parent_snoc p c : parent (p ++ [c]) = p.
Proof. apply removelast_last. Qed.

Lemma path_base_snoc p c : path_base (p ++ [c]) = c.
Proof. apply last_last. Qed.

Lemma path_snoc p : p ≠ [] → p = parent p ++ [path_base p].
Proof. intros Hp. unfold parent, path_base. by apply app_removelast_last. Qed.

Lemma path_join_name root c : avoids "/"%char c = true → c ≠ "" → c ≠ "." → c ≠ ".." →
  path_join root c = root ++ [c].
Proof.
  intros Ha H0 H1 H2. unfold path_join. rewrite Split_avoids by done. simpl.
  unfold join_component. by rewrite !(proj2 (String.eqb_neq _ _)).
Qed.

Lemma os_bind_ok {A B} (f : A → OS B) (m : OS A) w b w' :
  (m ≫= f) w = (Ok b, w') → ∃ a w1, m w = (Ok a, w1) ∧ f a w1 = (Ok b, w').
Proof. unfold mbind, OS_bind. destruct (m w) as [[a|e] w1]; [eauto|done]. Qed.

Lemma os_bind_eq {A B} (f : A → OS B) (m : OS A) w a w1 :
  m w = (Ok a, w1) → (m ≫= f) w = f a w1.
Proof. unfold mbind, OS_bind. by intros ->. Qed.

Lemma os_bind_err {A B} (f : A → OS B) (m : OS A) w e w1 :
  m w = (Err e, w1) → (m ≫= f) w = (Err e, w1).
Proof. unfold mbind, OS_bind. by intros ->. Qed.

Lemma fallible_reliable env {A} (m : OS A) w : reliable env → fallible env m w = m (tick w).
Proof. intros Hr. unfold fallible. by rewrite Hr. Qed.

Lemma children_spec p qs n : n ∈ children p qs ↔ p ++ [n] ∈ qs.
Proof.
  unfold children. rewrite list_elem_of_omap. split.
  - intros (q&Hq&E). case_bool_decide as Hb; simplify_eq. destruct Hb as [Hne <-].
    by rewrite <- path_snoc.
  - intros Hq. exists (p ++ [n]). split; [done|].
    rewrite bool_decide_true by (split; [by destruct p|apply parent_snoc]).
    by rewrite path_base_snoc.
Qed.

Lemma list_dir_spec w p d :
  d ∈ list_dir w p ↔ d = entry_of w p (d_name d) ∧
    (is_Some (w_files w !! (p ++ [d_name d])) ∨ p ++ [d_name d] ∈ w_dirs w).
Proof.
  unfold list_dir. rewrite list_elem_of_fmap.
  assert (Hname : ∀ n, d_name (entry_of w p n) = n) by (intros n; unfold entry_of; by case_goal).
  assert (Hin : ∀ n, n ∈ insertion_sort String.ltb
      (children p ((map_to_list (w_files w)).*1) ++ children p (elements (w_dirs w))) ↔
      is_Some (w_files w !! (p ++ [n])) ∨ p ++ [n] ∈ w_dirs w).
  { intros n. rewrite insertion_sort_perm, elem_of_app, !children_spec, elem_of_elements.
    rewrite list_elem_of_fmap. split; (intros [H|H]; [left|by right]).
    - destruct H as ([q f]&->&H%elem_of_map_to_list). by eexists.
    - destruct H as [f H]. exists (p ++ [n], f). split; [done|]. by apply elem_of_map_to_list. }
  split.
  - intros (n&->&H). rewrite Hname. split; [done|]. by apply Hin.
  - intros [E H]. exists (d_name d). split; [done|]. by apply Hin.
Qed.



(** *** What each call does to the files, whatever fails *)

Ltac run_call := unfold fallible; intros; repeat (case_match; simplify_eq/=); eauto.

Lemma MkdirAll_files env p w r w' : MkdirAll env p w = (r, w') → w_files w' = w_files w.
Proof. unfold MkdirAll. run_call. Qed.

Lemma create_file_files env excl p w r w' : create_file env excl p w = (r, w') →
  match r with
  | Ok _ => ∃ t, w_files w' = <[p := MkFile "" t]> (w_files w) ∧
                 (excl = true → w_files w !! p = None)
  | Err _ => w_files w' = w_files w
  end.
Proof.
  unfold create_file, is_file. run_call. eexists. split; [done|]. intros ->.
  simpl in *. reflect_bool. by apply eq_None_not_Some.
Qed.

Lemma write_data_files env p s w r w' : write_data env p s w = (r, w') →
  ∃ t c, w_files w' = <[p := MkFile c t]> (w_files w) ∧
    match r with
    | Ok _ => c = s
    | Err _ => e_fail env (w_tick w) = true ∧ c = stake (e_short env (w_tick w)) s
    end.
Proof. unfold write_data. run_call; do 2 eexists; eauto. Qed.

Lemma sync_files env p w r w' : sync env p w = (r, w') → w_files w' = w_files w.
Proof. unfold sync. run_call. Qed.

Lemma Rename_files env p q w r w' : Rename env p q w = (r, w') →
  match r with
  | Ok _ => ∃ f, w_files w !! p = Some f ∧ w_files w' = <[q := f]> (delete p (w_files w))
  | Err _ => w_files w' = w_files w
  end.
Proof. unfold Rename. run_call. Qed.

Lemma Remove_files env p w r w' : Remove env p w = (r, w') →
  match r with
  | Ok _ => w_files w' = delete p (w_files w)
  | Err _ => w_files w' = w_files w
  end.
Proof.
  unfold Remove, is_file. run_call. symmetry. apply delete_id. reflect_bool. by apply eq_None_not_Some.
Qed.

Lemma ReadDir_files env p w r w' : ReadDir env p w = (r, w') →
  w_files w' = w_files w ∧ w_dirs w' = w_dirs w ∧ (∀ ds, r = Ok ds → ds = list_dir w p ∧ p ∈ w_dirs w).
Proof.
  unfold ReadDir, is_dir. run_call; split_and!; try done; intros; simplify_eq.
  by reflect_bool.
Qed.

Lemma ReadFile_files env p w r w' : ReadFile env p w = (r, w') →
  w_files w' = w_files w ∧ w_dirs w' = w_dirs w ∧ (∀ s, r = Ok s → f_data <$> w_files w !! p = Some s).
Proof.
  unfold ReadFile. run_call; split_and!; try done; intros; by simplify_eq/=.
Qed.

(** *** Calls in a reliable environment *)

Lemma MkdirAll_reliable env p w : reliable env →
  (∀ a, a ∈ ancestors p → w_files w !! a = None) →
  MkdirAll env p w = (Ok tt, set_dirs (tick w) (list_to_set (ancestors p) ∪ w_dirs w)).
Proof.
  intros Hr Ha. unfold MkdirAll. rewrite fallible_reliable by done.
  replace (existsb _ _) with false; [done|]. symmetry. apply not_true_iff_false.
  intros (a&Hin&Hf)%existsb_exists. apply list_elem_of_In in Hin.
  unfold is_file in Hf. apply bool_decide_eq_true in Hf. simpl in Hf. rewrite Ha in Hf by done.
  by destruct Hf.
Qed.

Lemma ancestors_go_spec p acc a : a ∈ ancestors_go p acc ↔ ∃ k, a = acc ++ take k p.
Proof.
  revert acc. induction p as [|c p IH]; intros acc; simpl; rewrite elem_of_cons.
  - rewrite elem_of_nil. split; [intros [->|[]]; exists 0%nat; by rewrite app_nil_r|].
    intros [k ->]. left. by rewrite take_nil, app_nil_r.
  - rewrite IH. split.
    + intros [->|[k ->]]; [exists 0%nat; by rewrite app_nil_r|]. exists (S k). by rewrite <- app_assoc.
    + intros [[|k] ->]; [left; by rewrite app_nil_r|right]. exists k. by rewrite <- app_assoc.
Qed.

Lemma ancestors_spec p a : a ∈ ancestors p ↔ ∃ k, a = take k p.
Proof. unfold ancestors. by rewrite ancestors_go_spec. Qed.

Lemma ancestors_self p : p ∈ ancestors p.
Proof. apply ancestors_spec. exists (length p). by rewrite firstn_all. Qed.

Lemma ancestors_snoc p c a : a ∈ ancestors (p ++ [c]) ↔ a ∈ ancestors p ∨ a = p ++ [c].
Proof.
  rewrite !ancestors_spec. split.
  - intros [k ->]. destruct (decide (k <= length p)%nat).
    + left. exists k. by rewrite take_app_le.
    + right. apply take_ge. rewrite length_app. simpl. lia.
  - intros [[k ->]| ->].
    + exists (k `min` length p)%nat. rewrite take_app_le by lia. rewrite <- (firstn_all p) at 1. by rewrite take_take.
    + exists (S (length p)). symmetry. apply take_ge. rewrite length_app. simpl. lia.
Qed.

(** A path is usable as a directory: nothing on the way to it is a file. *)
Definition clear_way (w : World) (p : path) : Prop := ∀ a, a ∈ ancestors p → w_files w !! a = None.

Lemma create_file_reliable env excl p w : reliable env →
  p ∉ w_dirs w → parent p ∈ w_dirs w → (excl = true → w_files w !! p = None) →
  ∃ t, create_file env excl p w = (Ok tt, set_files (tick w) (<[p := MkFile "" t]> (w_files w))).
Proof.
  intros Hr Hd Hp Hx. exists (e_clock env (S (w_tick w))). unfold create_file.
  rewrite fallible_reliable by done. unfold is_dir, is_file. simpl.
  rewrite bool_decide_false, (bool_decide_true (parent p ∈ _)) by done. simpl.
  destruct excl; [|done]. simpl. rewrite bool_decide_false; [done|]. rewrite Hx by done. by intros [].
Qed.

Lemma write_data_reliable env p s w : reliable env →
  ∃ t, write_data env p s w = (Ok tt, tick (set_files w (<[p := MkFile s t]> (w_files w)))).
Proof. intros Hr. unfold write_data. rewrite Hr. by eexists. Qed.

Lemma Rename_reliable env p q f w : reliable env →
  w_files w !! p = Some f → q ∉ w_dirs w → parent q ∈ w_dirs w →
  Rename env p q w = (Ok tt, set_files (tick w) (<[q := f]> (delete p (w_files w)))).
Proof.
  intros Hr Hp Hq Hd. unfold Rename. rewrite fallible_reliable by done. unfold is_dir. simpl.
  rewrite Hp, bool_decide_false, bool_decide_true by done. done.
Qed.

Lemma Remove_reliable env p f w : reliable env → w_files w !! p = Some f →
  Remove env p w = (Ok tt, set_files (tick w) (delete p (w_files w))).
Proof.
  intros Hr Hp. unfold Remove. rewrite fallible_reliable by done. unfold is_file. simpl.
  by rewrite Hp, bool_decide_true.
Qed.

Lemma ReadFile_reliable env p w : reliable env →
  ReadFile env p w = (match w_files w !! p with
                      | Some f => Ok (f_data f)
                      | None => Err (if is_dir w p then EMsg "is a directory" else ENotExist)
                      end, tick w).
Proof. intros Hr. unfold ReadFile. rewrite fallible_reliable by done. simpl. by case_goal. Qed.

Lemma ReadDir_reliable env p w : reliable env → p ∈ w_dirs w →
  ReadDir env p w = (Ok (list_dir w p), tick w).
Proof.
  intros Hr Hp. unfold ReadDir. rewrite fallible_reliable by done. unfold is_dir. simpl.
  by rewrite bool_decide_true.
Qed.

(** ** A small world to evaluate the definitions on *)

Definition calm : Env := MkEnv (λ _, false) (λ _, O) (λ t, 62135596800000000000 + Z.of_nat t) (λ _, 7) 1 "mx".
Definition empty_world : World := MkWorld ∅ {[ [] ]} 0 0 None.

Lemma calm_reliable : reliable calm.
Proof. done. Qed.

(** *** Listings *)

Lemma children_NoDup p qs : NoDup qs → NoDup (children p qs).
Proof.
  unfold children. induction 1 as [|q qs Hq Hnd IH]; [constructor|]. simpl.
  case_bool_decide as Hb; [|done]. destruct Hb as [Hne Hp]. constructor; [|done].
  intros Hin. apply Hq. apply (children_spec p qs) in Hin. rewrite <- Hp in Hin.
  by rewrite <- path_snoc in Hin.
Qed.

(** Two maps with the same files in a directory list the same names. *)
Lemma children_files_perm (p : path) (m m' : gmap path file) :
  (∀ n, is_Some (m !! (p ++ [n])) ↔ is_Some (m' !! (p ++ [n]))) →
  children p ((map_to_list m).*1) ≡ₚ children p ((map_to_list m').*1).
Proof.
  intros H. apply NoDup_Permutation; [apply children_NoDup, NoDup_fst_map_to_list..|].
  intros n. rewrite !children_spec, !list_elem_of_fmap.
  assert (Hm : ∀ k : gmap path file, (∃ y, p ++ [n] = y.1 ∧ y ∈ map_to_list k) ↔ is_Some (k !! (p ++ [n]))).
  { intros k. split.
    - intros ([q f]&->&Hq%elem_of_map_to_list). by eexists.
    - intros [f Hf]. exists (p ++ [n], f). split; [done|]. by apply elem_of_map_to_list. }
  by rewrite !Hm.
Qed.

Lemma list_dir_perm w w' (p : path) : w_dirs w' = w_dirs w →
  (∀ n, w_files w' !! (p ++ [n]) = w_files w !! (p ++ [n])) →
  list_dir w' p ≡ₚ list_dir w p.
Proof.
  intros Hd Hf. unfold list_dir. rewrite !insertion_sort_perm, Hd.
  rewrite (children_files_perm p (w_files w') (w_files w)) by (intros n; by rewrite Hf).
  erewrite list_fmap_ext; [reflexivity|]. intros i n _. unfold entry_of. by rewrite Hf.
Qed.

Lemma Stat_reliable env p w : reliable env →
  Stat env p w = (if (is_dir w p || is_file w p)%bool then Ok tt else Err ENotExist, tick w).
Proof. intros Hr. unfold Stat. rewrite fallible_reliable by done. unfold is_dir, is_file. simpl. by case_goal. Qed.

Lemma Remove_absent env p w w' : Remove env p w = (Err ENotExist, w') → w_files w' !! p = None.
Proof.
  unfold Remove, is_file. run_call. reflect_bool. by apply eq_None_not_Some.
Qed.
