(* ===== verification/Persist.v ===== *)
(** * Files replaced as a whole

    How [internal/reputation] and [internal/antispam] save their state: the
    text is written to a temporary file next to the target, which is then
    renamed over it.  Whatever fails, the target holds the old text or the
    new one. *)

From S2P Require Import Prelude GoStrings Fs.

Definition tmp_of (p : path) : path := parent p ++ [path_base p +:+ ".tmp"].

(** The file is missing or is written; an error of the rename removes the
    temporary file. *)
Definition replace_file (env : Env) (p : path) (s : string) : OS unit :=
  WriteFile env (tmp_of p) s;;
  r ← os_try (Rename env (tmp_of p) p);
  match r with
  | Ok _ => mret tt
  | Err e => os_ignore (Remove env (tmp_of p));; os_err e
  end.

Lemma tmp_of_ne (p : path) : p ≠ [] → tmp_of p ≠ p.
Proof.
  intros Hp E. rewrite (path_snoc p Hp) in E at 2. unfold tmp_of in E. apply app_inv_head in E. injection E as E.
  assert (H : String.length (path_base p +:+ ".tmp") = String.length (path_base p)) by congruence.
  rewrite slength_app in H. cbn in H. lia.
Qed.

Lemma WriteFile_files env (p : path) s w r w' : WriteFile env p s w = (r, w') →
  (∀ q : path, q ≠ p → w_files w' !! q = w_files w !! q) ∧ (r = Ok tt → f_data <$> w_files w' !! p = Some s).
Proof.
  unfold WriteFile, mbind, OS_bind. destruct (create_file env false p w) as [[[]|e] w1] eqn:E1; apply create_file_files in E1.
  - destruct E1 as (t&E1&_). intros E2. apply write_data_files in E2 as (t'&c&E2&Hr). rewrite E2, E1. split.
    + intros q Hq. by rewrite !lookup_insert_ne.
    + intros ->. subst c. by rewrite lookup_insert_eq.
  - intros [= <- <-]. rewrite E1. split; [done|discriminate].
Qed.

(** The target is as it was, or holds the new text. *)
Lemma replace_file_atomic env (p : path) s w r w' : p ≠ [] → replace_file env p s w = (r, w') →
  (∀ q : path, q ≠ p → q ≠ tmp_of p → w_files w' !! q = w_files w !! q) ∧
  match r with
  | Ok _ => f_data <$> w_files w' !! p = Some s
  | Err _ => w_files w' !! p = w_files w !! p
  end.
Proof.
  intros Hp. pose proof (tmp_of_ne p Hp) as Hne. unfold replace_file, os_try, os_ignore, os_err, mbind, OS_bind.
  destruct (WriteFile env (tmp_of p) s w) as [[[]|e] w1] eqn:E1; apply WriteFile_files in E1 as [Ho Hd].
  2:{ intros [= <- <-]. split; [|by rewrite Ho]. intros q _ Hq. by apply Ho. }
  destruct (Rename env (tmp_of p) p w1) as [[[]|e] w2] eqn:E2; apply Rename_files in E2.
  - destruct E2 as (f&Hf&E2). intros [= <- <-]. rewrite E2. split.
    + intros q Hq Hq'. rewrite lookup_insert_ne, lookup_delete_ne by done. by apply Ho.
    + rewrite lookup_insert_eq. specialize (Hd eq_refl). by rewrite Hf in Hd.
  - destruct (Remove env (tmp_of p) w2) as [r3 w3] eqn:E3. apply Remove_files in E3. intros [= <- <-]. cbn [snd].
    assert (Hw3 : ∀ q, q ≠ tmp_of p → w_files w3 !! q = w_files w !! q).
    { intros q Hq. rewrite <- Ho by done. rewrite <- E2. destruct r3; rewrite E3; [by rewrite lookup_delete_ne|done]. }
    split; [|by apply Hw3]. intros q _ Hq. by apply Hw3.
Qed.

(** The directory is made first. *)
Definition save_file (env : Env) (p : path) (s : string) : OS unit :=
  MkdirAll env (parent p);; replace_file env p s.

Lemma save_file_atomic env (p : path) s w r w' : p ≠ [] → save_file env p s w = (r, w') →
  (∀ q : path, q ≠ p → q ≠ tmp_of p → w_files w' !! q = w_files w !! q) ∧
  match r with
  | Ok _ => f_data <$> w_files w' !! p = Some s
  | Err _ => w_files w' !! p = w_files w !! p
  end.
Proof.
  intros Hp. unfold save_file, mbind, OS_bind. destruct (MkdirAll env (parent p) w) as [[[]|e] w1] eqn:E;
    apply MkdirAll_files in E; [|intros [= <- <-]; by rewrite E].
  intros H%replace_file_atomic; [|done]. by rewrite <- E.
Qed.

(** A place where a file can be made: nothing on the way is a file, and
    neither name is a directory. *)
Record writable (w : World) (p : path) : Prop := {
  wr_way : clear_way w (parent p);
  wr_free : p ∉ w_dirs w;
  wr_tmp : tmp_of p ∉ w_dirs w;
}.

Lemma not_ancestor (p q : path) : p ≠ [] → parent q = parent p → q ≠ [] → q ∉ ancestors (parent p).
Proof.
  intros Hp E Hq (k&Hk)%ancestors_spec. assert (Hl : length q = S (length (parent p))).
  { rewrite (path_snoc q Hq), E, length_app. simpl. lia. }
  rewrite Hk, length_take in Hl. lia.
Qed.

(** When nothing fails the target is written and the temporary file gone. *)
Lemma save_file_reliable env (p : path) s w : reliable env → p ≠ [] → writable w p →
  ∃ t w', save_file env p s w = (Ok tt, w') ∧ w_files w' = <[p := MkFile s t]> (delete (tmp_of p) (w_files w)).
Proof.
  intros Hr Hp [Hway Hfree Htmp]. assert (Hpt : parent (tmp_of p) = parent p) by apply parent_snoc.
  assert (Htn : tmp_of p ≠ []) by (unfold tmp_of; by destruct (parent p)).
  set (w1 := set_dirs (tick w) (list_to_set (ancestors (parent p)) ∪ w_dirs w)).
  assert (Hd1 : ∀ q, parent q = parent p → q ≠ [] → q ∉ w_dirs w → q ∉ w_dirs w1).
  { intros q E Hq Hn. cbn. rewrite elem_of_union, elem_of_list_to_set.
    intros [Ha|Ha]; [by apply (not_ancestor p q) in Ha|done]. }
  assert (Hpar : parent p ∈ w_dirs w1)
    by (cbn; apply elem_of_union_l, elem_of_list_to_set, ancestors_self).
  destruct (create_file_reliable env false (tmp_of p) w1 Hr) as [t1 E1]; [by apply Hd1|by rewrite Hpt|done|].
  set (w2 := set_files (tick w1) (<[tmp_of p := MkFile "" t1]> (w_files w1))) in *.
  destruct (write_data_reliable env (tmp_of p) s w2 Hr) as [t2 E2].
  set (w3 := tick (set_files w2 (<[tmp_of p := MkFile s t2]> (w_files w2)))) in *.
  assert (E3 := Rename_reliable env (tmp_of p) p (MkFile s t2) w3 Hr).
  exists t2. eexists. unfold save_file. rewrite (os_bind_eq _ _ _ _ _ (MkdirAll_reliable env (parent p) w Hr Hway)).
  unfold replace_file, WriteFile. fold w1.
  assert (Ew : (create_file env false (tmp_of p);; write_data env (tmp_of p) s) w1 = (Ok tt, w3))
    by (rewrite (os_bind_eq _ _ _ _ _ E1); exact E2).
  rewrite (os_bind_eq _ _ _ _ _ Ew). unfold mbind, OS_bind, os_try. rewrite E3.
  - split; [reflexivity|]. unfold w3, w2, w1, set_files. cbn [w_files tick set_dirs].
    by rewrite delete_insert_eq, delete_insert_eq.
  - unfold w3, set_files. cbn [w_files tick]. by rewrite lookup_insert_eq.
  - by apply (Hd1 p).
  - exact Hpar.
Qed.

(** A file that was saved is read back. *)
Lemma ReadFile_saved env (p : path) s w : reliable env → f_data <$> w_files w !! p = Some s →
  os_try (ReadFile env p) w = (Ok (Ok s), tick w).
Proof.
  intros Hr (f&Hf&->)%fmap_Some. unfold os_try, ReadFile. rewrite fallible_reliable by done. cbn [tick w_files].
  by rewrite Hf.
Qed.
