(* ===== verification/Maildir.v ===== *)
(** * Maildir: flags and delivery

    Models [internal/maildir/flags.go] (the flag part of a file name) and
    [internal/maildir/maildir.go] (writing a message under [tmp/] and
    renaming it into [new/]).  Ownership is not modelled: [chown] is
    best-effort and its result is ignored.  The platform is Linux. *)

From S2P Require Import Prelude GoStrings GoNum Fs.

(** ** Flags *)

Inductive Flag :=
  | FlagDraft | FlagFlagged | FlagPassed | FlagAnswered | FlagSeen | FlagDeleted.

#[global] Instance Flag_eq_dec : EqDecision Flag.
Proof. solve_decision. Defined.

Definition flag_char (f : Flag) : ascii :=
  match f with
  | FlagDraft => "D" | FlagFlagged => "F" | FlagPassed => "P"
  | FlagAnswered => "R" | FlagSeen => "S" | FlagDeleted => "T"
  end%char.

Definition flag_of_char (c : ascii) : option Flag :=
  match c with
  | "D"%char => Some FlagDraft | "F"%char => Some FlagFlagged | "P"%char => Some FlagPassed
  | "R"%char => Some FlagAnswered | "S"%char => Some FlagSeen | "T"%char => Some FlagDeleted
  | _ => None
  end.

Abbreviation Flags := (list Flag).

Definition infoChar : string := ":".
Definition infoSep : string := infoChar +:+ "2,".

Definition Has (f : Flags) (x : Flag) : bool := mem x f.

Definition flag_key (f : Flag) : Z := byte_of (flag_char f).
Definition sort_flags `{SliceSort} (f : Flags) : Flags := sort_slice (less_by flag_key) f.

(** The loop of [ParseFlags] over the characters after the separator. *)
Fixpoint parse_flags_go (s : string) (f : Flags) : Flags :=
  match s with
  | "" => f
  | String c s =>
      parse_flags_go s (match flag_of_char c with
                        | Some x => if Has f x then f else f ++ [x]
                        | None => f
                        end)
  end.

Definition ParseFlags `{SliceSort} (name : string) : Flags :=
  let i := Index name infoSep in
  if i <? 0 then [] else sort_flags (parse_flags_go (slice_from name (i + slen infoSep)) []).

Definition BaseName (name : string) : string :=
  let i := Index name infoSep in if 0 <=? i then slice_to name i else name.

Definition Add `{SliceSort} (f : Flags) (x : Flag) : Flags :=
  if Has f x then f else sort_flags (f ++ [x]).

Definition remove_flag (f : Flags) (x : Flag) : Flags := filter (λ v, v ≠ x) f.

Fixpoint flags_String (f : Flags) : string :=
  match f with [] => "" | x :: f => String (flag_char x) (flags_String f) end.

Definition FileName (base : string) (f : Flags) : string := base +:+ infoSep +:+ flags_String f.

Definition IMAPFlags (f : Flags) (recent : bool) : list string :=
  (if Has f FlagSeen then ["\Seen"] else []) ++
  (if Has f FlagAnswered then ["\Answered"] else []) ++
  (if Has f FlagFlagged then ["\Flagged"] else []) ++
  (if Has f FlagDeleted then ["\Deleted"] else []) ++
  (if Has f FlagDraft then ["\Draft"] else []) ++
  (if recent then ["\Recent"] else []).

Definition FlagFromIMAP (name : string) : option Flag :=
  let n := ToLower name in
  if String.eqb n "\seen" then Some FlagSeen
  else if String.eqb n "\answered" then Some FlagAnswered
  else if String.eqb n "\flagged" then Some FlagFlagged
  else if String.eqb n "\deleted" then Some FlagDeleted
  else if String.eqb n "\draft" then Some FlagDraft
  else None.

(** ** Delivery *)

(** [strings.NewReplacer] of four single characters, after [TrimSpace]. *)
Definition host_char (c : ascii) : ascii :=
  if (Ascii.eqb c ":" || Ascii.eqb c "/" || Ascii.eqb c "\" || Ascii.eqb c " ")%bool
  then "-"%char else c.
Definition sanitizeHost (h : string) : string := smap host_char (TrimSpace h).

Definition SetHostname (name : string) : OS unit := λ w,
  let n := sanitizeHost name in
  if is_empty n then (Ok tt, w)
  else (Ok tt, MkWorld (w_files w) (w_dirs w) (w_tick w) (w_seq w) (Some n)).

Section delivery.
Context (env : Env).

Definition host (w : World) : string :=
  match w_host w with
  | Some h => h
  | None => let h := sanitizeHost (e_hostname env) in if is_empty h then "localhost" else h
  end.

Definition next_seq : OS Z := λ w,
  let n := u64 (w_seq w + 1) in
  (Ok n, MkWorld (w_files w) (w_dirs w) (w_tick w) n (w_host w)).

Definition get_host : OS string := λ w, (Ok (host w), w).

Definition subdirs : list string := [""; "tmp"; "new"; "cur"].

Fixpoint mkdirs (dir : path) (subs : list string) : OS unit :=
  match subs with
  | [] => mret tt
  | sub :: subs => MkdirAll env (path_join dir sub);; mkdirs dir subs
  end.

(** An error wrapped by [fmt.Errorf]: [os.IsNotExist] does not see
    through it. *)
Definition wrap {A} (ctx : string) (m : OS A) : OS A :=
  r ← os_try m;
  match r with
  | Ok a => mret a
  | Err _ => os_err (EMsg ctx)
  end.

Definition format_name (t1 t2 pid n r : Z) (h : string) : string :=
  dec (Unix t1) +:+ ".M" +:+ dec (Nanosecond t2 / 1000) +:+ "P" +:+ dec pid +:+
  "Q" +:+ dec n +:+ "R" +:+ hex r +:+ "." +:+ h.

Definition unique_name : OS string :=
  t1 ← now env; t2 ← now env; n ← next_seq; r ← rand_uint32 env; h ← get_host;
  mret (format_name t1 t2 (e_pid env) n r h).

(** The write and the sync share a scope of their own: their errors are
    dropped, only that of [Close] is looked at. *)
Definition write_synced (tmp : path) (msg : string) : OS unit :=
  r ← os_try (write_data env tmp msg);
  match r with
  | Ok _ => os_ignore (sync env tmp)
  | Err _ => mret tt
  end.

Definition close (p : path) : OS unit := fallible env (λ w, (Ok tt, w)).

Definition Deliver (dir : path) (msg : string) : OS path :=
  wrap "maildir" (mkdirs dir subdirs);;
  name ← unique_name;
  let tmp := path_join (path_join dir "tmp") name in
  wrap "maildir" (create_file env true tmp);;
  write_synced tmp msg;;
  c ← os_try (close tmp);
  match c with
  | Err _ => os_ignore (Remove env tmp);; os_err (EMsg "maildir")
  | Ok _ =>
      let final := path_join (path_join dir "new") name in
      r ← os_try (Rename env tmp final);
      match r with
      | Err _ => os_ignore (Remove env tmp);; os_err (EMsg "maildir")
      | Ok _ => mret final
      end
  end.
End delivery.

(** ** The flag part of a name *)

Lemma Index_range s sub : -1 <= Index s sub.
Proof. induction s as [|c s IH]; simpl; repeat case_goal; lia. Qed.

Lemma BaseName_cons c s :
  BaseName (String c s) = if HasPrefix (String c s) infoSep then "" else String c (BaseName s).
Proof.
  unfold BaseName. cbn [Index]. destruct (HasPrefix (String c s) infoSep); [done|].
  pose proof (Index_range s infoSep). destruct (Z.ltb_spec (Index s infoSep) 0).
  - rewrite (proj2 (Z.leb_gt 0 (Index s infoSep))) by lia. done.
  - rewrite !(proj2 (Z.leb_le 0 _)) by lia. unfold slice_to.
    by replace (Z.to_nat (Index s infoSep + 1)) with (S (Z.to_nat (Index s infoSep))) by lia.
Qed.

(** The separator cannot be completed across the end of a base name. *)
Lemma Index_BaseName name rest :
  Index (BaseName name +:+ infoSep +:+ rest) infoSep = slen (BaseName name).
Proof.
  induction name as [|c s IH]; [done|]. rewrite BaseName_cons.
  destruct (HasPrefix (String c s) infoSep) eqn:Hp; [done|]. rewrite sapp_cons. cbn [Index].
  rewrite IH, slen_cons. pose proof (slen_nonneg (BaseName s)).
  assert (Hn : HasPrefix (String c (BaseName s +:+ infoSep +:+ rest)) infoSep = false).
  { clear IH H. revert Hp. unfold infoSep, infoChar. cbn [HasPrefix String.append].
    destruct (Ascii.eqb ":" c); [|done]. cbn [andb]. destruct s as [|d s]; [done|].
    rewrite BaseName_cons. destruct (HasPrefix (String d s) infoSep); [done|].
    cbn [HasPrefix String.append]. destruct (Ascii.eqb "2" d); [|done]. cbn [andb].
    destruct s as [|d' s]; [done|]. rewrite BaseName_cons.
    destruct (HasPrefix (String d' s) infoSep); [done|]. cbn [HasPrefix String.append].
    by destruct (Ascii.eqb "," d'). }
  rewrite Hn. case_goal; reflect_bool; lia.
Qed.

Lemma BaseName_FileName name f : BaseName (FileName (BaseName name) f) = BaseName name.
Proof.
  unfold FileName, BaseName at 1. rewrite Index_BaseName.
  rewrite (proj2 (Z.leb_le 0 _)) by apply slen_nonneg. unfold slice_to, slen.
  rewrite Nat2Z.id. apply stake_app.
Qed.

Lemma BaseName_idemp name : BaseName (BaseName name) = BaseName name.
Proof.
  induction name as [|c s IH]; [done|]. rewrite BaseName_cons.
  destruct (HasPrefix (String c s) infoSep) eqn:Hp; [done|]. rewrite BaseName_cons, IH.
  assert (HasPrefix (String c (BaseName s)) infoSep = false) as ->; [|done].
  destruct (HasPrefix (String c (BaseName s)) infoSep) eqn:Hp'; [|done].
  revert Hp Hp'. unfold infoSep, infoChar. cbn [HasPrefix String.append].
  destruct (Ascii.eqb ":" c); [|done]. cbn [andb]. destruct s as [|d s]; [done|].
  rewrite BaseName_cons. destruct (HasPrefix (String d s) infoSep); [done|].
  cbn [HasPrefix]. destruct (Ascii.eqb "2" d); [|done]. cbn [andb].
  destruct s as [|d' s]; [done|]. rewrite BaseName_cons.
  destruct (HasPrefix (String d' s) infoSep); [done|]. cbn [HasPrefix].
  by destruct (Ascii.eqb "," d').
Qed.

Lemma flag_of_char_flag x : flag_of_char (flag_char x) = Some x.
Proof. by destruct x. Qed.

Lemma Has_spec f x : Has f x = true ↔ x ∈ f.
Proof. unfold Has, mem. apply bool_decide_eq_true. Qed.

Lemma elem_of_Add `{SliceSort} f x y : y ∈ Add f x ↔ y ∈ f ∨ y = x.
Proof.
  unfold Add. destruct (Has f x) eqn:E.
  - apply Has_spec in E. split; [by left|by intros [?| ->]].
  - unfold sort_flags. by rewrite sort_slice_perm, elem_of_app, list_elem_of_singleton.
Qed.

Lemma elem_of_Add_all `{SliceSort} fs f y : y ∈ foldl Add f fs ↔ y ∈ f ∨ y ∈ fs.
Proof.
  revert f. induction fs as [|x fs IH]; intros f; cbn [foldl]; [rewrite elem_of_nil; tauto|].
  rewrite IH, elem_of_Add, elem_of_cons. tauto.
Qed.

Lemma elem_of_remove_all fs f y : y ∈ foldl remove_flag f fs ↔ y ∈ f ∧ y ∉ fs.
Proof.
  revert f. induction fs as [|x fs IH]; intros f; cbn [foldl].
  - split; [intros; split; [done|apply not_elem_of_nil]|tauto].
  - rewrite IH. unfold remove_flag. rewrite list_elem_of_filter, not_elem_of_cons. tauto.
Qed.

Lemma parse_flags_go_String f acc : NoDup (acc ++ f) →
  parse_flags_go (flags_String f) acc = acc ++ f.
Proof.
  revert acc. induction f as [|x f IH]; intros acc Hnd; simpl; [by rewrite app_nil_r|].
  rewrite flag_of_char_flag.
  replace (Has acc x) with false; [by rewrite IH; rewrite <- app_assoc|].
  symmetry. unfold Has, mem. apply bool_decide_eq_false. intros Hx.
  apply NoDup_app in Hnd as (_&H&_). eapply H; [exact Hx|constructor].
Qed.

Lemma parse_flags_go_NoDup s acc : NoDup acc → NoDup (parse_flags_go s acc).
Proof.
  revert acc. induction s as [|c s IH]; intros acc Hnd; simpl; [done|]. apply IH.
  destruct (flag_of_char c) as [x|]; [|done]. destruct (Has acc x) eqn:Hx; [done|].
  apply NoDup_app. split_and!; [done| |repeat constructor; by intros ?%elem_of_nil].
  intros y Hy ->%list_elem_of_singleton. apply Has_spec in Hy. congruence.
Qed.

Lemma ParseFlags_FileName `{SliceSort} name f : NoDup f →
  ParseFlags (FileName (BaseName name) f) = sort_flags f.
Proof.
  intros Hnd. unfold ParseFlags, FileName. rewrite Index_BaseName.
  rewrite (proj2 (Z.ltb_ge _ 0)) by apply slen_nonneg. f_equal.
  unfold slice_from, slen. rewrite <- Nat2Z.inj_add, Nat2Z.id, <- slength_app, <- sapp_assoc, sdrop_app.
  by rewrite parse_flags_go_String.
Qed.

Lemma ParseFlags_NoDup `{SliceSort} name : NoDup (ParseFlags name).
Proof.
  unfold ParseFlags. case_goal; [constructor|]. unfold sort_flags.
  rewrite sort_slice_perm. apply parse_flags_go_NoDup. constructor.
Qed.

(** ** Delivery *)

(** The host token never opens a directory of its own. *)
Definition host_ok (w : World) : Prop := ∀ h, w_host w = Some h → avoids "/" h = true.

Lemma sanitizeHost_avoids h : avoids "/"%char (sanitizeHost h) = true.
Proof.
  unfold sanitizeHost. induction (TrimSpace h) as [|c s IH]; [done|]. simpl.
  apply avoids_cons. split; [|done]. unfold host_char. case_goal; [done|].
  intros ->. done.
Qed.

Lemma SetHostname_host_ok name w : host_ok w → host_ok (SetHostname name w).2.
Proof.
  intros Hw h. unfold SetHostname. case_goal; simpl; [apply Hw|].
  intros [=<-]. apply sanitizeHost_avoids.
Qed.

Lemma host_avoids env w : host_ok w → avoids "/" (host env w) = true.
Proof.
  intros Hw. unfold host. destruct (w_host w) eqn:E; [by apply Hw|].
  case_goal; [done|apply sanitizeHost_avoids].
Qed.

(** A file name of its own: one component, neither [.] nor [..]. *)
Definition plain (n : string) : Prop := avoids "/"%char n = true ∧ n ≠ "" ∧ n ≠ "." ∧ n ≠ "..".

Lemma path_join_plain p n : plain n → path_join p n = p ++ [n].
Proof. intros (?&?&?&?). by apply path_join_name. Qed.

Lemma format_name_plain t1 t2 pid n r h : avoids "/"%char h = true → plain (format_name t1 t2 pid n r h).
Proof.
  intros Hh. unfold format_name. split.
  - rewrite !avoids_app. rewrite !dec_avoids_any by done. unfold hex.
    rewrite hex_go_avoids; try done. intros v Hv E.
    assert (Hv' : v ∈ seqZ 0 16) by (apply elem_of_seqZ; lia). vm_compute in Hv'.
    repeat (apply elem_of_cons in Hv' as [->|Hv']; [done|]). by apply elem_of_nil in Hv'.
  - assert (Hl : ∀ a b c d e, 3 <= slen (a +:+ ".M" +:+ b +:+ "P" +:+ c +:+ "Q" +:+ d +:+ "R" +:+ e +:+ "." +:+ h)).
    { intros a b c d e. rewrite !slen_app. change (slen ".M") with 2. change (slen "P") with 1.
      pose proof (slen_nonneg a). pose proof (slen_nonneg b). pose proof (slen_nonneg c).
      pose proof (slen_nonneg d). pose proof (slen_nonneg e). pose proof (slen_nonneg h).
      change (slen "Q") with 1. change (slen "R") with 1. change (slen ".") with 1. lia. }
    split_and!; intros E; specialize (Hl (dec (Unix t1)) (dec (Nanosecond t2 / 1000)) (dec pid) (dec n) (hex r));
      rewrite E in Hl; vm_compute in Hl; by apply Hl.
Qed.

Lemma unique_name_ok env w : host_ok w →
  ∃ name w', unique_name env w = (Ok name, w') ∧ plain name ∧
    w_files w' = w_files w ∧ w_dirs w' = w_dirs w.
Proof.
  intros Hw. do 2 eexists. split; [reflexivity|]. split; [|done].
  apply format_name_plain. by apply (host_avoids env).
Qed.

Lemma mkdirs_files env dir subs w r w' : mkdirs env dir subs w = (r, w') →
  w_files w' = w_files w ∧ w_host w' = w_host w.
Proof.
  revert w. induction subs as [|sub subs IH]; intros w; simpl; [by intros [= _ <-]|].
  unfold mbind, OS_bind. destruct (MkdirAll env (path_join dir sub) w) as [[[]|e] w1] eqn:E; intros H.
  - apply IH in H as [-> ->]. split; [by eapply MkdirAll_files|].
    revert E. unfold MkdirAll. run_call.
  - simplify_eq. split; [by eapply MkdirAll_files|]. revert E. unfold MkdirAll. run_call.
Qed.

Lemma wrap_run {A} ctx (m : OS A) w r w' : m w = (r, w') →
  wrap ctx m w = (match r with Ok a => Ok a | Err _ => Err (EMsg ctx) end, w').
Proof. unfold wrap, os_try, mbind, OS_bind. intros ->. by destruct r. Qed.

Lemma write_synced_files env tmp msg w : ∃ w' t c,
  write_synced env tmp msg w = (Ok tt, w') ∧ w_files w' = <[tmp := MkFile c t]> (w_files w) ∧
  (c = msg ∨ ∃ k, e_fail env k = true ∧ c = stake (e_short env k) msg).
Proof.
  unfold write_synced, os_try, mbind, OS_bind.
  destruct (write_data env tmp msg w) as [r w1] eqn:E.
  apply write_data_files in E as (t&c&Hf&Hc). destruct r as [[]|e].
  - unfold os_ignore. destruct (sync env tmp w1) as [r2 w2] eqn:E2. apply sync_files in E2.
    exists w2, t, c. simpl. rewrite E2, Hf. eauto.
  - destruct Hc as [Hk ->]. exists w1, t, (stake (e_short env (w_tick w)) msg).
    split_and!; [done|done|]. right. eauto.
Qed.

Lemma mkdirs_host_ok env dir subs w r w' : mkdirs env dir subs w = (r, w') → host_ok w → host_ok w'.
Proof. intros [_ Hh]%mkdirs_files. unfold host_ok. by rewrite Hh. Qed.

(** A delivery leaves the configured host name. *)
Definition keeps_host {A} (m : OS A) : Prop := ∀ w, w_host (m w).2 = w_host w.

Lemma keeps_host_bind {A B} (m : OS A) (f : A → OS B) :
  keeps_host m → (∀ a, keeps_host (f a)) → keeps_host (m ≫= f).
Proof.
  intros Hm Hf w. unfold mbind, OS_bind. specialize (Hm w). destruct (m w) as [[a|e] w1]; cbn in Hm; [|exact Hm].
  etrans; [apply Hf|exact Hm].
Qed.

Lemma keeps_host_try {A} (m : OS A) : keeps_host m → keeps_host (os_try m).
Proof. intros Hm w. unfold os_try. specialize (Hm w). by destruct (m w). Qed.
Lemma keeps_host_ignore {A} (m : OS A) : keeps_host m → keeps_host (os_ignore m).
Proof. intros Hm w. exact (Hm w). Qed.
Lemma keeps_host_fallible {A} env (m : OS A) : keeps_host m → keeps_host (fallible env m).
Proof. intros Hm w. unfold fallible. destruct (e_fail env _); [done|]. exact (Hm (tick w)). Qed.

Ltac keeps_host_step :=
  lazymatch goal with
  | |- keeps_host (mbind _ _) => apply keeps_host_bind; [|intros ?]
  | |- keeps_host (os_try _) => apply keeps_host_try
  | |- keeps_host (os_ignore _) => apply keeps_host_ignore
  | |- keeps_host (fallible _ _) => apply keeps_host_fallible
  | |- keeps_host (match ?x with _ => _ end) => destruct x
  | |- keeps_host _ => let w := fresh in intros w; cbn; repeat case_match; reflexivity
  end.
Ltac keeps_host := repeat keeps_host_step.

Lemma mkdirs_keeps_host env dir subs : keeps_host (mkdirs env dir subs).
Proof.
  intros w. destruct (mkdirs env dir subs w) as [r w'] eqn:E. apply mkdirs_files in E as [_ E]. exact E.
Qed.

Lemma Deliver_host_ok env dir msg w : host_ok w → host_ok (Deliver env dir msg w).2.
Proof.
  enough (Hk : keeps_host (Deliver env dir msg)) by (unfold host_ok; by rewrite Hk).
  unfold Deliver, wrap. apply keeps_host_bind; [|intros ?].
  { apply keeps_host_bind; [apply keeps_host_try, mkdirs_keeps_host|intros ?; keeps_host]. }
  unfold unique_name, create_file, write_synced, write_data, sync, close, Rename, Remove. keeps_host.
Qed.

(** What a delivery does to the files of the world, and what its answer
    means. *)
Definition delivered (env : Env) (dir : path) (msg : string) (w : World) (r : result path) (w' : World) : Prop :=
  ∃ name, plain name ∧
  let tmp := dir ++ ["tmp"; name] in
  let final := dir ++ ["new"; name] in
  (∀ q, q ≠ tmp → q ≠ final → w_files w' !! q = w_files w !! q) ∧
  match r with
  | Ok p => p = final ∧ w_files w' !! tmp = None ∧
      ∃ t c, w_files w' !! final = Some (MkFile c t) ∧
             (c = msg ∨ ∃ k, e_fail env k = true ∧ c = stake (e_short env k) msg)
  | Err _ => w_files w' !! final = w_files w !! final
  end.

Lemma path_join_sub dir sub name : avoids "/"%char sub = true → sub ≠ "" → sub ≠ "." → sub ≠ ".." →
  plain name → path_join (path_join dir sub) name = dir ++ [sub; name].
Proof.
  intros. rewrite (path_join_name dir sub) by done. rewrite path_join_plain by done.
  by rewrite <- app_assoc.
Qed.

Lemma tmp_ne_new (dir : path) name : dir ++ ["tmp"; name] ≠ dir ++ ["new"; name].
Proof. intros H. by apply app_inv_head in H. Qed.

Lemma discard_tmp env (tmp : path) w w1 c : w_files w1 = <[tmp := c]> (w_files w) →
  ∀ q, q ≠ tmp → w_files (Remove env tmp w1).2 !! q = w_files w !! q.
Proof.
  intros Hf q Hq. destruct (Remove env tmp w1) as [r w2] eqn:E. apply Remove_files in E. simpl.
  destruct r; rewrite E, Hf; [rewrite lookup_delete_ne by done|]; by rewrite lookup_insert_ne.
Qed.

(** A delivery touches at most its own two names; when it reports
    success the message is in [new/] under that name and no longer in
    [tmp/]; when it reports failure [new/] is as it was.  The content is
    the message, or what a failing write left of it. *)
Lemma Deliver_effect env dir msg w : host_ok w →
  delivered env dir msg w (Deliver env dir msg w).1 (Deliver env dir msg w).2.
Proof.
  intros Hw. unfold Deliver. destruct (mkdirs env dir subdirs w) as [[[]|e] w1] eqn:E1;
    pose proof (wrap_run "maildir" _ _ _ _ E1) as E1'; simpl in E1'.
  2:{ rewrite (os_bind_err _ _ _ _ _ E1'). apply mkdirs_files in E1 as [Hf _]. exists "x". simpl. rewrite Hf. by repeat split. }
  rewrite (os_bind_eq _ _ _ _ _ E1'). pose proof (mkdirs_host_ok _ _ _ _ _ _ E1 Hw) as Hw1. apply mkdirs_files in E1 as [Hf1 _].
  destruct (unique_name_ok env w1 Hw1) as (name&w2&E2&Hn&Hf2&_).
  rewrite (os_bind_eq _ _ _ _ _ E2). exists name. split; [done|]. cbv zeta.
  rewrite !(path_join_sub dir _ name) by done. pose proof (tmp_ne_new dir name) as Hne.
  set (tmp := dir ++ ["tmp"; name]) in *. set (final := dir ++ ["new"; name]) in *.
  destruct (create_file env true tmp w2) as [[[]|e] w3] eqn:E3;
    pose proof (wrap_run "maildir" _ _ _ _ E3) as E3'; apply create_file_files in E3; simpl in E3'.
  2:{ rewrite (os_bind_err _ _ _ _ _ E3'). simpl. by rewrite E3, Hf2, Hf1. }
  rewrite (os_bind_eq _ _ _ _ _ E3').
  destruct E3 as (t0&Hf3&Hfree). destruct (write_synced_files env tmp msg w3) as (w4&t&c&E4&Hf4&Hc).
  rewrite (os_bind_eq _ _ _ _ _ E4). rewrite Hf3, insert_insert_eq, Hf2, Hf1 in Hf4.
  clear E1' E2 E3' Hf1 Hf2 Hf3 E4. unfold mbind, OS_bind, os_try, close, fallible, os_ignore, os_err.
  destruct (e_fail env (w_tick w4)); simpl.
  { pose proof (discard_tmp env tmp w (tick w4) (MkFile c t) Hf4) as Hd. auto. }
  destruct (Rename env tmp final (tick w4)) as [[[]|e] w5] eqn:E5; apply Rename_files in E5; simpl in *.
  - destruct E5 as (f&Hl&E5). rewrite Hf4, lookup_insert_eq in Hl. injection Hl as <-.
    rewrite Hf4, delete_insert_eq in E5. rewrite E5. split_and!; [|done| |].
    + intros q Hq1 Hq2. by rewrite lookup_insert_ne, lookup_delete_ne.
    + rewrite lookup_insert_ne by done. apply lookup_delete_eq.
    + exists t, c. by rewrite lookup_insert_eq.
  - pose proof (discard_tmp env tmp w w5 (MkFile c t) (eq_trans E5 Hf4)) as Hd. auto.
Qed.

Lemma mkdirs_reliable env dir subs w : reliable env →
  (∀ sub, sub ∈ subs → clear_way w (path_join dir sub)) →
  ∃ w', mkdirs env dir subs w = (Ok tt, w') ∧ w_files w' = w_files w ∧ w_host w' = w_host w ∧
    w_dirs w ⊆ w_dirs w' ∧ (∀ sub, sub ∈ subs → path_join dir sub ∈ w_dirs w') ∧
    (∀ d, d ∈ w_dirs w' → d ∈ w_dirs w ∨ ∃ sub, sub ∈ subs ∧ d ∈ ancestors (path_join dir sub)).
Proof.
  intros Hr. revert w. induction subs as [|sub subs IH]; intros w Hc.
  { exists w. split_and!; try done; [by intros ? ?%elem_of_nil|by left]. }
  pose proof (MkdirAll_reliable env _ w Hr (Hc sub (list_elem_of_here _ _))) as E. simpl.
  rewrite (os_bind_eq _ _ _ _ _ E). destruct (IH (set_dirs (tick w)
    (list_to_set (ancestors (path_join dir sub)) ∪ w_dirs w))) as (w'&E'&Hf&Hh&Hsub&Hin&Hout).
  { intros s Hs a Ha. apply (Hc s); [by apply list_elem_of_further|done]. }
  exists w'. rewrite E'. simpl in *. split_and!; try done; [set_solver| |].
  - intros s [->|Hs]%elem_of_cons; [|auto]. apply Hsub, elem_of_union_l, elem_of_list_to_set, ancestors_self.
  - intros d [[Hd%elem_of_list_to_set|Hd]%elem_of_union|(s&Hs&Hd)]%Hout; [|by left|].
    + right. exists sub. split; [constructor|done].
    + right. exists s. split; [by constructor|done].
Qed.

(** The directories of a mailbox. *)
Definition layout (w : World) (dir : path) : Prop :=
  dir ∈ w_dirs w ∧ dir ++ ["tmp"] ∈ w_dirs w ∧ dir ++ ["new"] ∈ w_dirs w ∧ dir ++ ["cur"] ∈ w_dirs w.

(** Nothing stands where they go. *)
Definition room (w : World) (dir : path) : Prop :=
  clear_way w (dir ++ ["tmp"]) ∧ clear_way w (dir ++ ["new"]) ∧ clear_way w (dir ++ ["cur"]).

Lemma subdirs_join dir sub : sub ∈ subdirs →
  path_join dir sub = dir ∧ sub = "" ∨
  path_join dir sub = dir ++ [sub] ∧ (sub = "tmp" ∨ sub = "new" ∨ sub = "cur").
Proof.
  unfold subdirs. rewrite !elem_of_cons, elem_of_nil.
  intros [->|[->|[->|[->|[]]]]]; [by left|right; split; [by apply path_join_name|tauto]..].
Qed.

Lemma mkdirs_layout env dir w : reliable env → room w dir →
  ∃ w', mkdirs env dir subdirs w = (Ok tt, w') ∧ w_files w' = w_files w ∧ w_host w' = w_host w ∧
    layout w' dir ∧ w_dirs w ⊆ w_dirs w' ∧
    (∀ d, d ∈ w_dirs w' → (length dir + 2 <= length d)%nat → d ∈ w_dirs w).
Proof.
  intros Hr (H1&H2&H3). destruct (mkdirs_reliable env dir subdirs w Hr) as (w'&E&Hf&Hh&Hsub&Hin&Hout).
  { intros sub [[-> ->]|[-> [->|[->| ->]]]]%(subdirs_join dir); try done.
    intros a Ha. apply H1, ancestors_snoc. by left. }
  exists w'. split_and!; try done.
  - unfold layout. rewrite <- !(path_join_name dir) by done.
    split_and!; [apply (Hin "")|apply (Hin "tmp")|apply (Hin "new")|apply (Hin "cur")];
      unfold subdirs; rewrite !elem_of_cons; tauto.
  - intros d Hd Hlen. apply Hout in Hd as [Hd|(s&Hs&[k ->]%ancestors_spec)]; [done|exfalso].
    rewrite length_take in Hlen. apply (subdirs_join dir) in Hs as [[E' _]|[E' _]]; rewrite E' in Hlen;
      rewrite ?length_app in Hlen; simpl in Hlen; lia.
Qed.

(** Where nothing fails, a delivery succeeds unless something stands in
    the way: the directories of the mailbox are created as needed. *)
Lemma Deliver_succeeds env dir msg w : reliable env → host_ok w → room w dir →
  (∀ name, (w_files w !! (dir ++ ["tmp"; name]) = None) ∧ ¬ (dir ++ ["tmp"; name] ∈ w_dirs w) ∧
           ¬ (dir ++ ["new"; name] ∈ w_dirs w)) →
  ∃ name w' t, Deliver env dir msg w = (Ok (dir ++ ["new"; name]), w') ∧ plain name ∧
    w_files w' = <[dir ++ ["new"; name] := MkFile msg t]> (w_files w).
Proof.
  intros Hr Hw Hroom Hfree. unfold Deliver.
  destruct (mkdirs_layout env dir w Hr Hroom) as (w1&E1&Hf1&Hh1&(_&Htmp&Hnew&_)&_&Hout).
  rewrite (os_bind_eq _ _ _ _ _ (wrap_run "maildir" _ _ _ _ E1)).
  destruct (unique_name_ok env w1) as (name&w2&E2&Hn&Hf2&Hd2); [unfold host_ok; by rewrite Hh1|].
  rewrite (os_bind_eq _ _ _ _ _ E2). cbv zeta. rewrite !(path_join_sub dir _ name) by done.
  destruct (Hfree name) as (Ht&Htd&Hnd). pose proof (tmp_ne_new dir name) as Hne.
  assert (Hp : ∀ sub, parent (dir ++ [sub; name]) = dir ++ [sub]).
  { intros sub. change [sub; name] with ([sub] ++ [name]). rewrite app_assoc. apply parent_snoc. }
  assert (Hno : ∀ sub, dir ++ [sub; name] ∉ w_dirs w → dir ++ [sub; name] ∉ w_dirs w2).
  { intros sub Hs Hd. rewrite Hd2 in Hd. apply Hs, Hout; [done|]. rewrite length_app. simpl. lia. }
  set (tmp := dir ++ ["tmp"; name]) in *. set (final := dir ++ ["new"; name]) in *.
  destruct (create_file_reliable env true tmp w2 Hr) as [t0 E3]; [by apply Hno| | |].
  { unfold tmp. by rewrite Hp, Hd2. }
  { intros _. by rewrite Hf2, Hf1. }
  rewrite (os_bind_eq _ _ _ _ _ (wrap_run "maildir" _ _ _ _ E3)). set (w3 := set_files _ _).
  destruct (write_data_reliable env tmp msg w3 Hr) as [t E4].
  exists name. unfold write_synced, os_try, mbind, OS_bind. rewrite E4.
  unfold os_ignore, sync, close. rewrite !fallible_reliable by done. simpl.
  match goal with |- context [Rename env tmp final ?w] => set (w5 := w) end.
  assert (E5 : Rename env tmp final w5 = (Ok tt, set_files (tick w5)
    (<[final := MkFile msg t]> (delete tmp (w_files w5))))).
  { apply Rename_reliable; [done| | |].
    - simpl. apply lookup_insert_eq.
    - by apply Hno.
    - unfold final. rewrite Hp. unfold w5. simpl. by rewrite Hd2. }
  rewrite E5. do 2 eexists. split_and!; [done|done|]. simpl.
  rewrite !delete_insert_eq, Hf2, Hf1. by rewrite delete_id.
Qed.

(** Nothing stands where the file of a message goes. *)
Definition unoccupied (w : World) (dir : path) : Prop :=
  ∀ name, (w_files w !! (dir ++ ["tmp"; name]) = None) ∧ dir ++ ["tmp"; name] ∉ w_dirs w ∧ dir ++ ["new"; name] ∉ w_dirs w.

(** C32: a delivery touches at most its own two names, whatever fails: when it
    reports success the message is in [new/] under that name and no longer
    in [tmp/], its content the message or what a failing write left of it;
    when it reports failure [new/] is as it was.  Where nothing fails and
    nothing stands in the way it succeeds, the directories created as
    needed, and one file with the whole message is all that changes. *)
Theorem Deliver_spec env dir msg w : host_ok w →
  delivered env dir msg w (Deliver env dir msg w).1 (Deliver env dir msg w).2 ∧
  (reliable env → room w dir → unoccupied w dir →
   ∃ name w' t, Deliver env dir msg w = (Ok (dir ++ ["new"; name]), w') ∧ plain name ∧
     w_files w' = <[dir ++ ["new"; name] := MkFile msg t]> (w_files w)).
Proof. intros Hw. split; [by apply Deliver_effect|]. intros Hr Hroom Hu. by apply Deliver_succeeds. Qed.

Lemma Deliver_spec_witness :
  ∃ name w' t, Deliver calm ["bob"] "hello" empty_world = (Ok ["bob"; "new"; name], w') ∧ plain name ∧
    w_files w' = {[ ["bob"; "new"; name] := MkFile "hello" t ]}.
Proof.
  assert (Hw : host_ok empty_world) by (intros h [=]).
  apply (Deliver_spec calm ["bob"] "hello" empty_world Hw).
  - exact calm_reliable.
  - split_and!; intros a _; reflexivity.
  - intros name. split_and!; [reflexivity|cbn; by rewrite elem_of_singleton..].
Defined.

(** A disk that is full when the message is written: the write fails after
    [n] bytes, every other call succeeds. *)
Definition full_disk (n : nat) : Env :=
  MkEnv (λ t, (t =? 8)%nat) (λ _, n) (e_clock calm) (e_rand calm) 1 "mx".

(** a failed write is not noticed: the delivery reports success with
    the message cut off where the write stopped. *)
Theorem Deliver_short_write n msg :
  let '(r, w') := Deliver (full_disk n) ["bob"] msg empty_world in
  r = Ok ["bob"; "new"; "0.M0P1Q1R7.mx"] ∧
  f_data <$> w_files w' !! ["bob"; "new"; "0.M0P1Q1R7.mx"] = Some (stake n msg).
Proof. vm_compute. done. Qed.

(** the file name of a message carries its flags: setting a set of
    flags on any name and reading it back gives the set, sorted, and
    leaves the base name, the key of the UID list, as it was. *)
Theorem flags_roundtrip `{SliceSort} name f : NoDup f →
  let name' := FileName (BaseName name) f in
  BaseName name' = BaseName name ∧
  ParseFlags name' ≡ₚ f ∧ StronglySorted (λ a b, flag_key a <= flag_key b) (ParseFlags name') ∧
  (∀ recent, IMAPFlags (ParseFlags name') recent = IMAPFlags f recent).
Proof.
  intros Hnd name'. unfold name'. rewrite BaseName_FileName, (ParseFlags_FileName name f Hnd).
  assert (Hp : sort_flags f ≡ₚ f) by apply sort_slice_perm.
  split_and!; [done|done|apply sort_by_sorted|].
  intros recent. unfold IMAPFlags.
  assert (Hh : ∀ x, Has (sort_flags f) x = Has f x).
  { intros x. unfold Has, mem. apply bool_decide_ext. by rewrite Hp. }
  by rewrite !Hh.
Qed.

Lemma flags_roundtrip_witness :
  BaseName (FileName (BaseName "1.M2:2,S") [FlagSeen; FlagAnswered]) = "1.M2".
Proof.
  destruct (flags_roundtrip "1.M2:2,S" [FlagSeen; FlagAnswered]) as [-> _]; [|reflexivity].
  apply (bool_decide_unpack _). reflexivity.
Defined.
