(* ===== verification/UidList.v ===== *)
(** * The text of the UID list

    Models how [internal/maildir/mailbox.go] reads and prints
    [kavira-uidlist]: the header [V<uidvalidity> N<uidnext>] and a line
    [<uid> <basename>] per message.  The round trip is what makes UIDs
    survive the process. *)

From S2P Require Import Prelude GoStrings GoScan.

Definition uidListFile : string := "kavira-uidlist".

(** The buffer of the scanner. *)
Definition maxLine : Z := 1024 * 1024.

(** A line that does not fit ends the list. *)
Definition scan_lines (s : string) : list string := (scan maxLine s).1.

Definition parse_header (line : string) : option (Z * Z) :=
  match Fields line with
  | [v; n] =>
      if (HasPrefix v "V" && HasPrefix n "N")%bool then
        match ParseUint (slice_from v 1) 32, ParseUint (slice_from n 1) 32 with
        | Some validity, Some next => if next <? 1 then None else Some (validity, next)
        | _, _ => None
        end
      else None
  | _ => None
  end.

Definition parse_entry (uids : gmap string Z) (line : string) : gmap string Z :=
  let sp := IndexByte line " "%char in
  if sp <=? 0 then uids else
  match ParseUint (slice_to line sp) 32 with
  | Some uid => <[slice_from line (sp + 1) := uid]> uids
  | None => uids
  end.

(** [None]: no usable list; the caller mints a new validity. *)
Definition parse_list (text : string) : option (gmap string Z * Z * Z) :=
  match scan_lines text with
  | [] => None
  | header :: lines =>
      match parse_header header with
      | Some (validity, next) => Some (foldl parse_entry ∅ lines, validity, next)
      | None => None
      end
  end.

Definition line_of (kv : string * Z) : string := dec kv.2 +:+ " " +:+ kv.1 +:+ String LF "".

Definition print_list `{SliceSort} (uids : gmap string Z) (validity next : Z) : string :=
  "V" +:+ dec validity +:+ " N" +:+ dec next +:+ String LF "" +:+
  Join (line_of <$> sort_slice (less_by snd) (map_to_list uids)) "".

(** ** The entries *)

(** A base name that a line of the list can carry. *)
Definition clean_base (b : string) : Prop :=
  avoids LF b = true ∧ slen b < maxLine - 16 ∧ HasSuffix b (String CR "") = false.

Lemma clean_entry u b : 0 <= u < 2 ^ 32 → clean_base b → clean_line maxLine (dec u +:+ " " +:+ b).
Proof.
  intros Hu (H1&H2&H3). split_and!.
  - rewrite !avoids_app. split_and!; [apply dec_avoids; [lia|done]|done|done].
  - rewrite !slen_app. change (slen " ") with 1.
    pose proof (dec_length32 u Hu). lia.
  - apply not_true_is_false. intros [t Ht]%HasSuffix_char.
    destruct (decide (b = "")) as [->|Hb].
    + rewrite sapp_nil_r in Ht. revert Ht. apply (sapp_last_neq (dec u) t " "%char CR "" ""). done.
    + assert (Hs : ∃ b' c, b = b' +:+ String c "").
      { clear -Hb. induction b as [|d b IH]; [done|]. destruct b as [|d' b]; [by exists "", d|].
        destruct IH as (b'&c&->); [done|]. by exists (String d b'), c. }
      destruct Hs as (b'&c&->). destruct (decide (c = CR)) as [->|Hc].
      * by rewrite HasSuffix_app in H3.
      * rewrite <- !sapp_assoc in Ht.
        by apply (sapp_last_neq ((dec u +:+ " ") +:+ b') t c CR "" "") in Ht.
Qed.

Lemma parse_entry_line uids u b : 0 <= u < 2 ^ 32 →
  parse_entry uids (dec u +:+ " " +:+ b) = <[b := u]> uids.
Proof.
  intros Hu. unfold parse_entry. change (" " +:+ b) with (String " " b).
  rewrite IndexByte_app by (apply dec_avoids; [lia|done]).
  assert (0 < slen (dec u)).
  { pose proof (slen_nonneg (dec u)). destruct (Z.eq_dec (slen (dec u)) 0) as [E%slen_zero|]; [|lia].
    pose proof (dec_nonempty u ltac:(lia)) as H'. by rewrite E in H'. }
  rewrite (proj2 (Z.leb_gt _ 0)) by lia. unfold slice_to, slice_from, slen. rewrite Nat2Z.id, stake_app.
  rewrite ParseUint_dec by lia. f_equal.
  replace (Z.to_nat _) with (S (String.length (dec u))) by lia.
  clear. induction (dec u) as [|c s IH]; [done|]. exact IH.
Qed.

Lemma parse_header_line v n : 0 <= v < 2 ^ 32 → 1 <= n < 2 ^ 32 →
  parse_header ("V" +:+ dec v +:+ " N" +:+ dec n) = Some (v, n).
Proof.
  intros Hv Hn. unfold parse_header.
  change ("V" +:+ dec v +:+ " N" +:+ dec n) with (String "V" (dec v) +:+ " " +:+ String "N" (dec n)).
  rewrite Fields_two; try done; try (apply andb_true_iff; split; [done|];
    by apply digits_not_space, dec_digits; lia).
  cbn [HasPrefix]. change (slice_from (String "V" (dec v)) 1) with (dec v).
  change (slice_from (String "N" (dec n)) 1) with (dec n). simpl.
  rewrite !ParseUint_dec by lia. by rewrite (proj2 (Z.ltb_ge n 1)) by lia.
Qed.

Lemma foldl_parse_entry (l : list (string * Z)) uids :
  Forall (λ kv, 0 <= kv.2 < 2 ^ 32) l →
  foldl parse_entry uids ((λ kv, dec kv.2 +:+ " " +:+ kv.1) <$> l) =
  foldl (λ m kv, <[kv.1 := kv.2]> m) uids l.
Proof.
  revert uids. induction l as [|[b u] l IH]; intros uids H; [done|].
  apply Forall_cons in H as [Hu Hl]. rewrite fmap_cons. cbn [foldl fst snd].
  rewrite parse_entry_line by done. by apply IH.
Qed.

Lemma foldl_insert_map (l : list (string * Z)) (m : gmap string Z) : NoDup l.*1 → l ≡ₚ map_to_list m →
  foldl (λ m kv, <[kv.1 := kv.2]> m) ∅ l = m.
Proof.
  intros Hnd Hp. rewrite <- (list_to_map_to_list m), <- (list_to_map_proper l); [|done|done].
  rewrite <- (list_to_map_proper (rev l) l); [| |by rewrite <- Permutation_rev].
  - clear. induction l as [|kv l IH] using rev_ind; [done|].
    rewrite foldl_snoc, rev_app_distr. simpl. destruct kv. by rewrite IH.
  - by rewrite <- (Permutation_rev l).
Qed.

(** What a list must satisfy to survive being written and read. *)
Definition storable (uids : gmap string Z) (validity next : Z) : Prop :=
  map_Forall (λ b u, clean_base b ∧ 0 <= u < 2 ^ 32) uids ∧ 0 <= validity < 2 ^ 32 ∧ 1 <= next < 2 ^ 32.

Lemma parse_print `{SliceSort} uids v n : storable uids v n →
  parse_list (print_list uids v n) = Some (uids, v, n).
Proof.
  intros (Hu&Hv&Hn). unfold parse_list, print_list.
  set (l := sort_slice (less_by snd) (map_to_list uids)).
  assert (Hl : l ≡ₚ map_to_list uids) by apply sort_slice_perm.
  assert (Hall : Forall (λ kv, clean_base kv.1 ∧ 0 <= kv.2 < 2 ^ 32) l).
  { rewrite Hl. apply Forall_forall. intros [b u] Hb%elem_of_map_to_list. by apply (Hu b u). }
  set (header := "V" +:+ dec v +:+ " N" +:+ dec n).
  set (entries := (λ kv : string * Z, dec kv.2 +:+ " " +:+ kv.1) <$> l).
  assert (E : "V" +:+ dec v +:+ " N" +:+ dec n +:+ String LF "" +:+ Join (line_of <$> l) "" =
    Join ((λ l, l +:+ String LF "") <$> (header :: entries)) "").
  { unfold header, entries. rewrite fmap_cons, Join_nil_cons, <- list_fmap_compose, !sapp_assoc.
    do 5 f_equal. f_equal. apply list_fmap_ext. intros i [b u] _. unfold line_of. simpl.
    by rewrite !sapp_assoc. }
  unfold scan_lines. rewrite E, scan_clean.
  - cbn [fst]. unfold header. rewrite parse_header_line by done. unfold entries.
    rewrite foldl_parse_entry by (eapply Forall_impl; [exact Hall|]; by intros ? [_ ?]).
    rewrite (foldl_insert_map l uids); [done| |done]. rewrite Hl. apply NoDup_fst_map_to_list.
  - constructor.
    + unfold header. split_and!.
      * rewrite !avoids_app. by rewrite !dec_avoids by (done || lia).
      * rewrite !slen_app. change (slen "V") with 1. change (slen " N") with 2.
        pose proof (dec_length32 v Hv).
        pose proof (dec_length32 n ltac:(lia)). unfold maxLine. lia.
      * assert (avoids CR header = true) as Ha
          by (unfold header; rewrite !avoids_app; by rewrite !dec_avoids by (done || lia)).
        apply not_true_is_false. intros [t Ht]%HasSuffix_char. unfold header in Ha. rewrite Ht in Ha.
        apply avoids_app in Ha as [_ Ha]. done.
    + unfold entries. apply Forall_fmap. eapply Forall_impl; [exact Hall|].
      intros [b u] [Hb Hu']. by apply clean_entry.
Qed.

(** *** What a parsed list satisfies *)

Lemma parse_list_range text uids v n :
  parse_list text = Some (uids, v, n) → 0 <= v < 2 ^ 32 ∧ 1 <= n < 2 ^ 32.
Proof.
  unfold parse_list. destruct (scan_lines text) as [|h ls]; [done|].
  destruct (parse_header h) as [[v' n']|] eqn:E; [|done]. intros [= _ <- <-].
  revert E. unfold parse_header. repeat case_goal; try done. intros [=<- <-]. reflect_bool.
  repeat match goal with H : ParseUint _ _ = Some _ |- _ => apply ParseUint_range in H end. lia.
Qed.
