(* ===== verification/Mailbox.v ===== *)
(** * Mailboxes: the UID list, flags, expunge, append, folders

    Models [internal/maildir/mailbox.go].  A mailbox is the record the
    code keeps; operations run against the world of [Fs].  Operations
    that change the record even when they fail return it together with
    the error.  A message is addressed by its position in the snapshot,
    where the code passes its pointer. *)

From S2P Require Import Prelude GoStrings GoNum Fs Maildir UidList.

Definition Inbox : string := "INBOX".

Record Message := MkMessage {
  UID : Z;
  Seq : Z;
  Name : string;
  Dir : string;
  m_Flags : Flags;
  m_Recent : bool;
  m_Size : Z;
  Internal : Z;
}.

#[global] Instance Message_eq_dec : EqDecision Message.
Proof. solve_decision. Defined.

Record Mailbox := MkMailbox {
  root : path;
  folder : string;
  messages : list Message;
  uidValidity : Z;
  uidNext : Z;
}.

(** ** The snapshot *)

Definition Count (mb : Mailbox) : Z := llen (messages mb).
Definition Recent (mb : Mailbox) : Z := llen (filter (λ m, m_Recent m = true) (messages mb)).
Definition seen (m : Message) : bool := Has (m_Flags m) FlagSeen.
Definition Unseen (mb : Mailbox) : Z := llen (filter (λ m, seen m = false) (messages mb)).

Definition FirstUnseen (mb : Mailbox) : Z :=
  match list_find (λ m, seen m = false) (messages mb) with
  | Some (_, m) => Seq m
  | None => 0
  end.

Definition ByUID (mb : Mailbox) (uid : Z) : option (nat * Message) :=
  list_find (λ m, UID m = uid) (messages mb).

Definition BySeq (mb : Mailbox) (seq : Z) : option Message :=
  if (seq <? 1) || (llen (messages mb) <? seq) then None
  else messages mb !! Z.to_nat (seq - 1).

Definition folderDir (root : path) (folder : string) : path :=
  if (is_empty folder || EqualFold folder Inbox)%bool then root
  else path_join root ("." +:+ folder).

Definition mb_dir (mb : Mailbox) : path := folderDir (root mb) (folder mb).

Definition msg_path (mb : Mailbox) (m : Message) : path :=
  path_join (path_join (mb_dir mb) (Dir m)) (Name m).

(** ** Operations *)

Record entry := MkEntry { e_name : string; e_sub : string; e_size : Z; e_mtime : Z }.

Section ops.
Context `{SliceSort} (env : Env).

Definition newUIDValidity : OS Z :=
  t ← now env; let v := u32 (UnixNano t) in mret (if v =? 0 then 1 else v).

(** [os.Open] and the scan: opening a directory succeeds, reading it
    does not. *)
Definition open_scan (p : path) : OS string := fallible env (λ w,
  match w_files w !! p with
  | Some f => (Ok (f_data f), w)
  | None => if is_dir w p then (Ok "", w) else (Err ENotExist, w)
  end).

Definition fresh_list : OS (gmap string Z * Z * Z) :=
  v ← newUIDValidity; mret (∅, v, 1).

Definition readUIDList (mb : Mailbox) : OS (gmap string Z * Z * Z) :=
  r ← os_try (open_scan (path_join (mb_dir mb) uidListFile));
  match r with
  | Err ENotExist => fresh_list
  | Err e => os_err e
  | Ok text => match parse_list text with Some l => mret l | None => fresh_list end
  end.

Definition writeUIDList (mb : Mailbox) (uids : gmap string Z) (validity next : Z) : OS unit :=
  let p := path_join (mb_dir mb) uidListFile in
  let tmp := path_join (mb_dir mb) (uidListFile +:+ ".tmp") in
  WriteFile env tmp (print_list uids validity next);;
  r ← os_try (Rename env tmp p);
  match r with
  | Err e => os_ignore (Remove env tmp);; os_err e
  | Ok _ => mret tt
  end.

(** One entry of a listing: directories, hidden files and files that
    vanished are skipped. *)
Fixpoint scan_entries (dir : path) (sub : string) (ds : list dirent) : OS (list entry) :=
  match ds with
  | [] => mret []
  | d :: ds =>
      if (d_isdir d || HasPrefix (d_name d) ".")%bool then scan_entries dir sub ds
      else
        r ← os_try (Stat env (dir ++ [d_name d]));
        rest ← scan_entries dir sub ds;
        mret (match r with
              | Ok _ => MkEntry (d_name d) sub (d_size d) (d_mtime d) :: rest
              | Err _ => rest
              end)
  end.

Fixpoint scan_subs (dir : path) (subs : list string) : OS (list entry) :=
  match subs with
  | [] => mret []
  | sub :: subs =>
      r ← os_try (ReadDir env (path_join dir sub));
      match r with
      | Err ENotExist => scan_subs dir subs
      | Err e => os_err e
      | Ok ds =>
          found ← scan_entries (path_join dir sub) sub ds;
          rest ← scan_subs dir subs;
          mret (found ++ rest)
      end
  end.

Definition assign_one (st : gmap string Z * Z * bool) (e : entry) : gmap string Z * Z * bool :=
  let '(uids, next, dirty) := st in
  let base := BaseName (e_name e) in
  match uids !! base with
  | Some _ => st
  | None => (<[base := next]> uids, u32 (next + 1), true)
  end.

(** A missing key of a Go map reads as zero. *)
Definition uid_of (uids : gmap string Z) (base : string) : Z :=
  match uids !! base with Some u => u | None => 0 end.

Definition message_of (uids : gmap string Z) (e : entry) : Message :=
  {| UID := uid_of uids (BaseName (e_name e)); Seq := 0; Name := e_name e; Dir := e_sub e;
     m_Flags := ParseFlags (e_name e); m_Recent := String.eqb (e_sub e) "new";
     m_Size := e_size e; Internal := e_mtime e |}.

Definition set_seq (m : Message) (s : Z) : Message :=
  MkMessage (UID m) s (Name m) (Dir m) (m_Flags m) (m_Recent m) (m_Size m) (Internal m).

(** [m.Seq = uint32(i + 1)] along the slice. *)
Fixpoint renumber (i : Z) (ms : list Message) : list Message :=
  match ms with
  | [] => []
  | m :: ms => set_seq m (u32 (i + 1)) :: renumber (i + 1) ms
  end.

Definition live (ms : list Message) : gmap string Z :=
  foldl (λ l m, <[BaseName (Name m) := UID m]> l) ∅ ms.

(** The snapshot made of what was found, and whether a UID was given. *)
Definition snapshot (uids : gmap string Z) (next : Z) (found : list entry)
    : list Message * Z * bool :=
  let found := sort_slice (less_by e_mtime) found in
  let '(uids, next, dirty) := foldl assign_one (uids, next, false) found in
  (renumber 0 (sort_slice (less_by UID) (message_of uids <$> found)), next, dirty).

Definition Refresh (mb : Mailbox) : OS (Mailbox * option error) :=
  r ← os_try (readUIDList mb);
  match r with
  | Err e => mret (mb, Some e)
  | Ok (uids, validity, next) =>
      let mb := MkMailbox (root mb) (folder mb) (messages mb) validity (uidNext mb) in
      f ← os_try (scan_subs (mb_dir mb) ["new"; "cur"]);
      match f with
      | Err e => mret (mb, Some e)
      | Ok found =>
          let '(msgs, next, dirty) := snapshot uids next found in
          let mb := MkMailbox (root mb) (folder mb) msgs validity next in
          if (dirty : bool) then
            w ← os_try (writeUIDList mb (live msgs) validity next);
            mret (mb, match w with Ok _ => None | Err e => Some e end)
          else mret (mb, None)
      end
  end.

Definition OpenMailbox (rt : path) (fld : string) : OS Mailbox :=
  wrap "mailbox" (mkdirs env (folderDir rt fld) subdirs);;
  r ← Refresh (MkMailbox rt fld [] 0 0);
  match r with
  | (mb, None) => mret mb
  | (_, Some e) => os_err e
  end.

Definition SetFlags (mb : Mailbox) (i : nat) (f : Flags) : OS (Mailbox * option error) :=
  match messages mb !! i with
  | None => mret (mb, None)
  | Some m =>
      let newName := FileName (BaseName (Name m)) f in
      let oldPath := msg_path mb m in
      let newPath := path_join (path_join (mb_dir mb) "cur") newName in
      r ← os_try (if bool_decide (oldPath = newPath) then mret tt else Rename env oldPath newPath);
      match r with
      | Err e => mret (mb, Some e)
      | Ok _ =>
          let m' := MkMessage (UID m) (Seq m) newName "cur" f false (m_Size m) (Internal m) in
          mret (MkMailbox (root mb) (folder mb) (<[i := m']> (messages mb)) (uidValidity mb) (uidNext mb),
                None)
      end
  end.

Definition deleted (m : Message) : bool := Has (m_Flags m) FlagDeleted.

(** The loop of [Expunge]: the sequence numbers removed and the
    messages kept, or the first error that is not an absent file. *)
Fixpoint expunge_loop (mb : Mailbox) (ms : list Message) : OS (list Z * list Message) :=
  match ms with
  | [] => mret ([], [])
  | m :: ms =>
      if deleted m then
        r ← os_try (Remove env (msg_path mb m));
        match r with
        | Err (EMsg s) => os_err (EMsg s)
        | _ => rest ← expunge_loop mb ms; mret (Seq m :: rest.1, rest.2)
        end
      else rest ← expunge_loop mb ms; mret (rest.1, m :: rest.2)
  end.

Definition Expunge (mb : Mailbox) : OS (Mailbox * result (list Z)) :=
  r ← os_try (expunge_loop mb (messages mb));
  match r with
  | Err e => mret (mb, Err e)
  | Ok ([], _) => mret (mb, Ok [])
  | Ok (seqs, kept) =>
      mret (MkMailbox (root mb) (folder mb) (renumber 0 kept) (uidValidity mb) (uidNext mb),
            Ok (sort_slice (less_by Z.opp) seqs))
  end.

Definition Append (mb : Mailbox) (data : string) (f : Flags) (internal : Z)
    : OS (Mailbox * result Message) :=
  d ← os_try (Deliver env (mb_dir mb) data);
  match d with
  | Err e => mret (mb, Err e)
  | Ok p =>
      (if time_IsZero internal then mret tt else os_ignore (Chtimes env p internal));;
      r ← os_try (match f with
                  | [] => mret tt
                  | _ => Rename env p (path_join (path_join (mb_dir mb) "cur")
                                         (FileName (BaseName (path_base p)) f))
                  end);
      match r with
      | Err e => mret (mb, Err e)
      | Ok _ =>
          x ← Refresh mb;
          match x with
          | (mb, Some e) => mret (mb, Err e)
          | (mb, None) =>
              mret (mb, match last (messages mb) with
                        | Some m => Ok m
                        | None => Err (EMsg "appended message not found after refresh")
                        end)
          end
      end
  end.

Definition Read (mb : Mailbox) (m : Message) : OS string := ReadFile env (msg_path mb m).

Definition CopyTo (mb : Mailbox) (m : Message) (fld : string) : OS unit :=
  data ← Read mb m;
  dst ← OpenMailbox (root mb) fld;
  a ← Append dst data (m_Flags m) (Internal m);
  match a.2 with Ok _ => mret tt | Err e => os_err e end.

Definition folder_name (d : dirent) : option string :=
  if (negb (d_isdir d) || negb (HasPrefix (d_name d) "."))%bool then None else
  let name := slice_from (d_name d) 1 in
  if (String.eqb name "" || String.eqb name ".")%bool then None else Some name.

Definition Folders (rt : path) : OS (list string) :=
  r ← os_try (ReadDir env rt);
  match r with
  | Err ENotExist => mret [Inbox]
  | Err e => os_err e
  | Ok ds => mret (Inbox :: insertion_sort String.ltb (omap folder_name ds))
  end.

Definition CreateFolder (rt : path) (fld : string) : OS unit :=
  if EqualFold fld Inbox then os_err (EMsg "INBOX already exists") else
  let dir := folderDir rt fld in
  s ← os_try (Stat env dir);
  match s with
  | Ok _ => os_err (EMsg "mailbox already exists")
  | Err _ => mkdirs env dir subdirs
  end.

Definition DeleteFolder (rt : path) (fld : string) : OS unit :=
  if EqualFold fld Inbox then os_err (EMsg "cannot delete INBOX") else
  let dir := folderDir rt fld in
  s ← os_try (Stat env dir);
  match s with
  | Err _ => os_err (EMsg "mailbox does not exist")
  | Ok _ => RemoveAll env dir
  end.
End ops.

(** ** Giving out UIDs *)

(** The assignment never gives one UID twice and stays below the next. *)
Record uids_ok (uids : gmap string Z) (next : Z) : Prop := {
  uo_range b u : uids !! b = Some u → 0 <= u < next;
  uo_inj b b' u : uids !! b = Some u → uids !! b' = Some u → b = b';
  uo_next : 1 <= next;
}.

Definition base_of (e : entry) : string := BaseName (e_name e).

(** What a pass over the entries does to the assignment. *)
Record assigned (es : list entry) (uids : gmap string Z) (next : Z) (dirty : bool)
    (uids' : gmap string Z) (next' : Z) (dirty' : bool) : Prop := {
  as_ok : uids_ok uids' next';
  as_sub : uids ⊆ uids';
  as_next : next <= next' <= next + llen es;
  as_all e : e ∈ es → is_Some (uids' !! base_of e);
  as_new b u : uids' !! b = Some u → uids !! b = None → next <= u ∧ ∃ e, e ∈ es ∧ base_of e = b;
  as_clean : dirty' = false → uids' = uids ∧ next' = next ∧ dirty = false;
  as_known : (∀ e, e ∈ es → is_Some (uids !! base_of e)) → uids' = uids ∧ next' = next ∧ dirty' = dirty;
}.

Lemma assign_one_spec e uids next dirty : uids_ok uids next → next + 1 < 2 ^ 32 →
  let '(uids', next', dirty') := assign_one (uids, next, dirty) e in
  assigned [e] uids next dirty uids' next' dirty'.
Proof.
  intros [Hr Hi Hn] Hw. unfold assign_one. change (BaseName (e_name e)) with (base_of e).
  destruct (uids !! base_of e) as [u|] eqn:E.
  - split; [by split|done|unfold llen; simpl; lia| |congruence|done|done].
    intros e' ->%list_elem_of_singleton. by rewrite E.
  - assert (Hu : u32 (next + 1) = next + 1) by (unfold u32; apply Z.mod_small; lia).
    rewrite Hu. split.
    + split; [| |lia].
      * intros b u. destruct (decide (b = base_of e)) as [->|Hb].
        -- rewrite lookup_insert_eq. intros [=<-]. lia.
        -- rewrite lookup_insert_ne by done. intros Hl%Hr. lia.
      * intros b b' u. destruct (decide (b = base_of e)) as [->|Hb], (decide (b' = base_of e)) as [->|Hb'];
          rewrite ?lookup_insert_eq, ?lookup_insert_ne by done; try done.
        -- intros [=<-] ?%Hr. lia.
        -- intros ?%Hr [=<-]. lia.
        -- apply Hi.
    + by apply insert_subseteq.
    + unfold llen. simpl. lia.
    + intros e' ->%list_elem_of_singleton. rewrite lookup_insert_eq. by eexists.
    + intros b u. destruct (decide (b = base_of e)) as [->|Hb].
      * rewrite lookup_insert_eq. intros [=<-] _. split; [lia|]. exists e. by rewrite list_elem_of_singleton.
      * rewrite lookup_insert_ne by done. congruence.
    + done.
    + intros Hall. destruct (Hall e) as [u Hu']; [constructor|congruence].
Qed.

Lemma assign_spec es uids next dirty : uids_ok uids next → next + llen es < 2 ^ 32 →
  let '(uids', next', dirty') := foldl assign_one (uids, next, dirty) es in
  assigned es uids next dirty uids' next' dirty'.
Proof.
  revert uids next dirty. induction es as [|e es IH]; intros uids next dirty Hok Hw.
  { simpl. split; [done|done|unfold llen; simpl; lia|by intros ? ?%elem_of_nil|congruence|done|done]. }
  rewrite llen_cons in Hw. pose proof (llen_nonneg es). cbn [foldl].
  pose proof (assign_one_spec e uids next dirty Hok ltac:(lia)) as H1.
  destruct (assign_one (uids, next, dirty) e) as [[uids1 next1] dirty1].
  destruct H1 as [Hok1 Hs1 Hn1 Ha1 Hnew1 Hc1 Hk1]. unfold llen in Hn1 at 1. simpl in Hn1.
  specialize (IH uids1 next1 dirty1 Hok1 ltac:(lia)).
  destruct (foldl assign_one (uids1, next1, dirty1) es) as [[uids' next'] dirty'].
  destruct IH as [Hok' Hs' Hn' Ha' Hnew' Hc' Hk']. split; [done|by etrans|rewrite llen_cons; lia| | | |].
  - intros e' [->|He']%elem_of_cons; [|auto].
    destruct (Ha1 e) as [u Hu]; [by constructor|]. exists u. by eapply lookup_weaken.
  - intros b u Hb Hb0. destruct (uids1 !! b) as [u1|] eqn:Hb1.
    + assert (u1 = u) as -> by (eapply lookup_weaken in Hb1; [|exact Hs']; congruence).
      destruct (Hnew1 b u Hb1 Hb0) as (?&e'&->%list_elem_of_singleton&?).
      split; [done|]. exists e. split; [constructor|done].
    + destruct (Hnew' b u Hb Hb1) as (?&e'&?&?). split; [lia|]. exists e'. split; [by constructor|done].
  - intros Hd. destruct (Hc' Hd) as (->&->&Hd1). destruct (Hc1 Hd1) as (->&->&?). done.
  - intros Hall. destruct Hk1 as (->&->&->).
    { intros e' ->%list_elem_of_singleton. apply Hall. constructor. }
    apply Hk'. intros e' He'. apply Hall. by constructor.
Qed.

(** ** Numbering *)

Lemma renumber_fmap {B} (f : Message → B) i ms : (∀ m s, f (set_seq m s) = f m) →
  f <$> renumber i ms = f <$> ms.
Proof.
  intros Hf. revert i. induction ms as [|m ms IH]; intros i; simpl; [done|]. by rewrite Hf, IH.
Qed.

Lemma renumber_length i ms : length (renumber i ms) = length ms.
Proof. revert i. induction ms; intros i; simpl; auto. Qed.

Lemma renumber_Seq k ms i m : 0 <= k → k + llen ms < 2 ^ 32 →
  renumber k ms !! i = Some m → Seq m = k + Z.of_nat i + 1.
Proof.
  revert k i. induction ms as [|m' ms IH]; intros k i Hk Hl; [done|].
  rewrite llen_cons in Hl. pose proof (llen_nonneg ms). destruct i as [|i]; simpl.
  - intros [=<-]. simpl. unfold u32. rewrite Z.mod_small; lia.
  - intros Hi%IH; lia.
Qed.

Lemma StronglySorted_fmap {A B} (f : A → B) (R : B → B → Prop) l :
  StronglySorted R (f <$> l) ↔ StronglySorted (λ x y, R (f x) (f y)) l.
Proof.
  induction l as [|x l IH]; [split; constructor|]. rewrite fmap_cons, !StronglySorted_cons, IH.
  by rewrite Forall_fmap.
Qed.

Lemma StronglySorted_strict (l : list Z) : NoDup l → StronglySorted Z.le l → StronglySorted Z.lt l.
Proof.
  intros Hnd Hs. induction Hs as [|x l Hs IH Hx]; [constructor|].
  apply NoDup_cons in Hnd as [Hn Hnd]. constructor; [auto|].
  rewrite Forall_forall in Hx |- *. intros y Hy. specialize (Hx y Hy).
  destruct (decide (x = y)) as [->|]; [done|lia].
Qed.

Lemma NoDup_fmap_inj_on {A B} (f : A → B) l x y :
  NoDup (f <$> l) → x ∈ l → y ∈ l → f x = f y → x = y.
Proof.
  induction l as [|z l IH]; [by intros _ ?%elem_of_nil|].
  rewrite fmap_cons, NoDup_cons. intros [Hz Hnd] [->|Hx]%elem_of_cons [->|Hy]%elem_of_cons E;
    [done|exfalso..|by auto]; apply Hz; [rewrite E|rewrite <- E]; by apply list_elem_of_fmap_2.
Qed.

(** *** The snapshot *)

Definition anon (m : Message) : Message := set_seq m 0.

Record snapshot_ok `{SliceSort} (found : list entry) (uids' : gmap string Z) (next' : Z) (msgs : list Message) : Prop := {
  sn_perm : anon <$> msgs ≡ₚ message_of uids' <$> found;
  sn_sorted : StronglySorted (λ a b, UID a < UID b) msgs;
  sn_seq i m : msgs !! i = Some m → Seq m = Z.of_nat i + 1;
  sn_uid m : m ∈ msgs → uids' !! BaseName (Name m) = Some (UID m);
}.

Lemma message_of_anon `{SliceSort} uids e : anon (message_of uids e) = message_of uids e.
Proof. done. Qed.

Lemma snapshot_spec `{SliceSort} uids next found :
  uids_ok uids next → next + llen found < 2 ^ 32 → NoDup (base_of <$> found) →
  let '(msgs, next', dirty') := snapshot uids next found in
  ∃ uids', assigned found uids next false uids' next' dirty' ∧ snapshot_ok found uids' next' msgs.
Proof.
  intros Hok Hw Hnd. unfold snapshot. set (sorted := sort_slice (less_by e_mtime) found).
  assert (Hp : sorted ≡ₚ found) by apply sort_slice_perm.
  assert (Hl : llen sorted = llen found) by (unfold llen; by rewrite Hp).
  pose proof (assign_spec sorted uids next false Hok ltac:(lia)) as Ha.
  destruct (foldl assign_one (uids, next, false) sorted) as [[uids' next'] dirty'].
  destruct Ha as [Hok' Hs' Hn' Ha' Hnew' Hc' Hk'].
  set (ms := sort_slice (less_by UID) (message_of uids' <$> sorted)).
  assert (Hms : ms ≡ₚ message_of uids' <$> found) by (unfold ms; by rewrite sort_slice_perm, Hp).
  assert (Hall : ∀ e, e ∈ found → uids' !! base_of e = Some (UID (message_of uids' e))).
  { intros e He. destruct (Ha' e) as [u Hu]; [by rewrite Hp|]. simpl. unfold uid_of, base_of in *. by rewrite Hu. }
  exists uids'. split; [|split].
  - split; try done; [lia|intros e He; apply Ha'; by rewrite Hp| |].
    + intros b u Hb Hb0. destruct (Hnew' b u Hb Hb0) as (?&e&He&?). split; [done|]. exists e. by rewrite <- Hp.
    + intros Hall'. apply Hk'. intros e He. apply Hall'. by rewrite <- Hp.
  - rewrite renumber_fmap by done. rewrite Hms, <- list_fmap_compose.
    erewrite list_fmap_ext; [reflexivity|]. intros i e _. apply message_of_anon.
  - apply (StronglySorted_fmap UID Z.lt). rewrite renumber_fmap by done.
    apply StronglySorted_strict.
    + rewrite Hms, <- list_fmap_compose. apply NoDup_fmap_2_strong; [|by eapply NoDup_fmap_1].
      intros x y Hx Hy E. cbn in E. pose proof (Hall x Hx) as Ex. pose proof (Hall y Hy) as Ey.
      cbn in Ex, Ey. rewrite E in Ex. pose proof (uo_inj _ _ Hok' _ _ _ Ex Ey) as Eb.
      by apply (NoDup_fmap_inj_on base_of found).
    + apply (StronglySorted_fmap UID Z.le). apply (sort_by_sorted UID).
  - intros i m Hi. apply renumber_Seq in Hi; [lia|lia|]. unfold llen. rewrite Hms, length_fmap.
    unfold llen in Hw. pose proof (uo_next _ _ Hok). lia.
  - intros m Hm. assert (Ha : anon m ∈ anon <$> ms) by (rewrite <- (renumber_fmap anon 0 ms) by done; by apply list_elem_of_fmap_2).
    rewrite Hms, <- list_fmap_compose in Ha. apply list_elem_of_fmap in Ha as (e&E&He).
    pose proof (Hall e He) as Hu. change (UID m) with (UID (anon m)). change (Name m) with (Name (anon m)).
    rewrite E. exact Hu.
Qed.

(** ** Scanning the directories *)

Definition visible (d : dirent) : bool := negb (d_isdir d || HasPrefix (d_name d) ".").

Definition entries_of (w : World) (p : path) (sub : string) : list entry :=
  (λ d, MkEntry (d_name d) sub (d_size d) (d_mtime d)) <$> filter (λ d, visible d = true) (list_dir w p).

(** The messages of a mailbox directory. *)
Definition found_in (w : World) (dir : path) : list entry :=
  entries_of w (dir ++ ["new"]) "new" ++ entries_of w (dir ++ ["cur"]) "cur".

(** Two worlds that differ by the ticks only. *)
Definition same (w w' : World) : Prop :=
  w_files w' = w_files w ∧ w_dirs w' = w_dirs w ∧ w_host w' = w_host w.

Lemma same_refl w : same w w. Proof. done. Qed.
Lemma same_trans w w1 w2 : same w w1 → same w1 w2 → same w w2.
Proof. intros (?&?&?) (?&?&?). unfold same. split_and!; congruence. Qed.
Lemma same_tick w : same w (tick w). Proof. done. Qed.

Lemma scan_entries_reliable env dir sub ds w : reliable env →
  Forall (λ d, is_Some (w_files w !! (dir ++ [d_name d])) ∨ dir ++ [d_name d] ∈ w_dirs w) ds →
  ∃ w', scan_entries env dir sub ds w =
    (Ok ((λ d, MkEntry (d_name d) sub (d_size d) (d_mtime d)) <$> filter (λ d, visible d = true) ds), w') ∧
    same w w'.
Proof.
  intros Hr. revert w. induction ds as [|d ds IH]; intros w Hall; [by exists w|].
  apply Forall_cons in Hall as [Hd Hall]. cbn [scan_entries].
  destruct (d_isdir d || HasPrefix (d_name d) ".")%bool eqn:Ev.
  { rewrite filter_cons_False by (unfold visible; by rewrite Ev). by apply IH. }
  rewrite filter_cons_True by (unfold visible; by rewrite Ev).
  destruct (IH (tick w) Hall) as (w'&E&Hs). exists w'. split; [|done].
  unfold mbind, OS_bind, os_try. rewrite Stat_reliable by done.
  assert ((is_dir w (dir ++ [d_name d]) || is_file w (dir ++ [d_name d]))%bool = true) as ->.
  { unfold is_dir, is_file. apply orb_true_iff. rewrite !bool_decide_eq_true. tauto. }
  rewrite E. done.
Qed.

Lemma scan_reliable env w dir : reliable env →
  (dir ++ ["new"] ∈ w_dirs w) → (dir ++ ["cur"] ∈ w_dirs w) →
  ∃ w', scan_subs env dir ["new"; "cur"] w = (Ok (found_in w dir), w') ∧ same w w'.
Proof.
  intros Hr Hn Hc. unfold found_in.
  assert (Hone : ∀ sub w, (dir ++ [sub]) ∈ w_dirs w → ∃ w',
    scan_entries env (dir ++ [sub]) sub (list_dir w (dir ++ [sub])) (tick w) =
      (Ok (entries_of w (dir ++ [sub]) sub), w') ∧ same w w').
  { intros sub w1 H1. apply (scan_entries_reliable env (dir ++ [sub]) sub _ (tick w1) Hr).
    apply Forall_forall. intros d Hd%list_dir_spec. tauto. }
  cbn [scan_subs]. rewrite !(path_join_name dir) by done.
  unfold mbind, OS_bind, os_try. rewrite (ReadDir_reliable env _ w Hr Hn).
  destruct (Hone "new" w Hn) as (w1&E1&Hs1). rewrite E1.
  assert (Hc1 : dir ++ ["cur"] ∈ w_dirs w1) by (destruct Hs1 as (_&->&_); done).
  rewrite (ReadDir_reliable env _ w1 Hr Hc1).
  destruct (Hone "cur" w1 Hc1) as (w2&E2&Hs2). rewrite E2. exists w2.
  split; [|by eapply same_trans]. unfold mret, OS_ret. rewrite app_nil_r. do 3 f_equal.
  unfold entries_of, list_dir, entry_of. destruct Hs1 as (-> & -> & _). done.
Qed.

(** ** The UID list on disk *)

Definition list_path (dir : path) : path := dir ++ [uidListFile].
Definition list_tmp (dir : path) : path := dir ++ [uidListFile +:+ ".tmp"].

(** The list a world holds for a mailbox directory. *)
Definition stored (w : World) (dir : path) : option (gmap string Z * Z * Z) :=
  match w_files w !! list_path dir with Some f => parse_list (f_data f) | None => None end.

Lemma list_path_join dir : path_join dir uidListFile = list_path dir.
Proof. by apply path_join_name. Qed.
Lemma list_tmp_join dir : path_join dir (uidListFile +:+ ".tmp") = list_tmp dir.
Proof. by apply path_join_name. Qed.

Lemma newUIDValidity_range env w : ∃ v, newUIDValidity env w = (Ok v, tick w) ∧ 1 <= v < 2 ^ 32.
Proof.
  eexists. split; [reflexivity|]. unfold u32.
  pose proof (Z.mod_pos_bound (UnixNano (e_clock env (w_tick w))) (2 ^ 32) ltac:(lia)).
  case_goal; reflect_bool; lia.
Qed.

Lemma readUIDList_reliable env mb w : reliable env → list_path (mb_dir mb) ∉ w_dirs w →
  ∃ uids v n w', readUIDList env mb w = (Ok (uids, v, n), w') ∧ same w w' ∧
    match stored w (mb_dir mb) with
    | Some l => (uids, v, n) = l
    | None => uids = ∅ ∧ n = 1 ∧ 1 <= v < 2 ^ 32
    end.
Proof.
  intros Hr Hd. unfold readUIDList. rewrite list_path_join. set (p := list_path (mb_dir mb)) in *.
  assert (E : os_try (open_scan env p) w =
    (Ok (match w_files w !! p with Some f => Ok (f_data f) | None => Err ENotExist end), tick w)).
  { unfold os_try, open_scan. rewrite fallible_reliable by done. unfold is_dir. simpl.
    destruct (w_files w !! p); [done|]. by rewrite bool_decide_false. }
  rewrite (os_bind_eq _ _ _ _ _ E). unfold stored. fold p.
  destruct (newUIDValidity_range env (tick w)) as (v&Ev&Hv).
  assert (Ef : fresh_list env (tick w) = (Ok (∅, v, 1), tick (tick w)))
    by (unfold fresh_list; by rewrite (os_bind_eq _ _ _ _ _ Ev)).
  destruct (w_files w !! p) as [f|]; [destruct (parse_list (f_data f)) as [[[uids v'] n]|]|].
  - by exists uids, v', n, (tick w).
  - by exists ∅, v, 1, (tick (tick w)).
  - by exists ∅, v, 1, (tick (tick w)).
Qed.

Lemma list_tmp_ne dir : list_tmp dir ≠ list_path dir.
Proof. intros H. by apply app_inv_head in H. Qed.

Lemma writeUIDList_reliable `{SliceSort} env mb uids v n w : reliable env →
  let dir := mb_dir mb in
  dir ∈ w_dirs w → list_path dir ∉ w_dirs w → list_tmp dir ∉ w_dirs w →
  ∃ w' t, writeUIDList env mb uids v n w = (Ok tt, w') ∧ w_dirs w' = w_dirs w ∧ w_host w' = w_host w ∧
    w_files w' = <[list_path dir := MkFile (print_list uids v n) t]> (delete (list_tmp dir) (w_files w)).
Proof.
  intros Hr dir Hdir Hl Ht. unfold writeUIDList, WriteFile. fold dir. rewrite list_path_join, list_tmp_join.
  assert (Hp : parent (list_tmp dir) = dir ∧ parent (list_path dir) = dir) by (split; apply parent_snoc).
  destruct Hp as [Hp1 Hp2].
  destruct (create_file_reliable env false (list_tmp dir) w Hr Ht) as [t0 E1]; [by rewrite Hp1|done|].
  unfold mbind, OS_bind. rewrite E1.
  match goal with |- context [write_data env _ _ ?w] =>
    destruct (write_data_reliable env (list_tmp dir) (print_list uids v n) w Hr) as [t E2] end.
  rewrite E2. unfold os_try.
  match goal with |- context [Rename env _ _ ?w] => set (w2 := w) end.
  rewrite (Rename_reliable env (list_tmp dir) (list_path dir) (MkFile (print_list uids v n) t) w2 Hr);
    [|apply lookup_insert_eq|done|by rewrite Hp2].
  do 2 eexists. split; [reflexivity|]. split_and!; [done|done|]. simpl.
  by rewrite insert_insert_eq, delete_insert_eq.
Qed.

(** ** Refresh *)

Lemma live_spec ms b u : NoDup ((λ m, BaseName (Name m)) <$> ms) →
  live ms !! b = Some u ↔ ∃ m, m ∈ ms ∧ BaseName (Name m) = b ∧ UID m = u.
Proof.
  unfold live. induction ms as [|m ms IH] using rev_ind; intros Hnd.
  { simpl. rewrite lookup_empty. split; [done|]. by intros (?&?%elem_of_nil&_). }
  rewrite foldl_snoc. rewrite fmap_app, NoDup_app in Hnd. destruct Hnd as (Hnd&Hd&_).
  destruct (decide (BaseName (Name m) = b)) as [<-|Hb].
  - rewrite lookup_insert_eq. split.
    + intros [=<-]. exists m. split; [apply elem_of_app; right; constructor|done].
    + intros (m'&[Hm'|Hm'%list_elem_of_singleton]%elem_of_app&Hb&<-); [|by subst].
      exfalso. apply (Hd (BaseName (Name m))); [|constructor]. rewrite <- Hb.
      by apply (list_elem_of_fmap_2 (λ m, BaseName (Name m))).
  - rewrite lookup_insert_ne, IH by done. split; intros (m'&Hm'&Hb'&Hu); exists m'; (split; [|done]).
    + apply elem_of_app. by left.
    + apply elem_of_app in Hm' as [?|Hm'%list_elem_of_singleton]; [done|by subst].
Qed.

(** The assignment and the next UID a refresh starts from. *)
Definition base_state (w : World) (dir : path) : gmap string Z * Z :=
  match stored w dir with Some (uids, _, n) => (uids, n) | None => (∅, 1) end.

(** A mailbox directory in order: the directories are there, the names of
    the messages are distinct and fit a line of the list, the stored
    assignment is sound and UIDs are not about to run out. *)
Record good (w : World) (dir : path) : Prop := {
  g_layout : layout w dir;
  g_list : list_path dir ∉ w_dirs w;
  g_tmp : list_tmp dir ∉ w_dirs w;
  g_nodup : NoDup (base_of <$> found_in w dir);
  g_clean : Forall (λ e, clean_base (base_of e)) (found_in w dir);
  g_uids : uids_ok (base_state w dir).1 (base_state w dir).2;
  g_room : (base_state w dir).2 + llen (found_in w dir) < 2 ^ 32;
}.

Section refresh.
Context `{SliceSort} (env : Env) (Hr : reliable env).

Record refreshed (w : World) (mb mb' : Mailbox) (w' : World) (uids' : gmap string Z) (dirty : bool) : Prop := {
  rf_root : root mb' = root mb;
  rf_folder : folder mb' = folder mb;
  rf_dirs : w_dirs w' = w_dirs w;
  rf_host : w_host w' = w_host w;
  rf_snap : snapshot_ok (found_in w (mb_dir mb)) uids' (uidNext mb') (messages mb');
  rf_assigned : assigned (found_in w (mb_dir mb)) (base_state w (mb_dir mb)).1 (base_state w (mb_dir mb)).2
    false uids' (uidNext mb') dirty;
  rf_validity uids v n : stored w (mb_dir mb) = Some (uids, v, n) → uidValidity mb' = v;
  rf_files p : p ≠ list_path (mb_dir mb) → p ≠ list_tmp (mb_dir mb) → w_files w' !! p = w_files w !! p;
  rf_stored : stored w' (mb_dir mb) =
    if dirty then Some (live (messages mb'), uidValidity mb', uidNext mb') else stored w (mb_dir mb);
}.

Lemma snapshot_bases found uids n ms : snapshot_ok found uids n ms →
  (λ m, BaseName (Name m)) <$> ms ≡ₚ base_of <$> found.
Proof.
  intros Hs. transitivity ((λ m, BaseName (Name m)) <$> (anon <$> ms)).
  - rewrite <- list_fmap_compose. done.
  - rewrite (sn_perm _ _ _ _ Hs), <- list_fmap_compose. done.
Qed.

Lemma live_storable found uids n ms v : snapshot_ok found uids n ms → uids_ok uids n → n < 2 ^ 32 →
  NoDup (base_of <$> found) → Forall (λ e, clean_base (base_of e)) found → 0 <= v < 2 ^ 32 →
  storable (live ms) v n.
Proof.
  intros Hs Hok Hn Hnd Hc Hv. pose proof (snapshot_bases _ _ _ _ Hs) as Hb. split_and!; try lia.
  - apply map_Forall_lookup_2. intros b u Hl. apply live_spec in Hl; [|by rewrite Hb].
    destruct Hl as (m&Hm&<-&<-). split.
    + assert (Hin : BaseName (Name m) ∈ base_of <$> found)
        by (rewrite <- Hb; by apply (list_elem_of_fmap_2 (λ m, BaseName (Name m)))).
      apply list_elem_of_fmap in Hin as (e&->&He). rewrite Forall_forall in Hc. auto.
    + pose proof (uo_range _ _ Hok _ _ (sn_uid _ _ _ _ Hs m Hm)). lia.
  - apply (uo_next _ _ Hok).
Qed.

Lemma Refresh_run mb w : good w (mb_dir mb) →
  ∃ mb' w' uids' dirty, Refresh env mb w = (Ok (mb', None), w') ∧ refreshed w mb mb' w' uids' dirty.
Proof.
  intros [(Hd&_&Hdn&Hdc) Hl Ht Hnd Hc Hu Hroom]. unfold Refresh. set (dir := mb_dir mb) in *.
  destruct (readUIDList_reliable env mb w Hr Hl) as (uids&v&n&w1&E1&(Hf1&Hd1&Hh1)&Hst). fold dir in Hst.
  assert (Hbase : base_state w dir = (uids, n)).
  { unfold base_state. destruct (stored w dir) as [[[? ?] ?]|]; [by simplify_eq|]. by destruct Hst as (->&->&_). }
  assert (Hv : 0 <= v < 2 ^ 32).
  { destruct (stored w dir) as [l|] eqn:Es; [|destruct Hst as (_&_&?); lia]. subst l.
    unfold stored in Es. destruct (w_files w !! list_path dir); [|done]. by apply parse_list_range in Es as [? _]. }
  rewrite Hbase in Hu, Hroom. simpl in Hu, Hroom.
  unfold mbind at 1, OS_bind at 1, os_try at 1. rewrite E1.
  set (mb1 := MkMailbox _ _ _ _ _). change (mb_dir mb1) with dir.
  destruct (scan_reliable env w1 dir Hr) as (w2&E2&(Hf2&Hd2&Hh2)); [rewrite Hd1; done..|].
  unfold mbind at 1, OS_bind at 1, os_try at 1. rewrite E2.
  assert (Hfound : found_in w1 dir = found_in w dir)
    by (unfold found_in, entries_of, list_dir, entry_of; by rewrite Hf1, Hd1).
  rewrite Hfound. pose proof (snapshot_spec uids n (found_in w dir) Hu Hroom Hnd) as Hsn.
  destruct (snapshot uids n (found_in w dir)) as [[msgs next'] dirty].
  destruct Hsn as (uids'&Has&Hs).
  assert (Hval : ∀ uids0 v0 n0, stored w dir = Some (uids0, v0, n0) → v = v0).
  { intros uids0 v0 n0 Es. rewrite Es in Hst. congruence. }
  destruct dirty.
  - pose proof (writeUIDList_reliable env (MkMailbox (root mb1) (folder mb1) msgs v next')
      (live msgs) v next' w2 Hr) as W. cbv zeta in W. change (mb_dir _) with dir in W.
    rewrite Hd2, Hd1 in W. destruct (W Hd Hl Ht) as (w3&t&E3&Hd3&Hh3&Hf3).
    unfold mbind, OS_bind, os_try. rewrite E3. exists (MkMailbox (root mb1) (folder mb1) msgs v next'), w3, uids', true.
    split; [done|]. split; fold dir; rewrite ?Hbase; try done; try congruence.
    + intros p Hp1 Hp2. rewrite Hf3, lookup_insert_ne, lookup_delete_ne by done. congruence.
    + unfold stored at 1. fold dir. rewrite Hf3, lookup_insert_eq. simpl. apply parse_print.
      eapply live_storable; try done; [apply Has|]. pose proof (as_next _ _ _ _ _ _ _ Has). lia.
  - exists (MkMailbox (root mb1) (folder mb1) msgs v next'), w2, uids', false.
    split; [done|]. split; fold dir; rewrite ?Hbase; try done; try congruence.
    unfold stored. fold dir. by rewrite Hf2, Hf1.
Qed.
End refresh.

(** ** Stability *)

Lemma list_eq_anon (ms ms' : list Message) : anon <$> ms = anon <$> ms' →
  (∀ i m, ms !! i = Some m → Seq m = Z.of_nat i + 1) →
  (∀ i m, ms' !! i = Some m → Seq m = Z.of_nat i + 1) → ms = ms'.
Proof.
  intros E H1 H2. apply list_eq. intros i. pose proof (f_equal (.!! i) E) as Ei. cbn in Ei.
  rewrite !list_lookup_fmap in Ei. specialize (H1 i). specialize (H2 i).
  destruct (ms !! i) as [m|], (ms' !! i) as [m'|]; simplify_eq/=; [|done].
  specialize (H1 _ eq_refl). specialize (H2 _ eq_refl). f_equal.
  destruct m, m'. simpl in *. simplify_eq. congruence.
Qed.

Lemma snapshot_unique `{SliceSort} found found' uids uids' n n' ms ms' :
  snapshot_ok found uids n ms → snapshot_ok found' uids' n' ms' → found' ≡ₚ found →
  (∀ e, e ∈ found → message_of uids e = message_of uids' e) → ms = ms'.
Proof.
  intros [Hp Hs Hq _] [Hp' Hs' Hq' _] Hf He. apply list_eq_anon; [|done..].
  apply (StronglySorted_unique_strong (λ a b, UID a < UID b)).
  - intros x y _ _ ? ?. lia.
  - by apply (StronglySorted_fmap anon (λ a b, UID a < UID b)).
  - by apply (StronglySorted_fmap anon (λ a b, UID a < UID b)).
  - rewrite Hp, Hp', Hf. erewrite list_fmap_ext; [reflexivity|].
    intros i e Hi%list_elem_of_lookup_2. auto.
Qed.

Lemma found_in_perm w w' dir : w_dirs w' = w_dirs w →
  (∀ p, p ≠ list_path dir → p ≠ list_tmp dir → w_files w' !! p = w_files w !! p) →
  found_in w' dir ≡ₚ found_in w dir.
Proof.
  intros Hd Hf. unfold found_in, entries_of.
  assert (Hn : ∀ sub, list_dir w' (dir ++ [sub]) ≡ₚ list_dir w (dir ++ [sub])).
  { intros sub. apply list_dir_perm; [done|]. intros n. rewrite <- app_assoc.
    apply Hf; unfold list_path, list_tmp; intros E; by apply app_inv_head in E. }
  assert (Hfp : ∀ (P : dirent → Prop) `{∀ x, Decision (P x)} l k, l ≡ₚ k → filter P l ≡ₚ filter P k).
  { intros P HP l k Hlk. by rewrite Hlk. }
  by rewrite !(Hfp _ _ _ _ (Hn _)).
Qed.

(** After a refresh the list on disk is the assignment it made. *)
Lemma refreshed_list `{SliceSort} w mb mb' w' uids' dirty :
  NoDup (base_of <$> found_in w (mb_dir mb)) → refreshed w mb mb' w' uids' dirty → messages mb' ≠ [] →
  ∃ uids1, stored w' (mb_dir mb) = Some (uids1, uidValidity mb', uidNext mb') ∧
    uids_ok uids1 (uidNext mb') ∧ ∀ m, m ∈ messages mb' → uids1 !! BaseName (Name m) = Some (UID m).
Proof.
  intros Hnd [_ _ _ _ Hs Ha Hv _ ->] Hne. pose proof (snapshot_bases _ _ _ _ Hs) as Hb. destruct dirty.
  - exists (live (messages mb')). split; [done|].
    assert (Hlive : ∀ b u, live (messages mb') !! b = Some u → uids' !! b = Some u).
    { intros b u (m&Hm&<-&<-)%live_spec; [|by rewrite Hb]. by apply (sn_uid _ _ _ _ Hs). }
    destruct (as_ok _ _ _ _ _ _ _ Ha) as [Ho1 Ho2 Ho3]. split; [split; eauto|].
    intros m Hm. apply live_spec; [by rewrite Hb|by exists m].
  - destruct (as_clean _ _ _ _ _ _ _ Ha eq_refl) as (Hu&Hn&_). unfold base_state in Hu, Hn.
    destruct (stored w (mb_dir mb)) as [[[uids v] n]|] eqn:Es; simpl in Hu, Hn; subst uids'.
    + exists uids. rewrite (Hv _ _ _ eq_refl), Hn. split_and!; [done| |apply Hs].
      rewrite <- Hn. apply Ha.
    + exfalso. destruct (messages mb') as [|m ms] eqn:Em; [done|].
      by pose proof (sn_uid _ _ _ _ Hs m (list_elem_of_here _ _)).
Qed.

(** C9: a refresh shows every message of the folder once, in strictly
    ascending order of UID with sequence numbers 1, 2, ...; a message the
    UID list knows keeps its UID, a new one gets one that was never given
    before; the validity of a stored list is kept and the list on disk
    knows every message shown.  No call of the file system may fail, and
    the folder is well-formed ([good]): its directories are there, no two
    files have one base name, and there is room for the new UIDs. *)
Theorem Refresh_spec `{SliceSort} env mb w : reliable env → good w (mb_dir mb) →
  ∃ mb' w', Refresh env mb w = (Ok (mb', None), w') ∧
    (λ m, (Dir m, Name m)) <$> messages mb' ≡ₚ (λ e, (e_sub e, e_name e)) <$> found_in w (mb_dir mb) ∧
    StronglySorted (λ a b, UID a < UID b) (messages mb') ∧
    (∀ i m, messages mb' !! i = Some m → Seq m = Z.of_nat i + 1) ∧
    (∀ m, m ∈ messages mb' → 0 <= UID m < uidNext mb' ∧
       match (base_state w (mb_dir mb)).1 !! BaseName (Name m) with
       | Some u => UID m = u
       | None => (base_state w (mb_dir mb)).2 <= UID m
       end) ∧
    (∀ uids v n, stored w (mb_dir mb) = Some (uids, v, n) → uidValidity mb' = v ∧ n <= uidNext mb') ∧
    (messages mb' ≠ [] → ∃ uids', stored w' (mb_dir mb) = Some (uids', uidValidity mb', uidNext mb') ∧
       ∀ m, m ∈ messages mb' → uids' !! BaseName (Name m) = Some (UID m)) ∧
    (∀ p, p ≠ list_path (mb_dir mb) → p ≠ list_tmp (mb_dir mb) → w_files w' !! p = w_files w !! p).
Proof.
  intros Hr Hg. destruct (Refresh_run env Hr mb w Hg) as (mb'&w'&uids'&dirty&E&Hrf).
  pose proof Hrf as [_ _ _ _ Hs Ha Hv Hf _]. exists mb', w'. split; [exact E|]. pose proof (snapshot_bases _ _ _ _ Hs) as Hb. split_and!.
  - transitivity ((λ m, (Dir m, Name m)) <$> (anon <$> messages mb')); [by rewrite <- list_fmap_compose|].
    rewrite (sn_perm _ _ _ _ Hs), <- list_fmap_compose. done.
  - apply Hs.
  - apply Hs.
  - intros m Hm. pose proof (sn_uid _ _ _ _ Hs m Hm) as Hu. split; [by apply (uo_range _ _ (as_ok _ _ _ _ _ _ _ Ha) _ _ Hu)|].
    destruct ((base_state _ _).1 !! _) as [u|] eqn:Eu; [|by apply (as_new _ _ _ _ _ _ _ Ha _ _ Hu)].
    eapply lookup_weaken in Eu; [|apply Ha]. congruence.
  - intros uids v n Es. split; [by eapply Hv|]. pose proof (as_next _ _ _ _ _ _ _ Ha) as Hn.
    unfold base_state in Hn. rewrite Es in Hn. simpl in Hn. lia.
  - intros Hne. destruct (refreshed_list w mb mb' w' uids' dirty (g_nodup _ _ Hg) Hrf Hne) as (uids1&?&_&?).
    by exists uids1.
  - exact Hf.
Qed.

(** C19: UIDs survive the process: a folder that shows some message, opened
    again with another clock, process and host name, shows the same
    messages under the same UIDs, the same validity and the same next UID.
    No call of the file system may fail at either opening, the folder is a
    well-formed one ([good]: distinct base names, room for UIDs), and 32
    bits are enough for the next UIDs.  An empty folder without a list has
    nothing to remember its validity by ([empty_folder_validity]). *)
Theorem reopen_same `{SliceSort} env env' mb mb' mb2 w w1 : reliable env → reliable env' →
  good w (mb_dir mb) → Refresh env mb w = (Ok (mb', None), w1) →
  messages mb' ≠ [] → uidNext mb' + llen (messages mb') < 2 ^ 32 → mb_dir mb2 = mb_dir mb →
  ∃ mb3 w2, Refresh env' mb2 w1 = (Ok (mb3, None), w2) ∧ messages mb3 = messages mb' ∧
    uidValidity mb3 = uidValidity mb' ∧ uidNext mb3 = uidNext mb'.
Proof.
  intros Hr Hr' Hg E Hne Hroom Hdir.
  destruct (Refresh_run env Hr mb w Hg) as (mb0&w0&uids'&dirty&E0&Hrf).
  rewrite E in E0. simplify_eq. rename mb0 into mb', w0 into w1.
  pose proof Hrf as [_ _ Hd Hh Hs Ha Hv Hf _].
  set (dir := mb_dir mb) in *. pose proof (found_in_perm w w1 dir Hd Hf) as Hp.
  assert (Hlen : llen (messages mb') = llen (found_in w dir)).
  { unfold llen. rewrite <- (length_fmap (λ m, BaseName (Name m))).
    by rewrite (snapshot_bases _ _ _ _ Hs), length_fmap. }
  destruct (refreshed_list w mb mb' w1 uids' dirty (g_nodup _ _ Hg) Hrf Hne) as (uids1&Hst1&Hok1&Hag).
  change (mb_dir mb) with dir in Hst1.
  assert (Hknown : ∀ e, e ∈ found_in w dir → uids1 !! base_of e = uids' !! base_of e ∧ is_Some (uids1 !! base_of e)).
  { pose proof (snapshot_bases _ _ _ _ Hs) as Hb. intros e He.
    assert (Hin : base_of e ∈ (λ m, BaseName (Name m)) <$> messages mb')
      by (rewrite Hb; by apply list_elem_of_fmap_2).
    apply list_elem_of_fmap in Hin as (m&->&Hm). rewrite (Hag m Hm), (sn_uid _ _ _ _ Hs m Hm). by split. }
  assert (Hg1 : good w1 (mb_dir mb2)).
  { rewrite Hdir. fold dir. destruct Hg as [(?&?&?&?) ? ? Hnd Hc _ _]. split; try (unfold layout; by rewrite Hd).
    - by rewrite Hp.
    - by rewrite Hp.
    - unfold base_state. by rewrite Hst1.
    - unfold base_state. rewrite Hst1. simpl. unfold llen at 1. rewrite Hp. fold (llen (found_in w dir)). lia. }
  destruct (Refresh_run env' Hr' mb2 w1 Hg1) as (mb3&w2&uids3&dirty3&E3&[_ _ _ _ Hs3 Ha3 Hv3 _ _]).
  rewrite Hdir in *. fold dir in Hs3, Ha3, Hv3. unfold base_state in Ha3. rewrite Hst1 in Ha3. simpl in Ha3.
  destruct (as_known _ _ _ _ _ _ _ Ha3) as (Hu3&Hn3&_); [intros e He; apply Hknown; by rewrite <- Hp|].
  exists mb3, w2. split_and!; [exact E3| |by eapply Hv3|exact Hn3].
  symmetry. eapply (snapshot_unique _ _ _ _ _ _ _ _ Hs Hs3 Hp). intros e He. subst uids3.
  unfold message_of, uid_of. change (BaseName (e_name e)) with (base_of e).
  by rewrite (proj1 (Hknown e He)).
Qed.

(** ** Expunge *)

Lemma expunge_loop_spec env mb ms w :
  let '(r, w') := expunge_loop env mb ms w in
  (∀ p, p ∉ msg_path mb <$> filter (λ m, deleted m = true) ms → w_files w' !! p = w_files w !! p) ∧
  match r with
  | Ok (seqs, kept) =>
      seqs = Seq <$> filter (λ m, deleted m = true) ms ∧
      kept = filter (λ m, deleted m = false) ms ∧
      ∀ p, p ∈ msg_path mb <$> filter (λ m, deleted m = true) ms → w_files w' !! p = None
  | Err _ => True
  end.
Proof.
  revert w. induction ms as [|m ms IH]; intros w; cbn [expunge_loop].
  { simpl. split_and!; try done. by intros p ?%elem_of_nil. }
  rewrite !filter_cons. destruct (deleted m) eqn:Hd; simpl.
  - unfold mbind, OS_bind, os_try. destruct (Remove env (msg_path mb m) w) as [r1 w1] eqn:E1.
    assert (Hother : ∀ p, p ≠ msg_path mb m → w_files w1 !! p = w_files w !! p).
    { intros p Hp. apply Remove_files in E1. destruct r1; rewrite E1; [by rewrite lookup_delete_ne|done]. }
    assert (Hgone : (∀ s, r1 ≠ Err (EMsg s)) → w_files w1 !! msg_path mb m = None).
    { intros Hs. destruct r1 as [[]|[|s]]; [|by apply Remove_absent in E1|by destruct (Hs s)].
      apply Remove_files in E1. rewrite E1. apply lookup_delete_eq. }
    specialize (IH w1). destruct r1 as [[]|[|s]]; [| |by split; [intros p [? ?]%not_elem_of_cons; auto|]];
      specialize (Hgone ltac:(done)); simpl; destruct (expunge_loop env mb ms w1) as [[[seqs kept]|e] w2];
      simpl; destruct IH as [IH1 IH2].
    1, 3: destruct IH2 as (->&->&IH4); split_and!; [|done|done|].
    all: try (intros p [? ?]%not_elem_of_cons; rewrite IH1; auto).
    all: try (intros p [->|Hp]%elem_of_cons; [|auto];
      destruct (decide (msg_path mb m ∈ msg_path mb <$> filter (λ m, deleted m = true) ms)); [auto|];
      rewrite IH1; auto).
    all: split; [|done]; intros p [? ?]%not_elem_of_cons; rewrite IH1; auto.
  - unfold mbind, OS_bind. specialize (IH w). destruct (expunge_loop env mb ms w) as [[[seqs kept]|e] w2]; cbn beta iota in IH.
    + destruct IH as (?&?&?&?). simpl. split_and!; try done. congruence.
    + done.
Qed.

(** The positions of the deleted messages, in ascending order. *)
Fixpoint deleted_at (i : nat) (ms : list Message) : list nat :=
  match ms with
  | [] => []
  | m :: ms => (if deleted m then [i] else []) ++ deleted_at (S i) ms
  end.

Lemma deleted_at_S i ms : deleted_at (S i) ms = S <$> deleted_at i ms.
Proof.
  revert i. induction ms as [|m ms IH]; intros i; simpl; [done|].
  rewrite IH, fmap_app. by destruct (deleted m).
Qed.

Lemma delete_deleted ms :
  foldr (λ i l, delete i l) ms (deleted_at 0 ms) = filter (λ m, deleted m = false) ms.
Proof.
  induction ms as [|m ms IH]; [done|]. cbn [deleted_at]. rewrite deleted_at_S, filter_cons.
  assert (Hc : ∀ D, foldr (λ i l, delete i l) (m :: ms) (S <$> D) = m :: foldr (λ i l, delete i l) ms D).
  { intros D. induction D as [|i D IHD]; [done|]. rewrite fmap_cons. cbn [foldr]. by rewrite IHD. }
  destruct (deleted m); cbn [app foldr]; rewrite Hc, IH; by case_decide.
Qed.

Lemma deleted_at_Seq ms k : (∀ i m, ms !! i = Some m → Seq m = Z.of_nat (k + i) + 1) →
  (λ i, Z.of_nat i + 1) <$> deleted_at k ms = Seq <$> filter (λ m, deleted m = true) ms.
Proof.
  revert k. induction ms as [|m ms IH]; intros k Hs; [done|]. cbn [deleted_at].
  rewrite fmap_app, filter_cons, IH.
  - pose proof (Hs 0%nat m eq_refl) as Hm. rewrite Nat.add_0_r in Hm.
    destruct (deleted m); simpl; [by rewrite Hm|done].
  - intros i m' Hi. specialize (Hs (S i) m' Hi). rewrite Hs. lia.
Qed.

Lemma deleted_at_sorted k ms : StronglySorted (λ i j, (i < j)%nat) (deleted_at k ms) ∧
  Forall (λ i, (k <= i)%nat) (deleted_at k ms).
Proof.
  revert k. induction ms as [|m ms IH]; intros k; [by split; constructor|]. cbn [deleted_at].
  destruct (IH (S k)) as [H1 H2]. destruct (deleted m); simpl.
  - split; [constructor; [done|]|constructor; [lia|]]; (eapply Forall_impl; [exact H2|]); cbn; lia.
  - split; [done|]. eapply Forall_impl; [exact H2|]. cbn. lia.
Qed.

(** The numbers come out highest first. *)
Lemma expunged_desc `{SliceSort} ms :
  let A := (λ i, Z.of_nat i + 1) <$> deleted_at 0 ms in
  sort_slice (less_by Z.opp) A = rev A.
Proof.
  intros A. apply (StronglySorted_unique_strong (λ x y, - x <= - y)).
  - intros x y _ _ ? ?. lia.
  - apply (sort_by_sorted Z.opp).
  - assert (StronglySorted Z.le A) as Hs.
    { apply (StronglySorted_fmap (λ i, Z.of_nat i + 1) Z.le). pose proof (proj1 (deleted_at_sorted 0 ms)) as Hs.
      clear A. induction Hs as [|i D Hs IH Hi]; constructor; [done|]. eapply Forall_impl; [exact Hi|]. cbn. lia. }
    apply StronglySorted_rev in Hs. clear -Hs. induction Hs as [|i D Hs IH Hi]; constructor; [done|].
    eapply Forall_impl; [exact Hi|]. cbn. lia.
  - rewrite sort_slice_perm. by rewrite <- Permutation_rev.
Qed.

Lemma expunged_replay ms :
  foldl (λ l s, delete (Z.to_nat (s - 1)) l) ms (rev ((λ i, Z.of_nat i + 1) <$> deleted_at 0 ms)) =
  filter (λ m, deleted m = false) ms.
Proof.
  rewrite <- delete_deleted. generalize (deleted_at 0 ms). intros D. induction D as [|i D IH]; [done|].
  rewrite fmap_cons. cbn [rev foldr]. rewrite foldl_snoc, IH. f_equal. lia.
Qed.

(** expunging removes exactly the messages flagged deleted, in the
    store and in the snapshot, and the sequence numbers it returns mean
    what a client makes of them: removing those positions one after the
    other, in the order given, turns the old list into the new one. *)
Theorem Expunge_spec `{SliceSort} env mb w :
  (∀ i m, messages mb !! i = Some m → Seq m = Z.of_nat i + 1) → llen (messages mb) < 2 ^ 32 →
  let gone := filter (λ m, deleted m = true) (messages mb) in
  ∃ mb' r w', Expunge env mb w = (Ok (mb', r), w') ∧
  (∀ p, p ∉ msg_path mb <$> gone → w_files w' !! p = w_files w !! p) ∧
  match r with
  | Ok seqs =>
      anon <$> foldl (λ l s, delete (Z.to_nat (s - 1)) l) (messages mb) seqs = anon <$> messages mb' ∧
      anon <$> messages mb' = anon <$> filter (λ m, deleted m = false) (messages mb) ∧
      (∀ i m, messages mb' !! i = Some m → Seq m = Z.of_nat i + 1) ∧
      (∀ p, p ∈ msg_path mb <$> gone → w_files w' !! p = None)
  | Err _ => mb' = mb
  end.
Proof.
  intros Hseq Hlen gone. unfold Expunge, mbind, OS_bind, os_try.
  pose proof (expunge_loop_spec env mb (messages mb) w) as Hl. fold gone in Hl.
  destruct (expunge_loop env mb (messages mb) w) as [[[seqs kept]|e] w1].
  2:{ exists mb, (Err e), w1. by destruct Hl. }
  destruct Hl as (Hf&Hs&Hk&Hgone).
  assert (Hd : seqs = (λ i, Z.of_nat i + 1) <$> deleted_at 0 (messages mb))
    by (rewrite Hs; symmetry; by apply deleted_at_Seq).
  destruct seqs as [|s0 seqs'] eqn:Eq.
  - exists mb, (Ok []), w1. rewrite <- (expunged_replay (messages mb)), <- Hd. by split_and!.
  - eexists _, _, w1. split; [reflexivity|]. split; [done|]. simpl messages. rewrite <- Eq in *.
    rewrite Hd, expunged_desc, expunged_replay, <- Hk, renumber_fmap by done. split_and!; try done.
    intros i m Hi. apply renumber_Seq in Hi; [lia|lia|]. rewrite Hk. unfold llen in *.
    pose proof (length_filter (λ m, deleted m = false) (messages mb)). lia.
Qed.

Definition sample_message (uid seq : Z) (name : string) (f : Flags) : Message :=
  MkMessage uid seq name "cur" f false 5 0.

Definition sample_mailbox : Mailbox :=
  MkMailbox ["bob"] "INBOX"
    [sample_message 3 1 "a:2,T" [FlagDeleted]; sample_message 5 2 "b:2,S" [FlagSeen];
     sample_message 9 3 "c:2,ST" [FlagSeen; FlagDeleted]] 7 10.

Lemma Expunge_spec_witness :
  ∃ mb' w', Expunge calm sample_mailbox empty_world = (Ok (mb', Ok [3; 1]), w') ∧
    (λ m, (UID m, Seq m)) <$> messages mb' = [(5, 1)] ∧
    anon <$> foldl (λ l s, delete (Z.to_nat (s - 1)) l) (messages sample_mailbox) [3; 1] = anon <$> messages mb'.
Proof.
  destruct (Expunge_spec calm sample_mailbox empty_world) as (mb'&r&w'&E&_&Hr).
  - intros [|[|[|i]]] m [=<-]; reflexivity.
  - reflexivity.
  - revert Hr. vm_compute in E. injection E as <- <- <-. intros (H1&_). do 2 eexists.
    split; [vm_compute; reflexivity|]. split; [reflexivity|exact H1].
Defined.

(** A mailbox with one new message and no UID list yet. *)
Definition mail_world : World := (Deliver calm ["bob"] "hello" empty_world).2.
Definition inbox : Mailbox := MkMailbox ["bob"] "INBOX" [] 0 0.

Lemma mail_world_found :
  found_in mail_world ["bob"] = [MkEntry "0.M0P1Q1R7.mx" "new" 5 62135596800000000008].
Proof. vm_compute. reflexivity. Qed.

Lemma uids_ok_empty : uids_ok ∅ 1.
Proof. split; [intros b u H|intros b b' u H|lia]; by rewrite lookup_empty in H. Qed.

Lemma mail_world_good : good mail_world (mb_dir inbox).
Proof.
  change (mb_dir inbox) with ["bob"].
  assert (Hb : base_state mail_world ["bob"] = (∅, 1)) by (vm_compute; reflexivity).
  split; rewrite ?mail_world_found, ?Hb.
  - apply (bool_decide_unpack _). vm_compute. exact I.
  - apply (bool_decide_unpack _). vm_compute. exact I.
  - apply (bool_decide_unpack _). vm_compute. exact I.
  - apply NoDup_singleton.
  - repeat constructor.
  - apply uids_ok_empty.
  - vm_compute. reflexivity.
Qed.

Lemma Refresh_spec_witness :
  ∃ mb' w', Refresh calm inbox mail_world = (Ok (mb', None), w') ∧
    StronglySorted (λ a b, UID a < UID b) (messages mb') ∧
    (λ m, (Dir m, Name m)) <$> messages mb' ≡ₚ [("new", "0.M0P1Q1R7.mx")].
Proof.
  destruct (Refresh_spec calm inbox mail_world calm_reliable mail_world_good) as (mb'&w'&E&Hp&Hs&_).
  exists mb', w'. split; [exact E|]. split; [exact Hs|].
  change (mb_dir inbox) with ["bob"] in Hp. rewrite mail_world_found in Hp. exact Hp.
Defined.

Definition later : Env := MkEnv (λ _, false) (λ _, O) (λ t, 62135596899000000000 + Z.of_nat t) (λ _, 9) 2 "other".

Lemma reopen_same_witness :
  ∃ mb' w1 mb3 w2, Refresh calm inbox mail_world = (Ok (mb', None), w1) ∧
    Refresh later inbox w1 = (Ok (mb3, None), w2) ∧ messages mb3 = messages mb' ∧
    uidValidity mb3 = uidValidity mb'.
Proof.
  destruct (Refresh calm inbox mail_world) as [r w1] eqn:E.
  assert (Hr : ∃ mb', r = Ok (mb', None) ∧ llen (messages mb') = 1 ∧ uidNext mb' = 2).
  { revert E. vm_compute. intros [= <- _]. by eexists. }
  destruct Hr as (mb'&->&Hl&Hn).
  destruct (reopen_same calm later inbox mb' inbox mail_world w1) as (mb3&w2&E2&Hm&Hv&_);
    [exact calm_reliable|exact (λ _, eq_refl)|exact mail_world_good|exact E| |clear E; lia|exact eq_refl|].
  - intros Hn0. by rewrite Hn0 in Hl.
  - exists mb', w1, mb3, w2. exact (conj eq_refl (conj E2 (conj Hm Hv))).
Defined.

(** A folder that never showed a message gets another validity each time
    it is opened: the list is only written when a UID is given out. *)
Definition empty_mail : World := MkWorld ∅ {[ []; ["bob"]; ["bob"; "cur"]; ["bob"; "new"]; ["bob"; "tmp"] ]} 0 0 None.

Example empty_folder_validity :
  match Refresh calm inbox empty_mail with
  | (Ok (mb1, None), w1) =>
      match Refresh later inbox w1 with
      | (Ok (mb2, None), w2) => messages mb1 = [] ∧ uidValidity mb1 ≠ uidValidity mb2 ∧ w_files w2 = w_files empty_mail
      | _ => False
      end
  | _ => False
  end.
Proof. vm_compute. split; [reflexivity|]. split; [discriminate|reflexivity]. Qed.

(** ** Flags of a message *)

(** setting the flags of a message renames its file and changes
    nothing else: every other file and message stays, the message keeps
    its UID and the base name the UID list knows it by, and it is no
    longer recent; a failure changes nothing. *)
Theorem SetFlags_spec env mb i f m w : messages mb !! i = Some m →
  let base := BaseName (Name m) in
  let target := path_join (path_join (mb_dir mb) "cur") (FileName base f) in
  ∃ mb' err w', SetFlags env mb i f w = (Ok (mb', err), w') ∧
  match err with
  | Some _ => mb' = mb ∧ w_files w' = w_files w
  | None =>
      (∀ p, p ≠ msg_path mb m → p ≠ target → w_files w' !! p = w_files w !! p) ∧
      (target ≠ msg_path mb m → w_files w' !! target = w_files w !! msg_path mb m ∧
                                w_files w' !! msg_path mb m = None) ∧
      (∀ j, j ≠ i → messages mb' !! j = messages mb !! j) ∧
      ∃ m', messages mb' !! i = Some m' ∧ UID m' = UID m ∧ Seq m' = Seq m ∧ m_Flags m' = f ∧
            m_Recent m' = false ∧ BaseName (Name m') = base ∧ msg_path mb' m' = target
  end.
Proof.
  intros Hm base target. unfold SetFlags. rewrite Hm. fold base. fold target.
  unfold mbind, OS_bind, os_try.
  assert (Hi : (i < length (messages mb))%nat) by (by apply lookup_lt_Some in Hm).
  case_bool_decide as Heq.
  - do 3 eexists. split; [reflexivity|]. cbn [messages]. split_and!; [done|congruence| |].
    + intros j Hj. by rewrite list_lookup_insert_ne.
    + eexists. split; [by rewrite list_lookup_insert_eq|]. split_and!; try done. apply BaseName_FileName.
  - destruct (Rename env (msg_path mb m) target w) as [[[]|e] w'] eqn:E; apply Rename_files in E.
    2:{ by do 3 eexists. }
    destruct E as (fl&Hold&Hf). do 3 eexists. split; [reflexivity|]. cbn [messages].
    rewrite Hf. split_and!.
    + intros p Hp1 Hp2. by rewrite lookup_insert_ne, lookup_delete_ne.
    + intros Hne. rewrite lookup_insert_eq, Hold. split; [done|].
      by rewrite lookup_insert_ne, lookup_delete_eq.
    + intros j Hj. by rewrite list_lookup_insert_ne.
    + eexists. split; [by rewrite list_lookup_insert_eq|]. split_and!; try done. apply BaseName_FileName.
Qed.

Lemma SetFlags_spec_witness :
  ∃ mb' err w', SetFlags calm (MkMailbox ["bob"] "INBOX"
      [MkMessage 1 1 "0.M0P1Q1R7.mx" "new" [] true 5 0] 7 2) 0 [FlagSeen] mail_world = (Ok (mb', err), w') ∧
    err = None ∧ w_files w' !! ["bob"; "cur"; "0.M0P1Q1R7.mx:2,S"] ≠ None.
Proof.
  destruct (SetFlags_spec calm (MkMailbox ["bob"] "INBOX"
      [MkMessage 1 1 "0.M0P1Q1R7.mx" "new" [] true 5 0] 7 2) 0 [FlagSeen]
      (MkMessage 1 1 "0.M0P1Q1R7.mx" "new" [] true 5 0) mail_world eq_refl) as (mb'&err&w'&E&Hr).
  exists mb', err, w'. split; [exact E|]. vm_compute in E. injection E as <- <- <-.
  split; [reflexivity|]. vm_compute. discriminate.
Defined.

(** ** What no operation does: fail without an answer, or leave its root *)

Lemma SetFlags_total `{SliceSort} env mb i f w : ∃ x w', SetFlags env mb i f w = (Ok x, w').
Proof.
  unfold SetFlags, mbind, OS_bind, os_try. destruct (messages mb !! i); [|by do 2 eexists].
  case_bool_decide; [by do 2 eexists|]. destruct (Rename _ _ _ _) as [[|] ?]; by do 2 eexists.
Qed.

Lemma Expunge_total `{SliceSort} env mb w : ∃ x w', Expunge env mb w = (Ok x, w').
Proof.
  unfold Expunge, mbind, OS_bind, os_try. destruct (expunge_loop _ _ _ _) as [[[[|] ?]|] ?]; by do 2 eexists.
Qed.

Lemma Refresh_total `{SliceSort} env mb w : ∃ x w', Refresh env mb w = (Ok x, w').
Proof.
  unfold Refresh, mbind, OS_bind, os_try.
  destruct (readUIDList _ _ _) as [[[[uids v] n]|e1] w1]; [|by do 2 eexists].
  destruct (scan_subs _ _ _ _) as [[found|e1] w2]; [|by do 2 eexists].
  destruct (snapshot _ _ _) as [[ms n'] []]; [|by do 2 eexists].
  destruct (writeUIDList _ _ _ _ _ _) as [[[]|e1] w3]; by do 2 eexists.
Qed.

(** A mailbox is that of the root it was opened with. *)
Lemma Refresh_root `{SliceSort} env mb w mb' e w' : Refresh env mb w = (Ok (mb', e), w') → root mb' = root mb.
Proof.
  unfold Refresh, mbind, OS_bind, os_try.
  destruct (readUIDList _ _ _) as [[[[uids v] n]|e1] w1]; [|by intros [= <- _ _]].
  destruct (scan_subs _ _ _ _) as [[found|e1] w2]; [|by intros [= <- _ _]].
  destruct (snapshot _ _ _) as [[ms n'] []]; [|by intros [= <- _ _]].
  destruct (writeUIDList _ _ _ _ _ _) as [[[]|e1] w3]; by intros [= <- _ _].
Qed.

Lemma OpenMailbox_root `{SliceSort} env rt fld w mb w' : OpenMailbox env rt fld w = (Ok mb, w') → root mb = rt.
Proof.
  unfold OpenMailbox. intros (?&w1&_&(x&w2&Hr&Hx)%os_bind_ok)%os_bind_ok.
  destruct x as [mb1 [e|]]; [done|]. injection Hx as <- <-. by apply Refresh_root in Hr.
Qed.

Lemma SetFlags_root env mb i f w mb' e w' : SetFlags env mb i f w = (Ok (mb', e), w') → root mb' = root mb.
Proof.
  unfold SetFlags, mbind, OS_bind, os_try. destruct (messages mb !! i); [|by intros [= <- _ _]].
  case_bool_decide; [by intros [= <- _ _]|]. destruct (Rename _ _ _ _) as [[[]|e1] w1]; by intros [= <- _ _].
Qed.

Lemma Expunge_root `{SliceSort} env mb w mb' r w' : Expunge env mb w = (Ok (mb', r), w') → root mb' = root mb.
Proof.
  unfold Expunge, mbind, OS_bind, os_try.
  destruct (expunge_loop _ _ _ _) as [[[[|] ?]|] ?]; by intros [= <- _ _].
Qed.

(** What setting flags does to the snapshot. *)
Lemma SetFlags_messages `{SliceSort} env mb i f m w mb' e w' : messages mb !! i = Some m →
  SetFlags env mb i f w = (Ok (mb', e), w') →
  match e with
  | Some _ => mb' = mb
  | None => ∃ m', messages mb' = <[i := m']> (messages mb) ∧ UID m' = UID m ∧ Seq m' = Seq m ∧ m_Flags m' = f
  end.
Proof.
  intros Hm. unfold SetFlags, mbind, OS_bind, os_try. rewrite Hm.
  case_bool_decide; [intros [= <- <- _]; by eexists|].
  destruct (Rename _ _ _ _) as [[[]|e1] w1]; intros [= <- <- _]; [by eexists|done].
Qed.

(** What expunging does to the snapshot. *)
Lemma Expunge_messages `{SliceSort} env mb w mb' r w' : Expunge env mb w = (Ok (mb', r), w') →
  match r with
  | Err _ => mb' = mb
  | Ok _ => UID <$> messages mb' = UID <$> filter (λ m, deleted m = false) (messages mb)
  end.
Proof.
  unfold Expunge, mbind, OS_bind, os_try. pose proof (expunge_loop_spec env mb (messages mb) w) as Hl.
  destruct (expunge_loop env mb (messages mb) w) as [[[seqs kept]|e] w1]; [|by intros [= <- <- _]].
  destruct Hl as (_&Hs&Hk&_). destruct seqs as [|n seqs]; intros [= <- <- _].
  - symmetry in Hs. apply fmap_nil_inv in Hs. f_equal. symmetry. apply filter_all. intros m Hm.
    destruct (deleted m) eqn:E; [|done]. exfalso.
    assert (Hin : m ∈ filter (λ m, deleted m = true) (messages mb)) by (by apply list_elem_of_filter).
    rewrite Hs in Hin. by apply elem_of_nil in Hin.
  - simpl messages. by rewrite renumber_fmap, <- Hk by done.
Qed.

(** ** Folders *)

(** a folder whose name is one path component has a directory of its
    own directly below that of the account, so that deleting it leaves
    every file outside that directory in place. *)
Theorem folder_confined env rt fld w : avoids "/"%char fld = true → fld ≠ "" → fld ≠ "." →
  EqualFold fld Inbox = false →
  folderDir rt fld = rt ++ ["." +:+ fld] ∧
  ∀ p, below (rt ++ ["." +:+ fld]) p = false →
    w_files (DeleteFolder env rt fld w).2 !! p = w_files w !! p.
Proof.
  intros Ha He Hd Hi. assert (Hdir : folderDir rt fld = rt ++ ["." +:+ fld]).
  { unfold folderDir. rewrite Hi. destruct (is_empty fld) eqn:E; [by destruct fld|]. simpl.
    apply path_join_name; [by apply avoids_cons|done|congruence|congruence]. }
  split; [done|]. intros p Hp. unfold DeleteFolder. rewrite Hi, Hdir.
  unfold mbind, OS_bind, os_try, Stat, fallible.
  destruct (e_fail env (w_tick w)); simpl; [done|].
  destruct (_ || _)%bool; simpl; [|done]. unfold RemoveAll, fallible. simpl.
  destruct (e_fail env _); simpl; [done|]. rewrite map_lookup_filter.
  destruct (w_files w !! p); simpl; [|done]. by rewrite option_guard_True.
Qed.

Lemma folder_confined_witness :
  folderDir ["mail"; "bob"] "Trash" = ["mail"; "bob"; ".Trash"].
Proof. apply (folder_confined calm ["mail"; "bob"] "Trash" empty_world); done. Defined.

(** a folder name with separators is not confined: a session of one
    account reaches the mailbox of any other one next to it, and can
    delete it. *)
Theorem folder_escape env dir user victim w : avoids "/"%char victim = true →
  victim ≠ "" → victim ≠ "." → victim ≠ ".." →
  folderDir (dir ++ [user]) ("x/../../" +:+ victim) = dir ++ [victim] ∧
  (reliable env → dir ++ [victim] ∈ w_dirs w →
   ∀ p, below (dir ++ [victim]) p = true →
     w_files (DeleteFolder env (dir ++ [user]) ("x/../../" +:+ victim) w).2 !! p = None).
Proof.
  intros Ha He Hd Hdd.
  assert (Hdir : folderDir (dir ++ [user]) ("x/../../" +:+ victim) = dir ++ [victim]).
  { unfold folderDir. change (is_empty _ || EqualFold _ _)%bool with false. cbv iota. unfold path_join.
    assert (Hs : "." +:+ "x/../../" +:+ victim =
                 ".x" +:+ String "/" (".." +:+ String "/" (".." +:+ String "/" victim))) by reflexivity.
    rewrite Hs.
    rewrite !Split_app by done. rewrite Split_avoids by done. cbn [app foldl].
    unfold join_component at 1. rewrite !(proj2 (String.eqb_neq _ _)) by done. simpl.
    change (join_component (dir ++ [user]) ".x") with ((dir ++ [user]) ++ [".x"]).
    change (join_component ((dir ++ [user]) ++ [".x"]) "..") with (parent ((dir ++ [user]) ++ [".x"])).
    rewrite parent_snoc. change (join_component (dir ++ [user]) "..") with (parent (dir ++ [user])).
    by rewrite parent_snoc. }
  split; [exact Hdir|]. intros Hr Hin p Hp. unfold DeleteFolder. rewrite Hdir.
  assert (Hf : EqualFold ("x/../../" +:+ victim) Inbox = false) by reflexivity.
  rewrite Hf. unfold mbind, OS_bind, os_try. rewrite Stat_reliable by done.
  unfold is_dir. rewrite bool_decide_true by done. simpl. unfold RemoveAll.
  rewrite fallible_reliable by done. simpl. apply map_lookup_filter_None_2. right.
  intros f _. simpl. congruence.
Qed.

Lemma folder_escape_witness :
  folderDir ["mail"; "bob"] "x/../../carol" = ["mail"; "carol"].
Proof. apply (folder_escape calm ["mail"] "bob" "carol" empty_world); done. Defined.

(** [Append] answers with the message of the highest UID, which need not
    be the one it stored: a message delivered since the snapshot whose
    date is later than the date given is taken for it. *)
Example Append_other_message :
  let m := (Append calm inbox "appended!" [] 100 mail_world).1 in
  match m with Ok (_, Ok m) => m_Size m = slen "hello" | _ => False end.
Proof. vm_compute. reflexivity. Qed.
