(* ===== verification/MailFiles.v ===== *)
(** * The files of a mailbox

    Where the messages of a snapshot are, when they are files of their own,
    and what becomes of that when flags change: the tidy mailboxes the
    theorems on POP3's [QUIT] and IMAP's [STORE] start from. *)

From S2P Require Import Prelude GoStrings Fs Maildir Mailbox.

(** The base name of the file at a path, which stays the same while the
    flags of the message change. *)
Definition pbase (p : path) : string := BaseName (path_base p).

Definition proper (name : string) : Prop := avoids "/"%char name = true ∧ name ≠ "" ∧ name ≠ "." ∧ name ≠ "..".

(** A message once its flags were set. *)
Definition with_flags (m : Message) (f : Flags) : Message :=
  MkMessage (UID m) (Seq m) (FileName (BaseName (Name m)) f) "cur" f false (m_Size m) (Internal m).

(** A mailbox whose messages are files of their own. *)
Record tidy (mb : Mailbox) : Prop := {
  td_names : Forall (λ m, proper (Name m)) (messages mb);
  td_dirs : Forall (λ m, Dir m = "new" ∨ Dir m = "cur") (messages mb);
  td_bases : NoDup ((λ m, BaseName (Name m)) <$> messages mb);
}.

Lemma proper_join p name : proper name → path_join p name = p ++ [name].
Proof. intros (?&?&?&?). by apply path_join_name. Qed.

Lemma BaseName_prefix name : ∃ rest, name = BaseName name +:+ rest.
Proof.
  induction name as [|c s [rest IH]]; [by exists ""|]. rewrite BaseName_cons.
  destruct (HasPrefix (String c s) infoSep); [by eexists|]. exists rest. by rewrite sapp_cons, <- IH.
Qed.

Lemma flags_avoid_slash f : avoids "/"%char (flags_String f) = true.
Proof. induction f as [|x f IH]; [done|]. cbn [flags_String]. apply avoids_cons. split; [by destruct x|done]. Qed.

Lemma proper_FileName name f : avoids "/"%char name = true → proper (FileName (BaseName name) f).
Proof.
  intros Ha. assert (Hb : avoids "/"%char (BaseName name) = true).
  { destruct (BaseName_prefix name) as [rest E]. rewrite E in Ha. apply avoids_app in Ha. tauto. }
  unfold FileName. split.
  - apply avoids_app. split; [done|]. apply avoids_app. split; [done|apply flags_avoid_slash].
  - assert (Hl : (3 <= String.length (BaseName name +:+ infoSep +:+ flags_String f))%nat)
      by (rewrite !slength_app; cbn; lia).
    split_and!; intros E; rewrite E in Hl; cbn in Hl; lia.
Qed.

Lemma msg_path_proper mb m : proper (Name m) → Dir m = "new" ∨ Dir m = "cur" →
  msg_path mb m = mb_dir mb ++ [Dir m; Name m].
Proof.
  intros Hn Hd. unfold msg_path. rewrite (proper_join (mb_dir mb)), proper_join by (done || by destruct Hd as [-> | ->]).
  by rewrite <- app_assoc.
Qed.

Lemma pbase_msg_path mb m : proper (Name m) → Dir m = "new" ∨ Dir m = "cur" →
  pbase (msg_path mb m) = BaseName (Name m).
Proof.
  intros Hn Hd. rewrite msg_path_proper by done. unfold pbase.
  replace (mb_dir mb ++ [Dir m; Name m]) with ((mb_dir mb ++ [Dir m]) ++ [Name m]) by (by rewrite <- app_assoc).
  by rewrite path_base_snoc.
Qed.

Lemma Rename_dirs env p q w : w_dirs (Rename env p q w).2 = w_dirs w.
Proof. unfold Rename, fallible. by repeat case_match. Qed.

(** Two messages never share a file, flagged or not. *)
Lemma tidy_apart mb i j m m' : tidy mb → messages mb !! i = Some m → messages mb !! j = Some m' → i ≠ j →
  BaseName (Name m) ≠ BaseName (Name m').
Proof.
  intros [_ _ Hnd] Hi Hj Hij E. apply Hij. apply (NoDup_lookup _ _ _ (BaseName (Name m)) Hnd).
  - by rewrite list_lookup_fmap, Hi.
  - by rewrite list_lookup_fmap, Hj, E.
Qed.

Lemma tidy_at mb i m : tidy mb → messages mb !! i = Some m → proper (Name m) ∧ (Dir m = "new" ∨ Dir m = "cur").
Proof.
  intros [H1 H2 _] Hi. rewrite Forall_lookup in H1, H2. split; [by eapply H1|by eapply H2].
Qed.

Lemma msg_path_same mb mb' m : root mb' = root mb → folder mb' = folder mb → msg_path mb' m = msg_path mb m.
Proof. intros H1 H2. unfold msg_path, mb_dir. by rewrite H1, H2. Qed.

Lemma with_flags_proper m f : proper (Name m) → proper (Name (with_flags m f)).
Proof. intros [Ha _]. by apply proper_FileName. Qed.

Lemma pbase_with_flags mb m f : proper (Name m) → pbase (msg_path mb (with_flags m f)) = BaseName (Name m).
Proof.
  intros Hn. rewrite pbase_msg_path; [apply BaseName_FileName|by apply with_flags_proper|by right].
Qed.

Lemma tidy_with_flags mb i m f mb' : tidy mb → messages mb !! i = Some m →
  messages mb' = <[i := with_flags m f]> (messages mb) → tidy mb'.
Proof.
  intros Ht Hi E. destruct (tidy_at mb i m Ht Hi) as [Hn _]. destruct Ht as [H1 H2 H3]. split; rewrite E.
  - apply Forall_insert; [done|by apply with_flags_proper].
  - apply Forall_insert; [done|by right].
  - rewrite list_fmap_insert, list_insert_id; [done|]. rewrite list_lookup_fmap, Hi.
    simpl. by rewrite BaseName_FileName.
Qed.

(** ** Files that can be renamed whatever their flags become *)

Record placed (w : World) (mb : Mailbox) : Prop := {
  pl_cur : mb_dir mb ++ ["cur"] ∈ w_dirs w;
  pl_file : Forall (λ m, is_Some (w_files w !! msg_path mb m)) (messages mb);
  pl_free : Forall (λ m, ∀ f, msg_path mb (with_flags m f) ∉ w_dirs w) (messages mb);
}.

Lemma SetFlags_placed `{SliceSort} env mb i m f w : reliable env → tidy mb → placed w mb →
  messages mb !! i = Some m →
  ∃ mb' w', SetFlags env mb i f w = (Ok (mb', None), w') ∧ tidy mb' ∧ placed w' mb'.
Proof.
  intros Hr Ht [Hc Hf Hd] Hi. pose proof Hf as Hf'. rewrite Forall_lookup in Hf'. destruct (Hf' i m Hi) as [fl Hfl].
  pose proof Hd as Hd'. rewrite Forall_lookup in Hd'. destruct (tidy_at mb i m Ht Hi) as [Hn Hdir].
  assert (Hpar : parent (msg_path mb (with_flags m f)) ∈ w_dirs w).
  { rewrite msg_path_proper; [|by apply with_flags_proper|by right]. cbn [Dir Name with_flags].
    replace (mb_dir mb ++ _) with ((mb_dir mb ++ ["cur"]) ++ [FileName (BaseName (Name m)) f]) by (by rewrite <- app_assoc).
    by rewrite parent_snoc. }
  set (mb' := MkMailbox (root mb) (folder mb) (<[i := with_flags m f]> (messages mb)) (uidValidity mb) (uidNext mb)).
  assert (Hplaced : ∀ w', w_dirs w' = w_dirs w → is_Some (w_files w' !! msg_path mb (with_flags m f)) →
    (∀ p, p ≠ msg_path mb m → p ≠ msg_path mb (with_flags m f) → w_files w' !! p = w_files w !! p) → placed w' mb').
  { intros w' Ed Es Eo. split.
    - by rewrite Ed.
    - cbn [messages mb']. apply Forall_lookup. intros j m' [(<-&<-&_)|(Hij&Hj)]%list_lookup_insert_Some; [done|].
      change (msg_path mb' m') with (msg_path mb m').
      pose proof (tidy_apart mb i j m m' Ht Hi Hj Hij) as Hb. destruct (tidy_at mb j m' Ht Hj) as [Hn' Hdir'].
      rewrite Eo; [by eapply Hf'| |]; intros E; apply Hb.
      + rewrite <- (pbase_msg_path mb m), <- (pbase_msg_path mb m') by done. congruence.
      + rewrite <- (pbase_with_flags mb m f), <- (pbase_msg_path mb m') by done. congruence.
    - cbn [messages mb']. apply Forall_lookup. intros j m' [(<-&<-&_)|(Hij&Hj)]%list_lookup_insert_Some; rewrite Ed.
      + intros f'. specialize (Hd' i m Hi f'). unfold with_flags in *. cbn [UID Seq Name m_Size Internal] in *.
        by rewrite BaseName_FileName.
      + by eapply Hd'. }
  unfold SetFlags, mbind, OS_bind, os_try. rewrite Hi.
  change (path_join (path_join (mb_dir mb) "cur") (FileName (BaseName (Name m)) f)) with (msg_path mb (with_flags m f)).
  exists mb'. case_bool_decide as Heq.
  - exists w. split; [done|]. split; [by eapply tidy_with_flags|]. apply Hplaced; [done|by rewrite <- Heq|done].
  - rewrite (Rename_reliable env _ _ fl) by (done || by eapply Hd'). eexists. split; [reflexivity|].
    split; [by eapply tidy_with_flags|]. apply Hplaced; [done|by unfold set_files; cbn [w_files]; rewrite lookup_insert_eq|].
    intros p H1 H2. unfold set_files. cbn [w_files]. by rewrite lookup_insert_ne, lookup_delete_ne.
Qed.
