(* ===== verification/Confined.v ===== *)
(** * Work inside one directory

    A logic for calls of the file system that change nothing outside a
    directory, and that the operations of a mailbox are such calls: opening
    it, flags, the removal of messages.  The names in the file system are
    proper ones, as on any machine. *)

From S2P Require Import Prelude GoStrings Fs Persist Maildir UidList Mailbox MailFiles.

(** Every file has a path of proper names. *)
Definition named (w : World) : Prop := ∀ p : path, is_Some (w_files w !! p) → Forall proper p.

#[global] Instance proper_dec name : Decision (proper name).
Proof. unfold proper. apply _. Defined.

Lemma named_decided w : bool_decide (map_Forall (λ p _, Forall proper p) (w_files w)) = true → named w.
Proof. intros H%bool_decide_eq_true p [f Hf]. by apply (H p f). Qed.

Record step_in (dir : path) (w w' : World) : Prop := {
  si_files (p : path) : below dir p = false → w_files w' !! p = w_files w !! p;
  si_named : named w → named w';
}.

#[global] Instance step_in_preorder dir : PreOrder (step_in dir).
Proof. split; [by split|]. intros w w1 w2 [H1 H2] [H3 H4]. split; [intros p Hp; by rewrite H3, H1|auto]. Qed.

Definition inside (dir : path) {A} (m : OS A) : Prop := ∀ w, step_in dir w (m w).2.

Lemma inside_ret dir {A} (a : A) : inside dir (mret (M := OS) a). Proof. intros w. reflexivity. Qed.
Lemma inside_err dir {A} e : inside dir (os_err (A := A) e). Proof. intros w. reflexivity. Qed.

Lemma inside_bind dir {A B} (m : OS A) (f : A → OS B) : inside dir m → (∀ a, inside dir (f a)) → inside dir (m ≫= f).
Proof.
  intros Hm Hf w. specialize (Hm w). unfold mbind, OS_bind. destruct (m w) as [[a|e] w1]; [|done]. by etrans; [|apply Hf].
Qed.

Lemma inside_try dir {A} (m : OS A) : inside dir m → inside dir (os_try m).
Proof. intros Hm w. specialize (Hm w). unfold os_try. by destruct (m w). Qed.

Lemma inside_ignore dir {A} (m : OS A) : inside dir m → inside dir (os_ignore m).
Proof. intros Hm w. apply (Hm w). Qed.

Lemma inside_wrap dir {A} t (m : OS A) : inside dir m → inside dir (wrap t m).
Proof. intros Hm. apply inside_bind; [by apply inside_try|]. intros [a|e]; [apply inside_ret|apply inside_err]. Qed.

(** A call that changes no file. *)
Lemma inside_quiet dir {A} (m : OS A) : (∀ w, w_files (m w).2 = w_files w) → inside dir m.
Proof. intros Hm w. split; [by rewrite Hm|]. intros Hn p Hp. apply Hn. rewrite Hm in Hp. exact Hp. Qed.

Lemma inside_files dir {A} (m : OS A) :
  (∀ w r w', m w = (r, w') → ∀ p : path, w_files w' !! p = w_files w !! p ∨ below dir p = true ∧ (named w → is_Some (w_files w' !! p) → Forall proper p)) →
  inside dir m.
Proof.
  intros Hm w. destruct (m w) as [r w'] eqn:E. cbn. split.
  - intros p Hp. destruct (Hm _ _ _ E p) as [?|[H _]]; [done|congruence].
  - intros Hn p Hp. destruct (Hm _ _ _ E p) as [H|[_ H]]; [apply Hn; rewrite H in Hp; exact Hp|by apply H].
Qed.

Lemma below_app p q : below p (p ++ q) = true.
Proof. induction p as [|c p IH]; [done|]. cbn. by rewrite String.eqb_refl. Qed.

Section calls.
Context (env : Env).

Lemma inside_MkdirAll dir p : inside dir (MkdirAll env p).
Proof. apply inside_quiet. intros w. destruct (MkdirAll env p w) as [r w'] eqn:E. by apply MkdirAll_files in E. Qed.
Lemma inside_ReadFile dir p : inside dir (ReadFile env p).
Proof. apply inside_quiet. intros w. destruct (ReadFile env p w) as [r w'] eqn:E. by apply ReadFile_files in E as [? _]. Qed.
Lemma inside_ReadDir dir p : inside dir (ReadDir env p).
Proof. apply inside_quiet. intros w. destruct (ReadDir env p w) as [r w'] eqn:E. by apply ReadDir_files in E as [? _]. Qed.
Lemma inside_Stat dir p : inside dir (Stat env p).
Proof. apply inside_quiet. intros w. unfold Stat, fallible. by repeat case_match. Qed.
Lemma inside_open_scan dir p : inside dir (open_scan env p).
Proof. apply inside_quiet. intros w. unfold open_scan, fallible. by repeat case_match. Qed.
Lemma inside_now dir : inside dir (now env). Proof. by apply inside_quiet. Qed.

Lemma inside_WriteFile dir p s : below dir p = true → Forall proper p → inside dir (WriteFile env p s).
Proof.
  intros Hb Hp. apply inside_files. intros w r w' [Ho _]%WriteFile_files q.
  destruct (decide (q = p)) as [->|Hne]; [by right|left; by apply Ho].
Qed.

Lemma inside_Remove dir p : below dir p = true → inside dir (Remove env p).
Proof.
  intros Hb. apply inside_files. intros w r w' E q. apply Remove_files in E. destruct r as [u|e]; [|left; by rewrite E].
  rewrite E. destruct (decide (q = p)) as [->|Hne]; [right; split; [done|]; rewrite lookup_delete_eq; by intros _ []|].
  left. by rewrite lookup_delete_ne.
Qed.

Lemma inside_Rename dir p q : below dir p = true → below dir q = true → Forall proper q → inside dir (Rename env p q).
Proof.
  intros Hb Hb' Hq. apply inside_files. intros w r w' E x. apply Rename_files in E.
  destruct r as [u|e]; [destruct E as (f&_&E)|left; by rewrite E]. rewrite E.
  destruct (decide (x = q)) as [->|Hx]; [by right|]. destruct (decide (x = p)) as [->|Hx'].
  - right. split; [done|]. rewrite lookup_insert_ne, lookup_delete_eq by done. by intros _ [].
  - left. by rewrite lookup_insert_ne, lookup_delete_ne.
Qed.

Lemma inside_mkdirs dir p subs : inside dir (mkdirs env p subs).
Proof. induction subs as [|s subs IH]; [apply inside_ret|]. apply inside_bind; [apply inside_MkdirAll|by intros _]. Qed.
End calls.

Create HintDb inside discriminated.
#[export] Hint Resolve inside_ret inside_err inside_bind inside_try inside_ignore inside_wrap inside_MkdirAll inside_ReadFile
  inside_ReadDir inside_Stat inside_open_scan inside_now inside_mkdirs : inside.

(** ** The operations of a mailbox *)

(** An inbox whose messages are where a listing finds them. *)
Record mail_ok (mb : Mailbox) : Prop := {
  mo_folder : folder mb = Inbox;
  mo_root : Forall proper (root mb);
  mo_msgs : Forall (λ m, proper (Name m) ∧ (Dir m = "new" ∨ Dir m = "cur")) (messages mb);
}.

Lemma mail_ok_dir mb : mail_ok mb → mb_dir mb = root mb.
Proof. intros [Hf _ _]. unfold mb_dir. by rewrite Hf. Qed.

Lemma msg_below mb m : mail_ok mb → proper (Name m) ∧ (Dir m = "new" ∨ Dir m = "cur") → below (root mb) (msg_path mb m) = true.
Proof. intros Hm [Hn Hd]. rewrite msg_path_proper, mail_ok_dir by done. apply below_app. Qed.

Section mailbox.
Context `{SliceSort} (env : Env).

Lemma SetFlags_inside mb i f : mail_ok mb → inside (root mb) (SetFlags env mb i f).
Proof.
  intros Hm. unfold SetFlags. destruct (messages mb !! i) as [m|] eqn:Hi; [|auto with inside].
  pose proof (mo_msgs _ Hm) as Hall. rewrite Forall_lookup in Hall. destruct (Hall i m Hi) as [Hn Hd]. cbv zeta.
  apply inside_bind; [|intros [u|e]; auto with inside]. apply inside_try. case_bool_decide; [auto with inside|].
  assert (Hp : proper (FileName (BaseName (Name m)) f)) by (apply proper_FileName, Hn).
  rewrite (proper_join (mb_dir mb)), proper_join by (done || by split_and!). rewrite mail_ok_dir, <- app_assoc by done.
  apply inside_Rename; [by apply msg_below|apply below_app|]. apply Forall_app. split; [apply Hm|].
  apply Forall_cons. split; [done|]. by apply Forall_singleton.
Qed.

Lemma SetFlags_ok mb i f w mb' e w' : mail_ok mb → SetFlags env mb i f w = (Ok (mb', e), w') → mail_ok mb' ∧ root mb' = root mb.
Proof.
  intros Hm. unfold SetFlags. destruct (messages mb !! i) as [m|] eqn:Hi; [|by intros [= <- _ _]]. cbv zeta.
  intros ([u|e1]&w1&_&E)%os_bind_ok; unfold mret, OS_ret in E; injection E as <- _ _; [|done]. split; [|done].
  destruct Hm as [Hf Hr Hall]. split; cbn; [done..|]. apply Forall_insert; [done|]. cbn. rewrite Forall_lookup in Hall.
  split; [apply proper_FileName, (Hall i m Hi)|by right].
Qed.

Lemma expunge_loop_inside mb ms : mail_ok mb → Forall (λ m, proper (Name m) ∧ (Dir m = "new" ∨ Dir m = "cur")) ms →
  inside (root mb) (expunge_loop env mb ms).
Proof.
  intros Hm. induction 1 as [|m ms Hin _ IH]; cbn [expunge_loop]; [auto with inside|]. destruct (deleted m); [|auto with inside].
  apply inside_bind; [by apply inside_try, inside_Remove, msg_below|]. intros [u|[|t]]; auto with inside.
Qed.

Lemma Expunge_inside mb : mail_ok mb → inside (root mb) (Expunge env mb).
Proof.
  intros Hm. unfold Expunge. apply inside_bind; [apply inside_try, expunge_loop_inside; [done|apply Hm]|].
  intros [[[|s seqs] kept]|e]; auto with inside.
Qed.

Lemma Read_inside mb m : inside (root mb) (Read env mb m).
Proof. apply inside_ReadFile. Qed.

Definition shown (m : Message) : Prop := proper (Name m) ∧ (Dir m = "new" ∨ Dir m = "cur").
Definition listed (e : entry) : Prop := proper (e_name e) ∧ (e_sub e = "new" ∨ e_sub e = "cur").

Lemma listed_name w p d : named w → d ∈ list_dir w p → d_isdir d = false → proper (d_name d).
Proof.
  intros Hn [E [Hf|Hd]]%list_dir_spec Hi.
  - specialize (Hn _ Hf). apply Forall_app in Hn as [_ Hn]. by inversion Hn.
  - rewrite E in Hi. unfold entry_of in Hi. destruct (w_files w !! (p ++ [d_name d])) as [f|] eqn:Ef; [|done].
    specialize (Hn _ (mk_is_Some _ _ Ef)). apply Forall_app in Hn as [_ Hn]. by inversion Hn.
Qed.

Lemma scan_entries_inside dir p sub ds : inside dir (scan_entries env p sub ds).
Proof. induction ds as [|d ds IH]; cbn [scan_entries]; [auto with inside|]. destruct (_ || _)%bool; auto with inside. Qed.

Lemma scan_subs_inside dir p subs : inside dir (scan_subs env p subs).
Proof.
  induction subs as [|sub subs IH]; cbn [scan_subs]; [auto with inside|].
  apply inside_bind; [auto with inside|]. intros [ds|[|t]]; [|done|auto with inside].
  apply inside_bind; [apply scan_entries_inside|auto with inside].
Qed.

Lemma scan_entries_listed p sub ds w found w' : Forall (λ d, d_isdir d = false → proper (d_name d)) ds → sub = "new" ∨ sub = "cur" →
  scan_entries env p sub ds w = (Ok found, w') → Forall listed found.
Proof.
  intros Hds Hs. revert w found w'. induction Hds as [|d ds Hd _ IH]; intros w found w'; cbn [scan_entries]; [by intros [= <- _]|].
  destruct (d_isdir d) eqn:Ei; cbn [orb]; [apply IH|]. destruct (HasPrefix _ _); [apply IH|].
  intros (r&w1&_&(rest&w2&E2%IH&E)%os_bind_ok)%os_bind_ok. unfold mret, OS_ret in E. injection E as <- _.
  destruct r; [|done]. constructor; [|done]. split; [by apply Hd|done].
Qed.

Lemma scan_subs_listed p subs w found w' : named w → Forall (λ x, x = "new" ∨ x = "cur") subs →
  scan_subs env p subs w = (Ok found, w') → Forall listed found.
Proof.
  intros Hn Hs. revert w found w' Hn. induction Hs as [|sub subs Hsub _ IH]; intros w found w' Hn; cbn [scan_subs]; [by intros [= <- _]|].
  intros (r&w1&E1&E)%os_bind_ok. unfold os_try in E1. destruct (ReadDir env (path_join p sub) w) as [x w1'] eqn:Er. injection E1 as -> ->.
  apply ReadDir_files in Er as (Hf&_&Hds).
  assert (Hn1 : named w1) by (intros q Hq; apply Hn; by rewrite <- Hf).
  destruct r as [ds|[|t]]; [|by eapply IH|done].
  apply os_bind_ok in E as (f1&w2&Es&(rest&w3&E3&E)%os_bind_ok). unfold mret, OS_ret in E. injection E as <- _.
  apply Forall_app. split.
  - eapply scan_entries_listed; [|done|exact Es]. destruct (Hds ds eq_refl) as [-> _]. apply Forall_forall. intros d Hd Hi.
    exact (listed_name _ _ _ Hn Hd Hi).
  - eapply IH; [|exact E3]. pose proof (scan_entries_inside [] (path_join p sub) sub ds w1) as [_ Hk]. rewrite Es in Hk. auto.
Qed.

Lemma snapshot_shown uids next found ms n d : Forall listed found → snapshot uids next found = (ms, n, d) → Forall shown ms.
Proof.
  intros Hf. unfold snapshot. destruct (foldl _ _ _) as [[uids' n'] d']. intros [= <- _ _].
  set (l := sort_slice (less_by UID) _). assert (Hl : Forall shown l).
  { unfold l. rewrite sort_slice_perm. apply Forall_fmap. rewrite sort_slice_perm. eapply Forall_impl; [exact Hf|]. by intros e [??]. }
  clearbody l. clear -Hl. generalize 0. induction Hl as [|m l Hm _ IH]; intros i; cbn [renumber]; [done|]. by constructor.
Qed.

Lemma readUIDList_inside dir mb : inside dir (readUIDList env mb).
Proof.
  assert (Hf : inside dir (fresh_list env)) by (unfold fresh_list, newUIDValidity; auto with inside).
  apply inside_bind; [auto with inside|]. intros [t|[|t]]; [destruct (parse_list t)|..]; auto with inside.
Qed.

Lemma below_name dir name : below dir (dir ++ [name]) = true.
Proof. apply below_app. Qed.

Lemma proper_list_name : proper uidListFile ∧ proper (uidListFile +:+ ".tmp").
Proof. by split. Qed.

Lemma writeUIDList_inside mb uids v n : mail_ok mb → inside (root mb) (writeUIDList env mb uids v n).
Proof.
  intros Hm. destruct proper_list_name as [Hp Ht]. unfold writeUIDList. cbv zeta.
  rewrite list_path_join, list_tmp_join, (mail_ok_dir mb Hm). unfold list_path, list_tmp.
  assert (Hroot : ∀ x, proper x → Forall proper (root mb ++ [x])) by (intros x Hx; apply Forall_app; split; [apply Hm|by apply Forall_singleton]).
  apply inside_bind; [apply inside_WriteFile; [apply below_name|by apply Hroot]|intros _].
  apply inside_bind; [apply inside_try, inside_Rename; [apply below_name..|by apply Hroot]|]. intros [u|e]; [auto with inside|].
  apply inside_bind; [apply inside_ignore, inside_Remove, below_name|auto with inside].
Qed.

Lemma Refresh_inside mb : mail_ok mb → inside (root mb) (Refresh env mb).
Proof.
  intros Hm. unfold Refresh. apply inside_bind; [apply inside_try, readUIDList_inside|]. intros [[[uids v] n]|e]; [|auto with inside]. cbv zeta.
  apply inside_bind; [apply inside_try, scan_subs_inside|]. intros [found|e]; [|auto with inside].
  destruct (snapshot uids n found) as [[msgs n'] dirty]. destruct dirty; [|auto with inside].
  apply inside_bind; [|auto with inside]. apply inside_try.
  apply (writeUIDList_inside (MkMailbox (root mb) (folder mb) [] v n')). by split; [apply Hm..|constructor].
Qed.

Lemma Refresh_ok mb w mb' e w' : mail_ok mb → named w → Refresh env mb w = (Ok (mb', e), w') → mail_ok mb' ∧ root mb' = root mb.
Proof.
  intros Hm Hn. unfold Refresh. intros (r&w1&E1&E)%os_bind_ok.
  pose proof (inside_try [] _ (readUIDList_inside [] mb) w) as [_ Hn1]. rewrite E1 in Hn1. cbn in Hn1. specialize (Hn1 Hn).
  destruct r as [[[uids v] n]|e1]; [|by injection E as <- _ _]. cbv zeta in E. apply os_bind_ok in E as (r&w2&E2&E).
  unfold os_try in E2. destruct (scan_subs _ _ _ w1) as [x w2'] eqn:Es. injection E2 as -> ->.
  destruct r as [found|e2]; [|injection E as <- _ _; by split; [split; apply Hm|]].
  apply scan_subs_listed in Es; [|done|constructor; [by left|constructor; [by right|constructor]]].
  destruct (snapshot uids n found) as [[msgs n'] dirty] eqn:Ess. apply snapshot_shown in Ess; [|done].
  assert (Hok : mail_ok (MkMailbox (root mb) (folder mb) msgs v n')) by (split; [apply Hm..|done]).
  destruct dirty.
  - apply os_bind_ok in E as (w3&w4&_&E). by injection E as <- _ _.
  - by injection E as <- _ _.
Qed.

Lemma OpenMailbox_inside rt : Forall proper rt → inside rt (OpenMailbox env rt Inbox).
Proof.
  intros Hrt. unfold OpenMailbox. apply inside_bind; [auto with inside|intros _].
  apply inside_bind; [|intros [mb [e|]]; auto with inside].
  apply (Refresh_inside (MkMailbox rt Inbox [] 0 0)). by split; [|done|constructor].
Qed.

Lemma OpenMailbox_ok rt w mb w' : Forall proper rt → named w → OpenMailbox env rt Inbox w = (Ok mb, w') → mail_ok mb ∧ root mb = rt.
Proof.
  intros Hrt Hn. unfold OpenMailbox. intros (u&w1&E1&([mb1 e]&w2&E2&E)%os_bind_ok)%os_bind_ok.
  assert (Hn1 : named w1).
  { pose proof (inside_wrap [] "mailbox" _ (inside_mkdirs env [] (folderDir rt Inbox) subdirs) w) as [_ Hk]. rewrite E1 in Hk. auto. }
  apply Refresh_ok in E2 as [Hok Hr]; [|by split; [|done|constructor]|done]. destruct e; [done|].
  unfold mret, OS_ret in E. by injection E as <- _.
Qed.
End mailbox.
