(* ===== verification/CopyFiles.v ===== *)
(** * What a copy writes

    The files that opening a folder and copying a message into it may
    change: the folder's UID list with its temporary file, and files under
    the name that the delivery makes up.  Every other file stays as it is,
    whatever fails. *)

From S2P Require Import Prelude GoStrings Fs Persist Maildir UidList Mailbox.

(** A call that changes only files that satisfy a predicate. *)
Definition alters (P : path → Prop) {A} (m : OS A) : Prop :=
  ∀ w (p : path), w_files (m w).2 !! p = w_files w !! p ∨ P p.

Section logic.
Context (P : path → Prop).

Lemma alters_ret {A} (a : A) : alters P (mret (M := OS) a). Proof. intros w p. by left. Qed.
Lemma alters_err {A} e : alters P (os_err (A := A) e). Proof. intros w p. by left. Qed.

(** The continuation may rely on the result. *)
Lemma alters_bind_ok {A B} (m : OS A) (f : A → OS B) : alters P m →
  (∀ w a w', m w = (Ok a, w') → alters P (f a)) → alters P (m ≫= f).
Proof.
  intros Hm Hf w p. specialize (Hm w p). unfold mbind, OS_bind. destruct (m w) as [[a|e] w1] eqn:E; [|done].
  destruct (Hf _ _ _ E w1 p) as [->|?]; [done|by right].
Qed.

Lemma alters_bind {A B} (m : OS A) (f : A → OS B) : alters P m → (∀ a, alters P (f a)) → alters P (m ≫= f).
Proof. intros Hm Hf. by apply alters_bind_ok. Qed.

Lemma alters_try {A} (m : OS A) : alters P m → alters P (os_try m).
Proof. intros Hm w. specialize (Hm w). unfold os_try. by destruct (m w). Qed.

Lemma alters_ignore {A} (m : OS A) : alters P m → alters P (os_ignore m).
Proof. intros Hm w. apply (Hm w). Qed.

Lemma alters_wrap {A} t (m : OS A) : alters P m → alters P (wrap t m).
Proof. intros Hm. apply alters_bind; [by apply alters_try|]. intros [a|e]; [apply alters_ret|apply alters_err]. Qed.

Lemma alters_quiet {A} (m : OS A) : (∀ w, w_files (m w).2 = w_files w) → alters P m.
Proof. intros Hm w p. left. by rewrite Hm. Qed.

(** A call that changes one file or two. *)
Lemma alters_at {A} (m : OS A) (l : list path) :
  (∀ w (q : path), q ∉ l → w_files (m w).2 !! q = w_files w !! q) → Forall P l → alters P m.
Proof.
  intros Hm Hl w q. destruct (decide (q ∈ l)) as [Hin|Hin]; [right|left; by apply Hm].
  rewrite Forall_forall in Hl. by apply Hl.
Qed.
End logic.

Lemma alters_mono (P Q : path → Prop) {A} (m : OS A) : (∀ p, P p → Q p) → alters P m → alters Q m.
Proof. intros HPQ Hm w p. destruct (Hm w p); [by left|right; auto]. Qed.

Section calls.
Context (env : Env) (P : path → Prop).

Lemma alters_MkdirAll p : alters P (MkdirAll env p).
Proof. apply alters_quiet. intros w. destruct (MkdirAll env p w) as [r w'] eqn:E. by apply MkdirAll_files in E. Qed.
Lemma alters_ReadFile p : alters P (ReadFile env p).
Proof. apply alters_quiet. intros w. destruct (ReadFile env p w) as [r w'] eqn:E. by apply ReadFile_files in E as [? _]. Qed.
Lemma alters_ReadDir p : alters P (ReadDir env p).
Proof. apply alters_quiet. intros w. destruct (ReadDir env p w) as [r w'] eqn:E. by apply ReadDir_files in E as [? _]. Qed.
Lemma alters_Stat p : alters P (Stat env p).
Proof. apply alters_quiet. intros w. unfold Stat, fallible. by repeat case_match. Qed.
Lemma alters_open_scan p : alters P (open_scan env p).
Proof. apply alters_quiet. intros w. unfold open_scan, fallible. by repeat case_match. Qed.
Lemma alters_now : alters P (now env). Proof. by apply alters_quiet. Qed.
Lemma alters_unique_name : alters P (unique_name env). Proof. by apply alters_quiet. Qed.
Lemma alters_sync p : alters P (sync env p).
Proof. apply alters_quiet. intros w. unfold sync, fallible. by repeat case_match. Qed.
Lemma alters_close p : alters P (close env p).
Proof. apply alters_quiet. intros w. unfold close, fallible. by repeat case_match. Qed.

Lemma alters_mkdirs p subs : alters P (mkdirs env p subs).
Proof. induction subs as [|s subs IH]; [apply alters_ret|]. apply alters_bind; [apply alters_MkdirAll|by intros _]. Qed.

Lemma alters_WriteFile p s : P p → alters P (WriteFile env p s).
Proof.
  intros Hp. apply (alters_at _ _ [p]); [|by constructor]. intros w q Hq. destruct (WriteFile env p s w) as [r w'] eqn:E.
  apply WriteFile_files in E as [Ho _]. apply Ho. by intros ->; apply Hq; constructor.
Qed.

Lemma alters_Remove p : P p → alters P (Remove env p).
Proof.
  intros Hp. apply (alters_at _ _ [p]); [|by constructor]. intros w q Hq. destruct (Remove env p w) as [r w'] eqn:E.
  apply Remove_files in E. destruct r; cbn; rewrite E; [|done]. apply lookup_delete_ne. by intros ->; apply Hq; constructor.
Qed.

Lemma alters_Rename p q : P p → P q → alters P (Rename env p q).
Proof.
  intros Hp Hq. apply (alters_at _ _ [p; q]); [|by repeat constructor]. intros w x Hx. destruct (Rename env p q w) as [r w'] eqn:E.
  apply Rename_files in E. cbn. destruct r; [|by rewrite E]. destruct E as (f&_&E). rewrite !not_elem_of_cons in Hx.
  rewrite E. rewrite lookup_insert_ne, lookup_delete_ne; [done|..]; by intros ->; destruct Hx as (?&?&_).
Qed.

Lemma alters_create_file e p : P p → alters P (create_file env e p).
Proof.
  intros Hp. apply (alters_at _ _ [p]); [|by constructor]. intros w q Hq. destruct (create_file env e p w) as [r w'] eqn:E.
  apply create_file_files in E. cbn. destruct r; [|by rewrite E]. destruct E as (t&E&_). rewrite E.
  apply lookup_insert_ne. by intros ->; apply Hq; constructor.
Qed.

Lemma alters_write_data p s : P p → alters P (write_data env p s).
Proof.
  intros Hp. apply (alters_at _ _ [p]); [|by constructor]. intros w q Hq. destruct (write_data env p s w) as [r w'] eqn:E.
  apply write_data_files in E as (t&c&E&_). cbn. rewrite E. apply lookup_insert_ne. by intros ->; apply Hq; constructor.
Qed.

Lemma alters_Chtimes p t : P p → alters P (Chtimes env p t).
Proof.
  intros Hp. apply (alters_at _ _ [p]); [|by constructor]. intros w q Hq. unfold Chtimes, fallible. repeat case_match; try done.
  apply lookup_insert_ne. by intros ->; apply Hq; constructor.
Qed.
End calls.

Create HintDb alters discriminated.
#[export] Hint Resolve alters_ret alters_err alters_bind alters_try alters_ignore alters_wrap alters_MkdirAll
  alters_ReadFile alters_ReadDir alters_Stat alters_open_scan alters_now alters_unique_name alters_sync
  alters_close alters_mkdirs : alters.

(** ** The operations of a mailbox *)

(** The files of a folder's UID list. *)
Definition list_file (dir p : path) : Prop :=
  p = path_join dir uidListFile ∨ p = path_join dir (uidListFile +:+ ".tmp").

(** A name the program may make up in this environment. *)
Definition coined (env : Env) (name : string) : Prop := ∃ w, (unique_name env w).1 = Ok name.

(** The files a copy into a folder may write: the UID list, and the
    message under the name made up for it, in [tmp/], in [new/], or in
    [cur/] with the flags of the original. *)
Inductive copy_file (env : Env) (dir : path) : path → Prop :=
  | cf_list p : list_file dir p → copy_file env dir p
  | cf_tmp name : coined env name → copy_file env dir (path_join (path_join dir "tmp") name)
  | cf_new name : coined env name → copy_file env dir (path_join (path_join dir "new") name)
  | cf_cur name f : coined env name → copy_file env dir
      (path_join (path_join dir "cur") (FileName (BaseName (path_base (path_join (path_join dir "new") name))) f)).

Section mailbox.
Context `{SliceSort} (env : Env).

Lemma alters_scan_entries P p sub ds : alters P (scan_entries env p sub ds).
Proof. induction ds as [|d ds IH]; cbn [scan_entries]; [auto with alters|]. destruct (_ || _)%bool; auto with alters. Qed.

Lemma alters_scan_subs P p subs : alters P (scan_subs env p subs).
Proof.
  induction subs as [|sub subs IH]; cbn [scan_subs]; [auto with alters|].
  apply alters_bind; [auto with alters|]. intros [ds|[|t]]; [|done|auto with alters].
  apply alters_bind; [apply alters_scan_entries|auto with alters].
Qed.

Lemma alters_readUIDList P mb : alters P (readUIDList env mb).
Proof.
  assert (Hf : alters P (fresh_list env)) by (unfold fresh_list, newUIDValidity; auto with alters).
  apply alters_bind; [auto with alters|]. intros [t|[|t]]; [destruct (parse_list t)|..]; auto with alters.
Qed.

Lemma alters_writeUIDList mb uids v n : alters (list_file (mb_dir mb)) (writeUIDList env mb uids v n).
Proof.
  unfold writeUIDList. cbv zeta. set (p := path_join _ uidListFile). set (t := path_join _ (_ +:+ _)).
  assert (Hp : list_file (mb_dir mb) p) by by left. assert (Ht : list_file (mb_dir mb) t) by by right.
  apply alters_bind; [by apply alters_WriteFile|intros _].
  apply alters_bind; [by apply alters_try, alters_Rename|]. intros [u|e]; [auto with alters|].
  apply alters_bind; [by apply alters_ignore, alters_Remove|auto with alters].
Qed.

Lemma alters_Refresh mb : alters (list_file (mb_dir mb)) (Refresh env mb).
Proof.
  unfold Refresh. apply alters_bind; [apply alters_try, alters_readUIDList|]. intros [[[uids v] n]|e]; [|auto with alters]. cbv zeta.
  apply alters_bind; [apply alters_try, alters_scan_subs|]. intros [found|e]; [|auto with alters].
  destruct (snapshot uids n found) as [[msgs n'] dirty]. destruct dirty; [|auto with alters].
  apply alters_bind; [|auto with alters]. apply alters_try.
  apply (alters_writeUIDList (MkMailbox (root mb) (folder mb) [] v n')).
Qed.

(** Opening a folder changes its UID list and nothing else. *)
Lemma alters_OpenMailbox rt fld : alters (list_file (folderDir rt fld)) (OpenMailbox env rt fld).
Proof.
  unfold OpenMailbox. apply alters_bind; [auto with alters|intros _].
  apply alters_bind; [apply (alters_Refresh (MkMailbox rt fld [] 0 0))|]. intros [mb [e|]]; auto with alters.
Qed.

Lemma Refresh_folder mb w mb' e w' : Refresh env mb w = (Ok (mb', e), w') → mb_dir mb' = mb_dir mb.
Proof.
  unfold Refresh. intros (r&w1&_&E)%os_bind_ok. destruct r as [[[uids v] n]|]; [|by injection E as <-].
  apply os_bind_ok in E as (r&w2&_&E). destruct r as [found|]; [|by injection E as <-].
  destruct (snapshot uids n found) as [[msgs n'] dirty]. destruct dirty; [|by injection E as <-].
  apply os_bind_ok in E as (r&w3&_&E). by injection E as <-.
Qed.

Lemma OpenMailbox_dir rt fld w mb w' : OpenMailbox env rt fld w = (Ok mb, w') → mb_dir mb = folderDir rt fld.
Proof.
  unfold OpenMailbox. intros (r&w1&_&([mb1 e]&w2&E1&E)%os_bind_ok)%os_bind_ok.
  apply Refresh_folder in E1. destruct e; [done|]. by injection E as <- _.
Qed.

Let P dir := copy_file env dir.

(** A delivery leaves the path of the message in [new/]. *)
Lemma Deliver_coined dir msg w p w' : Deliver env dir msg w = (Ok p, w') →
  ∃ name, coined env name ∧ p = path_join (path_join dir "new") name.
Proof.
  unfold Deliver. intros (u&w1&_&(name&w2&En&E)%os_bind_ok)%os_bind_ok.
  exists name. split; [exists w1; by rewrite En|]. cbv zeta in E.
  apply os_bind_ok in E as (u1&w3&_&(u2&w4&_&(c&w5&_&E)%os_bind_ok)%os_bind_ok).
  destruct c; [|by apply os_bind_ok in E as (?&?&_&?)]. apply os_bind_ok in E as (r&w6&_&E).
  destruct r; [by injection E as <- _|]. by apply os_bind_ok in E as (?&?&_&?).
Qed.

Lemma alters_Deliver dir msg : alters (P dir) (Deliver env dir msg).
Proof.
  unfold Deliver, P. apply alters_bind; [auto with alters|intros _].
  apply alters_bind_ok; [auto with alters|]. intros w name w' En. cbv zeta.
  assert (Hc : coined env name) by (exists w; by rewrite En).
  pose proof (cf_tmp env dir name Hc) as Ht. pose proof (cf_new env dir name Hc) as Hn.
  apply alters_bind; [by apply alters_wrap, alters_create_file|intros _]. apply alters_bind.
  { unfold write_synced. apply alters_bind; [by apply alters_try, alters_write_data|]. intros [u|e]; auto with alters. }
  intros _. apply alters_bind; [auto with alters|].
  assert (Hrm : alters (copy_file env dir) (os_ignore (Remove env (path_join (path_join dir "tmp") name))))
    by by apply alters_ignore, alters_Remove.
  intros [u|e]; [|auto with alters].
  apply alters_bind; [by apply alters_try, alters_Rename|]. intros [u1|e]; auto with alters.
Qed.

Lemma alters_Append mb data f d : alters (P (mb_dir mb)) (Append env mb data f d).
Proof.
  unfold Append, P. apply alters_bind_ok; [apply alters_try, alters_Deliver|].
  intros w r w' Er. destruct r as [p|e]; [|auto with alters].
  unfold os_try in Er. destruct (Deliver env (mb_dir mb) data w) as [x w1] eqn:Ed. injection Er as -> ->.
  apply Deliver_coined in Ed as (name&Hc&->).
  pose proof (cf_new env (mb_dir mb) name Hc) as Hn. pose proof (λ f, cf_cur env (mb_dir mb) name f Hc) as Hf.
  apply alters_bind; [case_match; [auto with alters|by apply alters_ignore, alters_Chtimes]|intros _].
  apply alters_bind; [apply alters_try; destruct f; [auto with alters|by apply alters_Rename]|].
  intros [u|e]; [|auto with alters]. apply alters_bind.
  { eapply alters_mono; [|apply alters_Refresh]. intros q. apply cf_list. }
  intros [mb' [e|]]; auto with alters.
Qed.

Lemma alters_CopyTo mb m fld : alters (P (folderDir (root mb) fld)) (CopyTo env mb m fld).
Proof.
  unfold CopyTo. apply alters_bind; [apply alters_ReadFile|intros data].
  apply alters_bind_ok.
  { eapply alters_mono; [|apply alters_OpenMailbox]. intros q. apply cf_list. }
  intros w dst w' E. apply OpenMailbox_dir in E. apply alters_bind; [rewrite <- E; apply alters_Append|].
  intros [dst' [a|e]]; cbn [snd]; auto with alters.
Qed.
End mailbox.
