(* ===== verification/Queue.v ===== *)
(** * The outbound queue

    Models [internal/queue]: the disk-backed store of envelopes
    ([queue.go]), the scheduler that drains it ([scheduler.go]), the
    bounce message ([bounce.go]) and the choice of the MX hosts
    ([transport.go]).

    The queue directory is a map from file names to contents; the content
    of a file is what [json.Unmarshal] makes of it, an envelope or
    garbage.  Failures of the operating system are given by an oracle
    that every theorem quantifies over.  The clock, the random bytes and
    the remote hosts are arguments. *)

From S2P Require Import Prelude GoStrings GoNum Storage Stats.

Record Envelope := MkEnvelope {
  ID : string;
  From : string;
  Rcpt : string;
  Domain : string;
  Attempts : Z;
  NextAttempt : Z;
  Created : Z;
  LastError : string;
  Data : string;
}.

#[global] Instance Envelope_eq_dec : EqDecision Envelope.
Proof. solve_decision. Defined.

Inductive content := QEnvelope (e : Envelope) | QGarbage.

(** The queue directory. *)
Abbreviation Queue := (gmap string content).

(** Which operating-system calls fail. *)
Record QueueIO := MkQueueIO {
  io_readdir : bool;
  io_read : string → bool;
  io_marshal : Envelope → bool;
  io_write : string → bool;
  io_rename : string → bool;
  io_remove : string → bool;
}.

Definition no_faults : QueueIO :=
  MkQueueIO false (λ _, false) (λ _, false) (λ _, false) (λ _, false) (λ _, false).

(** ** The store *)

Definition path (id : string) : string := id +:+ ".json".

(** [write] as the sequence of directory states it goes through: the
    temporary file is first incomplete, then complete, then renamed over
    the entry.  A crash leaves one of these states. *)
Definition write_trace (io : QueueIO) (q : Queue) (e : Envelope) : list Queue * option error :=
  let tmp := path (ID e) +:+ ".tmp" in
  let partial := <[tmp := QGarbage]> q in
  let full := <[tmp := QEnvelope e]> q in
  if io_marshal io e then ([q], Some (EMsg "marshal"))
  else if io_write io tmp then ([q; partial], Some (EMsg "write"))
  else if io_rename io tmp then
    ([q; partial; full] ++ (if io_remove io tmp then [] else [delete tmp full]),
     Some (EMsg "rename"))
  else ([q; partial; full; <[path (ID e) := QEnvelope e]> (delete tmp full)], None).

Definition write (io : QueueIO) (q : Queue) (e : Envelope) : Queue * option error :=
  let '(states, err) := write_trace io q e in (List.last states q, err).

Definition Update := write.

(** [newID] with the four random bytes it keeps as a number. *)
Definition newID (now : Z) (rnd : Z) : string := dec (UnixNano now) +:+ "-" +:+ hex (u32 rnd).

Definition Enqueue (io : QueueIO) (q : Queue) (from rcpt data : string) (now rnd : Z)
    : Queue * option error :=
  match Storage.Split rcpt with
  | None => (q, Some (EMsg "queue: invalid recipient"))
  | Some (_, domain) =>
      write io q {| ID := newID now rnd; From := ToLower from; Rcpt := ToLower rcpt;
                    Domain := domain; Attempts := 0; NextAttempt := now; Created := now;
                    LastError := ""; Data := data |}
  end.

Definition Remove (io : QueueIO) (q : Queue) (e : Envelope) : Queue :=
  if io_remove io (path (ID e)) then q else delete (path (ID e)) q.

(** The names of the entries, in the order of [os.ReadDir]. *)
Definition entry_names (q : Queue) : list string :=
  filter (λ n, HasSuffix n ".json" = true)
    (insertion_sort String.ltb (map_to_list q).*1).

Definition Size (io : QueueIO) (q : Queue) : Z :=
  if io_readdir io then 0 else llen (entry_names q).

Definition read_entry (io : QueueIO) (q : Queue) (n : string) : option Envelope :=
  if io_read io n then None else
  match q !! n with Some (QEnvelope e) => Some e | _ => None end.

(** The inner loop: [out[j]] sinks while it is older than its left
    neighbour; [rl] is the sorted prefix, last element first. *)
Fixpoint sink (x : Envelope) (rl : list Envelope) : list Envelope :=
  match rl with
  | y :: rl' => if time_Before (Created x) (Created y) then y :: sink x rl' else x :: rl
  | [] => [x]
  end.

Definition oldest_first (l : list Envelope) : list Envelope :=
  rev (foldl (λ rl x, sink x rl) [] l).

(** [load]: the parsable entries, and the number of errors. *)
Definition load (io : QueueIO) (q : Queue) : list Envelope * list string :=
  if io_readdir io then ([], ["readdir"]) else
  (oldest_first (omap (read_entry io q) (entry_names q)),
   filter (λ n, read_entry io q n = None) (entry_names q)).

Definition is_due (now : Z) (e : Envelope) : bool := negb (time_After (NextAttempt e) now).

Definition Due (io : QueueIO) (q : Queue) (now : Z) : list Envelope * list string :=
  let '(all, errs) := load io q in (filter (λ e, is_due now e = true) all, errs).

(** ** The scheduler *)

(** What a transport answers; the error carries its text. *)
Inductive outcome :=
  | Delivered
  | Permanent (code : Z) (msg : string)
  | Transient (msg : string).

(** [backoff]: one minute shifted by [attempts - 1], at most four hours.
    A shift by a negative count panics ([None]). *)
Definition backoff (attempts : Z) : option Z :=
  let a := if 9 <? attempts then 9 else attempts in
  if a - 1 <? 0 then None else
  let d := Z.shiftl Minute (a - 1) in
  Some (if 4 * Hour <? d then 4 * Hour else d).

(** The disposition of one attempt, as the scheduler reports it. *)
Inductive event :=
  | EvDelivered (e : Envelope)
  | EvBounced (e : Envelope) (reason : string)
  | EvDeferred (e : Envelope) (saved : bool)
  | EvPanic.

Record sched := MkSched {
  s_q : Queue;
  s_counters : option Counters;
  s_events : list event;
}.

Definition perm_error (code : Z) (msg : string) : string :=
  "permanent failure " +:+ dec code +:+ ": " +:+ msg.

Definition deferred_env (e : Envelope) (now : Z) (d : Z) (msg : string) : Envelope :=
  {| ID := ID e; From := From e; Rcpt := Rcpt e; Domain := Domain e;
     Attempts := Attempts e + 1; NextAttempt := now + d; Created := Created e;
     LastError := msg; Data := Data e |}.

Definition attempt (io : QueueIO) (maxAttempts : Z) (deliver : Envelope → outcome)
    (s : sched) (e : Envelope) (now : Z) : sched :=
  match deliver e with
  | Delivered =>
      MkSched (Remove io (s_q s) e) (IncDelivered (s_counters s)) (s_events s ++ [EvDelivered e])
  | Permanent code msg =>
      MkSched (Remove io (s_q s) e) (IncBounced (s_counters s))
        (s_events s ++ [EvBounced e (perm_error code msg)])
  | Transient msg =>
      let n := Attempts e + 1 in
      if maxAttempts <=? n then
        let e' := {| ID := ID e; From := From e; Rcpt := Rcpt e; Domain := Domain e;
                     Attempts := n; NextAttempt := NextAttempt e; Created := Created e;
                     LastError := msg; Data := Data e |} in
        MkSched (Remove io (s_q s) e) (IncBounced (s_counters s))
          (s_events s ++ [EvBounced e' ("giving up after " +:+ dec n +:+
                                        " attempts; last error: " +:+ msg)])
      else
        match backoff n with
        | None => MkSched (s_q s) (s_counters s) (s_events s ++ [EvPanic])
        | Some d =>
            let e' := deferred_env e now d msg in
            let '(q, err) := Update io (s_q s) e' in
            MkSched q (IncDeferred (s_counters s))
              (s_events s ++ [EvDeferred e' (match err with None => true | Some _ => false end)])
        end
  end.

(** [Process]: every due envelope once. *)
Definition Process (io : QueueIO) (maxAttempts : Z) (deliver : Envelope → outcome)
    (s : sched) (now : Z) : sched :=
  foldl (λ s e, attempt io maxAttempts deliver s e now) s (Due io (s_q s) now).1.

(** ** Bounces *)

Definition maxOriginalHeaders : Z := 8 * 1024.

Definition originalHeaders (data : string) : string :=
  let i := Index data (CRLF +:+ CRLF) in
  let fin := if i <? 0 then slen data else i in
  slice_to data (if maxOriginalHeaders <? fin then maxOriginalHeaders else fin).

Definition quoted (s : string) : string := String DQUOTE s +:+ String DQUOTE "".

(** [date] is the clock in RFC 1123 format. *)
Definition BuildBounce (hostname : string) (e : Envelope) (reason date : string) : option string :=
  if is_empty (From e) then None else
  let boundary := "kavira-dsn-" +:+ ID e in
  let tab := String TAB "" in
  let line s := s +:+ CRLF in
  Some (
    line ("From: Mail Delivery System <MAILER-DAEMON@" +:+ hostname +:+ ">") +:+
    line ("To: <" +:+ From e +:+ ">") +:+
    line "Subject: Undelivered Mail Returned to Sender" +:+
    line ("Date: " +:+ date) +:+
    line "Auto-Submitted: auto-replied" +:+
    line "MIME-Version: 1.0" +:+
    line "Content-Type: multipart/report; report-type=delivery-status;" +:+
    line (tab +:+ "boundary=" +:+ quoted boundary) +:+
    line "" +:+
    line ("--" +:+ boundary) +:+ line "Content-Type: text/plain; charset=utf-8" +:+ line "" +:+
    line ("This is the mail system at host " +:+ hostname +:+ ".") +:+ line "" +:+
    line "Your message could not be delivered to:" +:+ line "" +:+
    line (tab +:+ "<" +:+ Rcpt e +:+ ">") +:+ line "" +:+
    line ("Reason: " +:+ reason) +:+
    line "" +:+ line ("--" +:+ boundary) +:+
    line "Content-Type: message/delivery-status" +:+ line "" +:+
    line ("Reporting-MTA: dns; " +:+ hostname) +:+ line "" +:+
    line ("Final-Recipient: rfc822; " +:+ Rcpt e) +:+
    line "Action: failed" +:+
    line "Status: 5.0.0" +:+
    line ("Diagnostic-Code: smtp; " +:+ reason) +:+
    line "" +:+ line ("--" +:+ boundary) +:+
    line "Content-Type: text/rfc822-headers" +:+ line "" +:+
    originalHeaders (Data e) +:+
    line "" +:+ line ("--" +:+ boundary +:+ "--")).

(** ** The SMTP transport *)

(** An error of [net/smtp]: a protocol reply or anything else. *)
Inductive client_error :=
  | EProto (code : Z) (msg : string)
  | EOther (msg : string).

(** How a remote host answers each step of a transaction; [None] is
    success. *)
Record Remote := MkRemote {
  r_dial : option string;
  r_greeting : option client_error;
  r_hello : option client_error;
  r_offers_starttls : bool;
  r_starttls : option client_error;
  r_mail : string → option client_error;
  r_rcpt : string → option client_error;
  r_data : option client_error;
  r_write : option client_error;
  r_close : option client_error;
  r_quit : option client_error;
}.

Definition pad3 (z : Z) : string :=
  if z <? 10 then "00" +:+ dec z else if z <? 100 then "0" +:+ dec z else dec z.

Definition error_text (err : client_error) : string :=
  match err with EProto code msg => pad3 code +:+ " " +:+ msg | EOther msg => msg end.

Definition classify (err : client_error) : outcome :=
  match err with
  | EProto code msg =>
      if (500 <=? code) && (code <? 600) then Permanent code msg else Transient (error_text err)
  | EOther msg => Transient msg
  end.

(** Runs the steps in order; the first failure is classified. *)
Fixpoint run_steps (steps : list (option client_error)) : outcome :=
  match steps with
  | [] => Delivered
  | Some err :: _ => classify err
  | None :: steps => run_steps steps
  end.

Definition trySend (r : Remote) (e : Envelope) : outcome :=
  match r_dial r with
  | Some msg => Transient msg
  | None =>
      match run_steps ([r_greeting r; r_hello r]
                       ++ (if r_offers_starttls r then [r_starttls r] else [])
                       ++ [r_mail r (From e); r_rcpt r (Rcpt e); r_data r; r_write r; r_close r]) with
      | Delivered =>
          (* [return c.Quit()]: not classified *)
          match r_quit r with None => Delivered | Some err => Transient (error_text err) end
      | o => o
      end
  end.

Definition trimDot (h : string) : string :=
  if (0 <? slen h) && HasSuffix h "." then slice_to h (slen h - 1) else h.

(** [mxHosts]; [lookup] is [net.LookupMX], preference and host. *)
Definition mxHosts `{SliceSort} (lookup : string → option (list (Z * string))) (domain : string)
    : list string :=
  match lookup domain with
  | None | Some [] => [domain]
  | Some mxs => (λ mx, trimDot mx.2) <$> sort_slice (less_by fst) mxs
  end.

(** The loop of [Deliver] with the last error so far. *)
Fixpoint try_hosts (remote : string → Remote) (e : Envelope) (hosts : list string) (lastErr : string)
    : outcome :=
  match hosts with
  | [] => Transient lastErr
  | h :: hosts =>
      match trySend (remote h) e with
      | Transient msg => try_hosts remote e hosts msg
      | o => o
      end
  end.

Definition Deliver `{SliceSort} (lookup : string → option (list (Z * string)))
    (remote : string → Remote) (e : Envelope) : outcome :=
  try_hosts remote e (mxHosts lookup (Domain e)) ("no MX hosts for " +:+ Domain e).

(** The hosts a delivery contacts, in order. *)
Fixpoint contacted (remote : string → Remote) (e : Envelope) (hosts : list string) : list string :=
  match hosts with
  | [] => []
  | h :: hosts =>
      h :: match trySend (remote h) e with
           | Transient _ => contacted remote e hosts
           | _ => []
           end
  end.

(** The host took responsibility for the message: it answered the end of
    the data with success. *)
Definition accepted (r : Remote) (e : Envelope) : bool :=
  match r_dial r with
  | Some _ => false
  | None =>
      forallb (λ o, match o with None => true | Some _ => false end)
        ([r_greeting r; r_hello r] ++ (if r_offers_starttls r then [r_starttls r] else [])
         ++ [r_mail r (From e); r_rcpt r (Rcpt e); r_data r; r_write r; r_close r])
  end.

(** ** Specifications *)

Definition backoff_or0 (n : Z) : Z := match backoff n with Some d => d | None => 0 end.

(** What one attempt on a due envelope must report. *)
Definition verdict (maxAttempts now : Z) (deliver : Envelope → outcome) (e : Envelope) : event :=
  match deliver e with
  | Delivered => EvDelivered e
  | Permanent code msg => EvBounced e (perm_error code msg)
  | Transient msg =>
      let e' := deferred_env e now (backoff_or0 (Attempts e + 1)) msg in
      if maxAttempts <=? Attempts e + 1 then
        EvBounced {| ID := ID e; From := From e; Rcpt := Rcpt e; Domain := Domain e;
                     Attempts := Attempts e + 1; NextAttempt := NextAttempt e;
                     Created := Created e; LastError := msg; Data := Data e |}
          ("giving up after " +:+ dec (Attempts e + 1) +:+ " attempts; last error: " +:+ msg)
      else EvDeferred e' true
  end.

(** What the queue holds for the envelope once that was reported. *)
Definition kept (ev : event) : option content :=
  match ev with EvDeferred e _ => Some (QEnvelope e) | _ => None end.

(** The entry of a name after a round of the scheduler. *)
Definition disposed (maxAttempts now : Z) (deliver : Envelope → outcome) (c : option content)
    : option content :=
  match c with
  | Some (QEnvelope e) =>
      if is_due now e then kept (verdict maxAttempts now deliver e) else c
  | _ => c
  end.

(** Every parsable entry is under its own name and has counted a natural
    number of attempts. *)
Definition consistent (q : Queue) : Prop :=
  map_Forall (λ n c, match c with
    | QEnvelope e => HasSuffix n ".json" = true → n = path (ID e) ∧ 0 <= Attempts e
    | QGarbage => True
    end) q.

Definition event_env (ev : event) : option Envelope :=
  match ev with
  | EvDelivered e | EvBounced e _ | EvDeferred e _ => Some e
  | EvPanic => None
  end.

(** The event settles the fate of the envelope of that identifier. *)
Definition settles (id : string) (ev : event) : Prop :=
  match ev with
  | EvDelivered e | EvBounced e _ => ID e = id
  | EvDeferred _ _ | EvPanic => False
  end.
#[global] Instance settles_dec id ev : Decision (settles id ev).
Proof. destruct ev; cbn; apply _. Defined.

Definition count_event (c : option Counters) (ev : event) : option Counters :=
  match ev with
  | EvDelivered _ => IncDelivered c
  | EvBounced _ _ => IncBounced c
  | EvDeferred _ _ => IncDeferred c
  | EvPanic => c
  end.

(** Rounds of the scheduler, each with its instant and the answers of the
    transport during it. *)
Definition rounds (io : QueueIO) (maxAttempts : Z) (s : sched)
    (rs : list (Z * (Envelope → outcome))) : sched :=
  foldl (λ s r, Process io maxAttempts r.2 s r.1) s rs.

(** Instants that leave every deferred envelope the time to become due. *)
Fixpoint spaced (t : Z) (ts : list Z) : Prop :=
  match ts with [] => True | t' :: ts => t <= t' ∧ spaced (t' + 4 * Hour) ts end.

(** The entries of the queue: what [load] looks at. *)
Definition entries (q : Queue) : Queue := filter (λ nc, HasSuffix nc.1 ".json" = true) q.

(** ** Names *)

Lemma path_inj a b : path a = path b → a = b.
Proof. apply sapp_inv_tail. Qed.

Lemma tmp_not_path a b : path a +:+ ".tmp" ≠ path b.
Proof. unfold path. apply (sapp_last_neq _ b "p"%char "n"%char ".tm" ".jso"). done. Qed.

Lemma json_path n : HasSuffix n ".json" = true → ∃ id, n = path id.
Proof. intros H%HasSuffix_spec. eauto. Qed.

Lemma path_json id : HasSuffix (path id) ".json" = true.
Proof. apply HasSuffix_app. Qed.

#[local] Hint Resolve path_inj tmp_not_path path_json : kavira.

Lemma tmp_not_json id : HasSuffix (path id +:+ ".tmp") ".json" ≠ true.
Proof. intros [id' H]%json_path. by apply tmp_not_path in H. Qed.

Lemma entries_insert q id c : entries (<[path id := c]> q) = <[path id := c]> (entries q).
Proof. apply map_filter_insert_True, path_json. Qed.

Lemma entries_delete_tmp q id : entries (delete (path id +:+ ".tmp") q) = entries q.
Proof.
  unfold entries. rewrite map_filter_delete, delete_id; [done|].
  apply map_lookup_filter_None_2. right. intros c _. apply tmp_not_json.
Qed.

Lemma entries_insert_tmp q id c : entries (<[path id +:+ ".tmp" := c]> q) = entries q.
Proof.
  unfold entries at 1. rewrite map_filter_insert_False by apply tmp_not_json.
  apply entries_delete_tmp.
Qed.

Lemma entry_names_spec q n : n ∈ entry_names q ↔ HasSuffix n ".json" = true ∧ is_Some (q !! n).
Proof.
  unfold entry_names. rewrite list_elem_of_filter, insertion_sort_perm.
  rewrite list_elem_of_fmap. split; (intros [Hs H]; split; [done|]).
  - destruct H as ([k c]&->&H%elem_of_map_to_list). by exists c.
  - destruct H as [c H]. exists (n, c). split; [done|]. by apply elem_of_map_to_list.
Qed.

Lemma entry_names_NoDup q : NoDup (entry_names q).
Proof.
  apply NoDup_filter. rewrite insertion_sort_perm. apply NoDup_fst_map_to_list.
Qed.

(** ** Loading *)

Lemma sink_perm x rl : sink x rl ≡ₚ x :: rl.
Proof.
  induction rl as [|y rl IH]; simpl; [done|].
  case_goal; [|done]. rewrite IH. apply Permutation_swap.
Qed.

Lemma oldest_first_perm l : oldest_first l ≡ₚ l.
Proof.
  unfold oldest_first. rewrite Permutation_rev, rev_involutive.
  enough (∀ rl, foldl (λ rl x, sink x rl) rl l ≡ₚ l ++ rl) as H by (by rewrite H, app_nil_r).
  induction l as [|x l IH]; intros rl; simpl; [done|].
  rewrite IH, sink_perm. by rewrite Permutation_middle.
Qed.

Lemma sink_sorted x rl :
  StronglySorted (λ a b, Created b <= Created a) rl →
  StronglySorted (λ a b, Created b <= Created a) (sink x rl).
Proof.
  induction 1 as [|y rl Hs IH Hy]; simpl; [by repeat constructor|].
  unfold time_Before. case_goal; reflect_bool; constructor.
  - done.
  - rewrite sink_perm. constructor; [lia|done].
  - by constructor.
  - constructor; [lia|]. eapply Forall_impl; [exact Hy|]. cbn. lia.
Qed.

Lemma oldest_first_sorted l : StronglySorted (λ a b, Created a <= Created b) (oldest_first l).
Proof.
  apply (StronglySorted_rev (λ a b, Created b <= Created a)).
  enough (∀ rl, StronglySorted (λ a b, Created b <= Created a) rl →
    StronglySorted (λ a b, Created b <= Created a) (foldl (λ rl x, sink x rl) rl l)) as H
    by (apply H; constructor).
  induction l as [|x l IH]; intros rl Hrl; simpl; [done|]. by apply IH, sink_sorted.
Qed.

Lemma read_entry_no_faults q n e : read_entry no_faults q n = Some e ↔ q !! n = Some (QEnvelope e).
Proof.
  unfold read_entry. simpl. destruct (q !! n) as [[]|]; split; congruence.
Qed.

(** The due envelopes are the due entries of the directory. *)
Lemma Due_spec q now e :
  e ∈ (Due no_faults q now).1 ↔
  is_due now e = true ∧ ∃ n, HasSuffix n ".json" = true ∧ q !! n = Some (QEnvelope e).
Proof.
  unfold Due, load. simpl. rewrite list_elem_of_filter, oldest_first_perm, list_elem_of_omap.
  split; intros [Hd (n&H1&H2)]; (split; [done|]); exists n.
  - apply read_entry_no_faults in H2. apply entry_names_spec in H1 as [? _]. done.
  - rewrite entry_names_spec, read_entry_no_faults. eauto.
Qed.

Lemma omap_read_NoDup q names :
  consistent q → NoDup names → Forall (λ n, HasSuffix n ".json" = true) names →
  NoDup (ID <$> omap (read_entry no_faults q) names).
Proof.
  intros Hq. induction 1 as [|n names Hn Hnd IH]; [constructor|].
  intros [Hj Hall]%Forall_cons. simpl. destruct (read_entry _ q n) as [e|] eqn:E; [|auto].
  apply NoDup_cons. split; [|auto].
  intros (e'&Hid&(n'&Hn'&E')%list_elem_of_omap)%list_elem_of_fmap.
  apply read_entry_no_faults in E, E'. rewrite Forall_forall in Hall.
  destruct (map_Forall_lookup_1 _ _ _ _ Hq E Hj) as [-> _].
  destruct (map_Forall_lookup_1 _ _ _ _ Hq E' (Hall _ Hn')) as [-> _]. congruence.
Qed.

Lemma Due_NoDup q now : consistent q → NoDup (ID <$> (Due no_faults q now).1).
Proof.
  intros Hq. unfold Due, load. simpl.
  assert (NoDup (ID <$> oldest_first (omap (read_entry no_faults q) (entry_names q)))) as Hnd.
  { rewrite oldest_first_perm. apply omap_read_NoDup; [done|apply entry_names_NoDup|].
    apply Forall_forall. by intros n [? _]%entry_names_spec. }
  revert Hnd. generalize (oldest_first (omap (read_entry no_faults q) (entry_names q))).
  induction l as [|x l IH]; [done|]. rewrite filter_cons, fmap_cons, NoDup_cons. intros [Hx Hl].
  case_decide; [|auto]. rewrite fmap_cons, NoDup_cons. split; [|auto].
  intros (y&E&[_ Hy]%list_elem_of_filter)%list_elem_of_fmap. apply Hx. rewrite E. by apply list_elem_of_fmap_2.
Qed.

Lemma Due_sorted q now : StronglySorted (λ a b, Created a <= Created b) (Due no_faults q now).1.
Proof. unfold Due, load. simpl. apply StronglySorted_filter, oldest_first_sorted. Qed.

(** ** One attempt *)

Lemma backoff_spec n : 1 <= n → backoff n = Some (Z.min (Minute * 2 ^ (n - 1)) (4 * Hour)).
Proof.
  intros Hn. unfold backoff.
  assert (∀ k, 8 <= k → 4 * Hour < Minute * 2 ^ k) as Hbig.
  { intros k Hk. assert (2 ^ 8 <= 2 ^ k) by (apply Z.pow_le_mono_r; lia).
    change (2 ^ 8) with 256 in *. unfold Hour, Minute, Second in *. lia. }
  destruct (Z.ltb_spec 9 n).
  - specialize (Hbig (n - 1) ltac:(lia)). rewrite Z.min_r by lia. reflexivity.
  - destruct (Z.ltb_spec (n - 1) 0); [lia|]. rewrite Z.shiftl_mul_pow2 by lia.
    f_equal. case_goal; reflect_bool; lia.
Qed.

Lemma backoff_or0_range n : 1 <= n → Minute <= backoff_or0 n <= 4 * Hour.
Proof.
  intros Hn. unfold backoff_or0. rewrite backoff_spec by done.
  assert (1 <= 2 ^ (n - 1)) by (apply (Z.pow_le_mono_r 2 0); lia).
  unfold Hour, Minute, Second in *. lia.
Qed.

Lemma write_no_faults q e id :
  (write no_faults q e).1 !! path id = if decide (id = ID e) then Some (QEnvelope e) else q !! path id.
Proof.
  unfold write, write_trace. simpl. case_decide as Hid.
  - subst. by rewrite lookup_insert_eq.
  - rewrite lookup_insert_ne by (by intros ?%path_inj).
    rewrite lookup_delete_ne, lookup_insert_ne by eauto with kavira. done.
Qed.

Lemma Remove_no_faults q e id :
  Remove no_faults q e !! path id = if decide (id = ID e) then None else q !! path id.
Proof.
  unfold Remove. simpl. case_decide as Hid; [subst; apply lookup_delete_eq|].
  rewrite lookup_delete_ne; [done|by intros ?%path_inj].
Qed.

Lemma attempt_spec mx deliver s e now id : 0 <= Attempts e →
  s_q (attempt no_faults mx deliver s e now) !! path id =
    (if decide (id = ID e) then kept (verdict mx now deliver e) else s_q s !! path id) ∧
  s_events (attempt no_faults mx deliver s e now) = s_events s ++ [verdict mx now deliver e].
Proof.
  intros Ha. unfold attempt, verdict. destruct (deliver e) as [|code msg|msg]; simpl.
  1-2: by rewrite Remove_no_faults.
  unfold backoff_or0. rewrite backoff_spec by lia. case_goal; simpl; [by rewrite Remove_no_faults|].
  split; [|done]. exact (write_no_faults (s_q s) (deferred_env e now _ msg) id).
Qed.

Lemma attempts_spec mx deliver now l s : NoDup (ID <$> l) → Forall (λ e, 0 <= Attempts e) l →
  let s' := foldl (λ s e, attempt no_faults mx deliver s e now) s l in
  (∀ e, e ∈ l → s_q s' !! path (ID e) = kept (verdict mx now deliver e)) ∧
  (∀ id, id ∉ ID <$> l → s_q s' !! path id = s_q s !! path id) ∧
  s_events s' = s_events s ++ (verdict mx now deliver <$> l).
Proof.
  revert s. induction l as [|e l IH]; intros s; simpl.
  { intros _ _. rewrite app_nil_r. split_and!; [by intros e ?%elem_of_nil|done..]. }
  intros [He Hnd]%NoDup_cons [Ha Hall]%Forall_cons.
  destruct (IH (attempt no_faults mx deliver s e now) Hnd Hall) as (H1&H2&H3). split_and!.
  - intros e' [->|Hin]%elem_of_cons; [|auto].
    rewrite H2 by done. rewrite (proj1 (attempt_spec mx deliver s e now (ID e) Ha)).
    by rewrite decide_True.
  - intros id [Hid Hid']%not_elem_of_cons. rewrite H2 by done.
    rewrite (proj1 (attempt_spec mx deliver s e now id Ha)). by rewrite decide_False.
  - rewrite H3, (proj2 (attempt_spec mx deliver s e now "" Ha)), <- app_assoc. done.
Qed.

Lemma Due_Attempts q now : consistent q → Forall (λ e, 0 <= Attempts e) (Due no_faults q now).1.
Proof.
  intros Hq. apply Forall_forall. intros e (_&n&Hj&He)%Due_spec.
  by destruct (map_Forall_lookup_1 _ _ _ _ Hq He Hj).
Qed.

(** What a round does to the entry of each name, and what it reports. *)
Lemma Process_entries mx deliver s now : consistent (s_q s) →
  let s' := Process no_faults mx deliver s now in
  (∀ n, HasSuffix n ".json" = true → s_q s' !! n = disposed mx now deliver (s_q s !! n)) ∧
  s_events s' = s_events s ++ (verdict mx now deliver <$> (Due no_faults (s_q s) now).1).
Proof.
  intros Hq s'.
  destruct (attempts_spec mx deliver now _ s (Due_NoDup (s_q s) now Hq) (Due_Attempts (s_q s) now Hq))
    as (H1&H2&H3). split; [|exact H3].
  intros n Hj. destruct (s_q s !! n) as [[e|]|] eqn:En; simpl.
  - destruct (map_Forall_lookup_1 _ _ _ _ Hq En Hj) as [-> _].
    destruct (is_due now e) eqn:Hd.
    + apply H1. apply Due_spec. eauto.
    + rewrite <- En. apply H2. intros (e'&Hid&(Hd'&n'&Hj'&He')%Due_spec)%list_elem_of_fmap.
      destruct (map_Forall_lookup_1 _ _ _ _ Hq He' Hj') as [-> _]. congruence.
  - destruct (json_path n Hj) as [id ->]. rewrite <- En. apply H2.
    intros (e'&->&(_&n'&Hj'&He')%Due_spec)%list_elem_of_fmap.
    destruct (map_Forall_lookup_1 _ _ _ _ Hq He' Hj') as [-> _]. congruence.
  - destruct (json_path n Hj) as [id ->]. rewrite <- En. apply H2.
    intros (e'&->&(_&n'&Hj'&He')%Due_spec)%list_elem_of_fmap.
    destruct (map_Forall_lookup_1 _ _ _ _ Hq He' Hj') as [-> _]. congruence.
Qed.

Lemma kept_ID mx now deliver e c :
  kept (verdict mx now deliver e) = Some c →
  ∃ msg, c = QEnvelope (deferred_env e now (backoff_or0 (Attempts e + 1)) msg) ∧
         deliver e = Transient msg ∧ Attempts e + 1 < mx.
Proof.
  unfold verdict. destruct (deliver e) as [| |msg]; simpl; [done..|].
  case_goal; simpl; intros [=<-]. reflect_bool. eauto.
Qed.

Lemma Process_consistent mx deliver s now :
  consistent (s_q s) → consistent (s_q (Process no_faults mx deliver s now)).
Proof.
  intros Hq. pose proof (Process_entries mx deliver s now Hq) as [Hn _].
  apply map_Forall_lookup_2. intros n [e'|] He'; [|done]. intros Hj.
  rewrite Hn in He' by done. unfold disposed in He'.
  destruct (s_q s !! n) as [[e|]|] eqn:En; try done.
  destruct (map_Forall_lookup_1 _ _ _ _ Hq En Hj) as [-> Ha].
  destruct (is_due now e).
  - apply kept_ID in He' as (msg&[=->]&_). simpl. split; [done|lia].
  - simplify_eq. done.
Qed.

(** ** Rounds *)

Lemma fmap_event_env mx now deliver e : ∃ e', event_env (verdict mx now deliver e) = Some e' ∧ ID e' = ID e.
Proof.
  unfold verdict. destruct (deliver e); cbn; [eauto..|]. case_goal; cbn; eauto.
Qed.

Lemma settles_verdict mx now deliver e id :
  settles id (verdict mx now deliver e) ↔ ID e = id ∧ kept (verdict mx now deliver e) = None.
Proof.
  unfold verdict. destruct (deliver e); cbn; [intuition..|]. case_goal; cbn; intuition congruence.
Qed.

(** The events of a round that settle an envelope present in it. *)
Lemma settling_in mx now deliver id l e : NoDup (ID <$> l) → e ∈ l → ID e = id →
  length (filter (settles id) (verdict mx now deliver <$> l)) =
  match kept (verdict mx now deliver e) with None => 1%nat | Some _ => 0%nat end.
Proof.
  intros Hnd Hin Hid. induction l as [|e' l IH]; [by apply elem_of_nil in Hin|].
  rewrite fmap_cons, NoDup_cons in Hnd. destruct Hnd as [He' Hnd].
  rewrite fmap_cons, filter_cons.
  assert (Hout : e = e' → filter (settles id) (verdict mx now deliver <$> l) = []).
  { intros <-. apply filter_none. intros ev (x&->&Hx)%list_elem_of_fmap.
    intros [Hx' _]%settles_verdict. apply He'. rewrite Hid, <- Hx'. by apply list_elem_of_fmap_2. }
  apply elem_of_cons in Hin as [<-|Hin].
  - rewrite (Hout eq_refl). destruct (settles_verdict mx now deliver e id) as [H1 H2].
    case_decide as Hs; [by rewrite (proj2 (H1 Hs))|].
    destruct (kept _); [done|]. by destruct Hs; auto.
  - case_decide as Hs; [|auto]. apply settles_verdict in Hs as [Hs _].
    exfalso. apply He'. rewrite Hs, <- Hid. by apply list_elem_of_fmap_2.
Qed.

Lemma settling_out mx now deliver id l : id ∉ ID <$> l →
  filter (settles id) (verdict mx now deliver <$> l) = [].
Proof.
  intros Hid. apply filter_none. intros ev (x&->&Hx)%list_elem_of_fmap.
  intros [Hx' _]%settles_verdict. apply Hid. rewrite <- Hx'. by apply list_elem_of_fmap_2.
Qed.

(** An identifier without an entry is neither reported nor created. *)
Lemma Process_absent mx deliver s now id : consistent (s_q s) → s_q s !! path id = None →
  let s' := Process no_faults mx deliver s now in
  s_q s' !! path id = None ∧ filter (settles id) (s_events s') = filter (settles id) (s_events s).
Proof.
  intros Hq Hid s'. destruct (Process_entries mx deliver s now Hq) as [Hn He].
  unfold s'. split; [by rewrite (Hn _ (path_json id)), Hid|].
  rewrite He, filter_app, settling_out, app_nil_r; [done|].
  intros (e&->&(_&n&Hj&Hn')%Due_spec)%list_elem_of_fmap.
  destruct (map_Forall_lookup_1 _ _ _ _ Hq Hn' Hj) as [-> _]. congruence.
Qed.

(** A due entry is settled, or stays with one more attempt on its count. *)
Lemma Process_present mx deliver s now id e : consistent (s_q s) →
  s_q s !! path id = Some (QEnvelope e) → is_due now e = true →
  let s' := Process no_faults mx deliver s now in
  (s_q s' !! path id = None ∧
   length (filter (settles id) (s_events s')) = S (length (filter (settles id) (s_events s)))) ∨
  (∃ e', s_q s' !! path id = Some (QEnvelope e') ∧ Attempts e' = Attempts e + 1 ∧
   Attempts e' < mx ∧ NextAttempt e' <= now + 4 * Hour ∧
   filter (settles id) (s_events s') = filter (settles id) (s_events s)).
Proof.
  intros Hq Hid Hd s'. destruct (Process_entries mx deliver s now Hq) as [Hn He].
  destruct (map_Forall_lookup_1 _ _ _ _ Hq Hid (path_json id)) as [Hp%path_inj Ha].
  specialize (Hn _ (path_json id)). rewrite Hid in Hn. simpl in Hn. rewrite Hd in Hn.
  assert (Hin : e ∈ (Due no_faults (s_q s) now).1) by (apply Due_spec; eauto using path_json).
  pose proof (settling_in mx now deliver id _ e (Due_NoDup (s_q s) now Hq) Hin (eq_sym Hp)) as Hl.
  unfold s'. rewrite Hn, He, filter_app, length_app, Hl.
  destruct (kept (verdict mx now deliver e)) as [c|] eqn:Hk; [right|left; split; [done|lia]].
  apply kept_ID in Hk as (msg&->&_&Hlt). eexists. split; [done|].
  apply nil_length_inv in Hl. rewrite Hl, app_nil_r.
  pose proof (backoff_or0_range (Attempts e + 1) ltac:(lia)). simpl. split_and!; lia || done.
Qed.

Lemma rounds_absent mx s rs id : consistent (s_q s) → s_q s !! path id = None →
  s_q (rounds no_faults mx s rs) !! path id = None ∧
  filter (settles id) (s_events (rounds no_faults mx s rs)) = filter (settles id) (s_events s).
Proof.
  revert s. induction rs as [|[now d] rs IH]; intros s Hq Hid; [done|].
  destruct (Process_absent mx d s now id Hq Hid) as [H1 H2].
  destruct (IH (Process no_faults mx d s now)) as [H3 H4]; [by apply Process_consistent|done|].
  split; [exact H3|]. exact (eq_trans H4 H2).
Qed.

(** ** Properties *)

(** C11: a round of the scheduler gives every due envelope exactly one
    attempt, oldest first, and disposes of it as the remote answered:
    the entry of a delivered or bounced envelope is gone, the entry of a
    deferred one counts one more attempt and waits for its back-off; every
    other entry is left as it was.  No call on the queue directory may
    fail and every entry bears the identifier of its envelope
    ([no_faults], [consistent]). *)
Theorem Process_spec maxAttempts deliver s now : consistent (s_q s) →
  let s' := Process no_faults maxAttempts deliver s now in
  let due := (Due no_faults (s_q s) now).1 in
  (∀ n, HasSuffix n ".json" = true →
     s_q s' !! n = disposed maxAttempts now deliver (s_q s !! n)) ∧
  s_events s' = s_events s ++ (verdict maxAttempts now deliver <$> due) ∧
  StronglySorted (λ a b, Created a <= Created b) due ∧ NoDup (ID <$> due) ∧
  (∀ e, e ∈ due ↔ is_due now e = true ∧ s_q s !! path (ID e) = Some (QEnvelope e)) ∧
  consistent (s_q s').
Proof.
  intros Hq s' due. destruct (Process_entries maxAttempts deliver s now Hq) as [H1 H2].
  split_and!; [done|done|apply Due_sorted|by apply Due_NoDup| |by apply Process_consistent].
  intros e. unfold due. rewrite Due_spec. split; [|intros [? ?]; eauto using path_json].
  intros (Hd&n&Hj&He). by destruct (map_Forall_lookup_1 _ _ _ _ Hq He Hj) as [-> _].
Qed.

Definition sample_env (id : string) (attempts created : Z) : Envelope :=
  MkEnvelope id "a@x.org" "b@y.org" "y.org" attempts 10 created "" "".

Definition sample_queue : Queue :=
  {[ "1.json" := QEnvelope (sample_env "1" 0 5); "2.json" := QEnvelope (sample_env "2" 4 3);
     "3.json" := QGarbage ]}.

Lemma sample_queue_consistent : consistent sample_queue.
Proof. repeat (apply map_Forall_insert_2; [done|]). apply map_Forall_empty. Qed.

Lemma Process_spec_witness :
  let s := MkSched sample_queue None [] in
  let s' := Process no_faults 5 (λ _, Transient "later") s 20 in
  s_q s' !! "1.json" = Some (QEnvelope (deferred_env (sample_env "1" 0 5) 20 Minute "later")) ∧
  s_q s' !! "2.json" = None.
Proof.
  intros s s'. destruct (Process_spec 5 (λ _, Transient "later") s 20 sample_queue_consistent) as [H _].
  unfold s'. rewrite !H by reflexivity. split; vm_compute; reflexivity.
Defined.

(** C10: whatever the remotes answer, an accepted message does not stay in
    the queue for ever and is not lost silently: after as many rounds as
    attempts were left to it, each late enough, its entry is gone and it
    was reported exactly once as delivered or bounced.  No call on the
    queue directory may fail and every entry bears the identifier of its
    envelope ([no_faults], [consistent]). *)
Theorem bounded_retries maxAttempts s rs id e :
  consistent (s_q s) → s_q s !! path id = Some (QEnvelope e) →
  spaced (NextAttempt e) rs.*1 → maxAttempts - Attempts e <= llen rs → 1 <= llen rs →
  let s' := rounds no_faults maxAttempts s rs in
  s_q s' !! path id = None ∧
  length (filter (settles id) (s_events s')) = S (length (filter (settles id) (s_events s))).
Proof.
  revert s e. induction rs as [|[now d] rs IH]; intros s e Hq Hid Hsp Hmx Hlen; [done|].
  simpl in Hsp. destruct Hsp as [Hle Hsp]. rewrite llen_cons in Hmx.
  assert (Hd : is_due now e = true)
    by (unfold is_due, time_After; apply negb_true_iff, Z.ltb_ge; lia).
  pose proof (Process_consistent maxAttempts d s now Hq) as Hq'.
  destruct (Process_present maxAttempts d s now id e Hq Hid Hd)
    as [[Hgone Hev]|(e'&Hp&Hat&Hlt&Hna&Hev)].
  - destruct (rounds_absent maxAttempts (Process no_faults maxAttempts d s now) rs id Hq' Hgone)
      as [H1 H2]. split; [exact H1|]. rewrite <- Hev. exact (f_equal length H2).
  - assert (Hsp' : spaced (NextAttempt e') rs.*1).
    { destruct rs as [|[t r] rs]; [done|]. simpl in *. destruct Hsp. split; [lia|done]. }
    destruct (IH _ e' Hq' Hp Hsp') as [H1 H2]; [lia..|].
    split; [exact H1|]. cbn [rounds foldl]. rewrite <- Hev. exact H2.
Qed.

Lemma bounded_retries_witness :
  let s := MkSched sample_queue None [] in
  let r t := (t * 5 * Hour, λ _ : Envelope, Transient "later") in
  let s' := rounds no_faults 5 s [r 1; r 2; r 3; r 4; r 5] in
  s_q s' !! "1.json" = None ∧ length (filter (settles "1") (s_events s')) = 1%nat.
Proof.
  intros s r s'.
  apply (bounded_retries 5 s [r 1; r 2; r 3; r 4; r 5] "1" (sample_env "1" 0 5));
    [apply sample_queue_consistent|reflexivity|vm_compute; intuition discriminate
    |vm_compute; discriminate..].
Defined.

(** What a write leaves for the readers of the queue. *)
Lemma write_entries io q e : entries (write io q e).1 =
  match (write io q e).2 with None => <[path (ID e) := QEnvelope e]> (entries q) | Some _ => entries q end.
Proof.
  unfold write, write_trace.
  destruct (io_marshal io e); [|destruct (io_write _ _); [|destruct (io_rename _ _); [destruct (io_remove _ _)|]]];
    simpl; by rewrite ?entries_insert, ?entries_delete_tmp, ?entries_insert_tmp.
Qed.

Lemma write_trace_entries io q e q' : q' ∈ (write_trace io q e).1 →
  entries q' = entries q ∨ entries q' = <[path (ID e) := QEnvelope e]> (entries q).
Proof.
  unfold write_trace.
  destruct (io_marshal io e); [|destruct (io_write _ _); [|destruct (io_rename _ _); [destruct (io_remove _ _)|]]];
    simpl; rewrite ?elem_of_cons, elem_of_nil; intros Hin;
    repeat (destruct Hin as [->|Hin];
      [by rewrite ?entries_insert, ?entries_delete_tmp, ?entries_insert_tmp; auto|]); done.
Qed.

(** C33: a write of an envelope is atomic for the readers of the queue: every
    directory state it goes through, whichever call fails and wherever the
    process dies, holds the entries from before or those with the
    envelope in place; the latter exactly when success is reported. *)
Theorem write_atomic io q e :
  let after := <[path (ID e) := QEnvelope e]> (entries q) in
  (∀ q', q' ∈ (write_trace io q e).1 → entries q' = entries q ∨ entries q' = after) ∧
  ((write io q e).2 = None → entries (write io q e).1 = after) ∧
  ((write io q e).2 ≠ None → entries (write io q e).1 = entries q).
Proof.
  intros after. split; [|rewrite write_entries; by destruct (write io q e).2].
  intros q'. apply write_trace_entries.
Qed.

(** a recipient that splits is queued, folded to lower case, for an
    immediate first attempt, next to the entries already there; any other
    is refused and the queue is untouched. *)
Theorem Enqueue_spec q from rcpt data now rnd : consistent q →
  match Storage.Split rcpt with
  | None => (Enqueue no_faults q from rcpt data now rnd).1 = q ∧
            (Enqueue no_faults q from rcpt data now rnd).2 ≠ None
  | Some (_, domain) =>
      ∃ e, let q' := (Enqueue no_faults q from rcpt data now rnd).1 in
      (Enqueue no_faults q from rcpt data now rnd).2 = None ∧
      entries q' = <[path (newID now rnd) := QEnvelope e]> (entries q) ∧
      e ∈ (Due no_faults q' now).1 ∧ consistent q' ∧
      From e = ToLower from ∧ Rcpt e = ToLower rcpt ∧ Domain e = domain ∧ Data e = data ∧
      Attempts e = 0 ∧ ID e = newID now rnd
  end.
Proof.
  intros Hq. unfold Enqueue. destruct (Storage.Split rcpt) as [[local domain]|]; [|done].
  set (e := MkEnvelope (newID now rnd) (ToLower from) (ToLower rcpt) domain 0 now now "" data).
  exists e. set (q' := (write no_faults q e).1). cbn zeta.
  assert (Hw : ∀ id, q' !! path id = if decide (id = ID e) then Some (QEnvelope e) else q !! path id).
  { intros id. exact (write_no_faults q e id). }
  split_and!; try done.
  - unfold q', write, write_trace. simpl. by rewrite entries_insert, entries_delete_tmp, entries_insert_tmp.
  - apply Due_spec. split; [apply negb_true_iff, Z.ltb_irrefl|].
    exists (path (ID e)). split; [apply path_json|]. rewrite Hw. by rewrite decide_True.
  - apply map_Forall_lookup_2. intros n [e'|] He'; [|done]. intros Hj.
    destruct (json_path n Hj) as [id ->]. rewrite Hw in He'. case_decide; [by simplify_eq|].
    by apply (map_Forall_lookup_1 _ _ _ _ Hq He').
Qed.

Lemma Enqueue_spec_witness :
  ∃ e, e ∈ (Due no_faults (Enqueue no_faults sample_queue "A@x.org" "B@y.org" "hi" (unix_epoch + 30) 255).1 (unix_epoch + 30)).1 ∧
       Rcpt e = "b@y.org" ∧ Domain e = "y.org" ∧ ID e = "30-ff".
Proof.
  destruct (Enqueue_spec sample_queue "A@x.org" "B@y.org" "hi" (unix_epoch + 30) 255 sample_queue_consistent)
    as (e&_&_&Hd&_&_&Hr&Hdom&_&_&Hid).
  exists e. rewrite Hr, Hdom, Hid. split; [exact Hd|]. vm_compute. done.
Defined.

(** ** The transport *)

Lemma try_hosts_contacted remote e hosts err : ∃ rest,
  hosts = contacted remote e hosts ++ rest ∧
  (rest ≠ [] → ∃ h, last (contacted remote e hosts) = Some h ∧
                    trySend (remote h) e = try_hosts remote e hosts err) ∧
  Forall (λ h, ∃ msg, trySend (remote h) e = Transient msg)
    (removelast (contacted remote e hosts)).
Proof.
  revert err. induction hosts as [|h hosts IH]; intros err; [by exists []|].
  cbn [contacted try_hosts]. destruct (trySend (remote h) e) as [|code msg|msg] eqn:E.
  1-2: exists hosts; split_and!; [done|intros _; by exists h|constructor].
  destruct (IH msg) as (rest&H1&H2&H3). exists rest. split_and!.
  - simpl. by f_equal.
  - intros Hr. destruct (H2 Hr) as (h'&Hl&Ht). exists h'. split; [|done].
    destruct (contacted remote e hosts); [done|]. exact Hl.
  - destruct (contacted remote e hosts) eqn:Ec; [constructor|]. simpl. constructor; [eauto|exact H3].
Qed.

Lemma try_hosts_final remote e hosts err :
  match try_hosts remote e hosts err with
  | Transient _ => contacted remote e hosts = hosts ∧
                   Forall (λ h, ∃ msg, trySend (remote h) e = Transient msg) hosts
  | o => ∃ h, last (contacted remote e hosts) = Some h ∧ trySend (remote h) e = o
  end.
Proof.
  revert err. induction hosts as [|h hosts IH]; intros err; [done|].
  cbn [contacted try_hosts]. destruct (trySend (remote h) e) as [|code msg|msg] eqn:E; [by exists h..|].
  specialize (IH msg). destruct (try_hosts remote e hosts msg).
  1-2: destruct IH as (h'&Hl&Ht); exists h'; split; [|done];
    destruct (contacted remote e hosts); [done|exact Hl].
  destruct IH as [-> Hall]. split; [done|]. constructor; eauto.
Qed.

(** [accepted] is success of every step before [QUIT]. *)
Lemma run_steps_Delivered steps :
  run_steps steps = Delivered ↔
  forallb (λ o : option client_error, match o with None => true | Some _ => false end) steps = true.
Proof.
  induction steps as [|[err|] steps IH]; simpl; [done| |done].
  split; [|done]. destruct err as [code msg|msg]; simpl; [|done]. by case_goal.
Qed.

(** the hosts of a domain are tried best preference first, each only
    after every one before it failed for a reason that is not permanent,
    and the answer is that of the last one contacted; it is transient
    exactly when all of them were tried in vain. *)
Theorem Deliver_order `{SliceSort} lookup remote e mxs : lookup (Domain e) = Some mxs → mxs ≠ [] →
  let hosts := mxHosts lookup (Domain e) in
  let tried := contacted remote e hosts in
  (∃ sorted, hosts = (λ mx, trimDot mx.2) <$> sorted ∧ sorted ≡ₚ mxs ∧
             StronglySorted (λ a b, a.1 <= b.1) sorted) ∧
  (∃ rest, hosts = tried ++ rest) ∧
  Forall (λ h, ∃ msg, trySend (remote h) e = Transient msg) (removelast tried) ∧
  match Deliver lookup remote e with
  | Transient _ => tried = hosts ∧ Forall (λ h, ∃ msg, trySend (remote h) e = Transient msg) hosts
  | o => ∃ h, last tried = Some h ∧ trySend (remote h) e = o
  end.
Proof.
  intros Hl Hne hosts tried. unfold Deliver.
  destruct (try_hosts_contacted remote e hosts ("no MX hosts for " +:+ Domain e)) as (rest&H1&_&H3).
  split_and!; [| by exists rest | exact H3 | apply try_hosts_final].
  exists (sort_slice (less_by fst) mxs). split_and!.
  - unfold hosts, mxHosts. rewrite Hl. by destruct mxs.
  - apply sort_slice_perm.
  - apply sort_by_sorted.
Qed.

Definition healthy : Remote :=
  MkRemote None None None true None (λ _, None) (λ _, None) None None None None.

(** A server that takes the message and then drops the connection. *)
Definition hangs_up : Remote :=
  MkRemote None None None true None (λ _, None) (λ _, None) None None None (Some (EOther "EOF")).

Definition greylisting : Remote :=
  MkRemote None None None true None (λ _, None) (λ _, Some (EProto 451 "later")) None None None None.

Lemma Deliver_order_witness :
  let remote h := if String.eqb h "mx1" then greylisting else healthy in
  ∃ h, last (contacted remote (sample_env "1" 0 5)
         (mxHosts (λ _, Some [(20, "mx2."); (10, "mx1.")]) "y.org")) = Some h ∧
       trySend (remote h) (sample_env "1" 0 5) = Delivered.
Proof.
  intros remote.
  destruct (Deliver_order (λ _, Some [(20, "mx2."); (10, "mx1.")]) remote (sample_env "1" 0 5)
              [(20, "mx2."); (10, "mx1.")]) as (_&_&_&H); [reflexivity|discriminate|].
  replace (Deliver _ _ _) with Delivered in H by (vm_compute; reflexivity). exact H.
Defined.

(** delivery is not at most once: a host that acknowledged the message
    and then failed to answer [QUIT] counts as a failure, so that the same
    message goes to the next host as well. *)
Theorem quit_failure_duplicates remote e h1 h2 hosts msg err :
  accepted (remote h1) e = true → r_quit (remote h1) = Some (EOther msg) →
  try_hosts remote e (h1 :: h2 :: hosts) err = try_hosts remote e (h2 :: hosts) msg ∧
  (∃ tl, contacted remote e (h1 :: h2 :: hosts) = h1 :: h2 :: tl).
Proof.
  intros Ha Hq.
  assert (Ht : trySend (remote h1) e = Transient msg).
  { unfold accepted in Ha. unfold trySend. destruct (r_dial _); [done|].
    by rewrite (proj2 (run_steps_Delivered _) Ha), Hq. }
  cbn [try_hosts contacted]. rewrite Ht. split; [done|]. eauto.
Qed.

Lemma quit_failure_duplicates_witness :
  let remote h := if String.eqb h "mx1" then hangs_up else healthy in
  try_hosts remote (sample_env "1" 0 5) ["mx1"; "mx2"] "" =
    try_hosts remote (sample_env "1" 0 5) ["mx2"] "EOF".
Proof.
  intros remote.
  apply (quit_failure_duplicates remote (sample_env "1" 0 5) "mx1" "mx2"); reflexivity.
Defined.

(** ** Bounces *)

Lemma HasPrefix_stake n s : HasPrefix s (stake n s) = true.
Proof.
  revert s; induction n as [|n IH]; intros [|c s]; simpl; [done..|]. by rewrite Ascii.eqb_refl, IH.
Qed.

(** a bounce exists exactly for a message that has a sender, a bounce
    itself has none, so that bounces are never bounced; what is quoted of
    the original is a prefix of it of at most 8 KiB that reaches at most to
    the end of its header. *)
Theorem BuildBounce_spec hostname e reason date :
  (BuildBounce hostname e reason date = None ↔ From e = "") ∧
  (∀ q rcpt data now rnd q' n e', Enqueue no_faults q "" rcpt data now rnd = (q', None) →
     q !! n ≠ q' !! n → q' !! n = Some (QEnvelope e') → BuildBounce hostname e' reason date = None) ∧
  HasPrefix (Data e) (originalHeaders (Data e)) = true ∧
  slen (originalHeaders (Data e)) <= maxOriginalHeaders ∧
  (0 <= Index (Data e) (CRLF +:+ CRLF) → slen (originalHeaders (Data e)) <= Index (Data e) (CRLF +:+ CRLF)).
Proof.
  assert (Hlen : ∀ s n, 0 <= n → slen (slice_to s n) <= n).
  { intros s n Hn. unfold slen, slice_to. pose proof (stake_length (Z.to_nat n) s). lia. }
  split_and!.
  - unfold BuildBounce. by destruct (From e).
  - intros q rcpt data now rnd q' n e'. unfold Enqueue. destruct (Storage.Split rcpt) as [[l d]|]; [|done].
    unfold write, write_trace. simpl. intros [=<-] Hne.
    destruct (decide (n = path (newID now rnd))) as [->|Hn].
    + rewrite lookup_insert_eq. intros [=<-]. done.
    + rewrite lookup_insert_ne in * by done.
      destruct (decide (n = path (newID now rnd) +:+ ".tmp")) as [->|Ht].
      * by rewrite lookup_delete_eq.
      * rewrite lookup_delete_ne, lookup_insert_ne in Hne by done. done.
  - apply HasPrefix_stake.
  - unfold originalHeaders, maxOriginalHeaders. case_goal; [apply Hlen; lia|].
    apply Z.ltb_ge in E. etransitivity; [apply Hlen|exact E].
    case_goal; reflect_bool; [apply slen_nonneg|done].
  - intros Hi. unfold originalHeaders, maxOriginalHeaders.
    rewrite (proj2 (Z.ltb_ge _ 0) Hi). case_goal; reflect_bool.
    + etransitivity; [apply Hlen|]; lia.
    + by apply Hlen.
Qed.

(** ** Accounting *)

(** the counters of the statistics move with the reports of the
    scheduler, one for one, whatever fails in the queue directory. *)
Theorem Process_counts io maxAttempts deliver s now :
  ∃ evs, s_events (Process io maxAttempts deliver s now) = s_events s ++ evs ∧
         s_counters (Process io maxAttempts deliver s now) = foldl count_event (s_counters s) evs ∧
         length evs = length (Due io (s_q s) now).1.
Proof.
  unfold Process. generalize (Due io (s_q s) now).1. intros l. revert s.
  induction l as [|e l IH]; intros s; [exists []; by rewrite app_nil_r|].
  destruct (IH (attempt io maxAttempts deliver s e now)) as (evs&H1&H2&H3). simpl.
  assert (Hone : ∃ ev, s_events (attempt io maxAttempts deliver s e now) = s_events s ++ [ev] ∧
    s_counters (attempt io maxAttempts deliver s e now) = count_event (s_counters s) ev).
  { unfold attempt, Update. destruct (deliver e); [by eexists..|]. case_goal; [by eexists|].
    destruct (backoff _); [|by eexists]. destruct (write _ _ _). by eexists. }
  destruct Hone as (ev&E1&E2). exists (ev :: evs).
  rewrite H1, H2, E1, E2, <- app_assoc. simpl. by rewrite H3.
Qed.
