(* ===== verification/Smtp.v ===== *)
(** * SMTP: settings, backend, and the parsing of commands

    Models the declarations and the pure functions of
    [internal/smtp/server.go], and [splitAddr] of [session.go].  The
    backend is a record of functions over a world of its own, as the
    server sees it; an optional operation that is nil in the code is
    [None] here. *)

From S2P Require Import Prelude GoStrings GoUtf8 GoNet RateLimit Stats Container Storage Auth.

Inductive Mode := ModeInbound | ModeSubmission.

#[global] Instance Mode_eq_dec : EqDecision Mode.
Proof. solve_decision. Defined.

(** The limiters and counters the settings point to are state, and live
    in the session's world. *)
Record Settings := MkSettings {
  set_Hostname : string;
  MaxSize : Z;
  MaxRecipients : Z;
  set_Mode : Mode;
  ImplicitTLS : bool;
  set_TLS : bool;
  set_Identity : Identity;
}.

Inductive ScreenAction := ScreenAccept | ScreenQuarantine | ScreenReject.

Record ScreenResult := MkScreenResult {
  sr_Action : ScreenAction;
  sr_Reason : string;
  sr_AuthResults : string;
  sr_SpamHeader : string;
}.

Record Backend (W : Type) := MkBackend {
  IsLocalDomain : string → W → bool * W;
  be_Lookup : string → W → option Storage.Mailbox * W;
  be_Deliver : Storage.Mailbox → string → bool → string → W → option string * W;
  Postmaster : W → string * W;
  Authenticate : option (string → string → string → W → option auth_error * W);
  be_Enqueue : string → string → string → W → option string * W;
  Screen : option (string → string → string → string → W → ScreenResult * W);
  Sign : option (string → string → W → result string * W);
  MaySend : option (string → string → W → (bool * string) * W);
  Sent : option (string → string → W → W);
}.
Arguments IsLocalDomain {W} _ _ _.
Arguments be_Lookup {W} _ _ _.
Arguments be_Deliver {W} _ _ _ _ _ _.
Arguments Postmaster {W} _ _.
Arguments Authenticate {W} _.
Arguments be_Enqueue {W} _ _ _ _ _.
Arguments Screen {W} _.
Arguments Sign {W} _.
Arguments MaySend {W} _.
Arguments Sent {W} _.

(** ** Parsing *)

Definition remoteIP (addr : string) : string :=
  match SplitHostPort addr with Ok (host, _) => host | Err _ => addr end.

Definition parsePath (arg prefix : string) : result (string * list string) :=
  if (slen arg <? slen prefix) || negb (EqualFold (slice_to arg (slen prefix)) prefix)
  then Err (EMsg "syntax error") else
  let rest := TrimSpace (slice_from arg (slen prefix)) in
  if negb (HasPrefix rest "<") then Err (EMsg "syntax error: missing <") else
  let fin := IndexByte rest ">" in
  if fin <? 0 then Err (EMsg "syntax error: missing >") else
  let addr := slice_from (slice_to rest fin) 1 in
  let i := LastIndexByte addr ":" in
  let addr := if (0 <=? i) && HasPrefix addr "@" then slice_from addr (i + 1) else addr in
  let tail := slice_from rest (fin + 1) in
  Ok (addr, if is_empty tail then [] else Fields tail).

Fixpoint sizeParam (params : list string) : result Z :=
  match params with
  | [] => Ok 0
  | p :: params =>
      match CutPrefix (ToUpper p) "SIZE=" with
      | (v, true) =>
          match ParseInt v with
          | Some n => if n <? 0 then Err (EMsg "invalid SIZE") else Ok n
          | None => Err (EMsg "invalid SIZE")
          end
      | (_, false) => sizeParam params
      end
  end.

Definition helo_char (c : ascii) : bool :=
  is_lower c || is_upper c || is_digit c || Ascii.eqb c "." || Ascii.eqb c "-" || Ascii.eqb c ":"
  || Ascii.eqb c "[" || Ascii.eqb c "]" || Ascii.eqb c "_".

(** [strings.Map]: one byte out per rune in; [skip] is the number of
    bytes left of the rune that has been mapped. *)
Fixpoint map_helo (skip : nat) (s : string) : string :=
  match s, skip with
  | "", _ => ""
  | String _ s', S k => map_helo k s'
  | String c s', O => String (if helo_char c then c else "?"%char) (map_helo (rune_len s - 1) s')
  end.

Definition sanitizeHelo (h : string) : string :=
  map_helo 0 (if 255 <? slen h then slice_to h 255 else h).

Definition splitAddr (email : string) : option (string * string) :=
  let at_ := LastIndexByte email "@" in
  if (at_ <=? 0) || (at_ =? slen email - 1) then None
  else Some (slice_to email at_, ToLower (slice_from email (at_ + 1))).

(** ** Laws *)

Lemma map_helo_all k s : sall (λ c, helo_char c || Ascii.eqb c "?")%bool (map_helo k s) = true.
Proof.
  revert k. induction s as [|c s IH]; intros [|k]; cbn [map_helo sall]; [done..| |apply IH].
  rewrite IH, andb_true_r. by destruct (helo_char c) eqn:E; rewrite ?E.
Qed.

Lemma map_helo_length k s : (String.length (map_helo k s) <= String.length s)%nat.
Proof.
  revert k. induction s as [|c s IH]; intros [|k]; cbn [map_helo String.length]; [lia..| |].
  - specialize (IH (rune_len (String c s) - 1)%nat). lia.
  - specialize (IH k). lia.
Qed.

(** what a client calls itself cannot forge a trace header: the name
    recorded has at most 255 bytes, all of them letters, digits or one of
    a few marks, so neither a line break nor a blank. *)
Theorem sanitizeHelo_safe h :
  slen (sanitizeHelo h) <= 255 ∧
  sall (λ c, helo_char c || Ascii.eqb c "?")%bool (sanitizeHelo h) = true ∧
  avoids LF (sanitizeHelo h) = true ∧ avoids CR (sanitizeHelo h) = true ∧
  avoids " "%char (sanitizeHelo h) = true.
Proof.
  pose proof (map_helo_all 0 (if 255 <? slen h then slice_to h 255 else h)) as Ha.
  assert (Hav : ∀ c, (helo_char c || Ascii.eqb c "?")%bool = false → avoids c (sanitizeHelo h) = true).
  { intros c Hc. revert Ha. apply sall_impl. intros d Hd. apply negb_true_iff, Ascii.eqb_neq.
    intros ->. congruence. }
  split_and!; [|exact Ha|by apply Hav..].
  pose proof (map_helo_length 0 (if 255 <? slen h then slice_to h 255 else h)) as Hl.
  unfold sanitizeHelo. revert Hl. case_goal; reflect_bool; unfold slen in *; [|lia].
  pose proof (stake_length (Z.to_nat 255) h). unfold slice_to. lia.
Qed.

Lemma sizeParam_range ps n : sizeParam ps = Ok n → 0 <= n < 2 ^ 63.
Proof.
  induction ps as [|p ps IH]; cbn [sizeParam]; [intros [=<-]; lia|].
  destruct (CutPrefix (ToUpper p) "SIZE=") as [v []]; [|exact IH].
  destruct (ParseInt v) as [z|] eqn:E; [|done]. case_goal; [done|]. intros [=<-]. reflect_bool.
  split; [done|]. revert E. unfold ParseInt.
  destruct (match v with "" => _ | String _ _ => _ end) as [neg body]. destruct (is_empty body); [done|].
  destruct (digits_val 0 body) as [d|] eqn:Ed; [|done]. apply digits_val_nonneg in Ed; [|lia].
  repeat case_goal; try done; intros [=<-]; reflect_bool; lia.
Qed.

(** The argument of [MAIL] and [RCPT] a client builds from an address is
    read back as that address. *)
Lemma parsePath_plain prefix addr : avoids ">"%char addr = true → HasPrefix addr "@" = false →
  parsePath (prefix +:+ "<" +:+ addr +:+ ">") prefix = Ok (addr, []).
Proof.
  intros Ha Hp. unfold parsePath. rewrite slen_app.
  pose proof (slen_nonneg ("<" +:+ addr +:+ ">")).
  rewrite (proj2 (Z.ltb_ge _ _)) by lia.
  rewrite slice_to_app, !slice_from_app, EqualFold_refl. cbn [negb orb].
  assert (Ht : TrimSpace ("<" +:+ addr +:+ ">") = "<" +:+ addr +:+ ">").
  { unfold TrimSpace. change (trim_left is_space ("<" +:+ addr +:+ ">")) with ("<" +:+ addr +:+ ">").
    rewrite <- sapp_assoc. generalize ("<" +:+ addr). clear. intros s.
    induction s as [|c s IH]; [done|]. rewrite sapp_cons. cbn [trim_right]. rewrite IH. by destruct s. }
  rewrite Ht. change (negb (HasPrefix ("<" +:+ addr +:+ ">") "<")) with false. cbv iota.
  assert (Hi : IndexByte ("<" +:+ addr +:+ ">") ">" = slen addr + 1).
  { change ("<" +:+ addr +:+ ">") with (("<" +:+ addr) +:+ String ">" "").
    rewrite IndexByte_app; [by rewrite slen_app, Z.add_comm|]. by apply avoids_cons. }
  rewrite Hi. pose proof (slen_nonneg addr).
  rewrite (proj2 (Z.ltb_ge _ 0)) by lia.
  assert (Hs : slice_from (slice_to ("<" +:+ addr +:+ ">") (slen addr + 1)) 1 = addr).
  { unfold slice_to, slice_from, slen. replace (Z.to_nat (_ + 1)) with (S (String.length addr)) by lia.
    cbn [String.append stake]. rewrite stake_app. done. }
  rewrite Hs, Hp, andb_false_r.
  assert (Hr : slice_from ("<" +:+ addr +:+ ">") (slen addr + 1 + 1) = "").
  { unfold slice_from, slen. replace (Z.to_nat _) with (String.length ("<" +:+ addr +:+ ">")).
    - rewrite <- (sapp_nil_r ("<" +:+ addr +:+ ">")) at 2. apply sdrop_app.
    - cbn [String.append String.length]. rewrite slength_app. simpl. lia. }
  by rewrite Hr.
Qed.
