(* ===== verification/SmtpSession.v ===== *)
(** * SMTP: the session

    Models [internal/smtp/session.go] and the admission of connections in
    [server.go].  A session runs against the bytes its client is going to
    send, before and after a TLS handshake, and a number of writes the
    connection still takes; its settings are loaded at every use, as the
    code does, from an arbitrary sequence of settings.  Log lines are not
    modelled; what the session does to the backend is recorded as events.
    Deadlines are the end of the stream. *)

From S2P Require Import Prelude GoStrings GoBase64 GoIO Session RateLimit Stats Container Auth Storage Smtp.

Definition maxLine : Z := 2048.

Record rcpt := MkRcpt { r_addr : string; r_remote : bool; r_mb : Storage.Mailbox }.

Definition no_mailbox : Storage.Mailbox := Storage.MkMailbox "" "" 0 0.

(** What the session asked of the backend, and the answer. *)
Inductive event :=
  | EvAuth (user pass : string) (tls : bool) (err : option auth_error)
  | EvDeliver (mb : Storage.Mailbox) (from : string) (spam : bool) (msg : string) (err : option string)
  | EvEnqueue (from rcpt msg : string) (err : option string).

(** The protocol state of [session]. *)
Record Trans := MkTrans {
  helo : string;
  tls : bool;
  authed : string;
  from : string;
  fromSet : bool;
  rcpts : list rcpt;
}.

(** What the session shares with the rest of the server; [sh_sets] and
    [sh_ticks] count the loads of the settings and the readings of the
    clock. *)
Record Shared (W : Type) := MkShared {
  sh_sets : nat;
  sh_ticks : nat;
  sh_in : option Inbound;
  sh_out : option Outbound;
  sh_stats : option Counters;
  sh_world : W;
  sh_log : list event;
}.
Arguments MkShared {W}.
Arguments sh_sets {W}.
Arguments sh_ticks {W}.
Arguments sh_in {W}.
Arguments sh_out {W}.
Arguments sh_stats {W}.
Arguments sh_world {W}.
Arguments sh_log {W}.

Record session (W : Type) := MkSession {
  ip : string;
  conn : Conn;
  tr : Trans;
  sh : Shared W;
}.
Arguments MkSession {W}.
Arguments ip {W}.
Arguments conn {W}.
Arguments tr {W}.
Arguments sh {W}.

#[global] Program Instance session_channel {W} : Channel (session W) := {|
  channel := conn;
  set_channel c s := MkSession (ip s) c (tr s) (sh s);
|}.
Next Obligation. done. Qed.

(** A computation of a session. *)
Abbreviation M W := (St (session W)).

Section session.
Context {W : Type} (B : Backend W) (sets : nat → Settings) (clock : nat → Z) (fmt_date : Z → string).

(** ** State access *)

Definition get_tr : M W Trans := λ s, (tr s, s).
Definition get_ip : M W string := λ s, (ip s, s).
Definition put_tr (t : Trans) : M W unit := λ s, (tt, MkSession (ip s) (conn s) t (sh s)).

Definition with_shared {A} (f : Shared W → A * Shared W) : M W A := λ s,
  let '(a, h) := f (sh s) in (a, MkSession (ip s) (conn s) (tr s) h).

Definition set : M W Settings := with_shared (λ h,
  (sets (sh_sets h), MkShared (S (sh_sets h)) (sh_ticks h) (sh_in h) (sh_out h) (sh_stats h) (sh_world h) (sh_log h))).

Definition now : M W Z := with_shared (λ h,
  (clock (sh_ticks h), MkShared (sh_sets h) (S (sh_ticks h)) (sh_in h) (sh_out h) (sh_stats h) (sh_world h) (sh_log h))).

Definition count (f : option Counters → option Counters) : M W unit := with_shared (λ h,
  (tt, MkShared (sh_sets h) (sh_ticks h) (sh_in h) (sh_out h) (f (sh_stats h)) (sh_world h) (sh_log h))).

Definition limit_in (f : option Inbound → string → Z → bool * option Inbound) (key : string) : M W bool :=
  t ← now;
  with_shared (λ h, let '(ok, l) := f (sh_in h) key t in
    (ok, MkShared (sh_sets h) (sh_ticks h) l (sh_out h) (sh_stats h) (sh_world h) (sh_log h))).

Definition limit_out (f : option Outbound → string → Z → bool * option Outbound) (key : string) : M W bool :=
  t ← now;
  with_shared (λ h, let '(ok, l) := f (sh_out h) key t in
    (ok, MkShared (sh_sets h) (sh_ticks h) (sh_in h) l (sh_stats h) (sh_world h) (sh_log h))).

(** An operation of the backend with the events it leaves, and a question
    to it, which leaves none. *)
Definition perform {A} (f : W → A * W) (ev : A → list event) : M W A := with_shared (λ h,
  let '(a, w) := f (sh_world h) in
  (a, MkShared (sh_sets h) (sh_ticks h) (sh_in h) (sh_out h) (sh_stats h) w (sh_log h ++ ev a))).

Definition ask {A} (f : W → A * W) : M W A := perform f (λ _, []).

(** ** Input and output *)

(** Writes lines and flushes them; [true] is a failure. *)
Definition reply_lines (ls : list string) : M W bool := send_lines ls.

Definition reply (line : string) : M W bool := reply_lines [line].

(** [None] is an error: the client is gone.  A line that was too long
    has been answered and reads as empty. *)
Definition readLine : M W (option string) :=
  c ← get_conn;
  let '(r, rest) := read_command maxLine (c_in c) in
  put_conn (MkConn rest (c_tls c) (c_writes c) (c_out c));;
  match r with
  | Line l => mret (Some l)
  | LineTooLong => reply "500 5.5.2 line too long";; mret (Some "")
  | LineEOF => mret None
  end.

(** ** Commands *)

Definition reset_trans (t : Trans) : Trans := MkTrans (helo t) (tls t) (authed t) "" false [].
Definition resetTransaction : M W unit := t ← get_tr; put_tr (reset_trans t).

(** The capability lines: all but the last are marked as continued. *)
Fixpoint cap_lines (caps : list string) : list string :=
  match caps with
  | [] => []
  | [c] => ["250 " +:+ c]
  | c :: caps => ("250-" +:+ c) :: cap_lines caps
  end.

Definition cmdHelo (arg : string) (extended : bool) : M W bool :=
  if is_empty arg then reply "501 5.5.4 hostname required";; mret false else
  t ← get_tr;
  put_tr (reset_trans (MkTrans (sanitizeHelo arg) (tls t) (authed t) (from t) (fromSet t) (rcpts t)));;
  set ← set;
  if negb extended then reply ("250 " +:+ set_Hostname set);; mret false else
  reply_lines (cap_lines (
    [set_Hostname set; "PIPELINING"; "SIZE " +:+ dec (MaxSize set); "8BITMIME"; "SMTPUTF8"]
    ++ (if set_TLS set && negb (tls t) then ["STARTTLS"] else [])
    ++ (if bool_decide (set_Mode set = ModeSubmission) && tls t
           && match Authenticate B with Some _ => true | None => false end
        then ["AUTH PLAIN LOGIN"] else [])));;
  mret false.

Definition cmdStartTLS : M W bool :=
  set ← set;
  t ← get_tr;
  if negb (set_TLS set) then reply "454 4.7.0 TLS not available";; mret false
  else if tls t then reply "503 5.5.1 already in TLS";; mret false
  else
    failed ← reply "220 2.0.0 ready to start TLS";
    if (failed : bool) then mret true else
    c ← get_conn;
    match c_tls c with
    | None => mret true
    | Some bytes =>
        put_conn (MkConn bytes None (c_writes c) (c_out c));;
        put_tr (reset_trans (MkTrans "" true (authed t) (from t) (fromSet t) (rcpts t)));;
        mret false
    end.

Definition NUL : ascii := byte 0.

(** [None]: the reply has been sent. *)
Definition authPlain (initial : string) : M W (option (string * string)) :=
  resp ←
    (if is_empty initial then
       failed ← reply "334 ";
       if (failed : bool) then mret None else
       line ← readLine;
       match line with
       | None | Some "*" => reply "501 5.7.0 authentication cancelled";; mret None
       | Some l => mret (Some l)
       end
     else mret (Some initial));
  match resp with
  | None => mret None
  | Some resp =>
      match DecodeString resp with
      | None => reply "501 5.5.2 invalid base64";; mret None
      | Some raw =>
          match GoStrings.Split raw NUL with
          | [_; user; pass] =>
              if is_empty user then reply "501 5.5.2 invalid PLAIN response";; mret None
              else mret (Some (user, pass))
          | _ => reply "501 5.5.2 invalid PLAIN response";; mret None
          end
      end
  end.

(** One step of the [LOGIN] dialogue. *)
Definition login_step (prompt : string) : M W (option string) :=
  failed ← reply prompt;
  if (failed : bool) then mret None else
  line ← readLine;
  match line with
  | None | Some "*" => reply "501 5.7.0 authentication cancelled";; mret None
  | Some l =>
      match DecodeString l with
      | None => reply "501 5.5.2 invalid base64";; mret None
      | Some raw => mret (Some raw)
      end
  end.

Definition authLogin : M W (option (string * string)) :=
  user ← login_step "334 VXNlcm5hbWU6";
  match user with
  | None => mret None
  | Some user =>
      pass ← login_step "334 UGFzc3dvcmQ6";
      match pass with
      | None => mret None
      | Some pass => mret (Some (user, pass))
      end
  end.

Definition finish_auth (auth : string → string → string → W → option auth_error * W)
    (cred : option (string * string)) : M W unit :=
  match cred with
  | None => mret tt
  | Some (user, pass) =>
      i ← get_ip;
      t ← get_tr;
      err ← perform (auth user pass i) (λ err, [EvAuth user pass (tls t) err]);
      match err with
      | None =>
          put_tr (MkTrans (helo t) (tls t) (ToLower user) (from t) (fromSet t) (rcpts t));;
          count IncAuthOK;;
          reply "235 2.7.0 authentication successful";; mret tt
      | Some ErrLocked => reply "454 4.7.0 too many failed attempts, try again later";; mret tt
      | Some ErrInvalid =>
          count IncAuthFail;;
          reply "535 5.7.8 authentication credentials invalid";; mret tt
      end
  end.

Definition cmdAuth (arg : string) : M W unit :=
  set ← set;
  t ← get_tr;
  match set_Mode set, Authenticate B with
  | ModeSubmission, Some auth =>
      if negb (tls t) then reply "530 5.7.0 must issue STARTTLS first";; mret tt
      else if negb (is_empty (authed t)) then reply "503 5.5.1 already authenticated";; mret tt
      else
        let '(mech, rest, _) := Cut arg " " in
        let m := ToUpper mech in
        if String.eqb m "PLAIN" then cred ← authPlain rest; finish_auth auth cred
        else if String.eqb m "LOGIN" then cred ← authLogin; finish_auth auth cred
        else reply "504 5.5.4 mechanism not supported";; mret tt
  | _, _ => reply "503 5.5.1 authentication not available on this port";; mret tt
  end.

Definition error_msg (e : error) : string := match e with EMsg m => m | ENotExist => "" end.

Definition cmdMail (arg : string) : M W unit :=
  t ← get_tr;
  if is_empty (helo t) then reply "503 5.5.1 send HELO/EHLO first";; mret tt
  else if fromSet t then reply "503 5.5.1 nested MAIL command";; mret tt
  else
    set ← set;
    let submission := bool_decide (set_Mode set = ModeSubmission) in
    if submission && is_empty (authed t) then reply "530 5.7.0 authentication required";; mret tt
    else match parsePath arg "FROM:" with
         | Err e => reply ("501 5.5.4 " +:+ error_msg e);; mret tt
         | Ok (addr, params) =>
             match sizeParam params with
             | Err _ => reply "501 5.5.4 invalid SIZE parameter";; mret tt
             | Ok size =>
                 if MaxSize set <? size then
                   reply ("552 5.3.4 message exceeds maximum size " +:+ dec (MaxSize set));; mret tt
                 else
                   let addr := ToLower addr in
                   if submission && negb (String.eqb addr (authed t)) then
                     reply "553 5.7.1 sender address must be the authenticated user";; mret tt
                   else
                     put_tr (MkTrans (helo t) (tls t) (authed t) addr true (rcpts t));;
                     reply "250 2.1.0 OK";; mret tt
             end
         end.

Definition add_rcpt (r : rcpt) : M W unit :=
  t ← get_tr;
  put_tr (MkTrans (helo t) (tls t) (authed t) (from t) (fromSet t) (rcpts t ++ [r]));;
  reply "250 2.1.5 OK";; mret tt.

Definition cmdRcpt (arg : string) : M W unit :=
  t ← get_tr;
  if negb (fromSet t) then reply "503 5.5.1 need MAIL before RCPT";; mret tt else
  set ← set;
  if MaxRecipients set <=? llen (rcpts t) then reply "452 4.5.3 too many recipients";; mret tt else
  match parsePath arg "TO:" with
  | Err e => reply ("501 5.5.4 " +:+ error_msg e);; mret tt
  | Ok (addr, _) =>
      let addr := ToLower (TrimSpace addr) in
      pm ← ask (Postmaster B);
      let addr := if String.eqb addr "postmaster" && negb (is_empty pm) then pm else addr in
      match splitAddr addr with
      | None => reply "501 5.1.3 invalid address";; mret tt
      | Some (_, domain) =>
          local ← ask (IsLocalDomain B domain);
          i ← get_ip;
          refused ←
            match set_Mode set with
            | ModeInbound =>
                if negb local then
                  count IncRelayDeny;; mret (Some "554 5.7.1 relay access denied")
                else
                  ok ← limit_in in_RcptAllowed i;
                  mret (if (ok : bool) then None else Some "452 4.4.5 too many recipients, slow down")
            | ModeSubmission =>
                ok ← limit_out out_RcptAllowed (authed t);
                mret (if (ok : bool) then None else Some "452 4.4.5 recipient quota exceeded, try again later")
            end;
          match refused with
          | Some line => reply line;; mret tt
          | None =>
              if negb local then add_rcpt (MkRcpt addr true no_mailbox) else
              mb ← ask (be_Lookup B addr);
              match mb with
              | None => reply "550 5.1.1 no such user here";; mret tt
              | Some mb => add_rcpt (MkRcpt addr false mb)
              end
          end
      end
  end.

(** The trace headers above the received body. *)
Definition assemble (body extra : string) : M W string :=
  set ← set;
  t ← get_tr;
  i ← get_ip;
  d ← now;
  let with_ := if negb (is_empty (authed t)) then "ESMTPSA" else if tls t then "ESMTPS" else "ESMTP" in
  let tab := String TAB "" in
  let for_ := match rcpts t with
              | [r] => CRLF +:+ tab +:+ "for <" +:+ r_addr r +:+ ">"
              | _ => ""
              end in
  mret (extra +:+ "Received: from " +:+ helo t +:+ " (" +:+ MaskIP (set_Identity set) i +:+ ")" +:+ CRLF +:+ tab +:+
        "by " +:+ set_Hostname set +:+ " (Kavira) with " +:+ with_ +:+ for_ +:+
        ";" +:+ CRLF +:+ tab +:+ fmt_date d +:+ CRLF +:+ body).

(** The loop over the recipients: how many were accepted. *)
Fixpoint deliver_all (frm : string) (spam : bool) (msg : string) (rs : list rcpt) : M W Z :=
  match rs with
  | [] => mret 0
  | r :: rs =>
      err ← (if r_remote r then
               perform (be_Enqueue B frm (r_addr r) msg) (λ err, [EvEnqueue frm (r_addr r) msg err])
             else
               perform (be_Deliver B (r_mb r) frm spam msg) (λ err, [EvDeliver (r_mb r) frm spam msg err]));
      n ← deliver_all frm spam msg rs;
      mret (match err with None => n + 1 | Some _ => n end)
  end.

(** The checks of [DATA] before the message is read: the reply that
    refuses it, and whether the connection is closed. *)
Definition data_gate (set : Settings) : M W (option (string * bool)) :=
  t ← get_tr;
  i ← get_ip;
  match set_Mode set with
  | ModeInbound =>
      ok ← limit_in in_MsgAllowed i;
      mret (if (ok : bool) then None else Some ("421 4.7.0 too many messages, closing connection", true))
  | ModeSubmission =>
      ok ← limit_out out_MsgAllowed (authed t);
      if negb ok then mret (Some ("452 4.2.1 sending quota exceeded, try again later", false)) else
      match MaySend B with
      | None => mret None
      | Some may =>
          let domain := match splitAddr (authed t) with Some (_, d) => d | None => "" end in
          r ← perform (may (authed t) domain) (λ _, []);
          mret (if (r.1 : bool) then None else Some ("450 4.7.1 " +:+ r.2, false))
      end
  end.

(** The screening of an inbound message: [inl] the refusal, [inr]
    whether it is spam and the headers to stamp. *)
Definition screen (set : Settings) (body : string) : M W (string + bool * string) :=
  t ← get_tr;
  i ← get_ip;
  match set_Mode set, Screen B with
  | ModeInbound, Some f =>
      sr ← perform (f i (helo t) (from t) body) (λ _, []);
      let headers := sr_AuthResults sr +:+ sr_SpamHeader sr in
      match sr_Action sr with
      | ScreenReject => count IncRejected;; mret (inl (sr_Reason sr))
      | ScreenQuarantine => count IncSpam;; mret (inr (true, headers))
      | ScreenAccept => mret (inr (false, headers))
      end
  | _, _ => mret (inr (false, ""))
  end.

Definition sign (set : Settings) (msg : string) : M W string :=
  t ← get_tr;
  match set_Mode set, Sign B with
  | ModeSubmission, Some f =>
      match splitAddr (from t) with
      | Some (_, domain) =>
          r ← perform (f domain msg) (λ _, []);
          mret (match r with Ok signed => signed | Err _ => msg end)
      | None => mret msg
      end
  | _, _ => mret msg
  end.

(** From the body to the reply. *)
Definition accept_message (set : Settings) (body : string) : M W unit :=
  v ← screen set body;
  match v with
  | inl reason => resetTransaction;; reply ("550 5.7.1 " +:+ reason);; mret tt
  | inr (spam, extra) =>
      msg ← assemble body extra;
      msg ← sign set msg;
      t ← get_tr;
      accepted ← deliver_all (from t) spam msg (rcpts t);
      if accepted =? 0 then
        resetTransaction;; reply "451 4.3.0 delivery failed, try again later";; mret tt
      else
        count IncReceived;;
        (match set_Mode set with
         | ModeSubmission =>
             count IncSubmitted;;
             match Sent B with
             | Some f =>
                 let domain := match splitAddr (authed t) with Some (_, d) => d | None => "" end in
                 perform (λ w, (tt, f (authed t) domain w)) (λ _, [])
             | None => mret tt
             end
         | ModeInbound => mret tt
         end);;
        resetTransaction;;
        reply "250 2.0.0 OK message accepted for delivery";; mret tt
  end.

Definition cmdData : M W bool :=
  t ← get_tr;
  match rcpts t with
  | [] => reply "503 5.5.1 need RCPT before DATA";; mret false
  | _ =>
      set ← set;
      refused ← data_gate set;
      match refused with
      | Some (line, close) => reply line;; mret close
      | None =>
          failed ← reply "354 end data with <CRLF>.<CRLF>";
          if (failed : bool) then mret true else
          c ← get_conn;
          match read_data (MaxSize set) (c_in c) with
          | DataBroken => mret true
          | DataTooLarge rest =>
              put_conn (MkConn rest (c_tls c) (c_writes c) (c_out c));;
              resetTransaction;;
              reply ("552 5.3.4 message exceeds maximum size " +:+ dec (MaxSize set));; mret false
          | Data body rest =>
              put_conn (MkConn rest (c_tls c) (c_writes c) (c_out c));;
              accept_message set body;; mret false
          end
      end
  end.

(** ** The loop *)

(** One turn: [true] ends the session. *)
Definition step : M W bool :=
  line ← readLine;
  match line with
  | None => mret true
  | Some line =>
      if is_empty line then mret false else
      let '(cmd, arg, _) := Cut line " " in
      let cmd := ToUpper cmd in
      if String.eqb cmd "HELO" then cmdHelo arg false
      else if String.eqb cmd "EHLO" then cmdHelo arg true
      else if String.eqb cmd "STARTTLS" then cmdStartTLS
      else if String.eqb cmd "MAIL" then cmdMail arg;; mret false
      else if String.eqb cmd "RCPT" then cmdRcpt arg;; mret false
      else if String.eqb cmd "DATA" then cmdData
      else if String.eqb cmd "RSET" then resetTransaction;; reply "250 2.0.0 OK";; mret false
      else if String.eqb cmd "NOOP" then reply "250 2.0.0 OK";; mret false
      else if String.eqb cmd "QUIT" then
        set ← set; reply ("221 2.0.0 " +:+ set_Hostname set +:+ " closing connection");; mret true
      else if (String.eqb cmd "VRFY" || String.eqb cmd "EXPN")%bool then
        reply "502 5.5.1 command disabled";; mret false
      else if String.eqb cmd "AUTH" then cmdAuth arg;; mret false
      else if String.eqb cmd "HELP" then reply "214 2.0.0 see RFC 5321";; mret false
      else reply "500 5.5.1 command not recognized";; mret false
  end.

(** [None]: out of fuel. *)
Definition loop : nat → session W → option (session W) := turns step.

Definition run (fuel : nat) (s : session W) : option (session W) :=
  let '(set, s) := set s in
  let '(failed, s) := reply ("220 " +:+ set_Hostname set +:+ " ESMTP Kavira") s in
  if (failed : bool) then Some s else loop fuel s.

Definition newSession (i : string) (c : Conn) (h : Shared W) : session W :=
  let '(set, h) := (sets (sh_sets h),
    MkShared (S (sh_sets h)) (sh_ticks h) (sh_in h) (sh_out h) (sh_stats h) (sh_world h) (sh_log h)) in
  MkSession i c (MkTrans "" (ImplicitTLS set) "" "" false []) h.

(** ** Admission *)

(** One turn of [Serve]: the line that refuses the connection, or the
    session; [busy] sessions are running. *)
Definition accept_conn (addr : string) (c : Conn) (busy workers : Z) (h : Shared W)
    : (string + session W) * Shared W :=
  let i := remoteIP addr in
  let set := sets (sh_sets h) in
  let '(ok, l) := ConnAllowed (sh_in h) i (clock (sh_ticks h)) in
  let h := MkShared (S (sh_sets h)) (S (sh_ticks h)) l (sh_out h) (sh_stats h) (sh_world h) (sh_log h) in
  if negb ok then
    (inl ("421 4.7.0 " +:+ set_Hostname set +:+ " too many connections, try again later"), h)
  else if workers <=? busy then
    (inl ("421 4.3.2 " +:+ set_Hostname set +:+ " server busy, try again later"), h)
  else (inr (newSession i c h), h).
End session.
