(* ===== verification/SmtpSafety.v ===== *)
(** * SMTP: safety of the session

    What a session never does, whatever its client sends, whatever the
    backend answers and whenever the settings are reloaded: a program
    logic on the protocol state and the events of a session, and the
    properties it proves of [SmtpSession]. *)

From S2P Require Import Prelude GoStrings GoBase64 GoIO Session RateLimit Stats Container Auth Storage Smtp SmtpSession.

(** ** A logic of protocol state and events *)

(** What the protocol sees of a session. *)
Definition visible : Type := Trans * list event.
#[global] Instance session_observe {W} : Observe (session W) visible := λ s, (tr s, sh_log (sh s)).
#[global] Instance session_detached {W} : Detached (session W) visible.
Proof. by intros c s. Qed.

Section rules.
Context {W : Type} (B : Backend W) (sets : nat → Settings) (clock : nat → Z).

Lemma wp_get_tr (Q : Trans → visible → Prop) t l : Q t (t, l) → wp (S := session W) get_tr Q (t, l).
Proof. by intros HQ s [= <- <-]. Qed.

Lemma wp_put_tr t' (Q : unit → visible → Prop) t l : Q tt (t', l) → wp (S := session W) (put_tr t') Q (t, l).
Proof. by intros HQ s [= <- <-]. Qed.

Lemma wp_set (Q : Settings → visible → Prop) v : (∀ k, Q (sets k) v) → wp (S := session W) (set sets) Q v.
Proof. intros HQ s <-. apply HQ. Qed.

Lemma wp_perform {A} (f : W → A * W) ev (Q : A → visible → Prop) t l :
  (∀ w, Q (f w).1 (t, l ++ ev (f w).1)) → wp (perform f ev) Q (t, l).
Proof.
  intros HQ s [= <- <-]. specialize (HQ (sh_world (sh s))). unfold perform, with_shared, observe, session_observe.
  by destruct (f (sh_world (sh s))) as [a w].
Qed.

Lemma wp_ask {A} (f : W → A * W) (Q : A → visible → Prop) v : (∀ w, Q (f w).1 v) → wp (ask f) Q v.
Proof. destruct v as [t l]. intros HQ. apply wp_perform. intros w. rewrite app_nil_r. apply HQ. Qed.

Lemma quiet_get_ip : quiet (S := session W) get_ip. Proof. done. Qed.
Lemma quiet_now : quiet (S := session W) (now clock). Proof. done. Qed.
Lemma quiet_count f : quiet (S := session W) (count f). Proof. done. Qed.
Lemma quiet_limit_in f k : quiet (S := session W) (limit_in clock f k).
Proof.
  intros s. unfold limit_in, mbind, St_bind, now, with_shared. simpl.
  by destruct (f _ _ _).
Qed.
Lemma quiet_limit_out f k : quiet (S := session W) (limit_out clock f k).
Proof.
  intros s. unfold limit_out, mbind, St_bind, now, with_shared. simpl.
  by destruct (f _ _ _).
Qed.

Lemma quiet_reply_lines ls : quiet (S := session W) (reply_lines ls).
Proof. apply quiet_send_lines. Qed.
Lemma quiet_reply l : quiet (S := session W) (reply l).
Proof. apply quiet_send_lines. Qed.

Lemma quiet_readLine : quiet (S := session W) readLine.
Proof.
  unfold readLine. apply quiet_bind; [apply quiet_get_conn|]. intros c.
  destruct (read_command maxLine (c_in c)) as [r rest].
  apply quiet_bind; [apply quiet_put_conn|]. intros _.
  destruct r; [apply quiet_ret| |apply quiet_ret].
  apply quiet_bind; [apply quiet_reply|intros; apply quiet_ret].
Qed.

Lemma quiet_login_step p : quiet (S := session W) (login_step p).
Proof.
  unfold login_step. apply quiet_bind; [apply quiet_reply|]. intros [].
  { apply quiet_ret. }
  apply quiet_bind; [apply quiet_readLine|]. intros l.
  repeat case_match; repeat first [apply quiet_ret|apply quiet_bind; [apply quiet_reply|intros]].
Qed.

Lemma quiet_authLogin : quiet (S := session W) authLogin.
Proof.
  unfold authLogin. apply quiet_bind; [apply quiet_login_step|]. intros [u|]; [|apply quiet_ret].
  apply quiet_bind; [apply quiet_login_step|]. intros [p|]; apply quiet_ret.
Qed.

Lemma quiet_authPlain i : quiet (S := session W) (authPlain i).
Proof.
  unfold authPlain. apply quiet_bind.
  - destruct (is_empty i); [|apply quiet_ret]. apply quiet_bind; [apply quiet_reply|]. intros [].
    { apply quiet_ret. }
    apply quiet_bind; [apply quiet_readLine|]. intros l.
    repeat case_match; repeat first [apply quiet_ret|apply quiet_bind; [apply quiet_reply|intros]].
  - intros r. repeat case_match; repeat first [apply quiet_ret|apply quiet_bind; [apply quiet_reply|intros]].
Qed.
End rules.

#[export] Hint Resolve quiet_get_ip quiet_now quiet_count
  quiet_limit_in quiet_limit_out quiet_reply_lines quiet_reply quiet_readLine
  quiet_authLogin quiet_authPlain : quiet.

(** One step of symbolic execution. *)
Ltac wp_step :=
  lazymatch goal with
  | |- wp (mret _) _ _ => apply wp_ret
  | |- wp (mbind _ _) _ _ => apply wp_bind
  | |- wp get_tr _ _ => apply wp_get_tr
  | |- wp (put_tr _) _ _ => apply wp_put_tr
  | |- wp (set _) _ _ => apply wp_set; intros ?
  | |- wp (ask _) _ _ => apply wp_ask; intros ?
  | |- wp (perform _ _) _ _ => apply wp_perform; intros ?
  | |- wp (let '(_, _) := ?x in _) _ _ => destruct x eqn:?
  | |- wp (if ?b then _ else _) _ _ => destruct b eqn:?
  | |- wp (match ?x with _ => _ end) _ _ => destruct x eqn:?
  | |- wp _ _ _ => apply wp_quiet; [solve [auto with quiet]|intros ?]
  end.
Ltac wp_run := repeat (wp_step; cbn beta).

(** ** Invariants of the whole session *)

Section invariant.
Context {W : Type} (B : Backend W) (sets : nat → Settings) (clock : nat → Z) (fmt_date : Z → string).
Context (J : visible → Prop).

(** What a step must preserve, command by command. *)
Record preserved : Prop := {
  pr_helo arg x v : J v → wp (cmdHelo B sets arg x) (λ _, J) v;
  pr_starttls v : J v → wp (S := session W) (cmdStartTLS sets) (λ _, J) v;
  pr_auth arg v : J v → wp (cmdAuth B sets arg) (λ _, J) v;
  pr_mail arg v : J v → wp (S := session W) (cmdMail sets arg) (λ _, J) v;
  pr_rcpt arg v : J v → wp (cmdRcpt B sets clock arg) (λ _, J) v;
  pr_data v : J v → wp (cmdData B sets clock fmt_date) (λ _, J) v;
  pr_reset t l : J (t, l) → J (reset_trans t, l);
}.

Lemma step_keeps : preserved → ∀ v, J v → wp (step B sets clock fmt_date) (λ _, J) v.
Proof.
  intros HP v HJ. unfold step. apply wp_bind, wp_quiet; [apply quiet_readLine|]. intros [line|]; [|by apply wp_ret].
  destruct (is_empty line); [by apply wp_ret|]. destruct (Cut line " ") as [[cmd arg] b].
  assert (Hu : ∀ m : M W unit, wp m (λ _, J) v → wp (m;; mret false) (λ _, J) v).
  { intros m Hm. apply wp_bind. eapply wp_mono; [|exact Hm]. intros [] v' H'. by apply wp_ret. }
  repeat (lazymatch goal with |- wp (if ?b then _ else _) _ _ => destruct b end).
  all: try first [by apply (pr_helo HP)|by apply (pr_starttls HP)|by apply (pr_data HP)
    |by apply Hu, (pr_mail HP)|by apply Hu, (pr_rcpt HP)|by apply Hu, (pr_auth HP)].
  all: destruct v as [t l]; unfold resetTransaction; wp_run; auto. by apply (pr_reset HP).
Qed.

Lemma run_keeps : preserved → ∀ fuel s s', J (observe s) →
  run B sets clock fmt_date fuel s = Some s' → J (observe s').
Proof.
  intros HP fuel s s' HJ. unfold run, set, with_shared. simpl.
  set (s1 := MkSession _ _ _ _). pose proof (quiet_reply ("220 " +:+ set_Hostname (sets (sh_sets (sh s))) +:+ " ESMTP Kavira") s1) as Hq.
  change (J (observe s1)) in HJ. destruct (reply _ s1) as [[] s2]; simpl in Hq; rewrite <- Hq in HJ; [by intros [= <-]|].
  apply (turns_keep _ J J); [|done]. intros v Hv. eapply wp_mono; [|by apply step_keeps]. by intros [].
Qed.
End invariant.

(** ** The protocol as a state machine

    The abstract specification of a session: which changes of protocol
    state the server may make, and under which conditions it turns to the
    backend.  [run] refines it. *)

Section protocol.
Context {W : Type} (B : Backend W) (sets : nat → Settings).

(** The address belongs to a hosted domain and to that mailbox. *)
Definition hosted (addr : string) (mb : Storage.Mailbox) : Prop :=
  (∃ w local domain, splitAddr addr = Some (local, domain) ∧ (IsLocalDomain B domain w).1 = true) ∧
  (∃ w, (be_Lookup B addr w).1 = Some mb).

(** The event that records the attempt to hand a message to a recipient. *)
Definition attempted (frm msg : string) (spam : bool) (r : rcpt) (ev : event) : Prop :=
  match ev with
  | EvDeliver mb f sp m _ => r_remote r = false ∧ mb = r_mb r ∧ f = frm ∧ m = msg ∧ sp = spam
  | EvEnqueue f a m _ => r_remote r = true ∧ a = r_addr r ∧ f = frm ∧ m = msg
  | EvAuth _ _ _ _ => False
  end.

Inductive proto : Trans * list event → Trans * list event → Prop :=
  | P_stay t l : proto (t, l) (t, l)
  | P_reset t l : proto (t, l) (reset_trans t, l)
  | P_helo t l name :
      proto (t, l) (reset_trans (MkTrans (sanitizeHelo name) (tls t) (authed t) (from t) (fromSet t) (rcpts t)), l)
  | P_starttls t l : tls t = false →
      proto (t, l) (reset_trans (MkTrans "" true (authed t) (from t) (fromSet t) (rcpts t)), l)
  | P_auth t l k user pass err :
      set_Mode (sets k) = ModeSubmission → tls t = true → authed t = "" →
      proto (t, l) (match err with
                    | None => MkTrans (helo t) (tls t) (ToLower user) (from t) (fromSet t) (rcpts t)
                    | Some _ => t
                    end, l ++ [EvAuth user pass true err])
  | P_mail t l k addr :
      helo t ≠ "" → fromSet t = false →
      (set_Mode (sets k) = ModeSubmission → authed t ≠ "" ∧ addr = authed t) →
      proto (t, l) (MkTrans (helo t) (tls t) (authed t) addr true (rcpts t), l)
  | P_rcpt t l k r :
      fromSet t = true → llen (rcpts t) < MaxRecipients (sets k) →
      (r_remote r = true → set_Mode (sets k) = ModeSubmission) →
      (r_remote r = false → hosted (r_addr r) (r_mb r)) →
      proto (t, l) (MkTrans (helo t) (tls t) (authed t) (from t) (fromSet t) (rcpts t ++ [r]), l)
  | P_data t l spam msg evs :
      rcpts t ≠ [] → Forall2 (attempted (from t) msg spam) (rcpts t) evs →
      proto (t, l) (reset_trans t, l ++ evs).

Definition moves {A} (v : visible) (_ : A) (v' : visible) : Prop := proto v v'.

Context (clock : nat → Z) (fmt_date : Z → string).

Lemma is_empty_true s : is_empty s = true → s = "".
Proof. by destruct s. Qed.

Lemma cmdHelo_moves arg x t l : wp (cmdHelo B sets arg x) (moves (t, l)) (t, l).
Proof. unfold cmdHelo. wp_run; by constructor. Qed.

Lemma cmdStartTLS_moves t l : wp (S := session W) (cmdStartTLS sets) (moves (t, l)) (t, l).
Proof. unfold cmdStartTLS. wp_run; by constructor. Qed.

Lemma finish_auth_moves k auth cred t l :
  set_Mode (sets k) = ModeSubmission → tls t = true → authed t = "" →
  wp (S := session W) (finish_auth auth cred) (moves (t, l)) (t, l).
Proof.
  intros Hm Ht Ha. unfold finish_auth. destruct cred as [[user pass]|]; [|apply wp_ret; constructor].
  apply wp_bind, wp_quiet; [apply quiet_get_ip|]. intros i. apply wp_bind, wp_get_tr, wp_bind, wp_perform.
  intros w. generalize (auth user pass i w).1. intros err. rewrite Ht.
  pose proof (P_auth t l k user pass err Hm Ht Ha) as HP. rewrite Ht in HP.
  destruct err as [[]|]; wp_run; exact HP.
Qed.

Lemma cmdAuth_moves arg t l : wp (cmdAuth B sets arg) (moves (t, l)) (t, l).
Proof.
  unfold cmdAuth. apply wp_bind, wp_set. intros k. apply wp_bind, wp_get_tr.
  destruct (set_Mode (sets k)) eqn:Hm; [wp_run; constructor|].
  destruct (Authenticate B) as [auth|]; [|wp_run; constructor].
  destruct (tls t) eqn:Ht; simpl negb; cbv iota; [|wp_run; constructor].
  destruct (is_empty (authed t)) eqn:Ha; simpl negb; cbv iota; [|wp_run; constructor].
  apply is_empty_true in Ha. destruct (Cut arg " ") as [[mech rest] b].
  destruct (String.eqb _ "PLAIN"); [|destruct (String.eqb _ "LOGIN"); [|wp_run; constructor]];
    (apply wp_bind, wp_quiet; [auto with quiet|]); intros cred; by apply (finish_auth_moves k).
Qed.

Lemma cmdMail_moves arg t l : wp (S := session W) (cmdMail sets arg) (moves (t, l)) (t, l).
Proof.
  unfold cmdMail. apply wp_bind, wp_get_tr. destruct (is_empty (helo t)) eqn:Hh; [wp_run; constructor|].
  destruct (fromSet t) eqn:Hf; [wp_run; constructor|]. apply wp_bind, wp_set. intros k.
  destruct (bool_decide (set_Mode (sets k) = ModeSubmission) && is_empty (authed t)) eqn:Ha; [wp_run; constructor|].
  destruct (parsePath arg "FROM:") as [[addr ps]|e]; [|wp_run; constructor].
  destruct (sizeParam ps) as [n|]; [|wp_run; constructor].
  destruct (MaxSize (sets k) <? n); [wp_run; constructor|].
  destruct (bool_decide _ && negb _) eqn:Hs; [wp_run; constructor|].
  wp_run. apply (P_mail t l k); [by intros E; rewrite E in Hh|done|]. intros Hm.
  rewrite bool_decide_true in Ha, Hs by done. simpl in Ha, Hs. reflect_bool.
  split; [by intros E; rewrite E in Ha|done].
Qed.

Lemma add_rcpt_moves k r t l : fromSet t = true → llen (rcpts t) < MaxRecipients (sets k) →
  (r_remote r = true → set_Mode (sets k) = ModeSubmission) →
  (r_remote r = false → hosted (r_addr r) (r_mb r)) →
  wp (S := session W) (add_rcpt r) (moves (t, l)) (t, l).
Proof. intros. unfold add_rcpt. wp_run. by apply (P_rcpt t l k). Qed.

Lemma cmdRcpt_moves arg t l : wp (cmdRcpt B sets clock arg) (moves (t, l)) (t, l).
Proof.
  unfold cmdRcpt. apply wp_bind, wp_get_tr. destruct (fromSet t) eqn:Hf; simpl negb; cbv iota;
    [|wp_run; constructor]. apply wp_bind, wp_set. intros k.
  destruct (MaxRecipients (sets k) <=? llen (rcpts t)) eqn:Hn; [wp_run; constructor|]. reflect_bool.
  destruct (parsePath arg "TO:") as [[addr ps]|e]; [|wp_run; constructor]. cbv zeta.
  apply wp_bind, wp_ask. intros w. set (a := if (_ && _)%bool then _ else _).
  destruct (splitAddr a) as [[local domain]|] eqn:Ha; [|wp_run; constructor].
  apply wp_bind, wp_ask. intros w1. apply wp_bind, wp_quiet; [auto with quiet|]. intros i.
  assert (Hadd : ∀ r, r_addr r = a →
    (r_remote r = true → set_Mode (sets k) = ModeSubmission) →
    (r_remote r = false → (IsLocalDomain B domain w1).1 = true ∧ ∃ w, (be_Lookup B a w).1 = Some (r_mb r)) →
    wp (S := session W) (add_rcpt r) (moves (t, l)) (t, l)).
  { intros r Hr H1 H2. apply (add_rcpt_moves k); [done|done|done|]. intros Hrem.
    destruct (H2 Hrem) as [H3 H4]. unfold hosted. rewrite Hr. split; [|done]. by exists w1, local, domain. }
  apply wp_bind. destruct (set_Mode (sets k)) eqn:Hm; destruct ((IsLocalDomain B domain w1).1) eqn:Hl;
    simpl negb; cbv iota; wp_run; try constructor; apply Hadd; simpl; try done; eauto.
Qed.

(** *** Delivery *)

Lemma deliver_all_spec frm spam msg rs t l :
  wp (deliver_all B frm spam msg rs)
    (λ _ v, ∃ evs, v = (t, l ++ evs) ∧ Forall2 (attempted frm msg spam) rs evs) (t, l).
Proof.
  revert l. induction rs as [|r rs IH]; intros l; cbn [deliver_all].
  { apply wp_ret. exists []. by rewrite app_nil_r. }
  assert (Hrest : ∀ (e : option string) ev, attempted frm msg spam r ev →
    wp (n ← deliver_all B frm spam msg rs; mret (match e with None => n + 1 | Some _ => n end))
      (λ _ v, ∃ evs, v = (t, l ++ evs) ∧ Forall2 (attempted frm msg spam) (r :: rs) evs) (t, l ++ [ev])).
  { intros e ev Hev. apply wp_bind. eapply wp_mono; [|apply IH]. cbn beta. intros n v (evs&->&Hevs).
    apply wp_ret. exists (ev :: evs). rewrite <- app_assoc. split; [done|]. by constructor. }
  apply wp_bind. destruct (r_remote r) eqn:Hr; apply wp_perform; intros w; by apply Hrest.
Qed.

Definition data_done (t : Trans) (l : list event) (v : visible) : Prop :=
  ∃ l', v = (reset_trans t, l') ∧
  (l' = l ∨ ∃ spam msg evs, l' = l ++ evs ∧ Forall2 (attempted (from t) msg spam) (rcpts t) evs).

Lemma screen_quiet set body : quiet (screen B set body).
Proof.
  intros s. unfold screen, mbind, St_bind, get_tr, get_ip, observe, session_observe. simpl.
  destruct (set_Mode set), (Screen B) as [f|]; try done.
  unfold perform, with_shared. destruct (f _ _ _ _ _) as [sr w]. simpl.
  destruct (sr_Action sr); simpl; by rewrite app_nil_r.
Qed.

Lemma sign_quiet set msg : quiet (sign B set msg).
Proof.
  intros s. unfold sign, mbind, St_bind, get_tr. simpl.
  destruct (set_Mode set), (Sign B) as [f|]; try done. destruct (splitAddr _) as [[x d]|]; [|done].
  unfold perform, with_shared. destruct (f _ _ _) as [r w]. simpl. by rewrite app_nil_r.
Qed.

Lemma assemble_quiet body extra : quiet (S := session W) (assemble sets clock fmt_date body extra).
Proof. done. Qed.

Lemma data_gate_quiet set : quiet (data_gate B clock set).
Proof.
  unfold data_gate. apply quiet_bind; [done|]. intros t. apply quiet_bind; [done|]. intros i.
  destruct (set_Mode set).
  - apply quiet_bind; [apply quiet_limit_in|]. intros []; apply quiet_ret.
  - apply quiet_bind; [apply quiet_limit_out|]. intros []; simpl negb; cbv iota; [|apply quiet_ret].
    destruct (MaySend B) as [may|]; [|apply quiet_ret]. apply quiet_bind; [|intros [[] ?]; apply quiet_ret].
    intros s'. unfold perform, with_shared. destruct (may _ _ _) as [r w]. simpl. by rewrite app_nil_r.
Qed.

Lemma accept_message_spec set body t l :
  wp (accept_message B sets clock fmt_date set body) (λ _, data_done t l) (t, l).
Proof.
  assert (Hout : data_done t l (reset_trans t, l)) by (eexists; split; [done|by left]).
  unfold accept_message. apply wp_bind, wp_quiet; [apply screen_quiet|]. intros [reason|[spam extra]].
  { unfold resetTransaction. wp_run. exact Hout. }
  apply wp_bind, wp_quiet; [apply assemble_quiet|]. intros msg0.
  apply wp_bind, wp_quiet; [apply sign_quiet|]. intros msg.
  apply wp_bind, wp_get_tr, wp_bind. eapply wp_mono; [|apply deliver_all_spec]. cbn beta.
  intros n v (evs&->&Hevs).
  assert (Hend : data_done t l (reset_trans t, l ++ evs)).
  { eexists. split; [done|]. right. by exists spam, msg, evs. }
  destruct (n =? 0); [unfold resetTransaction; wp_run; exact Hend|].
  unfold resetTransaction. apply wp_bind, wp_quiet; [auto with quiet|]. intros _.
  apply wp_bind. destruct (set_Mode set); [apply wp_ret; wp_run; exact Hend|].
  apply wp_bind, wp_quiet; [auto with quiet|]. intros _.
  destruct (Sent B); [|apply wp_ret; wp_run; exact Hend].
  apply wp_perform. intros w0. rewrite app_nil_r. wp_run. exact Hend.
Qed.

Lemma cmdData_moves t l : wp (cmdData B sets clock fmt_date) (moves (t, l)) (t, l).
Proof.
  unfold cmdData. apply wp_bind, wp_get_tr. destruct (rcpts t) as [|r rs] eqn:Hr; [wp_run; constructor|].
  apply wp_bind, wp_set. intros k. apply wp_bind, wp_quiet; [apply data_gate_quiet|].
  intros [[line close]|]; [wp_run; constructor|].
  apply wp_bind, wp_quiet; [auto with quiet|]. intros []; [apply wp_ret; constructor|].
  apply wp_bind, wp_quiet; [auto with quiet|]. intros c.
  destruct (read_data _ _); [|unfold resetTransaction; wp_run; constructor|apply wp_ret; constructor].
  apply wp_bind, wp_quiet; [auto with quiet|]. intros _.
  apply wp_bind. eapply wp_mono; [|apply accept_message_spec]. cbn beta.
  intros _ v (l'&->&[->|(spam&msg&evs&->&Hevs)]); apply wp_ret; [constructor|].
  apply (P_data t l spam msg evs); [by rewrite Hr|done].
Qed.

Lemma run_proto fuel s s' : run B sets clock fmt_date fuel s = Some s' →
  rtc proto (tr s, sh_log (sh s)) (tr s', sh_log (sh s')).
Proof.
  change (run B sets clock fmt_date fuel s = Some s' → rtc proto (observe s) (observe s')).
  apply run_keeps; [|apply rtc_refl].
  assert (Hm : ∀ A (m : M W A), (∀ t l, wp m (moves (t, l)) (t, l)) →
    ∀ v, rtc proto (observe s) v → wp m (λ _, rtc proto (observe s)) v).
  { intros A m Hmv [t l] Hrt. eapply wp_mono; [|apply Hmv]. intros a v' Hp. by eapply rtc_r. }
  split; intros; try (apply Hm; [intros|done]); auto using cmdHelo_moves, cmdStartTLS_moves,
    cmdAuth_moves, cmdMail_moves, cmdRcpt_moves, cmdData_moves.
  eapply rtc_r; [done|constructor].
Qed.
End protocol.

(** ** Safety *)

(** A session before its first command. *)
Definition fresh {W} (s : session W) : Prop :=
  ∃ b, tr s = MkTrans "" b "" "" false [] ∧ sh_log (sh s) = [].

Section safety.
Context {W : Type} (B : Backend W) (sets : nat → Settings) (clock : nat → Z) (fmt_date : Z → string).

Lemma run_invariant (J : Trans → list event → Prop) fuel s s' :
  (∀ t l t' l', J t l → proto B sets (t, l) (t', l') → J t' l') →
  J (tr s) (sh_log (sh s)) → run B sets clock fmt_date fuel s = Some s' →
  J (tr s') (sh_log (sh s')).
Proof.
  intros Hstep H0 Hrun%run_proto. remember (tr s, sh_log (sh s)) as a eqn:Ea.
  remember (tr s', sh_log (sh s')) as b eqn:Eb. revert s s' H0 Ea Eb Hrun. intros s s' H0 -> -> Hrun.
  enough (H : ∀ a b, rtc (proto B sets) a b → J a.1 a.2 → J b.1 b.2) by exact (H _ _ Hrun H0).
  intros a b. induction 1 as [|[t l] [t1 l1] c Hp _ IH]; [done|]. intros HJ. apply IH. by eapply Hstep.
Qed.

(** C4: a session refines the protocol: every run, whatever the client
    sends, the backend answers and the settings become, is a sequence of
    the moves above, and the record of what it did only grows. *)
Theorem run_refines fuel s s' : run B sets clock fmt_date fuel s = Some s' →
  rtc (proto B sets) (tr s, sh_log (sh s)) (tr s', sh_log (sh s')) ∧
  ∃ evs, sh_log (sh s') = sh_log (sh s) ++ evs.
Proof.
  intros Hrun. split; [by eapply run_proto|].
  apply (run_invariant (λ _ l, ∃ evs, l = sh_log (sh s) ++ evs) fuel s s'); [|exists []; by rewrite app_nil_r|done].
  intros t l t' l' [evs ->] Hp. inversion Hp; subst; rewrite <- ?app_assoc; eauto.
Qed.

(** The events of a delivery attempt for recipients of a kind. *)
Lemma attempted_all (P : event → Prop) frm msg spam rs evs :
  (∀ r ev, r ∈ rs → attempted frm msg spam r ev → P ev) →
  Forall2 (attempted frm msg spam) rs evs → Forall P evs.
Proof.
  intros HP H. induction H as [|r ev rs evs Hr _ IH]; constructor.
  - by apply (HP r ev (list_elem_of_here _ _)).
  - apply IH. intros r' ev' Hr'. by apply HP, list_elem_of_further.
Qed.

(** Whatever the mode, what is delivered goes to a mailbox the backend gave
    for an address of a domain it hosts. *)
Lemma deliveries_hosted fuel s s' : fresh s → run B sets clock fmt_date fuel s = Some s' →
  ∀ mb f spam msg err, EvDeliver mb f spam msg err ∈ sh_log (sh s') → ∃ addr, hosted B addr mb.
Proof.
  intros (b&Ht&Hl) Hrun.
  enough (Forall (λ ev, match ev with EvDeliver mb _ _ _ _ => ∃ addr, hosted B addr mb | _ => True end) (sh_log (sh s')))
    as Hall by (intros mb f spam msg err Hin; by apply (proj1 (Forall_forall _ _) Hall _ Hin)).
  refine (proj2 (run_invariant (λ t l, Forall (λ r, r_remote r = false → hosted B (r_addr r) (r_mb r)) (rcpts t) ∧
    Forall _ l) fuel s s' _ _ Hrun)); [|by rewrite Ht, Hl; repeat constructor].
  clear. intros t l t' l' [Hr Hev] Hp. inversion Hp; subst; try (split; [constructor|done]); try done.
  - split; [by destruct err|]. apply Forall_app. split; [done|]. by repeat constructor.
  - split; [|done]. simpl. apply Forall_app. split; [done|]. constructor; [done|constructor].
  - split; [constructor|]. apply Forall_app. split; [done|].
    eapply attempted_all; [|done]. intros r ev Hin Ha. rewrite Forall_forall in Hr.
    destruct ev; simpl in Ha |- *; [done| |done]. destruct Ha as (Hrem&->&_). eauto.
Qed.

(** Port 25 is never an open relay: a session in inbound mode does not
    queue anything and does not authenticate anyone. *)
Lemma inbound_no_relay fuel s s' : (∀ k, set_Mode (sets k) = ModeInbound) → fresh s →
  run B sets clock fmt_date fuel s = Some s' →
  Forall (λ ev, match ev with EvDeliver _ _ _ _ _ => True | _ => False end) (sh_log (sh s')).
Proof.
  intros Hm (b&Ht&Hl) Hrun.
  refine (proj2 (run_invariant (λ t l, Forall (λ r, r_remote r = false) (rcpts t) ∧
    Forall _ l) fuel s s' _ _ Hrun)); [|by rewrite Ht, Hl; repeat constructor].
  clear -Hm. intros t l t' l' [Hr Hev] Hp. inversion Hp; subst; try (split; [constructor|done]); try done.
  - rewrite Hm in *. done.
  - split; [|done]. simpl. apply Forall_app. split; [done|]. constructor; [|done].
    destruct (r_remote r) eqn:E; [|done].
    match goal with H : true = true → _ |- _ => specialize (H eq_refl); by rewrite Hm in H end.
  - split; [constructor|]. apply Forall_app. split; [done|].
    eapply attempted_all; [|done]. intros r ev Hin Ha. rewrite Forall_forall in Hr. specialize (Hr r Hin).
    destruct ev; simpl in Ha; [done|done|]. destruct Ha as (Ha&_). congruence.
Qed.

(** Everything an event rests on happened before it. *)
Definition ordered (P : list event → event → Prop) (l : list event) : Prop :=
  ∀ l1 ev l2, l = l1 ++ ev :: l2 → P l1 ev.

Lemma ordered_app P l evs : (∀ l1 l2 ev, P l1 ev → P (l1 ++ l2) ev) →
  ordered P l → Forall (P l) evs → ordered P (l ++ evs).
Proof.
  intros Hmono Ho Hall l1 ev l2 E. apply app_eq_inv in E as [(k&->&E)|(k&->&E)].
  - destruct k as [|x k]; simpl in E; [|injection E as -> ->; by apply (Ho l1 x k)].
    rewrite app_nil_r in *. subst evs. apply Forall_cons in Hall as [H _]. done.
  - subst evs. apply Forall_app in Hall as [_ Hall]. apply Forall_cons in Hall as [H _]. by apply Hmono.
Qed.

(** On the submission ports nothing is accepted without an
    authenticated sender: every message handed on carries, as its
    envelope sender, the name of an account whose credentials the
    backend had accepted before in the same session; and credentials
    are only ever taken over TLS. *)
Lemma submission_sender fuel s s' : (∀ k, set_Mode (sets k) = ModeSubmission) → fresh s →
  run B sets clock fmt_date fuel s = Some s' →
  ordered (λ before ev,
    let known f := f ≠ "" ∧ ∃ user pass, EvAuth user pass true None ∈ before ∧ f = ToLower user in
    match ev with
    | EvDeliver _ f _ _ _ | EvEnqueue f _ _ _ => known f
    | EvAuth _ _ b _ => b = true
    end) (sh_log (sh s')).
Proof.
  intros Hm (b&Ht&Hl) Hrun.
  set (known (l : list event) f := f ≠ "" ∧ ∃ user pass, EvAuth user pass true None ∈ l ∧ f = ToLower user).
  set (P := λ (before : list event) ev, match ev with
    | EvDeliver _ f _ _ _ | EvEnqueue f _ _ _ => known before f
    | EvAuth _ _ b _ => b = true
    end).
  assert (Hmono : ∀ l1 l2 ev, P l1 ev → P (l1 ++ l2) ev).
  { intros l1 l2 [| |]; simpl; [done|..]; intros (?&u&p&Hin&?); (split; [done|]);
      exists u, p; (split; [apply elem_of_app; by left|done]). }
  refine (proj2 (run_invariant (λ t l, ((authed t ≠ "" → known l (authed t)) ∧ (fromSet t = true → known l (from t)) ∧
    (rcpts t ≠ [] → fromSet t = true)) ∧ ordered P l) fuel s s' _ _ Hrun)).
  2:{ rewrite Ht, Hl. split; [by split_and!|]. intros l1 ev l2 E. by destruct l1. }
  clear -Hm Hmono. intros t l t' l' [(Ha&Hf&Hr) Ho] Hp.
  assert (Hgrow : ∀ evs f, known l f → known (l ++ evs) f).
  { intros evs f (?&u&p&Hin&?). split; [done|]. exists u, p. split; [apply elem_of_app; by left|done]. }
  inversion Hp; subst; simpl; try (by split_and!).
  - split; [|apply ordered_app; [done|done|by repeat constructor]]. destruct err as [e|]; simpl.
    + split_and!; auto.
    + split_and!; [|auto|done]. intros Hne. split; [done|]. exists user, pass.
      split; [apply elem_of_app; right; constructor|done].
  - split; [|done]. split_and!; [done| |done]. intros _.
    match goal with H : set_Mode _ = _ → _ |- _ => destruct (H (Hm _)) as [Hne ->] end. auto.
  - split; [split_and!; [auto|done|done]|]. apply ordered_app; [done|done|].
    eapply attempted_all; [|done]. intros r ev Hin Hat.
    assert (Hk : known l (from t)) by auto.
    destruct ev; simpl in Hat |- *; [done|by destruct Hat as (_&_&->&_)|by destruct Hat as (_&_&->&_)].
Qed.
End safety.
