(* ===== verification/SmtpWorld.v ===== *)
(** * SMTP: what a session does to the backend's world

    The events a session records account for its effect on the world of
    its backend: the world at the end is the world at the start after the
    recorded operations, in their order, and after the operations that
    leave no event (screening, signing, the questions about reputation). *)

From S2P Require Import Prelude GoStrings GoBase64 GoIO Session RateLimit Stats Container Auth Storage Smtp SmtpSession.

Section world.
Context {W : Type} (B : Backend W).

(** How the events of a log lead from one world to another. *)
Inductive explains (w0 : W) : list event → W → Prop :=
  | X_start : explains w0 [] w0
  | X_auth l w auth user pass i t : explains w0 l w → Authenticate B = Some auth →
      explains w0 (l ++ [EvAuth user pass t (auth user pass i w).1]) (auth user pass i w).2
  | X_deliver l w mb f spam msg : explains w0 l w →
      explains w0 (l ++ [EvDeliver mb f spam msg (be_Deliver B mb f spam msg w).1]) (be_Deliver B mb f spam msg w).2
  | X_enqueue l w f rcpt msg : explains w0 l w →
      explains w0 (l ++ [EvEnqueue f rcpt msg (be_Enqueue B f rcpt msg w).1]) (be_Enqueue B f rcpt msg w).2
  | X_local l w d : explains w0 l w → explains w0 l (IsLocalDomain B d w).2
  | X_lookup l w a : explains w0 l w → explains w0 l (be_Lookup B a w).2
  | X_postmaster l w : explains w0 l w → explains w0 l (Postmaster B w).2
  | X_screen l w g i h f body : explains w0 l w → Screen B = Some g → explains w0 l (g i h f body w).2
  | X_sign l w g d msg : explains w0 l w → Sign B = Some g → explains w0 l (g d msg w).2
  | X_may l w g u d : explains w0 l w → MaySend B = Some g → explains w0 l (g u d w).2
  | X_sent l w g u d : explains w0 l w → Sent B = Some g → explains w0 l (g u d w).

(** What happened since the log was [l0] and the world [w0]. *)
Definition since (l0 : list event) (w0 : W) (s : session W) : Prop :=
  ∃ l, sh_log (sh s) = l0 ++ l ∧ explains w0 l (sh_world (sh s)).

Context (l0 : list event) (w0 : W).

(** A computation that only does what it records. *)
Definition honest {A} (m : M W A) : Prop := ∀ s, since l0 w0 s → since l0 w0 (m s).2.

(** A computation that does not touch the backend. *)
Definition apart {A} (m : M W A) : Prop := ∀ s, sh_log (sh (m s).2) = sh_log (sh s) ∧ sh_world (sh (m s).2) = sh_world (sh s).

Lemma honest_apart {A} (m : M W A) : apart m → honest m.
Proof. intros Hm s. unfold since. by destruct (Hm s) as [-> ->]. Qed.

Lemma honest_ret {A} (a : A) : honest (mret a).
Proof. by apply honest_apart. Qed.

Lemma honest_bind {A C} (m : M W A) (f : A → M W C) : honest m → (∀ a, honest (f a)) → honest (m ≫= f).
Proof.
  intros Hm Hf s Hs. unfold mbind, St_bind. specialize (Hm s Hs). destruct (m s) as [a s1]. by apply Hf.
Qed.

Lemma honest_put_conn c : honest (put_conn (S := session W) c).
Proof. by apply honest_apart. Qed.
Lemma honest_get_conn : honest (get_conn (S := session W)).
Proof. by apply honest_apart. Qed.
Lemma honest_get_tr : honest get_tr. Proof. by apply honest_apart. Qed.
Lemma honest_get_ip : honest get_ip. Proof. by apply honest_apart. Qed.
Lemma honest_put_tr t : honest (put_tr t). Proof. by apply honest_apart. Qed.
Lemma honest_set sets : honest (set sets). Proof. by apply honest_apart. Qed.
Lemma honest_now clock : honest (now clock). Proof. by apply honest_apart. Qed.
Lemma honest_count f : honest (count f). Proof. by apply honest_apart. Qed.

Lemma honest_limit_in clock f k : honest (limit_in clock f k).
Proof. apply honest_apart. intros s. unfold limit_in, mbind, St_bind, now, with_shared. cbn. by destruct (f _ _ _). Qed.
Lemma honest_limit_out clock f k : honest (limit_out clock f k).
Proof. apply honest_apart. intros s. unfold limit_out, mbind, St_bind, now, with_shared. cbn. by destruct (f _ _ _). Qed.

(** An operation of the backend, with its event or without. *)
Lemma honest_perform {A} (f : W → A * W) ev :
  (∀ l w, explains w0 l w → explains w0 (l ++ ev (f w).1) (f w).2) → honest (perform f ev).
Proof.
  intros Hf s (l&Hl&Hx). unfold perform, with_shared. specialize (Hf l _ Hx).
  destruct (f (sh_world (sh s))) as [a w]. exists (l ++ ev a). cbn in *. by rewrite Hl, app_assoc.
Qed.
End world.

Create HintDb honest discriminated.
#[export] Hint Resolve honest_ret honest_put_conn honest_get_conn honest_get_tr honest_get_ip honest_put_tr honest_set
  honest_now honest_count honest_limit_in honest_limit_out : honest.

(** Reduces a computation to its parts. *)
Ltac honest_step :=
  lazymatch goal with
  | |- honest _ _ _ (mbind _ _) => apply honest_bind; [|intros ?]
  | |- honest _ _ _ (let '(_, _) := ?x in _) => destruct x
  | |- honest _ _ _ (if ?b then _ else _) => destruct b
  | |- honest _ _ _ (match ?x with _ => _ end) => destruct x eqn:?
  | |- honest _ _ _ _ => solve [auto with honest]
  end.
Ltac honest := repeat honest_step.

Section session.
Context {W : Type} (B : Backend W) (sets : nat → Settings) (clock : nat → Z) (fmt_date : Z → string).
Context (l0 : list event) (w0 : W).

Lemma honest_reply_lines ls : honest B l0 w0 (reply_lines ls).
Proof. unfold reply_lines, send_lines. honest. Qed.
Hint Resolve honest_reply_lines : honest.
Lemma honest_reply l : honest B l0 w0 (reply l).
Proof. unfold reply. honest. Qed.
Hint Resolve honest_reply : honest.
Lemma honest_readLine : honest B l0 w0 readLine.
Proof. unfold readLine. honest. Qed.
Hint Resolve honest_readLine : honest.
Lemma honest_reset : honest B l0 w0 resetTransaction.
Proof. unfold resetTransaction. honest. Qed.
Hint Resolve honest_reset : honest.
Lemma honest_login_step p : honest B l0 w0 (login_step p).
Proof. unfold login_step. honest. Qed.
Hint Resolve honest_login_step : honest.

Lemma honest_finish_auth auth cred : Authenticate B = Some auth → honest B l0 w0 (finish_auth auth cred).
Proof.
  intros Ha. unfold finish_auth. destruct cred as [[user pass]|]; [|honest].
  apply honest_bind; [auto with honest|intros i]. apply honest_bind; [auto with honest|intros t].
  apply honest_bind; [|intros [[]|]; honest]. apply honest_perform. intros l w Hx. by eapply X_auth.
Qed.

Lemma honest_cmdAuth arg : honest B l0 w0 (cmdAuth B sets arg).
Proof.
  unfold cmdAuth, authPlain, authLogin. honest; by apply honest_finish_auth.
Qed.

Lemma honest_deliver_all frm spam msg rs : honest B l0 w0 (deliver_all B frm spam msg rs).
Proof.
  induction rs as [|r rs IH]; cbn [deliver_all]; [honest|]. apply honest_bind.
  - destruct (r_remote r); apply honest_perform; intros l w Hx; by constructor.
  - intros err. apply honest_bind; [exact IH|intros n; honest].
Qed.

(** An operation that leaves no event. *)
Lemma honest_silent {A} (f : W → A * W) : (∀ l w, explains B w0 l w → explains B w0 l (f w).2) →
  honest B l0 w0 (perform f (λ _, [])).
Proof. intros Hf. apply honest_perform. intros l w Hx. rewrite app_nil_r. by apply Hf. Qed.

Lemma honest_ask {A} (f : W → A * W) : (∀ l w, explains B w0 l w → explains B w0 l (f w).2) → honest B l0 w0 (ask f).
Proof. apply honest_silent. Qed.

Lemma honest_cmdRcpt arg : honest B l0 w0 (cmdRcpt B sets clock arg).
Proof.
  unfold cmdRcpt, add_rcpt. honest; apply honest_ask; intros; by constructor.
Qed.
Hint Resolve honest_cmdRcpt : honest.

Lemma honest_data_gate set : honest B l0 w0 (data_gate B clock set).
Proof.
  unfold data_gate. honest. all: apply honest_silent; intros ? ? Hx; by eapply X_may.
Qed.

Lemma honest_screen set body : honest B l0 w0 (screen B set body).
Proof.
  unfold screen. honest. all: apply honest_silent; intros ? ? Hx; by eapply X_screen.
Qed.

Lemma honest_sign set msg : honest B l0 w0 (sign B set msg).
Proof.
  unfold sign. honest. all: apply honest_silent; intros ? ? Hx; by eapply X_sign.
Qed.
Hint Resolve honest_cmdAuth honest_deliver_all honest_data_gate honest_screen honest_sign : honest.

Lemma honest_assemble body extra : honest B l0 w0 (assemble sets clock fmt_date body extra).
Proof. unfold assemble. honest. Qed.
Hint Resolve honest_assemble : honest.

Lemma honest_accept set body : honest B l0 w0 (accept_message B sets clock fmt_date set body).
Proof.
  unfold accept_message. honest. apply honest_silent. intros ? ? Hx. cbn [snd]. by eapply X_sent.
Qed.
Hint Resolve honest_accept : honest.

Lemma honest_step_session : honest B l0 w0 (step B sets clock fmt_date).
Proof. unfold step, cmdHelo, cmdStartTLS, cmdMail, cmdData. honest. Qed.

(** The log of a run accounts for the world it leaves. *)
Lemma run_explained fuel s s' : run B sets clock fmt_date fuel s = Some s' →
  since B l0 w0 s → since B l0 w0 s'.
Proof.
  unfold run. intros Hrun Hs. pose proof (honest_set B l0 w0 sets s Hs) as H1.
  destruct (set sets s) as [st s1]. cbn in H1.
  pose proof (honest_reply ("220 " +:+ set_Hostname st +:+ " ESMTP Kavira") s1 H1) as H2.
  destruct (reply _ s1) as [[] s2]; cbn in H2; [by injection Hrun as <-|]. unfold loop in Hrun.
  revert s2 H2 Hrun. induction fuel as [|fuel IH]; intros s2 H2; cbn [turns]; [done|].
  pose proof (honest_step_session s2 H2) as H3. destruct (step B sets clock fmt_date s2) as [[] s3]; cbn in H3.
  - by intros [= <-].
  - by apply IH.
Qed.
End session.
