(* ===== verification/SmtpFlow.v ===== *)
(** * SMTP: the stream

    How a session moves along what its client sends: it always comes to
    an end, it forgets what was sent in clear before a TLS handshake, and
    it is back in step after a message, whatever its size.  The last part
    records what happens when a delivery fails for some recipients only,
    and what ends a message. *)

From S2P Require Import Prelude GoStrings GoBase64 GoIO Session RateLimit Stats Container Auth Storage Smtp SmtpSession SmtpSafety.

(** ** Termination *)

Section shrinking.
Context {W : Type} (B : Backend W) (sets : nat → Settings) (clock : nat → Z) (fmt_date : Z → string).

Lemma shrinks_shared {A} (f : Shared W → A * Shared W) : shrinks (with_shared f).
Proof. apply shrinks_still. intros s. unfold with_shared. by destruct (f (sh s)). Qed.

Lemma shrinks_get_tr : shrinks (S := session W) get_tr. Proof. by apply shrinks_still. Qed.
Lemma shrinks_get_ip : shrinks (S := session W) get_ip. Proof. by apply shrinks_still. Qed.
Lemma shrinks_put_tr t : shrinks (S := session W) (put_tr t). Proof. by apply shrinks_still. Qed.
Lemma shrinks_set : shrinks (S := session W) (set sets). Proof. apply shrinks_shared. Qed.
Lemma shrinks_now : shrinks (S := session W) (now clock). Proof. apply shrinks_shared. Qed.
Lemma shrinks_count f : shrinks (S := session W) (count f). Proof. apply shrinks_shared. Qed.
Lemma shrinks_perform {A} (f : W → A * W) ev : shrinks (perform f ev). Proof. apply shrinks_shared. Qed.
Lemma shrinks_ask {A} (f : W → A * W) : shrinks (ask f). Proof. apply shrinks_perform. Qed.

Lemma shrinks_limit_in f k : shrinks (S := session W) (limit_in clock f k).
Proof. apply shrinks_bind; [apply shrinks_now|]. intros t. apply shrinks_shared. Qed.
Lemma shrinks_limit_out f k : shrinks (S := session W) (limit_out clock f k).
Proof. apply shrinks_bind; [apply shrinks_now|]. intros t. apply shrinks_shared. Qed.

Lemma shrinks_reply_lines ls : shrinks (S := session W) (reply_lines ls).
Proof. apply shrinks_send_lines. Qed.
Lemma shrinks_reply l : shrinks (S := session W) (reply l).
Proof. apply shrinks_send_lines. Qed.

(** Reading a line consumes input unless the client is gone. *)
Lemma readLine_progress (s : session W) :
  (budget (conn (readLine s).2) <= budget (conn s))%nat ∧
  ((readLine s).1 ≠ None → (budget (conn (readLine s).2) < budget (conn s))%nat).
Proof.
  unfold readLine, mbind, St_bind. simpl.
  pose proof (read_command_progress maxLine (c_in (conn s)) ltac:(done)) as H.
  destruct (read_command maxLine (c_in (conn s))) as [r rest]. destruct H as [H1 H2]. simpl.
  set (s1 := MkSession _ _ _ _).
  destruct r; simpl.
  - specialize (H2 ltac:(done)). unfold budget. simpl. split; [lia|]. intros _. lia.
  - specialize (H2 ltac:(done)). pose proof (shrinks_reply "500 5.5.2 line too long" s1) as H3.
    destruct (reply "500 5.5.2 line too long" s1) as [b s2]. simpl in H3 |- *.
    unfold budget in *. simpl in *. split; [lia|]. intros _. lia.
  - unfold budget. simpl. split; [lia|done].
Qed.

Lemma shrinks_readLine : shrinks (S := session W) readLine.
Proof. intros s. apply readLine_progress. Qed.
End shrinking.

#[export] Hint Resolve shrinks_get_tr shrinks_get_ip shrinks_put_tr shrinks_set shrinks_now
  shrinks_count shrinks_ask shrinks_perform shrinks_limit_in shrinks_limit_out shrinks_reply_lines
  shrinks_reply shrinks_readLine : shrinks.

Section termination.
Context {W : Type} (B : Backend W) (sets : nat → Settings) (clock : nat → Z) (fmt_date : Z → string).

Lemma shrinks_login_step p : shrinks (S := session W) (login_step p).
Proof. unfold login_step. shrink. Qed.

Lemma shrinks_finish_auth auth cred : shrinks (S := session W) (finish_auth auth cred).
Proof. unfold finish_auth. shrink. Qed.

Lemma shrinks_cmdAuth arg : shrinks (cmdAuth B sets arg).
Proof.
  unfold cmdAuth, authPlain, authLogin. shrink;
    first [apply shrinks_login_step|apply shrinks_finish_auth].
Qed.

Lemma shrinks_cmdHelo arg x : shrinks (cmdHelo B sets arg x).
Proof. unfold cmdHelo. shrink. Qed.

Lemma shrinks_cmdMail arg : shrinks (S := session W) (cmdMail sets arg).
Proof. unfold cmdMail. shrink. Qed.

Lemma shrinks_cmdRcpt arg : shrinks (cmdRcpt B sets clock arg).
Proof. unfold cmdRcpt, add_rcpt. shrink. Qed.

Lemma shrinks_cmdStartTLS : shrinks (S := session W) (cmdStartTLS sets).
Proof.
  unfold cmdStartTLS. shrink.
  destruct (c_tls (channel s)) as [b|] eqn:E; [|done].
  apply shrinks_put_conn; [shrink|]. unfold budget. rewrite E. simpl. lia.
Qed.

Lemma shrinks_deliver_all frm spam msg rs : shrinks (deliver_all B frm spam msg rs).
Proof. induction rs as [|r rs IH]; cbn [deliver_all]; [auto with shrinks|]. shrink; apply IH. Qed.

Lemma shrinks_accept_message set body : shrinks (accept_message B sets clock fmt_date set body).
Proof.
  unfold accept_message, screen, assemble, sign, resetTransaction. shrink; apply shrinks_deliver_all.
Qed.

Lemma read_data_length max s : match read_data max s with
  | Data _ rest | DataTooLarge rest => (String.length rest <= String.length s)%nat
  | DataBroken => True
  end.
Proof.
  unfold read_data, dot_read. destruct (dot_go BeginLine s) as [[body rest]|] eqn:E.
  - apply dot_go_length in E. repeat case_match; simplify_eq; lia.
  - by repeat case_match; simplify_eq.
Qed.

Lemma shrinks_cmdData : shrinks (cmdData B sets clock fmt_date).
Proof.
  unfold cmdData, data_gate. shrink.
  match goal with |- context [read_data ?m (c_in (channel ?s))] =>
    pose proof (read_data_length m (c_in (channel s))) as Hl; rename s into s end.
  destruct (read_data _ (c_in (channel s))) as [body rest|rest|]; [| |done].
  1: apply shrinks_put_conn; [apply shrinks_bind; [apply shrinks_accept_message|auto with shrinks]|].
  2: apply shrinks_put_conn; [unfold resetTransaction; shrink|].
  all: unfold budget; simpl in *; lia.
Qed.

(** A turn that does not end the session consumes input. *)
Lemma step_progress s : (step B sets clock fmt_date s).1 = false →
  (budget (conn (step B sets clock fmt_date s).2) < budget (conn s))%nat.
Proof.
  destruct (readLine_progress s) as [_ Hp]. unfold step.
  match goal with |- context [(readLine ≫= ?k) s] =>
    change ((readLine ≫= k) s) with (let '(line, s1) := readLine s in k line s1) end.
  destruct (readLine s) as [[line|] s1]; cbn [fst snd] in Hp |- *; [|done].
  specialize (Hp ltac:(done)). intros _.
  match goal with |- (budget (conn (?m s1).2) < _)%nat => enough (Hs : shrinks m) by (specialize (Hs s1); cbn [channel session_channel] in Hs; lia) end.
  unfold resetTransaction. shrink; first [apply shrinks_cmdHelo|apply shrinks_cmdStartTLS
    |apply shrinks_cmdMail|apply shrinks_cmdRcpt|apply shrinks_cmdData|apply shrinks_cmdAuth].
Qed.

(** every session comes to an end: as many turns as the client sends
    bytes, in clear and under TLS, are enough. *)
Theorem run_total s : is_Some (run B sets clock fmt_date (S (budget (conn s))) s).
Proof.
  assert (Hf : (budget (conn s) < S (budget (conn s)))%nat) by lia. revert Hf.
  generalize (S (budget (conn s))). intros fuel Hf.
  unfold run, set, with_shared. simpl. set (s1 := MkSession _ _ _ _).
  pose proof (shrinks_reply ("220 " +:+ set_Hostname (sets (sh_sets (sh s))) +:+ " ESMTP Kavira") s1) as Hr.
  destruct (reply _ s1) as [[] s2]; [by eexists|]. apply turns_total; [apply step_progress|]. simpl in Hr |- *.
  unfold s1 in Hr. simpl in Hr. lia.
Qed.
End termination.

(** ** STARTTLS *)

(** The session with other bytes still to come in clear. *)
Definition with_input {W} (s : session W) (x : string) : session W :=
  MkSession (ip s) (MkConn x (c_tls (conn s)) (c_writes (conn s)) (c_out (conn s))) (tr s) (sh s).

(** C24: nothing sent before the handshake survives it: what a client, or
    someone in its place, appended to [STARTTLS] in clear is not read as
    a command, and the greeting, the sender and the recipients announced
    in clear are forgotten. *)
Theorem starttls_isolates {W} (sets : nat → Settings) (s : session W) n bytes x :
  set_TLS (sets (sh_sets (sh s))) = true → tls (tr s) = false →
  c_writes (conn s) = S n → c_tls (conn s) = Some bytes →
  cmdStartTLS sets (with_input s x) = cmdStartTLS sets s ∧
  let '(quit, s') := cmdStartTLS sets s in
  quit = false ∧ c_in (conn s') = bytes ∧ tls (tr s') = true ∧ helo (tr s') = "" ∧
  fromSet (tr s') = false ∧ rcpts (tr s') = [].
Proof.
  intros Htls Ht Hw Hc. unfold cmdStartTLS, mbind, St_bind, set, with_shared, with_input. simpl.
  rewrite Htls, Ht. unfold reply, reply_lines, send_lines, get_conn, put_conn, mbind, St_bind. simpl. rewrite Hw. simpl. by rewrite Hc.
Qed.

(** ** DATA *)

(** after a message the session is in step with its client, whatever
    the size of the message: a message sent as lines is received as these
    lines, or refused when it is larger than the limit by even one byte,
    and in both cases what follows the end mark is what is read next. *)
Theorem data_in_step max ls rest : 0 <= max < max_int64 →
  Forall (λ l, avoids CR l = true ∧ avoids LF l = true) ls →
  let body := Join ((λ l, l +:+ String LF "") <$> ls) "" in
  read_data max (dot_encode ls +:+ rest) =
  if max <? slen body then DataTooLarge rest else Data body rest.
Proof.
  intros [Hm Hm'] Hls body. unfold read_data. rewrite dot_read_encode by done. fold body.
  assert (Hi : i64 (max + 1) = max + 1).
  { unfold i64, max_int64 in *. rewrite Z.mod_small; lia. }
  rewrite Hi, (proj2 (Z.leb_gt _ 0)) by lia. done.
Qed.

Lemma data_in_step_witness :
  read_data 10 (dot_encode ["hello"; ".dot"] +:+ "QUIT") = DataTooLarge "QUIT" ∧
  read_data 11 (dot_encode ["hello"; ".dot"] +:+ "QUIT") =
    Data ("hello" +:+ String LF (".dot" +:+ String LF "")) "QUIT".
Proof.
  split; rewrite data_in_step by (first [vm_compute; split; [discriminate|reflexivity]|repeat constructor]);
    vm_compute; reflexivity.
Defined.

(** A message may also be ended by bare line feeds, which the reply to
    [DATA] does not announce: what another server passed on as one message
    is two here. *)
Theorem bare_lf_ends_message l rest : avoids CR l = true → avoids LF l = true → HasPrefix l "." = false →
  l ≠ "" →
  dot_read (l +:+ String LF (String "." (String LF rest))) = Some (l +:+ String LF "", rest).
Proof.
  intros Ha Hb Hp Hne. unfold dot_read. destruct l as [|c l]; [done|].
  assert (Hgo : dot_go BeginLine (String c (l +:+ String LF (String "." (String LF rest)))) =
    dot_go InLine (String c (l +:+ String LF (String "." (String LF rest))))).
  { pose proof Ha as [Hc _]%avoids_cons. pose proof Hb as [Hc' _]%avoids_cons. cbn [dot_go].
    rewrite (proj2 (Ascii.eqb_neq c CR) Hc), (proj2 (Ascii.eqb_neq c LF) Hc').
    cbn [HasPrefix] in Hp. destruct (Ascii.eqb_spec c ".") as [->|]; [by destruct l|done]. }
  rewrite sapp_cons, Hgo. rewrite <- sapp_cons. rewrite dot_go_data by done. by vm_compute.
Qed.

(** ** The name of a login *)

Lemma TrimSpace_pad u : TrimSpace (String " " u) = TrimSpace u.
Proof. done. Qed.

(** The authenticator trims the name, the session does not: the same
    account under padded names has several names for the limits on what
    it sends. *)
Theorem login_alias {W} L check g (clk : nat → Z) u pass i
    (auth : string → string → string → W → option auth_error * W) (s : session W) :
  Verify L check g clk (String " " u) pass i = Verify L check g clk u pass i ∧
  ((auth (String " " u) pass (ip s) (sh_world (sh s))).1 = None →
   authed (tr (finish_auth auth (Some (String " " u, pass)) s).2) = String " " (ToLower u)).
Proof.
  split.
  - unfold Verify, userKey. by rewrite TrimSpace_pad.
  - intros Ha. unfold finish_auth, mbind, St_bind, perform, with_shared. simpl.
    destruct (auth _ _ _ _) as [r w]. simpl in Ha. subst r. simpl.
    unfold reply, reply_lines, send_lines, get_conn, put_conn, mbind, St_bind. simpl. by destruct (c_writes (conn s)).
Qed.

(** ** A session *)

Definition crlf (ls : list string) : string := Join ((λ l, l +:+ CRLF) <$> ls) "".

Definition sample_backend : Backend unit := {|
  IsLocalDomain d w := (String.eqb d "y.org", w);
  be_Lookup a w := (if HasPrefix a "nobody" then None else Some (Storage.MkMailbox a "/m" 0 0), w);
  be_Deliver mb _ _ _ w := (if HasPrefix (Storage.Email mb) "full" then Some "no space" else None, w);
  Postmaster w := ("", w);
  Authenticate := Some (λ u p _ w, (if String.eqb p "secret" then None else Some ErrInvalid, w));
  be_Enqueue _ _ _ w := (None, w);
  Screen := None; Sign := None; MaySend := None; Sent := None;
|}.

Definition sample_settings (m : Mode) (k : nat) : Settings :=
  MkSettings "mx.y.org" 100 2 m false true (MkIdentity false "" "" "").

Definition sample_session (clear : string) (secure : option string) : session unit :=
  newSession (sample_settings ModeInbound) "192.0.2.1" (MkConn clear secure 99 [])
    (MkShared 0 0 None None (Some zero_counters) tt []).

Abbreviation inbound_run := (
  run sample_backend (sample_settings ModeInbound) (λ _, 0) (λ _, "now") 40
    (sample_session (crlf ["EHLO a"; "MAIL FROM:<x@z.org>"; "RCPT TO:<u@z.org>"; "RCPT TO:<Bob@Y.org>";
                           "RCPT TO:<full@y.org>"; "RCPT TO:<carl@y.org>"; "DATA"; "hi"; "."; "QUIT"]) None)).

(** The transcript: relay denied, the limit of two recipients, and a
    message accepted although one of its recipients did not get it. *)
Example inbound_transcript :
  match inbound_run with
  | Some s => c_out (conn s) =
      ["220 mx.y.org ESMTP Kavira"; "250-mx.y.org"; "250-PIPELINING"; "250-SIZE 100"; "250-8BITMIME";
       "250-SMTPUTF8"; "250 STARTTLS"; "250 2.1.0 OK"; "554 5.7.1 relay access denied"; "250 2.1.5 OK";
       "250 2.1.5 OK"; "452 4.5.3 too many recipients"; "354 end data with <CRLF>.<CRLF>";
       "250 2.0.0 OK message accepted for delivery"; "221 2.0.0 mx.y.org closing connection"] ∧
      (λ ev, match ev with EvDeliver mb _ _ _ err => (Storage.Email mb, err) | _ => ("", None) end)
        <$> sh_log (sh s) = [("bob@y.org", None); ("full@y.org", Some "no space")]
  | None => False
  end.
Proof. vm_compute. done. Qed.

Abbreviation submission_run := (
  run sample_backend (sample_settings ModeSubmission) (λ _, 0) (λ _, "now") 60
    (sample_session (crlf ["EHLO a"; "AUTH PLAIN AGJvYkB5Lm9yZwBzZWNyZXQ="; "STARTTLS"; "injected"])
       (Some (crlf ["EHLO a"; "MAIL FROM:<bob@y.org>"; "AUTH PLAIN AGJvYkB5Lm9yZwBzZWNyZXQ=";
                    "MAIL FROM:<eve@y.org>"; "MAIL FROM:<bob@y.org>"; "RCPT TO:<u@z.org>"; "DATA"; "hi"; ".";
                    "QUIT"])))).

Example submission_transcript :
  match submission_run with
  | Some s => c_out (conn s) =
      ["220 mx.y.org ESMTP Kavira"; "250-mx.y.org"; "250-PIPELINING"; "250-SIZE 100"; "250-8BITMIME";
       "250-SMTPUTF8"; "250 STARTTLS"; "530 5.7.0 must issue STARTTLS first"; "220 2.0.0 ready to start TLS";
       "250-mx.y.org"; "250-PIPELINING"; "250-SIZE 100"; "250-8BITMIME"; "250-SMTPUTF8";
       "250 AUTH PLAIN LOGIN"; "530 5.7.0 authentication required"; "235 2.7.0 authentication successful";
       "553 5.7.1 sender address must be the authenticated user"; "250 2.1.0 OK"; "250 2.1.5 OK";
       "354 end data with <CRLF>.<CRLF>"; "250 2.0.0 OK message accepted for delivery";
       "221 2.0.0 mx.y.org closing connection"]
  | None => False
  end.
Proof. vm_compute. done. Qed.

Lemma starttls_isolates_witness :
  let s := sample_session ("MAIL FROM:<eve@x.org>" +:+ CRLF) (Some "EHLO a") in
  c_in (conn (cmdStartTLS (sample_settings ModeInbound) s).2) = "EHLO a".
Proof.
  intros s.
  pose proof (starttls_isolates (sample_settings ModeInbound) s 98 "EHLO a" "" eq_refl eq_refl eq_refl eq_refl)
    as [_ H]. destruct (cmdStartTLS (sample_settings ModeInbound) s) as [q s']. apply H.
Defined.

Lemma sample_fresh clear secure : fresh (sample_session clear secure).
Proof. by exists false. Qed.

Lemma inbound_events :
  match inbound_run with Some s => length (sh_log (sh s)) = 2%nat | None => False end.
Proof. vm_compute. reflexivity. Qed.

Lemma submission_events :
  match submission_run with Some s => length (sh_log (sh s)) = 2%nat | None => False end.
Proof. vm_compute. reflexivity. Qed.

Lemma inbound_no_relay_witness :
  ∃ s, inbound_run = Some s ∧ length (sh_log (sh s)) = 2%nat ∧
    Forall (λ ev, match ev with EvDeliver _ _ _ _ _ => True | _ => False end) (sh_log (sh s)).
Proof.
  pose proof inbound_events as Hn. destruct inbound_run as [s|] eqn:E; [|contradiction].
  exists s. split; [reflexivity|]. split; [exact Hn|].
  exact (inbound_no_relay sample_backend (sample_settings ModeInbound) (λ _, 0) (λ _, "now") 40 _ s
           (λ _, eq_refl) (sample_fresh _ _) E).
Defined.

Lemma submission_sender_witness :
  ∃ s, submission_run = Some s ∧ length (sh_log (sh s)) = 2%nat ∧
    ordered (λ before ev,
      let known f := f ≠ "" ∧ ∃ user pass, EvAuth user pass true None ∈ before ∧ f = ToLower user in
      match ev with
      | EvDeliver _ f _ _ _ | EvEnqueue f _ _ _ => known f
      | EvAuth _ _ b _ => b = true
      end) (sh_log (sh s)).
Proof.
  pose proof submission_events as Hn. destruct submission_run as [s|] eqn:E; [|contradiction].
  exists s. split; [reflexivity|]. split; [exact Hn|].
  exact (submission_sender sample_backend (sample_settings ModeSubmission) (λ _, 0) (λ _, "now") 60 _ s
           (λ _, eq_refl) (sample_fresh _ _) E).
Defined.

Lemma run_refines_witness :
  ∃ s, inbound_run = Some s ∧
    rtc (proto sample_backend (sample_settings ModeInbound)) (MkTrans "" false "" "" false [], []) (tr s, sh_log (sh s)) ∧
    ∃ evs, sh_log (sh s) = [] ++ evs.
Proof.
  pose proof inbound_events as Hn. destruct inbound_run as [s|] eqn:E; [|contradiction].
  exists s. split; [reflexivity|].
  exact (run_refines sample_backend (sample_settings ModeInbound) (λ _, 0) (λ _, "now") 40 _ s E).
Defined.
