(* ===== verification/Pop3.v ===== *)
(** * POP3: the session

    Models [internal/pop3/pop3.go] over the mailbox of [Mailbox] and the
    files of [Fs].  As in the SMTP session the settings are loaded at
    every use from an arbitrary sequence, and a session runs against the
    bytes its client is going to send.  Whatever other processes do to the
    files happens between two commands.  The code keeps a slice of the
    messages beside the mailbox; both hold the same pointers until the
    mailbox is expunged, which ends the session, so the messages are those
    of the mailbox.  Log lines and deadlines are not modelled. *)

From S2P Require Import Prelude GoStrings GoNet GoMd5 GoIO Session Fs Maildir Mailbox.

Definition maxLine : Z := 1024.

Record Settings := MkSettings {
  set_Hostname : string;
  set_TLS : bool;
  set_ImplicitTLS : bool;
}.

(** The backend: a state and what becomes of it when credentials are
    checked; the answer is the root of the account's mailbox. *)
Definition Backend (A : Type) : Type := string → string → string → A → result path * A.

(** The protocol state of [session]. *)
Record Trans := MkTrans {
  tls : bool;
  user : string;
  mbox : option Mailbox;
  del : gset Z;
  authd : bool;
}.

(** A check of credentials, and over which channel it was made. *)
Inductive event := EvAuth (user pass : string) (tls : bool) (answer : result path).

Record session (A : Type) := MkSession {
  ip : string;
  conn : Conn;
  tr : Trans;
  n_sets : nat;
  n_turn : nat;
  backend : A;
  world : World;
  log : list event;
}.
Arguments MkSession {A}.
Arguments ip {A}.
Arguments conn {A}.
Arguments tr {A}.
Arguments n_sets {A}.
Arguments n_turn {A}.
Arguments backend {A}.
Arguments world {A}.
Arguments log {A}.

#[global] Program Instance session_channel {A} : Channel (session A) := {|
  channel := conn;
  set_channel c s := MkSession (ip s) c (tr s) (n_sets s) (n_turn s) (backend s) (world s) (log s);
|}.
Next Obligation. done. Qed.

(** A computation of a session. *)
Abbreviation M A := (St (session A)).

(** The frozen view, [s.msgs]. *)
Definition msgs (t : Trans) : list Message :=
  match mbox t with Some mb => messages mb | None => [] end.

(** The messages that are not marked, with their numbers. *)
Definition numbered (ms : list Message) : list (Z * Message) :=
  imap (λ i m, (Z.of_nat i + 1, m)) ms.
Definition unmarked (t : Trans) : list (Z * Message) :=
  filter (λ im, im.1 ∉ del t) (numbered (msgs t)).

Definition totalSize (t : Trans) : Z := foldl (λ n im, i64 (n + m_Size im.2)) 0 (unmarked t).

Definition uidl (m : Message) : string := hex_EncodeToString (md5_Sum (BaseName (Name m))).

(** The lines of a block, stripped of a final carriage return and
    dot-stuffed. *)
Definition block_lines (block : string) : list string :=
  (λ line, stuff (TrimSuffix line (String CR ""))) <$> GoStrings.Split block LF.

(** The lines [writeDotted] writes; a negative count means all lines. *)
Definition writeDotted (data : string) (maxBodyLines : Z) : list string :=
  let '(header, body, _) := Cut data (CRLF +:+ CRLF) in
  block_lines header
  ++ (if maxBodyLines =? 0 then [] else
        let lines := GoStrings.Split body LF in
        let lines := if (0 <? maxBodyLines) && (maxBodyLines <? llen lines)
                     then take (Z.to_nat maxBodyLines) lines else lines in
        "" :: block_lines (Join lines (String LF "")))
  ++ ["."].

Section session.
Context `{SliceSort} {A : Type} (env : Env) (Authenticate : Backend A) (sets : nat → Settings)
  (others : nat → World → World).

(** ** State access *)

Definition get_tr : M A Trans := λ s, (tr s, s).
Definition put_tr (t : Trans) : M A unit := λ s,
  (tt, MkSession (ip s) (conn s) t (n_sets s) (n_turn s) (backend s) (world s) (log s)).

Definition set : M A Settings := λ s,
  (sets (n_sets s),
   MkSession (ip s) (conn s) (tr s) (S (n_sets s)) (n_turn s) (backend s) (world s) (log s)).

(** A call of the operating system. *)
Definition os {R} (m : OS R) : M A (result R) := λ s,
  let '(r, w) := m (world s) in
  (r, MkSession (ip s) (conn s) (tr s) (n_sets s) (n_turn s) (backend s) w (log s)).

(** The work of the other processes between two commands. *)
Definition interfere : M A unit := λ s,
  (tt, MkSession (ip s) (conn s) (tr s) (n_sets s) (S (n_turn s)) (backend s)
         (others (n_turn s) (world s)) (log s)).

Definition authenticate (u p : string) : M A (result path) := λ s,
  let '(r, b) := Authenticate u p (ip s) (backend s) in
  (r, MkSession (ip s) (conn s) (tr s) (n_sets s) (n_turn s) b (world s)
        (log s ++ [EvAuth u p (tls (tr s)) r])).

(** Lines written and flushed; [true] is a failure. *)
Definition reply_lines (ls : list string) : M A bool := send_lines ls.

Definition ok (text : string) : M A bool := reply_lines ["+OK " +:+ text].
Definition err (text : string) : M A bool := reply_lines ["-ERR " +:+ text].

Definition readLine : M A (option string) := read_limited maxLine.

(** ** Commands *)

Definition cmdCapa : M A unit :=
  t ← get_tr;
  extra ← (if tls t then mret [] else set ← set; mret (if set_TLS set then ["STLS"] else []));
  reply_lines (["+OK capability list follows"; "TOP"; "UIDL"; "USER"; "RESP-CODES"] ++ extra ++ ["."]);;
  mret tt.

Definition cmdSTLS : M A bool :=
  set ← set;
  t ← get_tr;
  if negb (set_TLS set) then err "TLS not available";; mret false
  else if tls t then err "already in TLS";; mret false
  else
    failed ← ok "begin TLS negotiation";
    if (failed : bool) then mret true else
    c ← get_conn;
    match c_tls c with
    | None => mret true
    | Some bytes =>
        put_conn (MkConn bytes None (c_writes c) (c_out c));;
        put_tr (MkTrans true "" (mbox t) (del t) false);;
        mret false
    end.

Definition cmdUser (arg : string) : M A unit :=
  t ← get_tr;
  if negb (tls t) then err "[AUTH] STLS required before authentication";; mret tt
  else if is_empty arg then err "USER needs a username";; mret tt
  else put_tr (MkTrans (tls t) arg (mbox t) (del t) (authd t));; ok "send PASS";; mret tt.

Definition cmdPass (arg : string) : M A unit :=
  t ← get_tr;
  if negb (tls t) then err "[AUTH] STLS required before authentication";; mret tt
  else if is_empty (user t) then err "send USER first";; mret tt
  else
    root ← authenticate (user t) arg;
    match root with
    | Err _ =>
        put_tr (MkTrans (tls t) "" (mbox t) (del t) (authd t));;
        err "[AUTH] authentication failed";; mret tt
    | Ok root =>
        mb ← os (OpenMailbox env root Inbox);
        match mb with
        | Err _ => err "cannot open mailbox";; mret tt
        | Ok mb =>
            put_tr (MkTrans (tls t) (user t) (Some mb) (del t) true);;
            t ← get_tr;
            ok ("mailbox ready, " +:+ dec (llen (msgs t)) +:+ " messages (" +:+ dec (totalSize t) +:+ " octets)");;
            mret tt
        end
    end.

Definition requireAuth (m : M A unit) : M A unit :=
  t ← get_tr;
  if authd t then m else err "not authenticated";; mret tt.

(** The number and the position of a message that is not marked. *)
Definition message (arg : string) : M A (option (Z * nat * Message)) :=
  t ← get_tr;
  match Atoi arg with
  | None => err "no such message";; mret None
  | Some n =>
      if (n <? 1) || (llen (msgs t) <? n) then err "no such message";; mret None
      else if bool_decide (n ∈ del t) then err ("message " +:+ dec n +:+ " already deleted");; mret None
      else match msgs t !! Z.to_nat (n - 1) with
           | Some m => mret (Some (n, Z.to_nat (n - 1), m))
           | None => mret None
           end
  end.

Definition cmdStat : M A unit := requireAuth (
  t ← get_tr;
  ok (dec (llen (unmarked t)) +:+ " " +:+ dec (totalSize t));; mret tt).

Definition cmdList (arg : string) : M A unit := requireAuth (
  if negb (is_empty arg) then
    x ← message arg;
    match x with
    | None => mret tt
    | Some (n, _, m) => ok (dec n +:+ " " +:+ dec (m_Size m));; mret tt
    end
  else
    t ← get_tr;
    reply_lines ((("+OK " +:+ dec (llen (msgs t) - Z.of_nat (size (del t))) +:+ " messages")
      :: ((λ im, dec im.1 +:+ " " +:+ dec (m_Size im.2)) <$> unmarked t)) ++ ["."]);;
    mret tt).

Definition cmdUidl (arg : string) : M A unit := requireAuth (
  if negb (is_empty arg) then
    x ← message arg;
    match x with
    | None => mret tt
    | Some (n, _, m) => ok (dec n +:+ " " +:+ uidl m);; mret tt
    end
  else
    t ← get_tr;
    reply_lines (("+OK unique-id listing follows"
      :: ((λ im, dec im.1 +:+ " " +:+ uidl im.2) <$> unmarked t)) ++ ["."]);;
    mret tt).

(** [s.mbox.SetFlags(m, f)]: the message changes in place. *)
Definition set_flags (i : nat) (f : Flags) : M A (option error) :=
  t ← get_tr;
  match mbox t with
  | None => mret None
  | Some mb =>
      r ← os (SetFlags env mb i f);
      match r with
      | Ok (mb, e) => put_tr (MkTrans (tls t) (user t) (Some mb) (del t) (authd t));; mret e
      | Err e => mret (Some e)
      end
  end.

Definition read_message (m : Message) : M A (result string) :=
  t ← get_tr;
  match mbox t with
  | None => mret (Err (EMsg "no mailbox"))
  | Some mb => os (Read env mb m)
  end.

Definition cmdRetr (arg : string) : M A unit := requireAuth (
  x ← message arg;
  match x with
  | None => mret tt
  | Some (_, i, m) =>
      data ← read_message m;
      match data with
      | Err _ => err "cannot read message";; mret tt
      | Ok data =>
          (if Has (m_Flags m) FlagSeen then mret None else set_flags i (Add (m_Flags m) FlagSeen));;
          reply_lines (("+OK " +:+ dec (slen data) +:+ " octets") :: writeDotted data (-1));;
          mret tt
      end
  end).

Definition cmdTop (arg : string) : M A unit := requireAuth (
  match cut_opt arg " " with
  | None => err "TOP needs a message number and a line count";; mret tt
  | Some (numStr, linesStr) =>
      match Atoi (TrimSpace linesStr) with
      | None => err "invalid line count";; mret tt
      | Some n =>
          if n <? 0 then err "invalid line count";; mret tt else
          x ← message (TrimSpace numStr);
          match x with
          | None => mret tt
          | Some (_, _, m) =>
              data ← read_message m;
              match data with
              | Err _ => err "cannot read message";; mret tt
              | Ok data => ok "top of message follows";; reply_lines (writeDotted data n);; mret tt
              end
          end
      end
  end).

Definition cmdDele (arg : string) : M A unit := requireAuth (
  x ← message arg;
  match x with
  | None => mret tt
  | Some (n, _, _) =>
      t ← get_tr;
      put_tr (MkTrans (tls t) (user t) (mbox t) ({[n]} ∪ del t) (authd t));;
      ok ("message " +:+ dec n +:+ " deleted");; mret tt
  end).

Definition cmdRset : M A unit := requireAuth (
  t ← get_tr;
  put_tr (MkTrans (tls t) (user t) (mbox t) ∅ (authd t));;
  t ← get_tr;
  ok ("maildrop has " +:+ dec (llen (msgs t)) +:+ " messages (" +:+ dec (totalSize t) +:+ " octets)");;
  mret tt).

(** The loop of [QUIT] over the positions of the messages: flags the
    marked ones as deleted and counts those it could. *)
Fixpoint mark_deleted (marks : gset Z) (ps : list nat) (mb : Mailbox) : OS (Mailbox * Z) :=
  match ps with
  | [] => mret (mb, 0)
  | i :: ps =>
      match messages mb !! i with
      | Some m =>
          if bool_decide (Z.of_nat i + 1 ∈ marks) then
            '(mb, e) ← SetFlags env mb i (Add (m_Flags m) FlagDeleted);
            '(mb, n) ← mark_deleted marks ps mb;
            mret (mb, match e with None => n + 1 | Some _ => n end)
          else mark_deleted marks ps mb
      | None => mark_deleted marks ps mb
      end
  end.

(** The marked messages are flagged, then the mailbox is expunged. *)
Definition update_maildrop (marks : gset Z) (mb : Mailbox) : OS (Mailbox * Z * result (list Z)) :=
  '(mb, removed) ← mark_deleted marks (seq 0 (length (messages mb))) mb;
  '(mb, r) ← Expunge env mb;
  mret (mb, removed, r).

Definition cmdQuit : M A unit :=
  t ← get_tr;
  if negb (authd t) || bool_decide (del t = ∅) then
    set ← set; ok (set_Hostname set +:+ " closing connection");; mret tt
  else
    match mbox t with
    | None => mret tt
    | Some mb =>
        x ← os (update_maildrop (del t) mb);
        match x with
        | Err _ => mret tt
        | Ok (mb, removed, r) =>
            put_tr (MkTrans (tls t) (user t) (Some mb) (del t) (authd t));;
            match r with
            | Err _ => err "some messages were not removed";; mret tt
            | Ok _ =>
                set ← set;
                ok (set_Hostname set +:+ " closing connection, " +:+ dec removed +:+ " messages deleted");;
                mret tt
            end
        end
    end.

(** ** The loop *)

(** The command with its argument. *)
Definition dispatch (cmd arg : string) : M A bool :=
  if String.eqb cmd "CAPA" then cmdCapa;; mret false
  else if String.eqb cmd "STLS" then cmdSTLS
  else if String.eqb cmd "USER" then cmdUser arg;; mret false
  else if String.eqb cmd "PASS" then cmdPass arg;; mret false
  else if String.eqb cmd "STAT" then cmdStat;; mret false
  else if String.eqb cmd "LIST" then cmdList arg;; mret false
  else if String.eqb cmd "UIDL" then cmdUidl arg;; mret false
  else if String.eqb cmd "RETR" then cmdRetr arg;; mret false
  else if String.eqb cmd "TOP" then cmdTop arg;; mret false
  else if String.eqb cmd "DELE" then cmdDele arg;; mret false
  else if String.eqb cmd "RSET" then cmdRset;; mret false
  else if String.eqb cmd "NOOP" then ok "";; mret false
  else if String.eqb cmd "QUIT" then cmdQuit;; mret true
  else err "unknown command";; mret false.

(** One turn: [true] ends the session. *)
Definition step : M A bool :=
  line ← readLine;
  match line with
  | None => mret true
  | Some line =>
      if is_empty (TrimSpace line) then mret false else
      let '(cmd, arg, _) := Cut line " " in
      interfere;;
      dispatch (ToUpper cmd) (TrimSpace arg)
  end.

(** [None]: out of fuel. *)
Definition loop : nat → session A → option (session A) := turns step.

Definition run (fuel : nat) (s : session A) : option (session A) :=
  let '(set, s) := set s in
  let '(failed, s) := ok (set_Hostname set +:+ " Kavira POP3 ready") s in
  if (failed : bool) then Some s else loop fuel s.

Definition newSession (i : string) (c : Conn) (n : nat) (b : A) (w : World) : session A :=
  MkSession i c (MkTrans (set_ImplicitTLS (sets n)) "" None ∅ false) (S n) 0 b w [].

(** One turn of [Serve]: the line that refuses the connection, or the
    session; [busy] sessions are running. *)
Definition accept_conn (addr : string) (c : Conn) (busy workers : Z) (n : nat) (b : A) (w : World)
    : string + session A :=
  if workers <=? busy then inl "-ERR server busy, try again later" else
  inr (newSession (match SplitHostPort addr with Ok (host, _) => host | Err _ => "" end) c n b w).
End session.
