(* ===== verification/Pop3Safety.v ===== *)
(** * POP3: the protocol

    The abstract specification of a POP3 session as a state machine over
    its protocol state, the checks of credentials it made and the files,
    and the theorems that follow from the refinement: nothing is done to
    the files before credentials were accepted over TLS, the messages keep
    their numbers, and messages are only removed at the end. *)

From S2P Require Import Prelude GoStrings GoIO Session Fs Maildir Mailbox Pop3.

(** ** What the protocol sees of a session *)

Definition visible : Type := Trans * list event * World.
Definition view {A} (s : session A) : visible := (tr s, log s, world s).
#[global] Instance session_observe {A} : Observe (session A) visible := view.
#[global] Instance session_detached {A} : Detached (session A) visible.
Proof. by intros c s. Qed.

Section rules.
Context {A : Type} (env : Env) (Authenticate : Backend A) (sets : nat → Settings)
  (others : nat → World → World).

Lemma pop_wp_get_tr Q t l w : Q t (t, l, w) → wp (S := session A) get_tr Q (t, l, w).
Proof. by intros HQ s [= <- <- <-]. Qed.

Lemma pop_wp_put_tr t' Q t l w : Q tt (t', l, w) → wp (S := session A) (put_tr t') Q (t, l, w).
Proof. by intros HQ s [= <- <- <-]. Qed.

Lemma wp_os {R} (m : OS R) Q t l w : Q (m w).1 (t, l, (m w).2) → wp (S := session A) (os m) Q (t, l, w).
Proof. intros HQ s [= <- <- <-]. unfold os, view. by destruct (m (world s)). Qed.

Lemma wp_authenticate u p (Q : result path → visible → Prop) t l w :
  (∀ i b, let r := (Authenticate u p i b).1 in Q r (t, l ++ [EvAuth u p (tls t) r], w)) →
  wp (authenticate Authenticate u p) Q (t, l, w).
Proof.
  intros HQ s [= <- <- <-]. specialize (HQ (ip s) (backend s)). unfold authenticate, view.
  by destruct (Authenticate u p (ip s) (backend s)).
Qed.

Lemma wp_interfere (Q : unit → visible → Prop) t l w :
  (∀ n, Q tt (t, l, others n w)) → wp (S := session A) (interfere others) Q (t, l, w).
Proof. intros HQ s [= <- <- <-]. apply HQ. Qed.

Lemma quiet_set : quiet (S := session A) (set sets). Proof. done. Qed.

Lemma pop_quiet_reply_lines ls : quiet (S := session A) (reply_lines ls).
Proof. apply quiet_send_lines. Qed.
Lemma quiet_ok x : quiet (S := session A) (ok x).
Proof. apply pop_quiet_reply_lines. Qed.
Lemma quiet_err x : quiet (S := session A) (err x).
Proof. apply pop_quiet_reply_lines. Qed.

Lemma pop_quiet_readLine : quiet (S := session A) readLine.
Proof. apply quiet_read_limited. Qed.
End rules.

#[export] Hint Resolve quiet_set pop_quiet_reply_lines quiet_ok
  quiet_err pop_quiet_readLine : quiet.

(** One step of symbolic execution. *)
Ltac wp_step :=
  lazymatch goal with
  | |- wp (mret _) _ _ => apply wp_ret
  | |- wp (mbind _ _) _ _ => apply wp_bind
  | |- wp get_tr _ _ => apply pop_wp_get_tr
  | |- wp (put_tr _) _ _ => apply pop_wp_put_tr
  | |- wp (os _) _ _ => apply wp_os
  | |- wp (authenticate _ _ _) _ _ => apply wp_authenticate; intros ? ?; cbv zeta
  | |- wp (let '(_, _) := ?x in _) _ _ => destruct x eqn:?
  | |- wp (if ?b then _ else _) _ _ => destruct b eqn:?
  | |- wp (match ?x with _ => _ end) _ _ => destruct x eqn:?
  | |- wp _ _ _ => apply wp_quiet; [solve [auto with quiet]|intros ?]
  end.
Ltac wp_run := repeat (wp_step; cbn beta).

(** ** The protocol *)

Section protocol.
Context `{SliceSort} {A : Type} (env : Env) (Authenticate : Backend A) (sets : nat → Settings)
  (others : nat → World → World).

(** The backend answers so to these credentials, in some state and for
    some address of the client. *)
Definition answered (u p : string) (r : result path) : Prop := ∃ i b, (Authenticate u p i b).1 = r.

(** The moves of a session.  In [TRANSACTION] the messages are read,
    flagged as seen and marked; nothing is removed. *)
Inductive move : visible → visible → Prop :=
  | V_others n t l w : move (t, l, w) (t, l, others n w)
  | V_tls t l w : tls t = false →
      move (t, l, w) (MkTrans true "" (mbox t) (del t) false, l, w)
  | V_user t l w u : tls t = true → u ≠ "" →
      move (t, l, w) (MkTrans true u (mbox t) (del t) (authd t), l, w)
  | V_refused t l w p e : tls t = true → user t ≠ "" → answered (user t) p (Err e) →
      move (t, l, w)
        (MkTrans true "" (mbox t) (del t) (authd t), l ++ [EvAuth (user t) p true (Err e)], w)
  | V_unopened t l w p root e w' : tls t = true → user t ≠ "" → answered (user t) p (Ok root) →
      OpenMailbox env root Inbox w = (Err e, w') →
      move (t, l, w) (t, l ++ [EvAuth (user t) p true (Ok root)], w')
  | V_login t l w p root mb w' : tls t = true → user t ≠ "" → answered (user t) p (Ok root) →
      OpenMailbox env root Inbox w = (Ok mb, w') →
      move (t, l, w)
        (MkTrans true (user t) (Some mb) (del t) true, l ++ [EvAuth (user t) p true (Ok root)], w')
  | V_read t l w mb m : authd t = true → mbox t = Some mb →
      move (t, l, w) (t, l, (Read env mb m w).2)
  | V_seen t l w mb i m : authd t = true → mbox t = Some mb → messages mb !! i = Some m →
      ∀ mb' e w', (SetFlags env mb i (Add (m_Flags m) FlagSeen) w = (Ok (mb', e), w')) →
      move (t, l, w) (MkTrans (tls t) (user t) (Some mb') (del t) (authd t), l, w')
  | V_dele t l w n : authd t = true → 1 <= n <= llen (msgs t) → n ∉ del t →
      move (t, l, w) (MkTrans (tls t) (user t) (mbox t) ({[n]} ∪ del t) (authd t), l, w)
  | V_rset t l w : authd t = true →
      move (t, l, w) (MkTrans (tls t) (user t) (mbox t) ∅ (authd t), l, w).

(** The last step of a session that ends with [QUIT]: the [UPDATE]
    state is only entered by an authenticated client that marked
    something. *)
Inductive update : visible → visible → Prop :=
  | V_update t l w mb mb' n r w' : authd t = true → del t ≠ ∅ → mbox t = Some mb →
      update_maildrop env (del t) mb w = (Ok (mb', n, r), w') →
      update (t, l, w) (MkTrans (tls t) (user t) (Some mb') (del t) (authd t), l, w').

Definition moves : visible → visible → Prop := rtc move.

#[local] Instance moves_preorder : PreOrder moves.
Proof. unfold moves. apply _. Qed.


Lemma mark_deleted_total marks ps mb w : ∃ x w', mark_deleted env marks ps mb w = (Ok x, w').
Proof.
  revert mb w. induction ps as [|i ps IH]; intros mb w; [by do 2 eexists|]. cbn [mark_deleted].
  destruct (messages mb !! i) as [m|]; [|apply IH]. case_bool_decide; [|apply IH].
  destruct (SetFlags_total env mb i (Add (m_Flags m) FlagDeleted) w) as ([mb1 e]&w1&E1).
  rewrite (os_bind_eq _ _ _ _ _ E1). destruct (IH mb1 w1) as ([mb2 n]&w2&E2).
  rewrite (os_bind_eq _ _ _ _ _ E2). by do 2 eexists.
Qed.

Lemma update_total marks mb w : ∃ x w', update_maildrop env marks mb w = (Ok x, w').
Proof.
  unfold update_maildrop.
  destruct (mark_deleted_total marks (seq 0 (length (messages mb))) mb w) as ([mb1 n]&w1&E1).
  rewrite (os_bind_eq _ _ _ _ _ E1). destruct (Expunge_total env mb1 w1) as ([mb2 r]&w2&E2).
  rewrite (os_bind_eq _ _ _ _ _ E2). by do 2 eexists.
Qed.

(** *** Rules for one command *)

Lemma message_spec arg t l w (Q : option (Z * nat * Message) → visible → Prop) :
  (∀ x, match x with
        | Some (n, i, m) => (1 <= n <= llen (msgs t)) ∧ (n ∉ del t) ∧ i = Z.to_nat (n - 1) ∧ msgs t !! i = Some m
        | None => True
        end → Q x (t, l, w)) → wp (S := session A) (message arg) Q (t, l, w).
Proof.
  intros HQ. unfold message. wp_run; try by apply HQ.
  reflect_bool. apply HQ. split_and!; [lia|lia|done|done|done].
Qed.

Lemma requireAuth_spec (m : M A unit) v : (authd v.1.1 = true → wp m (λ _, moves v) v) →
  wp (requireAuth m) (λ _, moves v) v.
Proof.
  destruct v as [[t l] w]. intros Hm. unfold requireAuth. apply wp_bind, pop_wp_get_tr.
  destruct (authd t) eqn:E; [by apply Hm|]. wp_run. apply rtc_refl.
Qed.

Lemma moved v v' : move v v' → moves v v'.
Proof. apply rtc_once. Qed.

Lemma cmdSTLS_moves v : wp (S := session A) (cmdSTLS sets) (λ _, moves v) v.
Proof.
  destruct v as [[t l] w]. unfold cmdSTLS.
  destruct (tls t) eqn:E; wp_run; try congruence; try apply rtc_refl. by apply moved, V_tls.
Qed.

Lemma cmdUser_moves arg v : wp (S := session A) (cmdUser arg) (λ _, moves v) v.
Proof.
  destruct v as [[t l] w]. unfold cmdUser. wp_run; try apply rtc_refl. reflect_bool.
  rewrite Heqb. apply moved, V_user; [done|by apply is_empty_false].
Qed.

(** A record of the protocol state over TLS is one with the field set. *)
Lemma tls_eta t : tls t = true → t = MkTrans true (user t) (mbox t) (del t) (authd t).
Proof. by destruct t as [[] ? ? ? ?]. Qed.

Lemma cmdPass_moves arg v : wp (cmdPass env Authenticate arg) (λ _, moves v) v.
Proof.
  destruct v as [[t l] w]. unfold cmdPass. wp_run; try apply rtc_refl; reflect_bool;
    rewrite (tls_eta t) at 1 by done; simpl;
    assert (user t ≠ "") by (by apply is_empty_false);
    match goal with H : tls t = true |- _ => rewrite H end; apply moved.
  - eapply (V_login (MkTrans true (user t) (mbox t) (del t) (authd t))); [done|done|by do 2 eexists|].
    destruct (OpenMailbox env a Inbox w); simpl in *; by subst.
  - rewrite <- (tls_eta t) by done. eapply V_unopened; [done|done|by do 2 eexists|].
    destruct (OpenMailbox env a Inbox w); simpl in *; by subst.
  - apply (V_refused (MkTrans true (user t) (mbox t) (del t) (authd t))); [done|done|by do 2 eexists].
Qed.

Lemma query_moves (m : M A unit) v : quiet m → wp m (λ _, moves v) v.
Proof. intros Hm. apply wp_quiet; [done|]. intros _. apply rtc_refl. Qed.

Lemma quiet_get_tr : quiet (S := session A) get_tr. Proof. done. Qed.

Lemma quiet_message arg : quiet (S := session A) (message arg).
Proof.
  unfold message. apply quiet_bind; [done|]. intros t.
  repeat (first [apply quiet_ret|apply quiet_bind; [apply quiet_err|intros _]|case_match]).
Qed.

Lemma read_message_moves m t l w : authd t = true →
  wp (S := session A) (read_message env m) (λ _, moves (t, l, w)) (t, l, w).
Proof.
  intros Ha. unfold read_message. apply wp_bind, pop_wp_get_tr.
  destruct (mbox t) as [mb|] eqn:E; [|apply wp_ret, rtc_refl]. apply wp_os, moved. by apply V_read.
Qed.

Lemma set_flags_moves i m t l w : authd t = true → msgs t !! i = Some m →
  wp (S := session A) (set_flags env i (Add (m_Flags m) FlagSeen)) (λ _, moves (t, l, w)) (t, l, w).
Proof.
  intros Ha Hm. unfold set_flags. apply wp_bind, pop_wp_get_tr. unfold msgs in Hm.
  destruct (mbox t) as [mb|] eqn:E; [|done]. apply wp_bind, wp_os.
  destruct (SetFlags_total env mb i (Add (m_Flags m) FlagSeen) w) as ([mb' e]&w'&Es). rewrite Es.
  simpl. wp_run. apply moved. by eapply V_seen.
Qed.

(** *** The commands of a transaction *)

Lemma cmdRetr_moves arg v : wp (S := session A) (cmdRetr env arg) (λ _, moves v) v.
Proof.
  destruct v as [[t l] w]. apply requireAuth_spec. cbn [fst]. intros Ha.
  apply wp_bind, message_spec. intros [[[n i] m]|]; [intros (_&_&_&Hm)|intros _; apply wp_ret, rtc_refl].
  apply wp_bind. unfold read_message. apply wp_bind, pop_wp_get_tr. unfold msgs in Hm.
  destruct (mbox t) as [mb|] eqn:E; [|done]. apply wp_os.
  assert (Hr : moves (t, l, w) (t, l, (Read env mb m w).2)) by (apply moved; by apply V_read).
  destruct ((Read env mb m w).1) as [data|e]; [|by wp_run].
  apply wp_bind.
  assert (Hrest : ∀ v1, moves (t, l, w) v1 → wp (S := session A)
    (reply_lines (("+OK " +:+ dec (slen data) +:+ " octets") :: writeDotted data (-1));; mret tt)
    (λ _, moves (t, l, w)) v1) by (intros [[t1 l1] w1] H1; by wp_run).
  destruct (Has (m_Flags m) FlagSeen); [by apply wp_ret, Hrest|].
  eapply wp_mono; [|apply (set_flags_moves i m); [done|by unfold msgs; rewrite E]].
  cbn beta. intros _ v1 Hv. apply Hrest. by etrans.
Qed.

Lemma cmdTop_moves arg v : wp (S := session A) (cmdTop env arg) (λ _, moves v) v.
Proof.
  destruct v as [[t l] w]. apply requireAuth_spec. cbn [fst]. intros Ha.
  destruct (cut_opt arg " ") as [[num lns]|]; [|wp_run; apply rtc_refl].
  destruct (Atoi _) as [n|]; [|wp_run; apply rtc_refl].
  destruct (n <? 0); [wp_run; apply rtc_refl|].
  apply wp_bind, message_spec. intros [[[k i] m]|] _; [|apply wp_ret, rtc_refl].
  apply wp_bind. eapply wp_mono; [|by apply read_message_moves].
  cbn beta. intros [data|e] [[t1 l1] w1] Hv; by wp_run.
Qed.

Lemma cmdDele_moves arg v : wp (S := session A) (cmdDele arg) (λ _, moves v) v.
Proof.
  destruct v as [[t l] w]. apply requireAuth_spec. cbn [fst]. intros Ha.
  apply wp_bind, message_spec. intros [[[n i] m]|]; [|intros _; apply wp_ret, rtc_refl].
  intros (Hn&Hd&_). wp_run. apply moved. by apply V_dele.
Qed.

Lemma cmdRset_moves v : wp (S := session A) cmdRset (λ _, moves v) v.
Proof.
  destruct v as [[t l] w]. apply requireAuth_spec. cbn [fst]. intros Ha.
  wp_run. apply moved. by apply V_rset.
Qed.

Lemma quiet_cmdCapa : quiet (S := session A) (cmdCapa sets).
Proof.
  unfold cmdCapa. apply quiet_bind; [done|]. intros t. apply quiet_bind.
  - destruct (tls t); [done|]. apply quiet_bind; [done|]. by intros set.
  - intros extra. apply quiet_bind; [apply pop_quiet_reply_lines|]. by intros.
Qed.

Lemma quiet_requireAuth (m : M A unit) : quiet m → quiet (requireAuth m).
Proof.
  intros Hm. unfold requireAuth. apply quiet_bind; [done|]. intros t. destruct (authd t); [done|].
  apply quiet_bind; [apply quiet_err|]. by intros.
Qed.

Lemma quiet_cmdStat : quiet (S := session A) cmdStat.
Proof.
  apply quiet_requireAuth, quiet_bind; [done|]. intros t. apply quiet_bind; [apply quiet_ok|]. by intros.
Qed.

Lemma quiet_cmdList arg : quiet (S := session A) (cmdList arg).
Proof.
  apply quiet_requireAuth. destruct (negb (is_empty arg)).
  - apply quiet_bind; [apply quiet_message|]. intros [[[n i] m]|]; [|done].
    apply quiet_bind; [apply quiet_ok|]. by intros.
  - apply quiet_bind; [done|]. intros t. apply quiet_bind; [apply pop_quiet_reply_lines|]. by intros.
Qed.

Lemma quiet_cmdUidl arg : quiet (S := session A) (cmdUidl arg).
Proof.
  apply quiet_requireAuth. destruct (negb (is_empty arg)).
  - apply quiet_bind; [apply quiet_message|]. intros [[[n i] m]|]; [|done].
    apply quiet_bind; [apply quiet_ok|]. by intros.
  - apply quiet_bind; [done|]. intros t. apply quiet_bind; [apply pop_quiet_reply_lines|]. by intros.
Qed.

(** *** Whole sessions *)

(** What a turn does, by whether it ends the session. *)
Definition turn (v : visible) (quit : bool) (v' : visible) : Prop :=
  moves v v' ∨ quit = true ∧ ∃ v1, moves v v1 ∧ update v1 v'.

Lemma cmdQuit_turn v : wp (S := session A) (cmdQuit env sets) (λ _, turn v true) v.
Proof.
  destruct v as [[t l] w]. unfold cmdQuit. apply wp_bind, pop_wp_get_tr.
  destruct (_ || _)%bool eqn:Eb; [wp_run; left; apply rtc_refl|]. reflect_bool.
  destruct (mbox t) as [mb|] eqn:Em; [|apply wp_ret; left; apply rtc_refl].
  apply wp_bind, wp_os. destruct (update_maildrop env (del t) mb w) as [[[[mb' n] r]|e] w'] eqn:Eu; simpl.
  - assert (Hu : turn (t, l, w) true (MkTrans (tls t) (user t) (Some mb') (del t) (authd t), l, w')).
    { right. split; [done|]. exists (t, l, w). split; [apply rtc_refl|]. by eapply V_update. }
    wp_run; exact Hu.
  - destruct (update_total (del t) mb w) as (x&w2&E2). congruence.
Qed.

Lemma turn_moves (m : M A unit) v : wp m (λ _, moves v) v → wp (m;; mret false) (turn v) v.
Proof.
  intros Hm. apply wp_bind. eapply wp_mono; [|exact Hm]. cbn beta. intros [] v' Hv. apply wp_ret. by left.
Qed.

Lemma dispatch_turn cmd arg v : wp (dispatch env Authenticate sets cmd arg) (turn v) v.
Proof.
  unfold dispatch.
  assert (Hq : ∀ R (m : M A R), quiet m → wp (m;; mret false) (turn v) v).
  { intros R m Hm. apply wp_bind, wp_quiet; [done|]. intros _. apply wp_ret. left. reflexivity. }
  repeat (lazymatch goal with |- wp (if ?b then _ else _) _ _ => destruct b end).
  - apply Hq, quiet_cmdCapa.
  - eapply wp_mono; [|apply cmdSTLS_moves]. cbn beta. intros b v' Hv. by left.
  - apply turn_moves, cmdUser_moves.
  - apply turn_moves, cmdPass_moves.
  - apply Hq, quiet_cmdStat.
  - apply Hq, quiet_cmdList.
  - apply Hq, quiet_cmdUidl.
  - apply turn_moves, cmdRetr_moves.
  - apply turn_moves, cmdTop_moves.
  - apply turn_moves, cmdDele_moves.
  - apply turn_moves, cmdRset_moves.
  - apply Hq, quiet_ok.
  - apply wp_bind. eapply wp_mono; [|apply cmdQuit_turn]. cbn beta. intros [] v' Hv. by apply wp_ret.
  - apply Hq, quiet_err.
Qed.

Lemma step_turn v : wp (step env Authenticate sets others) (turn v) v.
Proof.
  unfold step. apply wp_bind, wp_quiet; [apply pop_quiet_readLine|].
  intros [line|]; [|apply wp_ret; left; reflexivity].
  destruct (is_empty (TrimSpace line)); [apply wp_ret; left; reflexivity|].
  destruct (Cut line " ") as [[cmd arg] b]. destruct v as [[t l] w]. apply wp_bind, wp_interfere. intros n.
  assert (Ho : moves (t, l, w) (t, l, others n w)) by apply moved, V_others.
  eapply wp_mono; [|apply dispatch_turn]. cbn beta. intros q v' [Hv|(->&v1&Hv&Hu)].
  - left. by etrans.
  - right. split; [done|]. exists v1. split; [by etrans|done].
Qed.

Lemma loop_refines fuel s s' : loop env Authenticate sets others fuel s = Some s' →
  turn (view s) true (view s').
Proof.
  intros Hl. refine (turns_keep (step env Authenticate sets others) (moves (view s)) (turn (view s) true) _ fuel s s' _ Hl);
    [|reflexivity].
  intros v Hv. eapply wp_mono; [|apply step_turn]. cbn beta. intros q v' [Hv'|(->&v1&Hv1&Hu)].
  - assert (moves (view s) v') by (by etrans). destruct q; [by left|done].
  - right. split; [done|]. exists v1. split; [by etrans|done].
Qed.

Lemma run_turn fuel s s' : run env Authenticate sets others fuel s = Some s' →
  turn (view s) true (view s').
Proof.
  unfold run, set. cbn beta iota. set (s1 := MkSession _ _ _ _ _ _ _ _).
  match goal with |- context [ok ?x s1] => pose proof (quiet_ok x s1) as Hq; destruct (ok x s1) as [f s2] end.
  change (view s) with (view s1). cbn [snd] in Hq. change (observe s1) with (view s1) in Hq. rewrite <- Hq.
  destruct f; [intros [= <-]; left; reflexivity|apply loop_refines].
Qed.
End protocol.

(** ** Safety *)

Lemma mark_deleted_root `{SliceSort} env marks ps mb w mb' n w' :
  mark_deleted env marks ps mb w = (Ok (mb', n), w') → root mb' = root mb.
Proof.
  revert mb w mb' n w'. induction ps as [|i ps IH]; intros mb w mb' n w'; [by intros [= <- _ _]|]. cbn [mark_deleted].
  destruct (messages mb !! i) as [m|]; [|apply IH]. case_bool_decide; [|apply IH].
  intros ([mb1 e]&w1&E1%SetFlags_root&([mb2 n2]&w2&E2%IH&[= <- _ _])%os_bind_ok)%os_bind_ok. congruence.
Qed.

Lemma update_root `{SliceSort} env marks mb w mb' n r w' :
  update_maildrop env marks mb w = (Ok (mb', n, r), w') → root mb' = root mb.
Proof.
  unfold update_maildrop.
  intros ([mb1 n1]&w1&E1%mark_deleted_root&([mb2 r2]&w2&E2%Expunge_root&[= <- _ _ _])%os_bind_ok)%os_bind_ok.
  congruence.
Qed.

(** A session before its first command. *)
Definition fresh {A} (s : session A) : Prop :=
  ∃ b, tr s = MkTrans b "" None ∅ false ∧ log s = [].

Section safety.
Context `{SliceSort} {A : Type} (env : Env) (Authenticate : Backend A) (sets : nat → Settings)
  (others : nat → World → World).

(** The work of the other processes alone. *)
Definition undisturbed : World → World → Prop := rtc (λ w w', ∃ n, w' = others n w).

(** The backend gave this root for accepted credentials. *)
Definition accepted_root (l : list event) (rt : path) : Prop := ∃ u p, EvAuth u p true (Ok rt) ∈ l.

Record safe (w0 : World) (v : visible) : Prop := {
  sf_tls : Forall (λ '(EvAuth _ _ b _), b = true) v.1.2;
  sf_authd : authd v.1.1 = true → is_Some (mbox v.1.1);
  sf_root mb : mbox v.1.1 = Some mb → accepted_root v.1.2 (root mb);
  sf_files : (∀ rt, ¬ accepted_root v.1.2 rt) → undisturbed w0 v.2;
}.

Lemma accepted_app l k rt : accepted_root l rt → accepted_root (l ++ k) rt.
Proof. intros (u&p&Hin). exists u, p. apply elem_of_app. by left. Qed.

Lemma accepted_snoc l u p rt : accepted_root (l ++ [EvAuth u p true (Ok rt)]) rt.
Proof. exists u, p. apply elem_of_app. right. constructor. Qed.

Lemma move_safe w0 v v' : move env Authenticate others v v' → safe w0 v → safe w0 v'.
Proof.
  assert (Hsnoc : ∀ l u p r, Forall (λ '(EvAuth _ _ b _), b = true) l →
    Forall (λ '(EvAuth _ _ b _), b = true) (l ++ [EvAuth u p true r])).
  { intros l u p r Hl. apply Forall_app. split; [done|]. by repeat constructor. }
  intros Hm [H1 H2 H3 H4]. destruct Hm; simpl in *; split; simpl; auto.
  - intros Hn. eapply rtc_r; [by apply H4|]. by exists n.
  - done.
  - intros mb Hmb. by apply accepted_app, H3.
  - intros Hn. apply H4. intros rt Hrt. by apply (Hn rt), accepted_app.
  - intros mb Hmb. by apply accepted_app, H3.
  - intros Hn. destruct (Hn root). apply accepted_snoc.
  - intros mb' [= <-]. match goal with H : OpenMailbox _ _ _ _ = _ |- _ => apply OpenMailbox_root in H as -> end.
    apply accepted_snoc.
  - intros Hn. destruct (Hn root). apply accepted_snoc.
  - intros Hn. destruct (Hn (root mb)). by apply H3.
  - intros mb'' [= <-]. match goal with H : SetFlags _ _ _ _ _ = _ |- _ => apply SetFlags_root in H as -> end. by apply H3.
  - intros Hn. destruct (Hn (root mb)). by apply H3.
Qed.

Lemma update_safe w0 v v' : update env v v' → safe w0 v → safe w0 v'.
Proof.
  intros Hu [H1 H2 H3 H4]. destruct Hu; simpl in *; split; simpl; auto.
  - intros mb'' [= <-]. match goal with H : update_maildrop _ _ _ _ = _ |- _ => apply update_root in H as -> end. by apply H3.
  - intros Hn. destruct (Hn (root mb)). by apply H3.
Qed.

Lemma moves_safe w0 v v' : moves env Authenticate others v v' → safe w0 v → safe w0 v'.
Proof. induction 1 as [|v1 v2 v3 Hm _ IH]; [done|]. intros H1. apply IH. by eapply move_safe. Qed.

Lemma run_safe fuel s s' : safe (world s) (view s) →
  run env Authenticate sets others fuel s = Some s' → safe (world s) (view s').
Proof.
  intros H0 [Hv|(_&v1&Hv&Hu)]%run_turn; [by eapply moves_safe|].
  eapply update_safe; [done|by eapply moves_safe].
Qed.

(** a session is a sequence of the moves of the protocol, whatever
    the client sends, the backend answers and the other processes do; only
    a [QUIT] of an authenticated client that marked messages adds the
    update of the maildrop, and ends it. *)
Theorem pop3_refines fuel s s' : run env Authenticate sets others fuel s = Some s' →
  moves env Authenticate others (view s) (view s') ∨
  ∃ v, moves env Authenticate others (view s) v ∧ update env v (view s').
Proof. intros [Hv|(_&v&Hv&Hu)]%run_turn; [by left|right; by exists v]. Qed.

(** C6: a session checks credentials over TLS only, works on no mailbox
    but one whose root the backend gave for accepted credentials, and as
    long as none were accepted leaves the files to the other processes. *)
Theorem pop3_safe fuel s s' : fresh s → run env Authenticate sets others fuel s = Some s' →
  Forall (λ '(EvAuth _ _ b _), b = true) (log s') ∧
  (authd (tr s') = true → ∃ mb, mbox (tr s') = Some mb ∧ accepted_root (log s') (root mb)) ∧
  ((∀ rt, ¬ accepted_root (log s') rt) → undisturbed (world s) (world s')).
Proof.
  intros (b&Ht&Hl) Hrun. destruct (run_safe fuel s s') as [H1 H2 H3 H4]; [|done|].
  - unfold view. rewrite Ht, Hl. split; simpl; try done.
  - split_and!; try done. intros Ha. destruct (H2 Ha) as [mb Hmb]. exists mb. split; [done|by apply H3].
Qed.
End safety.
