(* ===== verification/Pop3Maildrop.v ===== *)
(** * POP3: the maildrop

    What a client is promised between its login and its [QUIT]: a frozen,
    numbered list of messages with sizes and unique ids, of which it marks
    some (RFC 1939, section 5).  The commands of the session serve exactly
    this list. *)

From S2P Require Import Prelude GoStrings GoIO Session Fs Maildir Mailbox Pop3 Pop3Safety.

(** ** The specification *)

(** The messages as the client knows them, and the numbers marked. *)
Record maildrop := MkDrop { items : list (Z * string); marked : gset Z }.

Definition item (m : Message) : Z * string := (m_Size m, uidl m).
Definition drop_of (t : Trans) : maildrop := MkDrop (item <$> msgs t) (del t).

(** What is not marked, with its numbers, and its size. *)
Definition present (d : maildrop) : list (Z * (Z * string)) :=
  filter (λ nx, nx.1 ∉ marked d) (imap (λ i x, (Z.of_nat i + 1, x)) (items d)).
Definition octets (d : maildrop) : Z := foldr Z.add 0 ((λ nx, nx.2.1) <$> present d).

(** The message an argument selects. *)
Definition selects (d : maildrop) (arg : string) (n : Z) (x : Z * string) : Prop :=
  Atoi arg = Some n ∧ (n, x) ∈ present d.

(** The message and the number of lines an argument of [TOP] selects. *)
Definition top_selects (d : maildrop) (arg : string) (n : Z) (x : Z * string) (k : Z) : Prop :=
  ∃ num lns, cut_opt arg " " = Some (num, lns) ∧ Atoi (TrimSpace lns) = Some k ∧ 0 <= k ∧
    selects d (TrimSpace num) n x.

(** A command in a maildrop, the maildrop after it and the reply. *)
Inductive serves : maildrop → string → string → maildrop → list string → Prop :=
  | R_stat d arg :
      serves d "STAT" arg d ["+OK " +:+ dec (llen (present d)) +:+ " " +:+ dec (octets d)]
  | R_list d :
      serves d "LIST" "" d
        ((("+OK " +:+ dec (llen (present d)) +:+ " messages")
          :: ((λ nx, dec nx.1 +:+ " " +:+ dec nx.2.1) <$> present d)) ++ ["."])
  | R_list_one d arg n x : arg ≠ "" → selects d arg n x →
      serves d "LIST" arg d ["+OK " +:+ dec n +:+ " " +:+ dec x.1]
  | R_uidl d :
      serves d "UIDL" "" d
        (("+OK unique-id listing follows" :: ((λ nx, dec nx.1 +:+ " " +:+ nx.2.2) <$> present d)) ++ ["."])
  | R_uidl_one d arg n x : arg ≠ "" → selects d arg n x →
      serves d "UIDL" arg d ["+OK " +:+ dec n +:+ " " +:+ x.2]
  | R_dele d arg n x : selects d arg n x →
      serves d "DELE" arg (MkDrop (items d) ({[n]} ∪ marked d)) ["+OK message " +:+ dec n +:+ " deleted"]
  | R_rset d arg :
      let d' := MkDrop (items d) ∅ in
      serves d "RSET" arg d'
        ["+OK maildrop has " +:+ dec (llen (items d)) +:+ " messages (" +:+ dec (octets d') +:+ " octets)"]
  | R_noop d arg : serves d "NOOP" arg d ["+OK "]
  | R_retr d arg n x data : selects d arg n x →
      serves d "RETR" arg d (("+OK " +:+ dec (slen data) +:+ " octets") :: writeDotted data (-1))
  | R_unread d arg n x : selects d arg n x → serves d "RETR" arg d ["-ERR cannot read message"]
  | R_top d arg n x k data : top_selects d arg n x k →
      serves d "TOP" arg d ("+OK top of message follows" :: writeDotted data k)
  | R_top_unread d arg n x k : top_selects d arg n x k → serves d "TOP" arg d ["-ERR cannot read message"]
  | R_top_refused d arg text : (∀ n x k, ¬ top_selects d arg n x k) → serves d "TOP" arg d ["-ERR " +:+ text]
  | R_refused d cmd arg text : ((cmd = "LIST" ∨ cmd = "UIDL") → arg ≠ "") →
      cmd ∈ ["LIST"; "UIDL"; "DELE"; "RETR"] → (∀ n x, ¬ selects d arg n x) →
      serves d cmd arg d ["-ERR " +:+ text].

(** A maildrop whose marks are numbers of messages and whose sizes add up
    in an [int64]. *)
Record sound (d : maildrop) : Prop := {
  so_marks n : n ∈ marked d → 1 <= n <= llen (items d);
  so_sizes : Forall (λ x, 0 <= x.1) (items d);
  so_total : foldr Z.add 0 (items d).*1 < 2 ^ 63;
}.

(** ** Lists of numbered messages *)

Lemma present_lookup d n x : (n, x) ∈ present d ↔
  (n ∉ marked d) ∧ 1 <= n ∧ items d !! Z.to_nat (n - 1) = Some x.
Proof.
  unfold present. rewrite list_elem_of_filter. cbn [fst]. split.
  - intros [Hn Hi]. split; [done|]. apply elem_of_lookup_imap in Hi as (i&y&[= -> ->]&Hi).
    split; [lia|]. by replace (Z.to_nat (Z.of_nat i + 1 - 1)) with i by lia.
  - intros (Hn&H1&Hi). split; [done|]. apply elem_of_lookup_imap. exists (Z.to_nat (n - 1)), x.
    split; [f_equal; lia|done].
Qed.

Lemma present_msgs t : present (drop_of t) = (λ im, (im.1, item im.2)) <$> unmarked t.
Proof.
  unfold present, unmarked, numbered, drop_of. cbn [items marked]. rewrite imap_fmap. unfold compose.
  replace (imap _ (msgs t)) with ((λ im : Z * Message, (im.1, item im.2)) <$> imap (λ i m, (Z.of_nat i + 1, m)) (msgs t))
    by (by rewrite fmap_imap).
  by rewrite filter_fmap.
Qed.

Lemma numbers_present d : (present d).*1 = filter (λ n, n ∉ marked d) (seqZ 1 (llen (items d))).
Proof.
  unfold present.
  replace (seqZ 1 (llen (items d))) with ((imap (λ i x, (Z.of_nat i + 1, x)) (items d)).*1).
  - by rewrite filter_fmap.
  - rewrite fmap_imap. unfold seqZ, llen. rewrite Nat2Z.id. unfold compose. cbn [fst].
    rewrite (imap_seq_0 _ (λ i, Z.of_nat i + 1)). apply list_fmap_ext. intros i x _. lia.
Qed.

Lemma present_size d : sound d → llen (present d) = llen (items d) - Z.of_nat (size (marked d)).
Proof.
  intros Hd. assert (H1 : llen (present d) = llen (present d).*1) by (unfold llen; by rewrite length_fmap).
  set (X := list_to_set (seqZ 1 (llen (items d))) : gset Z).
  assert (HX : size X = length (items d)).
  { unfold X. rewrite size_list_to_set by apply NoDup_seqZ. rewrite length_seqZ. unfold llen. lia. }
  assert (Hsub : marked d ⊆ X).
  { intros n Hn%(so_marks _ Hd). unfold X. rewrite elem_of_list_to_set, elem_of_seqZ. lia. }
  rewrite H1, numbers_present. unfold llen at 1.
  rewrite <- (size_list_to_set (C := gset Z)) by (apply NoDup_filter, NoDup_seqZ).
  replace (list_to_set _ : gset Z) with (X ∖ marked d).
  - rewrite size_difference by done. pose proof (subseteq_size _ _ Hsub). unfold llen. lia.
  - apply set_eq. intros n. unfold X. rewrite elem_of_difference, !elem_of_list_to_set, list_elem_of_filter. tauto.
Qed.

Lemma sum_filter (P : Z * (Z * string) → Prop) `{∀ x, Decision (P x)} (l : list (Z * (Z * string))) :
  Forall (λ nx, 0 <= nx.2.1) l →
  0 <= foldr Z.add 0 ((λ nx, nx.2.1) <$> filter P l) <= foldr Z.add 0 ((λ nx, nx.2.1) <$> l).
Proof.
  induction 1 as [|x l Hx Hl IH]; [done|]. rewrite filter_cons. case_decide; rewrite ?fmap_cons; cbn [foldr]; lia.
Qed.

Lemma octets_bound d : sound d → 0 <= octets d < 2 ^ 63 ∧ Forall (λ nx, 0 <= nx.2.1) (present d).
Proof.
  intros [_ Hs Ht].
  assert (Hall : Forall (λ nx : Z * (Z * string), 0 <= nx.2.1) (imap (λ i x, (Z.of_nat i + 1, x)) (items d))).
  { apply Forall_forall. intros nx (i&x&->&Hi)%elem_of_lookup_imap. rewrite Forall_forall in Hs.
    apply Hs. by eapply list_elem_of_lookup_2. }
  split; [|unfold present; apply Forall_forall; intros nx [_ Hnx]%list_elem_of_filter; rewrite Forall_forall in Hall; auto].
  pose proof (sum_filter (λ nx, nx.1 ∉ marked d) _ Hall) as Hf. fold (present d) in Hf. fold (octets d) in Hf.
  rewrite fmap_imap in Hf. unfold compose in Hf. cbn [snd] in Hf.
  replace (imap (λ (_ : nat) (x : Z * string), x.1) (items d)) with (items d).*1 in Hf; [lia|].
  by rewrite <- imap_const.
Qed.

Lemma totalSize_octets t : sound (drop_of t) → totalSize t = octets (drop_of t).
Proof.
  intros Hd. destruct (octets_bound _ Hd) as [Hb Hall]. revert Hb Hall. unfold totalSize, octets.
  rewrite present_msgs. rewrite <- list_fmap_compose. unfold compose. cbn [snd fst item].
  change (λ x : Z * Message, m_Size x.2) with (λ im : Z * Message, m_Size im.2).
  rewrite Forall_fmap. unfold compose. cbn [snd fst item].
  assert (H : ∀ (l : list (Z * Message)) acc, 0 <= acc → Forall (λ im, 0 <= m_Size im.2) l →
    acc + foldr Z.add 0 ((λ im, m_Size im.2) <$> l) < 2 ^ 63 →
    foldl (λ n im, i64 (n + m_Size im.2)) acc l = acc + foldr Z.add 0 ((λ im, m_Size im.2) <$> l)).
  { induction l as [|im l IH]; intros acc Hacc Hl Hs; [cbn; lia|]. apply Forall_cons in Hl as [H1 Hl].
    rewrite fmap_cons in Hs |- *. cbn [foldr foldl] in Hs |- *.
    assert (0 <= foldr Z.add 0 ((λ im, m_Size im.2) <$> l))
      by (clear -Hl; induction Hl as [|x l' Hx _ IH]; [done|]; rewrite fmap_cons; cbn [foldr]; cbn beta in *; lia).
    rewrite i64_small by lia. rewrite IH by (done || lia). lia. }
  intros Hb Hall. rewrite H; [lia|lia|done|lia].
Qed.

(** ** Executing a command *)

(** The session after it sent some lines. *)
Definition said {A} (s : session A) (ls : list string) : session A :=
  MkSession (ip s) (MkConn (c_in (conn s)) (c_tls (conn s)) (pred (c_writes (conn s))) (c_out (conn s) ++ ls))
    (tr s) (n_sets s) (n_turn s) (backend s) (world s) (log s).

Section transaction.
Context `{SliceSort} {A : Type} (env : Env) (Authenticate : Backend A) (sets : nat → Settings).

Lemma reply_lines_said ls (s : session A) : c_writes (conn s) ≠ O → reply_lines ls s = (false, said s ls).
Proof. intros Hw. unfold reply_lines, send_lines, mbind, St_bind, said. simpl. by destruct (c_writes (conn s)). Qed.

Lemma requireAuth_run (m : M A unit) s : authd (tr s) = true → requireAuth m s = m s.
Proof. intros Ha. unfold requireAuth, mbind, St_bind. simpl. by rewrite Ha. Qed.

(** [message] finds exactly what the specification selects. *)
Lemma message_run arg (s : session A) : c_writes (conn s) ≠ O →
  (∃ n m, message arg s = (Some (n, Z.to_nat (n - 1), m), s) ∧
     selects (drop_of (tr s)) arg n (item m) ∧ msgs (tr s) !! Z.to_nat (n - 1) = Some m) ∨
  (∃ text, message arg s = (None, said s ["-ERR " +:+ text]) ∧ ∀ n x, ¬ selects (drop_of (tr s)) arg n x).
Proof.
  intros Hw. unfold message, mbind, St_bind. unfold get_tr. cbn beta iota. unfold err, selects.
  assert (Hsel : ∀ n x, (n, x) ∈ present (drop_of (tr s)) →
    (n ∉ del (tr s)) ∧ 1 <= n <= llen (msgs (tr s))).
  { intros n x (Hn&H1&Hx)%present_lookup. split; [done|]. split; [done|]. apply lookup_lt_Some in Hx.
    cbn [items drop_of] in Hx. rewrite length_fmap in Hx. unfold llen. lia. }
  destruct (Atoi arg) as [n|].
  2:{ right. eexists. cbn beta iota. rewrite reply_lines_said by done. split; [reflexivity|]. by intros n x [? _]. }
  destruct (_ || _)%bool eqn:Eb.
  { right. eexists. cbn beta iota. rewrite reply_lines_said by done. split; [reflexivity|].
    intros n' x [[= <-] [_ Hr]%Hsel]. apply orb_true_iff in Eb as [Eb|Eb]; apply Z.ltb_lt in Eb; lia. }
  reflect_bool. case_bool_decide as Hd.
  { right. eexists. cbn beta iota. rewrite reply_lines_said by done. split; [reflexivity|].
    by intros n' x [[= <-] [? _]%Hsel]. }
  destruct (msgs (tr s) !! Z.to_nat (n - 1)) as [m|] eqn:Em.
  - left. exists n, m. split_and!; [done|done| |done]. apply present_lookup. cbn [items marked drop_of].
    split_and!; [done|lia|]. by rewrite list_lookup_fmap, Em.
  - exfalso. apply lookup_ge_None in Em. unfold llen in *. lia.
Qed.

Lemma SetFlags_items mb i f w mb' e w' : SetFlags env mb i f w = (Ok (mb', e), w') →
  item <$> messages mb' = item <$> messages mb.
Proof.
  unfold SetFlags, mbind, OS_bind, os_try. destruct (messages mb !! i) as [m|] eqn:Em; [|by intros [= <- _ _]].
  assert (Hi : item <$> <[i := MkMessage (UID m) (Seq m) (FileName (BaseName (Name m)) f) "cur" f false
                                 (m_Size m) (Internal m)]> (messages mb) = item <$> messages mb).
  { rewrite list_fmap_insert. apply list_insert_id. rewrite list_lookup_fmap, Em. unfold item, uidl. simpl.
    by rewrite BaseName_FileName. }
  case_bool_decide; [intros [= <- _ _]; exact Hi|].
  destruct (Rename _ _ _ _) as [[[]|e1] w1]; intros [= <- _ _]; [exact Hi|done].
Qed.

(** Flagging a message leaves everything the client knows as it was. *)
Lemma set_flags_run i f (s : session A) : let s' := (set_flags env i f s).2 in
  drop_of (tr s') = drop_of (tr s) ∧ authd (tr s') = authd (tr s) ∧ conn s' = conn s.
Proof.
  unfold set_flags, mbind, St_bind, os. unfold get_tr. cbn beta iota. unfold drop_of, msgs.
  destruct (mbox (tr s)) as [mb|] eqn:Em; [|simpl; by rewrite Em].
  destruct (SetFlags env mb i f (world s)) as [[[mb' e]|e] w'] eqn:Es; simpl; [|by rewrite Em].
  by rewrite (SetFlags_items _ _ _ _ _ _ _ Es).
Qed.

Lemma read_message_run m (s : session A) : let s' := (read_message env m s).2 in
  tr s' = tr s ∧ conn s' = conn s.
Proof.
  unfold read_message, mbind, St_bind, os. unfold get_tr. cbn beta iota.
  destruct (mbox (tr s)) as [mb|]; [|done]. by destruct (Read env mb m (world s)).
Qed.

(** What a command of the transaction state leaves behind. *)
Definition served (s : session A) (cmd arg : string) (s' : session A) : Prop :=
  authd (tr s') = true ∧ ∃ ls, serves (drop_of (tr s)) cmd arg (drop_of (tr s')) ls ∧
  c_out (conn s') = c_out (conn s) ++ ls.

Lemma dispatch_select arg (k : option (Z * nat * Message) → M A unit) cmd s :
  authd (tr s) = true → c_writes (conn s) ≠ O →
  cmd ∈ ["LIST"; "UIDL"; "DELE"; "RETR"] → ((cmd = "LIST" ∨ cmd = "UIDL") → arg ≠ "") →
  k None = mret tt →
  (∀ n m, selects (drop_of (tr s)) arg n (item m) →
    served s cmd arg (k (Some (n, Z.to_nat (n - 1), m)) s).2) →
  served s cmd arg ((message arg ≫= k) s).2.
Proof.
  intros Ha Hw Hc Hne Hk Hsome. unfold mbind, St_bind.
  destruct (message_run arg s Hw) as [(n&m&->&Hs&_)|(text&->&Hno)]; [by apply Hsome|].
  rewrite Hk. simpl. split; [done|]. exists ["-ERR " +:+ text]. split; [by apply R_refused|done].
Qed.

(** A reply that leaves the maildrop as it is. *)
Lemma served_reply cmd arg ls s : authd (tr s) = true → c_writes (conn s) ≠ O →
  serves (drop_of (tr s)) cmd arg (drop_of (tr s)) ls →
  served s cmd arg ((reply_lines ls;; mret tt) s).2.
Proof.
  intros Ha Hw Hs. unfold mbind, St_bind. rewrite reply_lines_said by done. split; [done|]. by exists ls.
Qed.

Lemma llen_unmarked t : llen (unmarked t) = llen (present (drop_of t)).
Proof. rewrite present_msgs. unfold llen. by rewrite length_fmap. Qed.

Lemma llen_msgs t : llen (msgs t) = llen (items (drop_of t)).
Proof. unfold llen. cbn [items drop_of]. by rewrite length_fmap. Qed.

Lemma cmdStat_served arg s : authd (tr s) = true → c_writes (conn s) ≠ O → sound (drop_of (tr s)) →
  served s "STAT" arg (cmdStat s).2.
Proof.
  intros Ha Hw Hd. unfold cmdStat. rewrite requireAuth_run by done.
  apply (served_reply "STAT" arg [_]); [done..|].
  rewrite llen_unmarked, (totalSize_octets _ Hd). apply R_stat.
Qed.

Lemma cmdList_served arg s : authd (tr s) = true → c_writes (conn s) ≠ O → sound (drop_of (tr s)) →
  served s "LIST" arg (cmdList arg s).2.
Proof.
  intros Ha Hw Hd. unfold cmdList. rewrite requireAuth_run by done. destruct arg as [|c arg']; simpl negb; cbv iota.
  - apply served_reply; [done..|].
    replace (llen (msgs (tr s)) - Z.of_nat (size (del (tr s)))) with (llen (present (drop_of (tr s))))
      by (by rewrite (present_size _ Hd), <- llen_msgs).
    replace ((λ im, dec im.1 +:+ " " +:+ dec (m_Size im.2)) <$> unmarked (tr s))
      with ((λ nx, dec nx.1 +:+ " " +:+ dec nx.2.1) <$> present (drop_of (tr s)))
      by (by rewrite present_msgs, <- list_fmap_compose).
    apply R_list.
  - apply dispatch_select; [done|done|set_solver|done|done|]. intros n m Hs.
    apply (served_reply "LIST" _ [_]); [done..|]. by apply (R_list_one _ _ n (item m)).
Qed.

Lemma cmdUidl_served arg s : authd (tr s) = true → c_writes (conn s) ≠ O →
  served s "UIDL" arg (cmdUidl arg s).2.
Proof.
  intros Ha Hw. unfold cmdUidl. rewrite requireAuth_run by done. destruct arg as [|c arg']; simpl negb; cbv iota.
  - apply served_reply; [done..|].
    replace ((λ im, dec im.1 +:+ " " +:+ uidl im.2) <$> unmarked (tr s))
      with ((λ nx, dec nx.1 +:+ " " +:+ nx.2.2) <$> present (drop_of (tr s)))
      by (by rewrite present_msgs, <- list_fmap_compose).
    apply R_uidl.
  - apply dispatch_select; [done|done|set_solver|done|done|]. intros n m Hs.
    apply (served_reply "UIDL" _ [_]); [done..|]. by apply (R_uidl_one _ _ n (item m)).
Qed.

Lemma cmdDele_served arg s : authd (tr s) = true → c_writes (conn s) ≠ O →
  served s "DELE" arg (cmdDele arg s).2.
Proof.
  intros Ha Hw. unfold cmdDele. rewrite requireAuth_run by done.
  apply dispatch_select; [done|done|set_solver|by intros [|]|done|]. intros n m Hs.
  unfold mbind, St_bind, get_tr, put_tr, ok. cbn beta iota. rewrite reply_lines_said by done.
  split; [done|]. eexists. split; [|reflexivity]. exact (R_dele (drop_of (tr s)) arg n (item m) Hs).
Qed.

Lemma cmdRset_served arg s : authd (tr s) = true → c_writes (conn s) ≠ O → sound (drop_of (tr s)) →
  served s "RSET" arg (cmdRset s).2.
Proof.
  intros Ha Hw Hd. unfold cmdRset. rewrite requireAuth_run by done.
  unfold mbind, St_bind, get_tr, put_tr, ok. cbn beta iota. rewrite reply_lines_said by done.
  split; [done|]. eexists. split; [|reflexivity]. cbn [tr said].
  rewrite totalSize_octets; [rewrite llen_msgs; exact (R_rset (drop_of (tr s)) arg)|].
  destruct Hd as [_ H1 H2]. split; [|exact H1|exact H2]. intros n. cbn [marked drop_of del]. set_solver.
Qed.

Lemma served_from cmd arg s s1 s2 : drop_of (tr s1) = drop_of (tr s) → conn s1 = conn s →
  served s1 cmd arg s2 → served s cmd arg s2.
Proof. intros H1 H2 [Ha (ls&Hs&Ho)]. split; [done|]. exists ls. by rewrite <- H1, <- H2. Qed.

Lemma cmdRetr_served arg s : authd (tr s) = true → c_writes (conn s) ≠ O →
  served s "RETR" arg (cmdRetr env arg s).2.
Proof.
  intros Ha Hw. unfold cmdRetr. rewrite requireAuth_run by done.
  apply dispatch_select; [done|done|set_solver|by intros [|]|done|]. intros n m Hs.
  pose proof (read_message_run m s) as Hr. unfold mbind at 1, St_bind at 1.
  destruct (read_message env m s) as [r s1]. cbn [snd] in Hr. destruct Hr as [Ht Hc].
  assert (Hd : drop_of (tr s1) = drop_of (tr s)) by (by rewrite Ht).
  apply (served_from _ _ s s1); [done|done|]. rewrite <- Hd in Hs. rewrite <- Ht in Ha. rewrite <- Hc in Hw.
  destruct r as [data|e].
  2:{ apply (served_reply "RETR" arg [_]); [done..|]. by eapply R_unread. }
  assert (Hend : ∀ s2 : session A, drop_of (tr s2) = drop_of (tr s1) → authd (tr s2) = authd (tr s1) →
    conn s2 = conn s1 → served s1 "RETR" arg
      ((reply_lines (("+OK " +:+ dec (slen data) +:+ " octets") :: writeDotted data (-1));; mret tt) s2).2).
  { intros s2 Hd2 Ha2 Hc2. apply (served_from _ _ s1 s2); [done|done|].
    apply served_reply; [congruence|congruence|]. rewrite <- Hd2 in Hs. by eapply R_retr. }
  destruct (Has (m_Flags m) FlagSeen); [by apply Hend|]. unfold mbind at 1, St_bind at 1.
  pose proof (set_flags_run (Z.to_nat (n - 1)) (Add (m_Flags m) FlagSeen) s1) as Hf.
  destruct (set_flags env _ _ s1) as [e s2]. cbn [snd] in Hf. destruct Hf as (Hd2&Ha2&Hc2). by apply Hend.
Qed.

Lemma cmdTop_served arg s : authd (tr s) = true → (2 <= c_writes (conn s))%nat →
  served s "TOP" arg (cmdTop env arg s).2.
Proof.
  intros Ha Hw. unfold cmdTop. rewrite requireAuth_run by done.
  assert (Hw0 : c_writes (conn s) ≠ O) by lia.
  assert (Hbad : ∀ text, (∀ n x k, ¬ top_selects (drop_of (tr s)) arg n x k) →
    served s "TOP" arg ((err text;; mret tt) s).2)
    by (intros text Hno; apply (served_reply "TOP" arg [_]); [done..|by apply R_top_refused]).
  destruct (cut_opt arg " ") as [[num lns]|] eqn:Ec.
  2:{ apply Hbad. intros n x k (?&?&?&_). congruence. }
  destruct (Atoi (TrimSpace lns)) as [k|] eqn:Ek.
  2:{ apply Hbad. intros n x k (?&?&?&?&_). congruence. }
  destruct (k <? 0) eqn:E0; reflect_bool.
  { apply Hbad. intros n x k' (?&?&?&?&?&_). simplify_eq. lia. }
  unfold mbind at 1, St_bind at 1.
  destruct (message_run (TrimSpace num) s Hw0) as [(n&m&->&Hs&_)|(text&->&Hno)].
  2:{ split; [done|]. exists ["-ERR " +:+ text]. split; [|done]. apply R_top_refused.
      intros n x k' (?&?&?&?&?&?). simplify_eq. naive_solver. }
  pose proof (read_message_run m s) as Hr. unfold mbind at 1, St_bind at 1.
  destruct (read_message env m s) as [r s1]. cbn [snd] in Hr. destruct Hr as [Ht Hc].
  assert (Hsel : top_selects (drop_of (tr s1)) arg n (item m) k) by (rewrite Ht; by exists num, lns).
  apply (served_from _ _ s s1); [by rewrite Ht|done|]. rewrite <- Ht in Ha. rewrite <- Hc in Hw, Hw0.
  destruct r as [data|e].
  2:{ apply (served_reply "TOP" arg [_]); [done..|]. by eapply R_top_unread. }
  unfold mbind, St_bind, ok. rewrite reply_lines_said by done. rewrite reply_lines_said by (cbn; lia).
  split; [done|]. eexists. split; [by eapply R_top|]. cbn [conn said c_out mret St_ret snd].
  by rewrite <- app_assoc.
Qed.

End transaction.
