(* ===== verification/Pop3Update.v ===== *)
(** * POP3: the update of the maildrop

    What [QUIT] does to the files: the marked messages are removed, and no
    file of any other message is touched, whatever fails on the way; when
    nothing fails all of them are gone and counted. *)

From S2P Require Import Prelude GoStrings GoIO Session Fs Maildir Mailbox MailFiles Pop3 Pop3Safety Pop3Maildrop.

(** ** Where the messages are *)

(** A message once it is flagged as deleted. *)
Definition flagged `{SliceSort} (m : Message) : Message := with_flags m (Add (m_Flags m) FlagDeleted).

Lemma flagged_proper `{SliceSort} m : proper (Name m) → proper (Name (flagged m)).
Proof. intros [Ha _]. by apply proper_FileName. Qed.

Lemma pbase_flagged `{SliceSort} mb m : proper (Name m) → pbase (msg_path mb (flagged m)) = BaseName (Name m).
Proof.
  intros Hn. rewrite pbase_msg_path; [apply BaseName_FileName|by apply flagged_proper|by right].
Qed.

Lemma Has_Add `{SliceSort} f x : Has (Add f x) x = true.
Proof.
  apply Has_spec, elem_of_Add. by right.
Qed.

Lemma flagged_deleted `{SliceSort} m : deleted (flagged m) = true.
Proof. apply Has_Add. Qed.

Lemma flagged_idemp `{SliceSort} m : flagged (flagged m) = flagged m.
Proof.
  unfold flagged, with_flags. cbn [m_Flags Name UID Seq m_Size Internal].
  assert (Add (Add (m_Flags m) FlagDeleted) FlagDeleted = Add (m_Flags m) FlagDeleted) as ->
    by (unfold Add at 1; by rewrite Has_Add).
  by rewrite BaseName_FileName.
Qed.

(** ** Marking *)

(** A message whose file is in place and can be renamed. *)
Record in_place `{SliceSort} (w : World) (mb : Mailbox) (m : Message) : Prop := {
  ip_file : is_Some (w_files w !! msg_path mb m);
  ip_target : msg_path mb (flagged m) ∉ w_dirs w;
  ip_parent : parent (msg_path mb (flagged m)) ∈ w_dirs w;
}.

Definition ready `{SliceSort} (w : World) (mb : Mailbox) : Prop := Forall (in_place w mb) (messages mb).

(** A position that is marked. *)
Definition is_marked (marks : gset Z) (i : nat) : Prop := Z.of_nat i + 1 ∈ marks.
#[global] Instance is_marked_dec marks i : Decision (is_marked marks i).
Proof. unfold is_marked. apply _. Defined.

Section marking.
Context `{SliceSort} (env : Env).

Lemma SetFlags_step mb i m w : messages mb !! i = Some m →
  ∃ mb' e w', SetFlags env mb i (Add (m_Flags m) FlagDeleted) w = (Ok (mb', e), w') ∧
  root mb' = root mb ∧ folder mb' = folder mb ∧
  messages mb' = match e with None => <[i := flagged m]> (messages mb) | Some _ => messages mb end ∧
  (∀ p, p ≠ msg_path mb m → p ≠ msg_path mb (flagged m) → w_files w' !! p = w_files w !! p) ∧
  w_dirs w' = w_dirs w ∧
  (reliable env → in_place w mb m →
   e = None ∧ w_files w' !! msg_path mb (flagged m) = w_files w !! msg_path mb m ∧
   (msg_path mb m ≠ msg_path mb (flagged m) → w_files w' !! msg_path mb m = None)).
Proof.
  intros Hm. unfold SetFlags. rewrite Hm. unfold mbind, OS_bind, os_try.
  change (path_join (path_join (mb_dir mb) "cur") (FileName (BaseName (Name m)) (Add (m_Flags m) FlagDeleted)))
    with (msg_path mb (flagged m)).
  case_bool_decide as Heq.
  { do 3 eexists. split; [reflexivity|]. split_and!; try done. intros _ _. by rewrite <- Heq. }
  pose proof (Rename_dirs env (msg_path mb m) (msg_path mb (flagged m)) w) as Hd.
  assert (Hrel : reliable env → in_place w mb m → ∃ f, w_files w !! msg_path mb m = Some f ∧
    Rename env (msg_path mb m) (msg_path mb (flagged m)) w = (Ok tt, set_files (tick w)
      (<[msg_path mb (flagged m) := f]> (delete (msg_path mb m) (w_files w)))))
    by (intros Hr [[f Hf] Ht Hp]; exists f; split; [done|]; by apply Rename_reliable).
  destruct (Rename _ _ _ _) as [r w'] eqn:E. apply Rename_files in E. cbn [snd] in Hd.
  destruct r as [[]|e]; do 3 eexists; (split; [reflexivity|]); split_and!; try done.
  - intros p H1 H2. destruct E as (f&Hf&->). by rewrite lookup_insert_ne, lookup_delete_ne.
  - intros _ _. destruct E as (f&Hf&->). rewrite lookup_insert_eq. split_and!; [done|done|].
    intros Hne. by rewrite lookup_insert_ne, lookup_delete_eq.
  - intros p _ _. by rewrite E.
  - intros Hr Hi. by destruct (Hrel Hr Hi) as (f&_&?).
Qed.

Lemma tidy_pbase mb i m : tidy mb → messages mb !! i = Some m →
  pbase (msg_path mb m) = BaseName (Name m) ∧ pbase (msg_path mb (flagged m)) = BaseName (Name m).
Proof.
  intros Ht [Hn Hd]%(tidy_at mb i m Ht). split; [by apply pbase_msg_path|by apply pbase_flagged].
Qed.

Lemma tidy_flagged mb i m mb' : tidy mb → messages mb !! i = Some m →
  messages mb' = <[i := flagged m]> (messages mb) → tidy mb'.
Proof.
  intros Ht Hi E. destruct (tidy_at mb i m Ht Hi) as [Hn _]. destruct Ht as [H1 H2 H3]. split; rewrite E.
  - apply Forall_insert; [done|by apply flagged_proper].
  - apply Forall_insert; [done|by right].
  - rewrite list_fmap_insert, list_insert_id; [done|]. rewrite list_lookup_fmap, Hi.
    simpl. by rewrite BaseName_FileName.
Qed.

Lemma ready_flagged mb i m mb' w w' : tidy mb → messages mb !! i = Some m → ready w mb →
  root mb' = root mb → folder mb' = folder mb → messages mb' = <[i := flagged m]> (messages mb) →
  (∀ p, p ≠ msg_path mb m → p ≠ msg_path mb (flagged m) → w_files w' !! p = w_files w !! p) →
  w_dirs w' = w_dirs w → is_Some (w_files w' !! msg_path mb (flagged m)) → ready w' mb'.
Proof.
  intros Ht Hi Hr H1 H2 E Hf Hd Hs. unfold ready in *. rewrite E. rewrite Forall_lookup in Hr.
  apply Forall_lookup. intros j m' [(<-&<-&_)|(Hij&Hj)]%list_lookup_insert_Some.
  - destruct (Hr i m Hi) as [_ Ht' Hp']. split; rewrite ?flagged_idemp, !(msg_path_same mb mb') by done;
      [done|by rewrite Hd..].
  - destruct (Hr j m' Hj) as [Hs' Ht' Hp']. split; rewrite !(msg_path_same mb mb') by done; [|by rewrite Hd..].
    pose proof (tidy_apart mb i j m m' Ht Hi Hj Hij) as Hb.
    destruct (tidy_pbase mb i m Ht Hi) as [Hb1 Hb2]. destruct (tidy_pbase mb j m' Ht Hj) as [Hb3 _].
    rewrite Hf; [done|intros E'; congruence..].
Qed.

Record marked_as (marks : gset Z) (ps : list nat) (mb mb' : Mailbox) : Prop := {
  ma_root : root mb' = root mb;
  ma_folder : folder mb' = folder mb;
  ma_tidy : tidy mb';
  ma_at i : messages mb' !! i = messages mb !! i ∨
    ∃ m, i ∈ ps ∧ is_marked marks i ∧ messages mb !! i = Some m ∧ messages mb' !! i = Some (flagged m);
}.

Lemma mark_deleted_spec marks ps mb w : NoDup ps → tidy mb →
  ∃ mb' n w', mark_deleted env marks ps mb w = (Ok (mb', n), w') ∧ marked_as marks ps mb mb' ∧
  w_dirs w' = w_dirs w ∧
  (∀ p, (∀ i m, i ∈ ps → is_marked marks i → messages mb !! i = Some m → pbase p ≠ BaseName (Name m)) →
    w_files w' !! p = w_files w !! p) ∧
  (reliable env → ready w mb → ready w' mb' ∧
    n = llen (filter (λ i, is_marked marks i ∧ is_Some (messages mb !! i)) ps) ∧
    ∀ i m, i ∈ ps → is_marked marks i → messages mb !! i = Some m → messages mb' !! i = Some (flagged m) ∧
      (msg_path mb m ≠ msg_path mb (flagged m) → w_files w' !! msg_path mb m = None)).
Proof.
  intros Hnd. revert mb w. induction Hnd as [|i ps Hi Hnd IH]; intros mb w Ht; cbn [mark_deleted].
  { do 3 eexists. split; [reflexivity|]. split; [by split; [..|left]|]. split_and!; try done.
    intros _ Hrd. split_and!; [done|done|]. by intros i m ?%elem_of_nil. }
  assert (Hskip : ¬ (is_marked marks i ∧ is_Some (messages mb !! i)) →
    ∃ mb' n w', mark_deleted env marks ps mb w = (Ok (mb', n), w') ∧ marked_as marks (i :: ps) mb mb' ∧
    w_dirs w' = w_dirs w ∧
    (∀ p, (∀ j m, j ∈ i :: ps → is_marked marks j → messages mb !! j = Some m → pbase p ≠ BaseName (Name m)) →
      w_files w' !! p = w_files w !! p) ∧
    (reliable env → ready w mb → ready w' mb' ∧
      n = llen (filter (λ i, is_marked marks i ∧ is_Some (messages mb !! i)) (i :: ps)) ∧
      ∀ j m, j ∈ i :: ps → is_marked marks j → messages mb !! j = Some m → messages mb' !! j = Some (flagged m) ∧
        (msg_path mb m ≠ msg_path mb (flagged m) → w_files w' !! msg_path mb m = None))).
  { intros Hno. destruct (IH mb w Ht) as (mb'&n&w'&E&[A1 A2 A3 A4]&Hd&Hf&Hrel).
    exists mb', n, w'. split; [done|]. split; [split; try done|split_and!; [done| |]].
    - intros j. destruct (A4 j) as [?|(m&?&?)]; [by left|right]. exists m. split; [by constructor|done].
    - intros p Hp. apply Hf. intros j m Hj. apply Hp. by constructor.
    - intros Hr Hrd. destruct (Hrel Hr Hrd) as (?&?&Hall). rewrite filter_cons_False by done. split_and!; [done..|].
      intros j m [->|Hj]%elem_of_cons Hmk Hjm; [|by apply Hall]. exfalso. apply Hno. by rewrite Hjm. }
  destruct (messages mb !! i) as [m|] eqn:Em; [|apply Hskip; by intros [_ []]].
  case_bool_decide as Hmk; [|apply Hskip; by intros [? _]]. clear Hskip.
  destruct (SetFlags_step mb i m w Em) as (mb1&e&w1&E1&Hr1&Hf1&Hm1&Ho1&Hd1&Hrel1).
  rewrite (os_bind_eq _ _ _ _ _ E1).
  assert (Ht1 : tidy mb1).
  { destruct e; [|by eapply tidy_flagged]. destruct Ht as [? ? ?]. split; by rewrite Hm1. }
  assert (Hsame : ∀ j, j ∈ ps → messages mb1 !! j = messages mb !! j).
  { intros j Hj. rewrite Hm1. destruct e; [done|]. apply list_lookup_insert_ne. by intros ->. }
  assert (Hlt : (i < length (messages mb))%nat) by (by eapply lookup_lt_Some).
  destruct (IH mb1 w1 Ht1) as (mb2&n&w2&E2&[A1 A2 A3 A4]&Hd2&Ho2&Hrel2).
  rewrite (os_bind_eq _ _ _ _ _ E2). do 3 eexists. split; [reflexivity|].
  destruct (tidy_pbase mb i m Ht Em) as [Hb1 Hb2]. split; [split|split_and!]; try congruence.
  - intros j. destruct (decide (j = i)) as [->|Hji].
    + destruct (A4 i) as [A|(m1&Hin&_)]; [|done]. rewrite A, Hm1. destruct e; [by left|right].
      exists m. rewrite list_lookup_insert_eq by done. by split; [constructor|].
    + assert (Hj1 : messages mb1 !! j = messages mb !! j)
        by (rewrite Hm1; destruct e; [done|]; by apply list_lookup_insert_ne).
      destruct (A4 j) as [A|(m1&Hin&Hmj&Hj&Hj')]; [left; congruence|right]. exists m1. rewrite <- Hj1.
      split_and!; [by constructor|done..].
  - intros p Hp. rewrite Ho2; [apply Ho1|].
    + intros ->. by apply (Hp i m); [constructor|..].
    + intros ->. by apply (Hp i m); [constructor|..].
    + intros j m' Hj Hmj Hjm. apply (Hp j m'); [by constructor|done|]. by rewrite <- Hsame.
  - intros Hr Hrd. assert (Hpl : in_place w mb m) by (unfold ready in Hrd; rewrite Forall_lookup in Hrd; by eapply Hrd).
    destruct (Hrel1 Hr Hpl) as (->&Hto&Hfrom).
    assert (Hrd1 : ready w1 mb1).
    { eapply ready_flagged; [exact Ht|done..|]. rewrite Hto. apply (ip_file _ _ _ Hpl). }
    destruct (Hrel2 Hr Hrd1) as (Hrd2&->&Hall). split_and!; [done| |].
    + rewrite filter_cons_True by (split; [done|by eexists]). rewrite llen_cons. do 2 f_equal.
      apply list_filter_iff. intros j.
      by rewrite Hm1, !lookup_lt_is_Some, length_insert.
    + intros j m' [->|Hj]%elem_of_cons Hmj Hjm.
      * simplify_eq. split.
        -- destruct (A4 i) as [A|(m1&Hin&_)]; [|done]. rewrite A, Hm1. by apply list_lookup_insert_eq.
        -- intros Hne. rewrite Ho2; [by apply Hfrom|]. intros j m1 Hj _ Hj1. rewrite Hsame in Hj1 by done.
           rewrite Hb1. eapply (tidy_apart mb i j); [done..|by intros ->].
      * rewrite <- !(msg_path_same mb mb1) by done. apply Hall; [done|done|]. by rewrite Hsame.
Qed.

(** ** Removing *)

Lemma expunge_loop_reliable mb ms w : reliable env → NoDup (msg_path mb <$> ms) →
  (∀ m, m ∈ ms → deleted m = true → is_Some (w_files w !! msg_path mb m)) →
  ∃ x w', expunge_loop env mb ms w = (Ok x, w').
Proof.
  intros Hr. revert w. induction ms as [|m ms IH]; intros w Hnd Hf; [by do 2 eexists|].
  rewrite fmap_cons in Hnd. apply NoDup_cons in Hnd as [Hm Hnd]. cbn [expunge_loop].
  destruct (deleted m) eqn:Hd.
  - destruct (Hf m) as [f Hmf]; [constructor|done|]. unfold mbind at 1, OS_bind at 1, os_try.
    rewrite (Remove_reliable env _ f w Hr Hmf).
    destruct (IH (set_files (tick w) (delete (msg_path mb m) (w_files w)))) as (x&w'&E); [done| |].
    + intros m' Hm' Hd'. cbn. rewrite lookup_delete_ne; [apply Hf; [by constructor|done]|].
      intros E. apply Hm. rewrite E. by apply list_elem_of_fmap_2.
    + rewrite (os_bind_eq _ _ _ _ _ E). by do 2 eexists.
  - destruct (IH w) as (x&w'&E); [done|intros m' Hm'; apply Hf; by constructor|].
    rewrite (os_bind_eq _ _ _ _ _ E). by do 2 eexists.
Qed.

Lemma tidy_paths mb : tidy mb → NoDup (msg_path mb <$> messages mb).
Proof.
  intros Ht. apply NoDup_alt. intros i j p Hi Hj. rewrite list_lookup_fmap in Hi, Hj.
  destruct (messages mb !! i) as [m|] eqn:Ei; [|done]. destruct (messages mb !! j) as [m'|] eqn:Ej; [|done].
  destruct (decide (i = j)) as [|Hij]; [done|]. exfalso. simplify_eq/=.
  apply (tidy_apart mb i j m m' Ht Ei Ej Hij).
  destruct (tidy_pbase mb i m Ht Ei) as [<- _]. destruct (tidy_pbase mb j m' Ht Ej) as [<- _]. congruence.
Qed.

Lemma Expunge_effect mb w : tidy mb → ∃ mb' r w', Expunge env mb w = (Ok (mb', r), w') ∧
  (∀ p, (∀ i m, messages mb !! i = Some m → deleted m = true → p ≠ msg_path mb m) → w_files w' !! p = w_files w !! p) ∧
  (reliable env → ready w mb → is_ok r = true ∧
   ∀ i m, messages mb !! i = Some m → deleted m = true → w_files w' !! msg_path mb m = None).
Proof.
  intros Ht. unfold Expunge, mbind, OS_bind, os_try. pose proof (expunge_loop_spec env mb (messages mb) w) as Hl.
  assert (Hrel : reliable env → ready w mb → ∃ x w', expunge_loop env mb (messages mb) w = (Ok x, w')).
  { intros Hr Hrd. apply expunge_loop_reliable; [done|by apply tidy_paths|]. intros m Hm _.
    unfold ready in Hrd. rewrite Forall_forall in Hrd. apply (ip_file _ _ _ (Hrd m Hm)). }
  destruct (expunge_loop env mb (messages mb) w) as [r w'].
  assert (Hkeep : ∀ p, (∀ i m, messages mb !! i = Some m → deleted m = true → p ≠ msg_path mb m) →
    w_files w' !! p = w_files w !! p).
  { intros p Hp. apply (proj1 Hl). intros (m&->&[Hd Hm]%list_elem_of_filter)%list_elem_of_fmap.
    apply list_elem_of_lookup_1 in Hm as [i Hi]. by apply (Hp i m). }
  destruct r as [[seqs kept]|e].
  - destruct Hl as (_&_&_&Hgone). assert (Hg : ∀ i m, messages mb !! i = Some m → deleted m = true →
      w_files w' !! msg_path mb m = None).
    { intros i m Hi Hd. apply Hgone, list_elem_of_fmap_2, list_elem_of_filter. split; [done|].
      by eapply list_elem_of_lookup_2. }
    destruct seqs; do 3 eexists; (split; [reflexivity|]); by split_and!.
  - do 3 eexists. split; [reflexivity|]. split; [done|]. intros Hr Hrd. by destruct (Hrel Hr Hrd) as (?&?&?).
Qed.
End marking.

(** ** QUIT *)

Section quit.
Context `{SliceSort} {A : Type} (env : Env) (sets : nat → Settings).

(** Marked in this session, or flagged as deleted when it began. *)
Definition doomed (marks : gset Z) (i : nat) (m : Message) : Prop := is_marked marks i ∨ deleted m = true.

Lemma update_effect marks mb w : tidy mb →
  ∃ mb' n r w', update_maildrop env marks mb w = (Ok (mb', n, r), w') ∧
  (∀ p, (∀ i m, messages mb !! i = Some m → doomed marks i m → pbase p ≠ BaseName (Name m)) →
    w_files w' !! p = w_files w !! p) ∧
  (reliable env → ready w mb →
    is_ok r = true ∧ n = llen (filter (is_marked marks) (seq 0 (length (messages mb)))) ∧
    ∀ i m, messages mb !! i = Some m → doomed marks i m → w_files w' !! msg_path mb m = None).
Proof.
  intros Ht. unfold update_maildrop. set (ps := seq 0 (length (messages mb))).
  assert (Hps : ∀ i m, messages mb !! i = Some m → i ∈ ps)
    by (intros i m Hi%lookup_lt_Some; apply elem_of_seq; lia).
  destruct (mark_deleted_spec env marks ps mb w) as (mb1&n&w1&E1&[M1 M2 M3 M4]&_&Hf1&Hrel1);
    [apply NoDup_seq|done|]. rewrite (os_bind_eq _ _ _ _ _ E1).
  destruct (Expunge_effect env mb1 w1 M3) as (mb2&r&w2&E2&Hf2&Hrel2). rewrite (os_bind_eq _ _ _ _ _ E2).
  assert (Hpath : ∀ m, msg_path mb1 m = msg_path mb m) by (intros m; by apply msg_path_same).
  do 4 eexists. split; [reflexivity|]. split.
  - intros p Hp. rewrite Hf2; [apply Hf1|].
    + intros i m _ Hi Hm. apply (Hp i m Hm). by left.
    + intros i m Hm Hd ->. rewrite Hpath in Hp. destruct (M4 i) as [E|(m0&_&Hi&Hm0&E)]; rewrite E in Hm.
      * apply (Hp i m Hm); [by right|]. by apply (tidy_pbase mb i).
      * simplify_eq. apply (Hp i m0 Hm0); [by left|]. by apply (tidy_pbase mb i).
  - intros Hr Hrd. destruct (Hrel1 Hr Hrd) as (Hrd1&->&Hmk). destruct (Hrel2 Hr Hrd1) as [Hok Hgone].
    split_and!; [done| |].
    + f_equal. assert (Hall : Forall (λ i, is_Some (messages mb !! i)) ps)
        by (apply Forall_forall; intros i Hi%elem_of_seq; apply lookup_lt_is_Some; lia).
      clear -Hall. induction Hall as [|i l Hi Hl IH]; [done|]. rewrite !filter_cons. repeat case_decide; tauto || congruence.
    + intros i m Hi Hd. destruct (decide (is_marked marks i)) as [Hm|Hm].
      * destruct (Hmk i m (Hps i m Hi) Hm Hi) as [Hi1 Hfrom].
        specialize (Hgone i (flagged m) Hi1 (flagged_deleted m)). rewrite Hpath in Hgone.
        destruct (decide (msg_path mb m = msg_path mb (flagged m))) as [->|Hne]; [done|].
        rewrite Hf2; [by apply Hfrom|]. intros j m' Hj _ E. rewrite Hpath in E.
        destruct (tidy_pbase mb i m Ht Hi) as [Hb _]. destruct (tidy_pbase mb1 j m' M3 Hj) as [Hb' _].
        rewrite Hpath, <- E, Hb in Hb'. destruct (decide (i = j)) as [<-|Hij]; [congruence|].
        apply (tidy_apart mb1 i j (flagged m) m' M3 Hi1 Hj Hij). simpl. by rewrite BaseName_FileName.
      * destruct Hd as [?|Hd]; [done|]. destruct (M4 i) as [E|(m0&_&?&_)]; [|done].
        rewrite <- Hpath. apply (Hgone i m); [by rewrite E|done].
Qed.

(** C8: [QUIT] removes the messages the client marked, with those that
    were flagged as deleted before, and never touches the file of another
    message, whatever fails; when nothing fails they are all gone and the
    client is told how many it had marked. *)
Theorem pop3_quit (s : session A) mb : authd (tr s) = true → mbox (tr s) = Some mb →
  del (tr s) ≠ ∅ → tidy mb →
  let s' := (cmdQuit env sets s).2 in
  (∀ p, (∀ i m, messages mb !! i = Some m → doomed (del (tr s)) i m → pbase p ≠ BaseName (Name m)) →
    w_files (world s') !! p = w_files (world s) !! p) ∧
  (reliable env → ready (world s) mb → c_writes (conn s) ≠ O →
    (∀ i m, messages mb !! i = Some m → doomed (del (tr s)) i m → w_files (world s') !! msg_path mb m = None) ∧
    c_out (conn s') = c_out (conn s) ++
      ["+OK " +:+ set_Hostname (sets (n_sets s)) +:+ " closing connection, " +:+
       dec (llen (filter (is_marked (del (tr s))) (seq 0 (length (messages mb))))) +:+ " messages deleted"]).
Proof.
  intros Ha Hmb Hd Ht. destruct (update_effect (del (tr s)) mb (world s) Ht) as (mb'&n&r&w'&E&Hf&Hrel).
  unfold cmdQuit, mbind, St_bind, get_tr, os. rewrite Ha, bool_decide_false, Hmb by done.
  cbn [negb orb]. rewrite E. unfold put_tr. cbn beta iota. cbn [conn world tr n_sets fst snd].
  destruct r as [seqs|e].
  - unfold set, ok. cbn beta iota. cbn [n_sets world conn].
    split; [|intros Hr Hrd Hw; destruct (Hrel Hr Hrd) as (_&->&Hgone)].
    + unfold reply_lines, send_lines, mbind, St_bind, get_conn, put_conn. cbn. by destruct (c_writes (conn s)).
    + rewrite reply_lines_said by done. split; [exact Hgone|reflexivity].
  - unfold err. split; [|intros Hr Hrd Hw; by destruct (Hrel Hr Hrd)].
    unfold reply_lines, send_lines, mbind, St_bind, get_conn, put_conn. cbn. by destruct (c_writes (conn s)).
Qed.
End quit.
