(* ===== verification/Pop3Flow.v ===== *)
(** * POP3: the stream

    The text of a message on the wire and the end of every session, with
    a session evaluated from its greeting to its [QUIT]. *)

From S2P Require Import Prelude GoStrings GoIO Session Fs Maildir UidList Mailbox MailFiles Pop3 Pop3Safety Pop3Maildrop Pop3Update.

(** ** The text of a message *)

(** Lines as they are sent. *)
Definition wire (ls : list string) : string := foldr (λ l s, l +:+ CRLF +:+ s) "" ls.

Definition clean (l : string) : Prop := avoids CR l = true ∧ avoids LF l = true.

Definition strip (l : string) : string := TrimSuffix l (String CR "").

Lemma wire_app a b : wire (a ++ b) = wire a +:+ wire b.
Proof. induction a as [|l a IH]; [done|]. cbn [app wire foldr]. fold (wire (a ++ b)). fold (wire a). by rewrite IH, !sapp_assoc. Qed.

Lemma wire_encode ls : wire ((stuff <$> ls) ++ ["."]) = dot_encode ls.
Proof. induction ls as [|l ls IH]; [done|]. rewrite fmap_cons. cbn [app wire foldr dot_encode]. fold (wire ((stuff <$> ls) ++ ["."])). by rewrite IH. Qed.

Lemma strip_clean l : avoids CR l = true → strip l = l.
Proof.
  intros Ha. unfold strip, TrimSuffix. destruct (HasSuffix l (String CR "")) eqn:E; [|done].
  apply HasSuffix_spec in E. rewrite E in Ha. apply avoids_app in Ha as [_ Ha]. by apply avoids_cons in Ha as [? _].
Qed.

Lemma strip_CR l : strip (l +:+ String CR "") = l.
Proof.
  unfold strip, TrimSuffix. rewrite HasSuffix_app, slength_app.
  replace (_ + _ - _)%nat with (String.length l) by (cbn; lia). apply stake_app.
Qed.

Lemma block_lines_strip s : block_lines s = stuff <$> (strip <$> GoStrings.Split s LF).
Proof. unfold block_lines. by rewrite <- list_fmap_compose. Qed.

(** The lines of a text come back, whichever way they end. *)
Lemma strip_Split ls : ls ≠ [] → Forall clean ls → strip <$> GoStrings.Split (Join ls CRLF) LF = ls.
Proof.
  intros Hne. induction 1 as [|l ls [Hc Hl] Hls IH]; [done|]. destruct ls as [|l' ls].
  - cbn [Join]. rewrite Split_avoids by done. cbn. by rewrite strip_clean.
  - rewrite Join_cons_app by done.
    replace (l +:+ CRLF +:+ Join (l' :: ls) CRLF) with ((l +:+ String CR "") +:+ String LF (Join (l' :: ls) CRLF))
      by (by rewrite sapp_assoc).
    rewrite Split_app by (apply avoids_app; done). rewrite fmap_cons, strip_CR, IH by done. done.
Qed.

Lemma strip_lines ls : Forall clean ls → strip <$> ls = ls.
Proof. induction 1 as [|l ls [Hc _] _ IH]; [done|]. by rewrite fmap_cons, strip_clean, IH. Qed.

(** The blank line that ends the header is found where it is. *)
Lemma cut_header h body : Forall (λ l, clean l ∧ l ≠ "") h → h ≠ [] →
  Cut (Join h CRLF +:+ (CRLF +:+ CRLF) +:+ body) (CRLF +:+ CRLF) = (Join h CRLF, body, true).
Proof.
  intros Hh Hne. unfold Cut.
  assert (Hcons : ∀ c s sep, cut_opt (String c s) sep =
    if HasPrefix (String c s) sep then Some ("", sskip sep (String c s))
    else match cut_opt s sep with Some (a, b) => Some (String c a, b) | None => None end) by reflexivity.
  assert (Hchars : ∀ l s, avoids CR l = true →
    cut_opt (l +:+ s) (CRLF +:+ CRLF) = (λ ab, (l +:+ ab.1, ab.2)) <$> cut_opt s (CRLF +:+ CRLF)).
  { intros l s. induction l as [|c l IH]; [intros _; rewrite sapp_nil_l; destruct (cut_opt s (CRLF +:+ CRLF)) as [[a b]|]; reflexivity|].
    intros [Hc Hl]%avoids_cons. rewrite sapp_cons, Hcons.
    assert (HasPrefix (String c (l +:+ s)) (CRLF +:+ CRLF) = false) as ->.
    { change (Ascii.eqb CR c && HasPrefix (l +:+ s) (String LF CRLF) = false).
      by rewrite (proj2 (Ascii.eqb_neq CR c)) by congruence. }
    rewrite IH by done. by destruct (cut_opt s (CRLF +:+ CRLF)) as [[]|]. }
  enough (E : cut_opt (Join h CRLF +:+ (CRLF +:+ CRLF) +:+ body) (CRLF +:+ CRLF) = Some (Join h CRLF, body)) by (by rewrite E).
  induction Hh as [|l h [[Hc Hl] Hne'] Hh IH]; [done|]. destruct h as [|l' h].
  - cbn [Join]. rewrite Hchars by done. cbn. by rewrite sapp_nil_r.
  - rewrite Join_cons_app, sapp_assoc, Hchars by done. specialize (IH ltac:(done)).
    apply Forall_cons in Hh as [[[Hc' _] Hn'] _].
    assert (Hd : ∃ d t, Join (l' :: h) CRLF = String d t ∧ d ≠ CR).
    { destruct l' as [|d l']; [done|]. apply avoids_cons in Hc' as [Hd _]. exists d.
      destruct h; cbn [Join]; rewrite ?sapp_cons; by eexists. }
    destruct Hd as (d&t&Ed&Hd). rewrite Ed in IH |- *.
    assert (Hskip : ∀ s, cut_opt (CRLF +:+ String d s) (CRLF +:+ CRLF) =
      (λ ab, (CRLF +:+ ab.1, ab.2)) <$> cut_opt (String d s) (CRLF +:+ CRLF)).
    { intros s. change (CRLF +:+ String d s) with (String CR (String LF (String d s))).
      assert (HasPrefix (String CR (String LF (String d s))) (CRLF +:+ CRLF) = false) as Hp1.
      { change (Ascii.eqb CR d && HasPrefix s (String LF "") = false).
        by rewrite (proj2 (Ascii.eqb_neq CR d)) by congruence. }
      assert (HasPrefix (String LF (String d s)) (CRLF +:+ CRLF) = false) as Hp2 by reflexivity.
      rewrite (Hcons CR), Hp1, (Hcons LF), Hp2. by destruct (cut_opt (String d s) (CRLF +:+ CRLF)) as [[]|]. }
    rewrite sapp_assoc, sapp_cons, Hskip. rewrite sapp_cons in IH. by rewrite IH.
Qed.

Lemma clean_LF ls : Forall clean ls → Forall (λ l, avoids LF l = true) ls.
Proof. intros H. eapply Forall_impl; [exact H|]. by intros l [_ ?]. Qed.

Lemma Split_lines_nonempty ls : ls ≠ [] → Forall clean ls → GoStrings.Split (Join ls CRLF) LF ≠ [].
Proof. intros Hne Hc E. pose proof (strip_Split ls Hne Hc) as H. rewrite E in H. by subst ls. Qed.

Lemma Split_fields ls : ls ≠ [] → Forall clean ls →
  Forall (λ l, avoids LF l = true) (GoStrings.Split (Join ls CRLF) LF).
Proof. intros _ _. apply Split_fields_avoid. Qed.

(** A message with [CRLF] line ends, up to [n] lines of its body. *)
Lemma writeDotted_CRLF h b n : Forall (λ l, clean l ∧ l ≠ "") h → h ≠ [] → Forall clean b → b ≠ [] →
  writeDotted (Join h CRLF +:+ (CRLF +:+ CRLF) +:+ Join b CRLF) n =
  (stuff <$> (h ++ if n =? 0 then [] else "" :: if n <? 0 then b else take (Z.to_nat n) b)) ++ ["."].
Proof.
  intros Hh Hhe Hb Hbe. unfold writeDotted. rewrite cut_header by done. rewrite block_lines_strip.
  assert (Hhc : Forall clean h) by (eapply Forall_impl; [exact Hh|]; by intros l [? _]).
  rewrite strip_Split by done. rewrite fmap_app. rewrite <- app_assoc. f_equal.
  destruct (n =? 0) eqn:E0; [done|]. cbn [app]. rewrite fmap_cons. change (stuff "") with "". f_equal. f_equal.
  set (L := GoStrings.Split (Join b CRLF) LF).
  assert (HL : strip <$> L = b) by (by apply strip_Split).
  assert (Hne : L ≠ []) by (intros E; rewrite E in HL; by subst b).
  assert (Hav : Forall (λ l, avoids LF l = true) L) by apply Split_fields_avoid.
  assert (Hpos : (0 < length L)%nat) by (destruct L; [done|cbn; lia]).
  assert (Hlen : llen L = llen b) by (unfold llen; by rewrite <- HL, length_fmap).
  assert (Hgo : ∀ K, K ≠ [] → Forall (λ l, avoids LF l = true) K →
    block_lines (Join K (String LF "")) = stuff <$> (strip <$> K)).
  { intros K HK Ha. rewrite block_lines_strip. by rewrite Split_Join. }
  reflect_bool. destruct (n <? 0) eqn:En, (0 <? n) eqn:Ep; reflect_bool; try lia.
  - cbn [andb]. rewrite Hgo, HL by done. done.
  - cbn [andb]. destruct (n <? llen L) eqn:El; reflect_bool.
    + rewrite Hgo; [|intros E; apply (f_equal length) in E; rewrite length_take in E; cbn in E; lia|by apply Forall_take].
      by rewrite fmap_take, HL.
    + rewrite Hgo, HL by done. rewrite take_ge; [done|]. unfold llen in *. lia.
Qed.

(** A message with [LF] line ends is all header. *)
Lemma writeDotted_LF ls n : ls ≠ [] → Forall clean ls →
  writeDotted (Join ls (String LF "")) n = (stuff <$> (ls ++ if n =? 0 then [] else [""; ""])) ++ ["."].
Proof.
  intros Hne Hc. unfold writeDotted.
  assert (HCR : avoids CR (Join ls (String LF "")) = true).
  { clear Hne. induction Hc as [|l ls [Hl _] _ IH]; [done|]. destruct ls as [|l' ls]; [done|].
    rewrite Join_cons_app by done. apply avoids_app. split; [done|]. by apply avoids_cons. }
  assert (Hcut : Cut (Join ls (String LF "")) (CRLF +:+ CRLF) = (Join ls (String LF ""), "", false)).
  { unfold Cut. replace (cut_opt _ _) with (@None (string * string)); [done|]. symmetry.
    destruct (cut_opt _ _) as [[a b]|] eqn:E; [|done]. apply cut_opt_Some in E. rewrite E in HCR.
    apply avoids_app in HCR as [_ HCR]. by apply avoids_cons in HCR as [? _]. }
  rewrite Hcut, block_lines_strip, Split_Join by (done || by apply clean_LF).
  rewrite strip_lines, fmap_app, <- app_assoc by done. f_equal.
  destruct (n =? 0) eqn:E0; [done|]. reflect_bool. cbn [app].
  destruct (0 <? n) eqn:Ep; reflect_bool; [|done]. cbn [andb].
  replace (n <? llen (GoStrings.Split "" LF)) with false; [done|]. symmetry. apply Z.ltb_ge. change (llen (GoStrings.Split "" LF)) with 1. lia.
Qed.

(** a client that decodes the text of a message gets its lines
    back: of one stored with [CRLF] line ends the header, the blank line
    and as many lines of the body as it asked for; of one stored with [LF]
    line ends always the whole, with two lines that are not in it. *)
Theorem pop3_text h b n rest : Forall (λ l, clean l ∧ l ≠ "") h → h ≠ [] → Forall clean b → b ≠ [] →
  let text ls := Join ((λ l, l +:+ String LF "") <$> ls) "" in
  dot_read (wire (writeDotted (Join h CRLF +:+ (CRLF +:+ CRLF) +:+ Join b CRLF) n) +:+ rest) =
    Some (text (h ++ if n =? 0 then [] else "" :: if n <? 0 then b else take (Z.to_nat n) b), rest) ∧
  dot_read (wire (writeDotted (Join (h ++ "" :: b) (String LF "")) n) +:+ rest) =
    Some (text (h ++ "" :: b ++ if n =? 0 then [] else [""; ""]), rest).
Proof.
  intros Hh Hhe Hb Hbe text. assert (Hhc : Forall clean h) by (eapply Forall_impl; [exact Hh|]; by intros l [? _]).
  assert (H0 : clean "") by done. split.
  - rewrite writeDotted_CRLF, wire_encode by done. apply dot_read_encode. apply Forall_app. split; [exact Hhc|].
    destruct (n =? 0); [constructor|]. constructor; [done|]. destruct (n <? 0); [done|by apply Forall_take].
  - rewrite writeDotted_LF, wire_encode.
    + rewrite <- app_assoc. apply dot_read_encode. apply Forall_app. split; [exact Hhc|].
      constructor; [done|]. apply Forall_app. split; [done|]. destruct (n =? 0); by repeat constructor.
    + by destruct h.
    + apply Forall_app. split; [done|]. by constructor.
Qed.

Lemma pop3_text_witness :
  dot_read (wire (writeDotted ("A: 1" +:+ CRLF +:+ CRLF +:+ ".x" +:+ CRLF +:+ "y") 1)) =
    Some ("A: 1" +:+ String LF (String LF (".x" +:+ String LF "")), "").
Proof.
  pose proof (pop3_text ["A: 1"] [".x"; "y"] 1 "") as [E _].
  - repeat constructor; discriminate.
  - discriminate.
  - repeat constructor.
  - discriminate.
  - rewrite sapp_nil_r in E. exact E.
Defined.

(** ** Termination *)

Section shrinking.
Context `{SliceSort} {A : Type} (env : Env) (Authenticate : Backend A) (sets : nat → Settings)
  (others : nat → World → World).

Lemma pop_shrinks_get_tr : shrinks (S := session A) get_tr. Proof. by apply shrinks_still. Qed.
Lemma pop_shrinks_put_tr t : shrinks (S := session A) (put_tr t). Proof. by apply shrinks_still. Qed.
Lemma pop_shrinks_set : shrinks (S := session A) (set sets). Proof. by apply shrinks_still. Qed.
Lemma shrinks_interfere : shrinks (S := session A) (interfere others). Proof. by apply shrinks_still. Qed.
Lemma shrinks_os {R} (m : OS R) : shrinks (S := session A) (os m).
Proof. apply shrinks_still. intros s. unfold os. by destruct (m (world s)). Qed.
Lemma shrinks_authenticate u p : shrinks (authenticate Authenticate u p).
Proof. apply shrinks_still. intros s. unfold authenticate. by destruct (Authenticate _ _ _ _). Qed.

Lemma pop_shrinks_reply_lines ls : shrinks (S := session A) (reply_lines ls). Proof. apply shrinks_send_lines. Qed.
Lemma shrinks_ok x : shrinks (S := session A) (ok x). Proof. apply pop_shrinks_reply_lines. Qed.
Lemma shrinks_err x : shrinks (S := session A) (err x). Proof. apply pop_shrinks_reply_lines. Qed.
End shrinking.

#[export] Hint Resolve pop_shrinks_get_tr pop_shrinks_put_tr pop_shrinks_set shrinks_interfere shrinks_os
  shrinks_authenticate pop_shrinks_reply_lines shrinks_ok shrinks_err : shrinks.

Section total.
Context `{SliceSort} {A : Type} (env : Env) (Authenticate : Backend A) (sets : nat → Settings)
  (others : nat → World → World).

Lemma shrinks_message arg : shrinks (S := session A) (message arg).
Proof. unfold message. shrink. Qed.

Lemma shrinks_cmdSTLS : shrinks (S := session A) (cmdSTLS sets).
Proof.
  unfold cmdSTLS. shrink.
  destruct (c_tls (channel s)) as [b|] eqn:E; [|done].
  apply shrinks_put_conn; [shrink|]. unfold budget. rewrite E. simpl. lia.
Qed.

Lemma shrinks_dispatch cmd arg : shrinks (dispatch env Authenticate sets cmd arg).
Proof.
  unfold dispatch, cmdCapa, cmdUser, cmdPass, cmdStat, cmdList, cmdUidl, cmdRetr, cmdTop, cmdDele, cmdRset,
    cmdQuit, set_flags, read_message, requireAuth.
  shrink; first [apply shrinks_cmdSTLS|apply shrinks_message].
Qed.

Lemma pop_step_progress : ∀ s, (step env Authenticate sets others s).1 = false →
  (budget (conn (step env Authenticate sets others s).2) < budget (conn s))%nat.
Proof.
  unfold step, readLine. match goal with |- context [read_limited maxLine ≫= ?k] =>
    pose proof (turn_progress maxLine k (read_limited maxLine ≫= k) eq_refl) as Hp end.
  cbn [channel session_channel] in Hp. apply Hp; [done|]. intros l.
  destruct (is_empty _); [auto with shrinks|]. destruct (Cut l " ") as [[cmd arg] b].
  apply shrinks_bind; [auto with shrinks|]. intros _. apply shrinks_dispatch.
Qed.

(** every POP3 session comes to an end: as many turns as the client
    sends bytes, in clear and under TLS, are enough. *)
Theorem pop3_total s : is_Some (run env Authenticate sets others (S (budget (conn s))) s).
Proof.
  unfold run, set. cbn beta iota.
  match goal with |- context [ok ?x ?s1] => pose proof (shrinks_ok x s1) as Hs; destruct (ok x s1) as [[] s2] end;
    [by eexists|]. apply turns_total; [apply pop_step_progress|]. cbn in Hs |- *. lia.
Qed.
End total.

(** ** A session, evaluated *)

Definition sample_settings : Settings := MkSettings "mx.example" true true.

Definition sample_auth : Backend nat := λ u p _ n,
  (if (String.eqb u "bob" && String.eqb p "pw")%bool then Ok ["bob"] else Err (EMsg "invalid credentials"), S n).

(** Two messages, the second of them flagged as deleted. *)
Definition two_messages : World :=
  let w := (Deliver calm ["bob"] "hello" empty_world).2 in
  let w := (Deliver calm ["bob"] "world!" w).2 in
  let mb := match (OpenMailbox calm ["bob"] Inbox w) with (Ok mb, _) => mb | _ => Mailbox.inbox end in
  (SetFlags calm mb 1 [FlagDeleted] (OpenMailbox calm ["bob"] Inbox w).2).2.

Definition sample_lines : list string :=
  ["STAT"; "USER bob"; "PASS no"; "USER bob"; "PASS pw"; "STAT"; "LIST"; "RETR 1"; "DELE 1"; "STAT"; "DELE 1"; "QUIT"].

Definition sample_session : session nat :=
  newSession (λ _, sample_settings) "192.0.2.1" (MkConn (wire sample_lines) None 20 []) 0 O two_messages.

Abbreviation sample_run := (run calm sample_auth (λ _, sample_settings) (λ _ w, w) 20 sample_session).

Example pop3_transcript : (λ s, (c_out (conn s), dom (w_files (world s)))) <$> sample_run =
  Some (["+OK mx.example Kavira POP3 ready";
         "-ERR not authenticated";
         "+OK send PASS";
         "-ERR [AUTH] authentication failed";
         "+OK send PASS";
         "+OK mailbox ready, 2 messages (11 octets)";
         "+OK 2 11";
         "+OK 2 messages"; "1 5"; "2 6"; ".";
         "+OK 5 octets"; "hello"; ""; ""; ".";
         "+OK message 1 deleted";
         "+OK 1 6";
         "-ERR message 1 already deleted";
         "+OK mx.example closing connection, 1 messages deleted"],
        {[ ["bob"; uidListFile] ]}).
Proof. vm_compute. reflexivity. Qed.

Lemma sample_run_log : match sample_run with Some s => length (log s) = 2%nat | None => False end.
Proof. vm_compute. reflexivity. Qed.

Lemma pop3_refines_witness :
  ∃ s, sample_run = Some s ∧ length (log s) = 2%nat ∧
    (moves calm sample_auth (λ _ w, w) (view sample_session) (view s) ∨
     ∃ v, moves calm sample_auth (λ _ w, w) (view sample_session) v ∧ update calm v (view s)).
Proof.
  pose proof sample_run_log as Hl. destruct sample_run as [s|] eqn:E; [|contradiction].
  exists s. split; [reflexivity|]. split; [exact Hl|].
  exact (pop3_refines calm sample_auth (λ _, sample_settings) (λ _ w, w) 20 sample_session s E).
Defined.

Lemma pop3_safe_witness :
  ∃ s, sample_run = Some s ∧ length (log s) = 2%nat ∧ Forall (λ '(EvAuth _ _ b _), b = true) (log s).
Proof.
  pose proof sample_run_log as Hl. destruct sample_run as [s|] eqn:E; [|contradiction].
  exists s. split; [reflexivity|]. split; [exact Hl|].
  refine (proj1 (pop3_safe calm sample_auth (λ _, sample_settings) (λ _ w, w) 20 sample_session s _ E)).
  exists true. split; reflexivity.
Defined.

Definition sample_message1 : Message := MkMessage 1 1 "0.M0P1Q1R7.mx" "new" [] true 5 0.
Definition sample_maildrop : Mailbox := MkMailbox ["bob"] "INBOX" [sample_message1] 7 2.

(** A client that has logged in, and one that has also marked its
    message. *)
Definition logged_in (marks : gset Z) : session nat :=
  MkSession "192.0.2.1" (MkConn "" None 5 []) (MkTrans true "bob" (Some sample_maildrop) marks true) 1 1 O mail_world [].


Lemma sample_tidy : tidy sample_maildrop.
Proof. split; [repeat constructor; discriminate|by repeat constructor; left|apply NoDup_singleton]. Qed.

Lemma sample_ready : ready mail_world sample_maildrop.
Proof. repeat constructor; apply (bool_decide_unpack _); vm_compute; exact I. Qed.

Lemma pop3_quit_witness :
  w_files mail_world !! msg_path sample_maildrop sample_message1 ≠ None ∧
  w_files (world (cmdQuit calm (λ _, sample_settings) (logged_in {[1]})).2) !! msg_path sample_maildrop sample_message1 = None.
Proof.
  split; [vm_compute; discriminate|].
  destruct (pop3_quit calm (λ _, sample_settings) (logged_in {[1]}) sample_maildrop) as [_ H].
  - reflexivity.
  - reflexivity.
  - apply (bool_decide_unpack _). vm_compute. exact I.
  - exact sample_tidy.
  - destruct (H calm_reliable sample_ready) as [Hgone _]; [cbn; discriminate|].
    apply (Hgone 0%nat sample_message1); [reflexivity|left].
    unfold is_marked. apply (bool_decide_unpack _). vm_compute. exact I.
Defined.
