(* ===== verification/ImapParse.v ===== *)
(** * IMAP: the command parser

    Models [internal/imap/parse.go].  The parser keeps the rest of the
    line, which is what the code's line and position stand for; a literal
    is read from the connection by the session that runs the parser.  The
    code does not tell its errors apart. *)

From S2P Require Import Prelude GoStrings GoIO Session.

(** ** Tokens *)

Inductive token := MkToken (str : string) (items : list token) (isList : bool).

Definition t_str (t : token) : string := let '(MkToken s _ _) := t in s.
Definition t_list (t : token) : list token := let '(MkToken _ l _) := t in l.
Definition t_isList (t : token) : bool := let '(MkToken _ _ b) := t in b.

Definition str_token (s : string) : token := MkToken s [] false.
Definition list_token (l : list token) : token := MkToken "" l true.

Definition upper (t : token) : string := ToUpper (t_str t).

(** ** Tokens of one piece *)

Definition skipSpace (p : string) : string := trim_left (λ c, Ascii.eqb c " ") p.

Definition atom_end (c : ascii) : bool := Ascii.eqb c " " || Ascii.eqb c "(" || Ascii.eqb c ")".

Fixpoint span_atom (p : string) : string * string :=
  match p with
  | "" => ("", "")
  | String c r => if atom_end c then ("", p) else let '(a, rest) := span_atom r in (String c a, rest)
  end.

Definition parseAtom (p : string) : option token * string :=
  let '(a, rest) := span_atom p in
  if is_empty a then (None, rest) else (Some (str_token a), rest).

Definition BACKSLASH : ascii := byte 92.

(** What follows the opening quote. *)
Fixpoint quoted (p : string) : option string * string :=
  match p with
  | "" => (None, "")
  | String c r =>
      if Ascii.eqb c BACKSLASH then
        match r with
        | "" => (None, p)
        | String d r' => let '(q, rest) := quoted r' in (String d <$> q, rest)
        end
      else if Ascii.eqb c DQUOTE then (Some "", r)
      else let '(q, rest) := quoted r in (String c <$> q, rest)
  end.

Definition parseQuoted (p : string) : option token * string :=
  let '(q, rest) := quoted p in (str_token <$> q, rest).

(** The number of bytes a literal announces. *)
Definition literal_size (p : string) : option Z :=
  let e := IndexByte p "}" in
  if e <? 0 then None else
  match Atoi (TrimSuffix (slice_from (slice_to p e) 1) "+") with
  | Some n => if (n <? 0) || (64 * 1024 * 1024 <? n) then None else Some n
  | None => None
  end.

Section parser.
Context {S : Type} `{Channel S} (readLiteral : Z → St S (option string)).

Definition parseLiteral (p : string) : St S (option token * string) :=
  match literal_size p with
  | None => mret (None, p)
  | Some n => s ← readLiteral n; mret (str_token <$> s, "")
  end.

(** A token and the elements of a list, up to the closing parenthesis. *)
Fixpoint next_go (fuel : nat) (p : string) : St S (option token * string) :=
  match fuel with
  | O => mret (None, p)
  | Datatypes.S fuel =>
      match skipSpace p with
      | "" => mret (None, "")
      | String c r =>
          if Ascii.eqb c "(" then parseList fuel r []
          else if Ascii.eqb c DQUOTE then mret (parseQuoted r)
          else if Ascii.eqb c "{" then parseLiteral (String c r)
          else mret (parseAtom (String c r))
      end
  end
with parseList (fuel : nat) (p : string) (out : list token) : St S (option token * string) :=
  match fuel with
  | O => mret (None, p)
  | Datatypes.S fuel =>
      match skipSpace p with
      | "" => mret (None, "")
      | String c r =>
          if Ascii.eqb c ")" then mret (Some (list_token out), r)
          else
            x ← next_go fuel (String c r);
            match x with
            | (None, rest) => mret (None, rest)
            | (Some t, rest) => parseList fuel rest (out ++ [t])
            end
      end
  end.

(** Every call consumes a byte or comes after one that did. *)
Definition parse_fuel (p : string) : nat := 2 * String.length p + 2.

Definition next (p : string) : St S (option token * string) := next_go (parse_fuel p) p.

(** The remaining tokens of the line: every turn consumes a byte. *)
Fixpoint all_go (fuel : nat) (p : string) (out : list token) : St S (option (list token)) :=
  match fuel with
  | O => mret None
  | Datatypes.S fuel =>
      match skipSpace p with
      | "" => mret (Some out)
      | p =>
          x ← next p;
          match x with
          | (None, _) => mret None
          | (Some t, rest) => all_go fuel rest (out ++ [t])
          end
      end
  end.
Definition all (p : string) : St S (option (list token)) := all_go (Datatypes.S (String.length p)) p [].
End parser.

(** The rest of the line verbatim. *)
Definition rest (p : string) : string := skipSpace p.

(** ** Sequence sets *)

Definition maxUint32 : Z := 2 ^ 32 - 1.

Definition seqSet : Type := list (Z * Z).

Definition parseSeqNum (s : string) : option Z :=
  if String.eqb s "*" then Some maxUint32 else
  match ParseUint s 32 with
  | Some n => if n =? 0 then None else Some n
  | None => None
  end.

Definition parseSeqPart (part : string) : option (Z * Z) :=
  let '(lo, hi, found) := Cut part ":" in
  a ← parseSeqNum lo;
  b ← (if found : bool then parseSeqNum hi else Some a);
  Some (if b <? a then (b, a) else (a, b)).

Definition parseSeqSet (s : string) : option seqSet :=
  if is_empty s then None else mapM parseSeqPart (GoStrings.Split s ",").

Definition resolve (max v : Z) : Z := if v =? maxUint32 then max else v.

(** [max] is the value of the star. *)
Definition contains (set : seqSet) (n max : Z) : bool :=
  existsb (λ '(lo, hi),
    let lo := resolve max lo in
    let hi := resolve max hi in
    let '(lo, hi) := if hi <? lo then (hi, lo) else (lo, hi) in
    (lo <=? n) && (n <=? hi)) set.

(** ** Printing *)

Fixpoint quote_bytes (s : string) : string :=
  match s with
  | "" => ""
  | String c s =>
      if Ascii.eqb c DQUOTE || Ascii.eqb c BACKSLASH then String BACKSLASH (String c (quote_bytes s))
      else String c (quote_bytes s)
  end.
Definition quote (s : string) : string := String DQUOTE (quote_bytes s +:+ String DQUOTE "").

Definition literal (s : string) : string := "{" +:+ dec (slen s) +:+ "}" +:+ CRLF +:+ s.

(** ** Quoted strings *)

(** A quoted string is read back as the string it was made of, whatever
    its bytes are. *)
Lemma quoted_quote s r : quoted (quote_bytes s +:+ String DQUOTE r) = (Some s, r).
Proof.
  induction s as [|c s IH]; [done|]. cbn [quote_bytes].
  destruct (Ascii.eqb c DQUOTE) eqn:E1; [|destruct (Ascii.eqb c BACKSLASH) eqn:E2]; cbn [orb String.append quoted].
  - rewrite Ascii.eqb_refl. by rewrite IH.
  - rewrite Ascii.eqb_refl. by rewrite IH.
  - rewrite E1, E2. by rewrite IH.
Qed.

Lemma parseQuoted_quote s r : parseQuoted (quote_bytes s +:+ String DQUOTE r) = (Some (str_token s), r).
Proof. unfold parseQuoted. by rewrite quoted_quote. Qed.

(** ** Progress *)

Lemma span_atom_length p : let '(a, rest) := span_atom p in
  (String.length a + String.length rest)%nat = String.length p.
Proof. induction p as [|c p IH]; [done|]. simpl. destruct (atom_end c); [done|]. destruct (span_atom p). simpl. lia. Qed.

Lemma quoted_length p : (String.length (quoted p).2 <= String.length p)%nat.
Proof.
  enough (H : ∀ n p, (String.length p <= n)%nat → (String.length (quoted p).2 <= String.length p)%nat) by by eapply H.
  clear p. intros n. induction n as [|n IH]; intros [|c p] Hn; simpl in *; [lia..|lia|].
  destruct (Ascii.eqb c BACKSLASH).
  - destruct p as [|d p]; [done|]. simpl in Hn. pose proof (IH p ltac:(lia)). destruct (quoted p). simpl in *. lia.
  - destruct (Ascii.eqb c DQUOTE); simpl; [lia|]. pose proof (IH p ltac:(lia)). destruct (quoted p). simpl in *. lia.
Qed.

(** A parser leaves at most what it was given, and less when it returns a
    token. *)
Definition consumes {S} (m : St S (option token * string)) (n : nat) : Prop :=
  ∀ s, let '(t, p) := (m s).1 in
       match t with Some _ => (String.length p < n)%nat | None => (String.length p <= n)%nat end.

(** ** Printing tokens *)

(** Tokens as the parser makes them. *)
Inductive printable : token → Prop :=
  | pr_str s : printable (str_token s)
  | pr_list l : Forall printable l → printable (list_token l).

(** A token as a client may write it: strings quoted, lists in
    parentheses. *)
Fixpoint print (t : token) : string :=
  let '(MkToken s l b) := t in
  if b then "(" +:+ Join (List.map print l) " " +:+ ")" else quote s.
Definition print_list (l : list token) : string := Join (print <$> l) " ".

Lemma print_head t : ∃ c p, print t = String c p ∧ Ascii.eqb c " " = false ∧ Ascii.eqb c ")" = false.
Proof. destruct t as [s l []]; simpl; by do 2 eexists. Qed.

Lemma print_list_cons t l r : ∃ q, print_list (t :: l) +:+ r = print t +:+ q ∧
  skipSpace q = skipSpace (print_list l +:+ r) ∧
  (String.length (print_list l +:+ r) <= String.length q)%nat.
Proof.
  destruct l as [|t' l]; [by exists r|]. exists (String " " (print_list (t' :: l) +:+ r)).
  split; [|simpl; split; [done|lia]].
  unfold print_list. rewrite fmap_cons, Join_cons_app by done. by rewrite !sapp_assoc.
Qed.

Lemma skipSpace_print t q : ∃ c p, skipSpace (print t +:+ q) = String c (p +:+ q) ∧ print t = String c p ∧
  Ascii.eqb c ")" = false.
Proof. destruct (print_head t) as (c&p&->&Hc&Hp). exists c, p. simpl. unfold skipSpace. simpl. by rewrite Hc. Qed.

Section laws.
Context {S : Type} `{Channel S} (readLiteral : Z → St S (option string)).
Abbreviation next_go := (next_go readLiteral).
Abbreviation parseList := (parseList readLiteral).
Abbreviation next := (next readLiteral).

Lemma consumes_ret t p n : match t with Some _ => (String.length p < n)%nat | None => (String.length p <= n)%nat end →
  consumes (mret (M := St S) (t, p)) n.
Proof. by intros Hp s. Qed.

Lemma consumes_mono (m : St S (option token * string)) n n' : (n <= n')%nat → consumes m n → consumes m n'.
Proof. intros Hn Hm s. specialize (Hm s). destruct (m s).1 as [[t|] p]; lia. Qed.

Lemma next_go_consumes fuel : (∀ p, consumes (next_go fuel p) (String.length p)) ∧
  (∀ p out, consumes (parseList fuel p out) (String.length p)).
Proof.
  induction fuel as [|fuel [IHn IHl]]; [split; intros; by apply consumes_ret|]. split.
  - intros p. simpl. pose proof (trim_left_length (λ c, Ascii.eqb c " ") p) as Hp. fold (skipSpace p) in Hp.
    destruct (skipSpace p) as [|c r] eqn:E; [apply consumes_ret; simpl; lia|]. simpl in Hp.
    destruct (Ascii.eqb c "("); [eapply consumes_mono; [|apply IHl]; lia|].
    destruct (Ascii.eqb c DQUOTE).
    { unfold parseQuoted. pose proof (quoted_length r). destruct (quoted r) as [[q|] rest]; simpl in *;
        apply consumes_ret; lia. }
    destruct (Ascii.eqb c "{").
    { unfold parseLiteral. destruct (literal_size _); [|apply consumes_ret; simpl; lia].
      intros s. unfold mbind, St_bind. destruct (readLiteral z s) as [[x|] s']; simpl; lia. }
    unfold parseAtom. pose proof (span_atom_length (String c r)) as Ha. destruct (span_atom (String c r)) as [a rest].
    simpl in Ha. destruct a; apply consumes_ret; simpl in *; lia.
  - intros p out. simpl. pose proof (trim_left_length (λ c, Ascii.eqb c " ") p) as Hp. fold (skipSpace p) in Hp.
    destruct (skipSpace p) as [|c r] eqn:E; [apply consumes_ret; simpl; lia|]. simpl in Hp.
    destruct (Ascii.eqb c ")"); [apply consumes_ret; lia|].
    intros s. unfold mbind, St_bind. specialize (IHn (String c r) s).
    destruct (next_go fuel (String c r) s) as [[[t|] rest] s']; simpl in *; [|lia].
    specialize (IHl rest (out ++ [t]) s'). destruct (parseList fuel rest (out ++ [t]) s').1 as [[t'|] p']; simpl in *; lia.
Qed.

Lemma next_consumes p : consumes (next p) (String.length p).
Proof. apply next_go_consumes. Qed.

(** *** What holds of reading a literal holds of the parser *)

Section lifting.
Context (P : ∀ A, St S A → Prop)
  (P_ret : ∀ A (a : A), P A (mret a))
  (P_bind : ∀ A B (m : St S A) (f : A → St S B), P A m → (∀ a, P B (f a)) → P B (m ≫= f))
  (P_literal : ∀ n, P _ (readLiteral n)).

Lemma next_go_lifts fuel : (∀ p, P _ (next_go fuel p)) ∧ (∀ p out, P _ (parseList fuel p out)).
Proof.
  induction fuel as [|fuel [IHn IHl]]; [split; intros; apply P_ret|]. split.
  - intros p. simpl. destruct (skipSpace p) as [|c r]; [apply P_ret|]. destruct (Ascii.eqb c "("); [apply IHl|].
    destruct (Ascii.eqb c DQUOTE); [apply P_ret|]. destruct (Ascii.eqb c "{"); [|apply P_ret].
    unfold parseLiteral. destruct (literal_size _); [|apply P_ret]. apply P_bind; [apply P_literal|]. intros x. apply P_ret.
  - intros p out. simpl. destruct (skipSpace p) as [|c r]; [apply P_ret|]. destruct (Ascii.eqb c ")"); [apply P_ret|].
    apply P_bind; [apply IHn|]. intros [[t|] rest]; [apply IHl|apply P_ret].
Qed.

Lemma next_lifts p : P _ (next p).
Proof. apply next_go_lifts. Qed.

Lemma all_lifts p : P _ (all readLiteral p).
Proof.
  unfold all. generalize (Datatypes.S (String.length p)). intros fuel. generalize (@nil token). revert p.
  induction fuel as [|fuel IH]; intros p out; [apply P_ret|]. cbn [all_go].
  destruct (skipSpace p) as [|c r]; [apply P_ret|]. apply P_bind; [apply next_lifts|].
  intros [[t|] rest]; [apply IH|apply P_ret].
Qed.
End lifting.

(** ** More fuel changes nothing *)

Lemma next_go_fuel fuel : ∀ fuel',
  (∀ p s, (2 * String.length p < fuel)%nat → (fuel <= fuel')%nat → next_go fuel p s = next_go fuel' p s) ∧
  (∀ p out s, (2 * String.length p + 1 < fuel)%nat → (fuel <= fuel')%nat → parseList fuel p out s = parseList fuel' p out s).
Proof.
  induction fuel as [|fuel IH]; intros fuel'; [split; intros; lia|].
  destruct fuel' as [|fuel']; [split; intros; lia|]. specialize (IH fuel') as [IHn IHl]. split.
  - intros p s Hf Hle. simpl. pose proof (trim_left_length (λ c, Ascii.eqb c " ") p) as Hp. fold (skipSpace p) in Hp.
    destruct (skipSpace p) as [|c r] eqn:E; [done|]. simpl in Hp.
    destruct (Ascii.eqb c "("); [apply IHl; lia|done].
  - intros p out s Hf Hle. simpl. pose proof (trim_left_length (λ c, Ascii.eqb c " ") p) as Hp. fold (skipSpace p) in Hp.
    destruct (skipSpace p) as [|c r] eqn:E; [done|]. simpl in Hp.
    destruct (Ascii.eqb c ")"); [done|]. unfold mbind, St_bind. rewrite <- IHn by (simpl; lia).
    pose proof (proj1 (next_go_consumes fuel) (String c r) s) as Hc.
    destruct (next_go fuel (String c r) s) as [[[t|] rest] s']; [|done]. simpl in Hc. apply IHl; lia.
Qed.

Lemma next_fuel fuel p s : (2 * String.length p < fuel)%nat → next_go fuel p s = next p s.
Proof.
  intros Hf. unfold next, ImapParse.next, parse_fuel. destruct (le_ge_dec fuel (2 * String.length p + 2)).
  - by apply next_go_fuel.
  - symmetry. apply next_go_fuel; lia.
Qed.

(** ** What a client prints is what the parser reads *)

Lemma parseList_skip fuel p p' out : skipSpace p = skipSpace p' → fuel ≠ O →
  parseList fuel p out = parseList fuel p' out.
Proof. intros Hp Hf. destruct fuel; [done|]. simpl. by rewrite Hp. Qed.

Lemma next_go_print fuel :
  (∀ t r s, printable t → (2 * String.length (print t +:+ r) < fuel)%nat →
     next_go fuel (print t +:+ r) s = ((Some t, r), s)) ∧
  (∀ l out r s, Forall printable l → (2 * String.length (print_list l +:+ String ")" r) + 1 < fuel)%nat →
     parseList fuel (print_list l +:+ String ")" r) out s = ((Some (list_token (out ++ l)), r), s)).
Proof.
  induction fuel as [|fuel [IHn IHl]]; [split; intros; lia|]. split.
  - intros t r s Ht Hf. destruct Ht as [x|l Hl]; cbn [print str_token list_token] in Hf |- *.
    + unfold quote. cbn [String.append]. rewrite sapp_assoc. simpl. by rewrite parseQuoted_quote.
    + cbn [String.append] in Hf |- *. rewrite !sapp_assoc in Hf |- *. apply (IHl l [] r s Hl).
      change (List.map print l) with (print <$> l) in Hf. fold (print_list l) in Hf. simpl in Hf. lia.
  - intros [|t l] out r s Hl Hf.
    { simpl. by rewrite app_nil_r. }
    apply Forall_cons in Hl as [Ht Hl]. destruct (print_list_cons t l (String ")" r)) as (q&Hq&Hs&Hlen2).
    rewrite Hq in Hf |- *. destruct (skipSpace_print t q) as (c&p&E&Hp&Hc).
    assert (Hlen : (String.length q < String.length (print t +:+ q))%nat)
      by (rewrite slength_app, Hp; simpl; lia).
    simpl. rewrite E, Hc. unfold mbind, St_bind.
    change (String c (p +:+ q)) with (String c p +:+ q). rewrite <- Hp, IHn by (done || lia).
    rewrite (parseList_skip _ _ _ _ Hs) by lia. rewrite IHl by (done || lia). by rewrite <- app_assoc.
Qed.

Lemma next_print t r s : printable t → next (print t +:+ r) s = ((Some t, r), s).
Proof. intros Ht. apply next_go_print; [done|]. unfold parse_fuel. lia. Qed.

Lemma all_go_print l : ∀ fuel p out s, Forall printable l → skipSpace p = skipSpace (print_list l +:+ "") →
  (length l < fuel)%nat → all_go readLiteral fuel p out s = (Some (out ++ l), s).
Proof.
  induction l as [|t l IH]; intros [|fuel] p out s Hl Hp Hf; simpl in Hf; try lia; cbn [all_go]; rewrite Hp.
  { by rewrite app_nil_r. }
  apply Forall_cons in Hl as [Ht Hl]. destruct (print_list_cons t l "") as (q&->&Hs&_).
  destruct (skipSpace_print t q) as (c&p'&->&Hp'&_). change (String c (p' +:+ q)) with (String c p' +:+ q).
  rewrite <- Hp'. unfold mbind, St_bind. rewrite next_print by done.
  rewrite (IH fuel q (out ++ [t])) by (done || lia). by rewrite <- app_assoc.
Qed.

Lemma print_list_length l : (length l <= String.length (print_list l))%nat.
Proof.
  induction l as [|t l IH]; [done|]. destruct (print_list_cons t l "") as (q&Hq&_&Hl).
  rewrite !sapp_nil_r in *. rewrite Hq, slength_app. destruct (print_head t) as (c&p&->&_). simpl. lia.
Qed.

Lemma next_space p s : next (String " " p) s = next p s.
Proof.
  rewrite <- (next_fuel (parse_fuel (String " " p)) p); [done|]. unfold parse_fuel. simpl. lia.
Qed.

(** *** Literals *)

Lemma literal_size_print n : 0 <= n <= 64 * 1024 * 1024 → literal_size ("{" +:+ dec n +:+ "}") = Some n.
Proof.
  intros Hn. assert (Hd : sall is_digit (dec n) = true) by (apply dec_digits; lia).
  assert (Ha : avoids "}" (String "{" (dec n)) = true) by (apply avoids_cons; split; [done|by apply digits_avoid]).
  unfold literal_size. change ("{" +:+ dec n +:+ "}") with (String "{" (dec n) +:+ String "}" "").
  rewrite IndexByte_app by done. pose proof (slen_nonneg (String "{" (dec n))).
  rewrite (proj2 (Z.ltb_ge _ _)) by lia. rewrite slice_to_app.
  change (slice_from (String "{" (dec n)) 1) with (dec n).
  assert (Ht : TrimSuffix (dec n) "+" = dec n).
  { unfold TrimSuffix. destruct (HasSuffix (dec n) "+") eqn:E; [|done]. apply HasSuffix_spec in E.
    rewrite E, sall_app in Hd. by rewrite andb_false_r in Hd. }
  rewrite Ht, Atoi_dec by lia.
  by rewrite (proj2 (Z.ltb_ge n 0)), (proj2 (Z.ltb_ge (64 * 1024 * 1024) n)) by lia.
Qed.

Lemma next_literal n s : 0 <= n <= 64 * 1024 * 1024 →
  next (" {" +:+ dec n +:+ "}") s = (let '(x, s') := readLiteral n s in ((str_token <$> x, ""), s')).
Proof.
  intros Hn. unfold next, ImapParse.next.
  assert (Hf : ∃ f, parse_fuel (" {" +:+ dec n +:+ "}") = Datatypes.S f) by (by eexists). destruct Hf as [f ->].
  change (next_go (Datatypes.S f) (" {" +:+ dec n +:+ "}")) with (parseLiteral readLiteral ("{" +:+ dec n +:+ "}")).
  unfold parseLiteral. rewrite literal_size_print by done. done.
Qed.

(** C28: the parser reads back what a client writes: quoted strings of any
    bytes and lists of them nested to any depth, whatever follows, one at a
    time or to the end of the line, without touching the session. *)
Theorem parse_printed (l : list token) t r s : Forall printable l → printable t →
  next (print t +:+ r) s = ((Some t, r), s) ∧
  all readLiteral (print_list l) s = (Some l, s).
Proof.
  intros Hl Ht. split; [by apply next_print|]. apply (all_go_print l _ _ []); [done|by rewrite sapp_nil_r|].
  pose proof (print_list_length l). lia.
Qed.
End laws.

(** ** What a sequence set means *)

(** A number as a client writes it. *)
Inductive seq_num := Num (n : Z) | Star.
(** One number, or two in any order. *)
Inductive seq_item := One (a : seq_num) | Two (a b : seq_num).

Definition print_num (a : seq_num) : string := match a with Num n => dec n | Star => "*" end.
Definition print_item (i : seq_item) : string :=
  match i with One a => print_num a | Two a b => print_num a +:+ ":" +:+ print_num b end.

Definition num_ok (a : seq_num) : Prop := match a with Num n => 1 <= n < maxUint32 | Star => True end.
Definition item_ok (i : seq_item) : Prop := match i with One a => num_ok a | Two a b => num_ok a ∧ num_ok b end.

(** RFC 3501: the star is the largest number in use, and the order of the
    two ends does not matter. *)
Definition value (max : Z) (a : seq_num) : Z := match a with Num n => n | Star => max end.
Definition denotes (max : Z) (i : seq_item) (n : Z) : Prop :=
  match i with
  | One a => n = value max a
  | Two a b => value max a <= n <= value max b ∨ value max b <= n <= value max a
  end.

Definition num_code (a : seq_num) : Z := match a with Num n => n | Star => maxUint32 end.

Lemma parseSeqNum_print a : num_ok a → parseSeqNum (print_num a) = Some (num_code a).
Proof.
  destruct a as [n|]; [|done]. unfold num_ok, maxUint32. intros Hn. simpl. unfold parseSeqNum.
  destruct (String.eqb (dec n) "*") eqn:E.
  - apply String.eqb_eq in E. pose proof (dec_digits n ltac:(lia)) as Hd. by rewrite E in Hd.
  - rewrite ParseUint_dec by lia. by rewrite (proj2 (Z.eqb_neq n 0)) by lia.
Qed.

Lemma print_num_avoids c a : num_ok a → is_digit c = false → c ≠ "*"%char → avoids c (print_num a) = true.
Proof.
  destruct a as [n|]; simpl; intros Hn Hd Hc; [apply dec_avoids; [lia|done]|].
  rewrite avoids_cons. split; [congruence|done].
Qed.

Definition item_code (i : seq_item) : Z * Z :=
  match i with
  | One a => (num_code a, num_code a)
  | Two a b => if num_code b <? num_code a then (num_code b, num_code a) else (num_code a, num_code b)
  end.

Lemma parseSeqPart_print i : item_ok i → parseSeqPart (print_item i) = Some (item_code i).
Proof.
  unfold parseSeqPart. destruct i as [a|a b]; simpl.
  - intros Ha. pose proof (print_num_avoids ":" a Ha eq_refl ltac:(done)) as Hv.
    destruct (Cut (print_num a) ":") as [[lo hi] []] eqn:E.
    + apply Cut_found in E. rewrite E in Hv. apply avoids_app in Hv as [_ Hv]. done.
    + apply Cut_not_found in E as [-> _]. rewrite parseSeqNum_print by done. simpl.
      by rewrite Z.ltb_irrefl.
  - intros [Ha Hb]. change (":" +:+ print_num b) with (String ":" (print_num b)).
    rewrite Cut_byte by (by apply print_num_avoids). cbv beta iota. rewrite parseSeqNum_print by done.
    cbn [mbind option_bind]. by rewrite parseSeqNum_print.
Qed.

Lemma print_item_avoids i : item_ok i → avoids "," (print_item i) = true ∧ is_empty (print_item i) = false.
Proof.
  destruct i as [a|a b]; simpl.
  - intros Ha. split; [by apply print_num_avoids|]. destruct a; [|done]. apply dec_nonempty. simpl in Ha. lia.
  - intros [Ha Hb]. split; [|by destruct (print_num a)]. rewrite avoids_app, avoids_cons.
    split_and!; [by apply print_num_avoids|done|by apply print_num_avoids].
Qed.

Lemma resolve_code max a : num_ok a → resolve max (num_code a) = value max a.
Proof.
  destruct a as [n|]; unfold resolve; simpl; [|done]. intros Hn. by rewrite (proj2 (Z.eqb_neq _ _)) by lia.
Qed.

Lemma contains_item i n max : item_ok i → contains [item_code i] n max = true ↔ denotes max i n.
Proof.
  intros Hi. unfold contains, existsb. rewrite orb_false_r.
  assert (H : ∀ lo hi, (let '(lo, hi) := if hi <? lo then (hi, lo) else (lo, hi) in (lo <=? n) && (n <=? hi)) = true
    ↔ lo <= n <= hi ∨ hi <= n <= lo).
  { intros lo hi. destruct (hi <? lo) eqn:E; reflect_bool; rewrite andb_true_iff, !Z.leb_le; lia. }
  destruct i as [a|a b]; simpl in *.
  - rewrite !resolve_code, H by done. lia.
  - destruct Hi as [Ha Hb]. destruct (num_code b <? num_code a); rewrite !resolve_code, H by done; lia.
Qed.

Lemma contains_cons r set n max : contains (r :: set) n max = contains [r] n max || contains set n max.
Proof. unfold contains. cbn [existsb]. by rewrite orb_false_r. Qed.

Lemma seqset_spec items : Forall item_ok items → items ≠ [] →
  ∃ set, parseSeqSet (Join (print_item <$> items) ",") = Some set ∧
  ∀ n max, contains set n max = true ↔ ∃ i, i ∈ items ∧ denotes max i n.
Proof.
  intros Hok Hne. exists (item_code <$> items). split.
  - unfold parseSeqSet. assert (He : is_empty (Join (print_item <$> items) ",") = false).
    { destruct items as [|i [|j items]]; [done| |]; apply Forall_inv in Hok; apply print_item_avoids in Hok as [_ He];
        simpl; destruct (print_item i); done. }
    rewrite He. change "," with (String "," "") at 1. rewrite Split_Join.
    + clear Hne He. induction Hok as [|i items Hi Hok IH]; [done|]. rewrite fmap_cons. cbn [mapM].
      rewrite parseSeqPart_print by done. cbn [mbind option_bind]. by rewrite IH.
    + by destruct items.
    + apply Forall_fmap. eapply Forall_impl; [exact Hok|]. intros i Hi. by apply print_item_avoids.
  - intros n max. clear Hne. induction Hok as [|i items Hi Hok IH]; [split; [done|]; by intros (i&Hi%elem_of_nil&_)|].
    rewrite fmap_cons, contains_cons, orb_true_iff, contains_item, IH by done. split.
    + intros [Hd|(j&Hj&Hd)]; [by exists i; split; [constructor|]|by exists j; split; [constructor|]].
    + intros (j&[->|Hj]%elem_of_cons&Hd); [by left|right; by exists j].
Qed.

(** a sequence set as a client writes it is accepted and contains
    exactly the numbers RFC 3501 says, with the star for the largest number
    in use and the ends of a range in any order. *)
Theorem seqset_meaning items : Forall item_ok items → items ≠ [] →
  ∃ set, parseSeqSet (Join (print_item <$> items) ",") = Some set ∧
  ∀ n max, contains set n max = true ↔ ∃ i, i ∈ items ∧ denotes max i n.
Proof. apply seqset_spec. Qed.

(** ** Examples *)

Lemma parse_printed_witness :
  next (S := unit) (λ _, mret None) (print (list_token [str_token "\Seen"; list_token []]) +:+ " x") () =
    ((Some (list_token [str_token "\Seen"; list_token []]), " x"), ()) ∧
  all (S := unit) (λ _, mret None) (print_list [list_token [str_token "a"; list_token []]; str_token "b"]) () = (Some [list_token [str_token "a"; list_token []]; str_token "b"], ()).
Proof.
  split.
  - apply (parse_printed (S := unit) (λ _, mret None) []); [constructor|].
    repeat first [apply pr_list|apply pr_str|constructor].
  - apply (parse_printed (S := unit) (λ _, mret None) [list_token [str_token "a"; list_token []]; str_token "b"] (str_token "") "" ());
      repeat first [apply pr_list|apply pr_str|constructor].
Defined.

Lemma seqset_meaning_witness : ∃ set, parseSeqSet "3,*:7" = Some set ∧
  (contains set 5 6 = false ∧ contains set 6 6 = true ∧ contains set 3 6 = true) ∧
  (contains set 8 6 = true ↔ ∃ i, i ∈ [One (Num 3); Two Star (Num 7)] ∧ denotes 6 i 8).
Proof.
  destruct (seqset_meaning [One (Num 3); Two Star (Num 7)]) as (set&Hs&Hc).
  - repeat constructor; discriminate.
  - discriminate.
  - exists set. split; [exact Hs|]. split; [|apply Hc]. vm_compute in Hs. injection Hs as <-. vm_compute. done.
Defined.
