(* ===== verification/ImapFetch.v ===== *)
(** * IMAP: messages as a client sees them

    Models the part of [internal/imap/fetch.go] that does not talk to the
    client: the items of [FETCH], the sections of a body, the envelope and
    the body structure, and the criteria of [SEARCH].  A message is read
    when an item needs it; an error in reading it is an empty message, as
    in the code.  The parser of address lists and the location of the
    process are parameters. *)

From S2P Require Import Prelude GoStrings GoNum GoTime GoMail ImapParse Fs Maildir Mailbox.

(** ** Message numbers *)

(** The positions a sequence set selects; UIDs with [uidMode]. *)
Definition selected (ms : list Message) (set : seqSet) (uidMode : bool) : list nat :=
  let number m := if uidMode then UID m else Seq m in
  let max := if uidMode then match last ms with Some m => UID m | None => 0 end else u32 (llen ms) in
  (filter (λ im, contains set (number im.2) max = true) (imap (λ i m, (i, m)) ms)).*1.

(** ** Items *)

(** A depth of brackets and the item read so far; an item ends at a space
    outside brackets. *)
Fixpoint split_go (depth : Z) (cur s : string) : list string :=
  let finish := if is_empty cur then [] else [cur] in
  match s with
  | "" => finish
  | String c s =>
      if Ascii.eqb c "[" || Ascii.eqb c "(" then split_go (depth + 1) (cur +:+ String c "") s
      else if Ascii.eqb c "]" || Ascii.eqb c ")" then split_go (depth - 1) (cur +:+ String c "") s
      else if Ascii.eqb c " " && (depth =? 0) then finish ++ split_go depth "" s
      else split_go depth (cur +:+ String c "") s
  end.
Definition splitItems (spec : string) : list string :=
  split_go 0 "" (TrimSuffix (TrimPrefix (TrimSpace spec) "(") ")").

(** [strings.Index] and [strings.LastIndex] of a byte. *)
Definition fieldList (section : string) : list string :=
  let open := IndexByte section "(" in
  let close := LastIndexByte section ")" in
  if (open <? 0) || (close <=? open) then [] else
  (λ f, ToLower (Trim f (String DQUOTE ""))) <$> Fields (slice_from (slice_to section close) (open + 1)).

(** The lines kept, with the state of the field they belong to. *)
Fixpoint filter_lines (want : list string) (exclude keeping : bool) (lines : list string) : string :=
  match lines with
  | [] => ""
  | line :: lines =>
      let trimmed := TrimRight line CRLF in
      if is_empty trimmed then filter_lines want exclude keeping lines
      else if (match line with String c _ => is_blank c | "" => false end) then
        (if keeping then line else "") +:+ filter_lines want exclude keeping lines
      else
        let '(name, _, _) := Cut trimmed ":" in
        let keeping := negb (Bool.eqb (mem (ToLower (TrimSpace name)) want) exclude) in
        (if keeping then line else "") +:+ filter_lines want exclude keeping lines
  end.
Definition filterHeaders (data : string) (fields : list string) (exclude : bool) : string :=
  filter_lines fields exclude false (SplitAfter (headerOf data) LF) +:+ CRLF.

(** A section of a message that could be read. *)
Definition section_of (data section : string) : string :=
  let up := ToUpper (TrimSpace section) in
  if String.eqb up "" then data
  else if String.eqb up "HEADER" then headerOf data
  else if String.eqb up "TEXT" then bodyOf data
  else if HasPrefix up "HEADER.FIELDS.NOT" then filterHeaders data (fieldList section) true
  else if HasPrefix up "HEADER.FIELDS" then filterHeaders data (fieldList section) false
  else if String.eqb up "1" then bodyOf data
  else "".

Definition nil_or_quote (v : string) : string := if is_empty v then "NIL" else quote v.

Definition parseContentType (v : string) : string * gmap string string :=
  match GoStrings.Split v ";" with
  | [] => ("", ∅)
  | first :: parts =>
      (ToLower (TrimSpace first),
       foldl (λ params p,
         let '(k, val, ok) := Cut p "=" in
         if ok : bool then <[ToLower (TrimSpace k) := Trim (TrimSpace val) (String DQUOTE "")]> params
         else params) ∅ parts)
  end.

Definition flags_text (m : Message) : string :=
  "FLAGS (" +:+ Join (IMAPFlags (m_Flags m) (m_Recent m)) " " +:+ ")".

Section items.
Context (env : Env) (ParseAddressList : string → option (list Address)) (zone : Z → Z) (mb : Mailbox).

(** [data, _ := m.Read()] *)
Definition load (m : Message) : OS string :=
  r ← os_try (Read env mb m); mret (match r with Ok d => d | Err _ => "" end).

Definition internal_date (m : Message) : string :=
  "INTERNALDATE " +:+ quote (Format_date_time (zone (Internal m)) (Internal m)).
Definition size_text (m : Message) : string := "RFC822.SIZE " +:+ dec (m_Size m).

Definition section (m : Message) (sect : string) : OS string :=
  r ← os_try (Read env mb m);
  mret (match r with Ok data => section_of data sect | Err _ => "" end).

Definition address_text (a : Address) : string :=
  let '(loc, domain, _) := Cut (a_Address a) "@" in
  "(" +:+ nil_or_quote (a_Name a) +:+ " NIL " +:+ quote loc +:+ " " +:+ quote domain +:+ ")".

Definition addr_list (h : Header) (key : string) : string :=
  match AddressList ParseAddressList h key with
  | Some (_ :: _ as l) => "(" +:+ Join (address_text <$> l) "" +:+ ")"
  | _ => "NIL"
  end.

Definition or_from (from v : string) : string := if String.eqb v "NIL" then from else v.

Definition envelope_of (h : Header) : string :=
  let from := addr_list h "From" in
  "(" +:+ Join [nil_or_quote (Get h "Date"); nil_or_quote (Get h "Subject"); from;
                or_from from (addr_list h "Sender"); or_from from (addr_list h "Reply-To");
                addr_list h "To"; addr_list h "Cc"; addr_list h "Bcc";
                nil_or_quote (Get h "In-Reply-To"); nil_or_quote (Get h "Message-ID")] " " +:+ ")".

Definition envelope (m : Message) : OS string :=
  r ← os_try (Read env mb m);
  mret (match r with
        | Ok data => match ReadMessage data with Some h => envelope_of h | None => "NIL" end
        | Err _ => "NIL"
        end).

(** Type, subtype, character set and encoding of a message. *)
Definition content_type (data : string) : string * string * string * string :=
  match ReadMessage data with
  | None => ("TEXT", "PLAIN", "US-ASCII", "7BIT")
  | Some h =>
      let '(ctype, subtype, charset) :=
        let ct := Get h "Content-Type" in
        if is_empty ct then ("TEXT", "PLAIN", "US-ASCII") else
        let '(mediaType, params) := parseContentType ct in
        let '(t, s, ok) := Cut mediaType "/" in
        let '(t, s) := if ok : bool then (ToUpper t, ToUpper s) else ("TEXT", "PLAIN") in
        (t, s, match params !! "charset" with Some cs => ToUpper cs | None => "US-ASCII" end) in
      let e := Get h "Content-Transfer-Encoding" in
      (ctype, subtype, charset, if is_empty e then "7BIT" else ToUpper (TrimSpace e))
  end.

Definition bodyStructure_of (data : string) : string :=
  let '(ctype, subtype, charset, encoding) := content_type data in
  let body := bodyOf data in
  "(" +:+ quote ctype +:+ " " +:+ quote subtype +:+ " (" +:+ quote "CHARSET" +:+ " " +:+ quote charset +:+
  ") NIL NIL " +:+ quote encoding +:+ " " +:+ dec (slen body) +:+ " " +:+ dec (CountByte body LF) +:+ ")".

Definition bodyStructure (m : Message) : OS string :=
  r ← os_try (Read env mb m);
  mret (match r with Ok data => bodyStructure_of data | Err _ => "NIL" end).

(** What one item adds, whether it marks the message as seen and whether
    it asks for the UID. *)
Record rendered := MkRendered { r_out : list string; r_seen : bool; r_uid : bool }.

(** [item[n : len(item)-1]]; [None] is a panic. *)
Definition cut_section (item : string) (n : Z) : option string :=
  if slen item - 1 <? n then None else Some (slice_from (slice_to item (slen item - 1)) n).

Definition body_section (m : Message) (item prefix : string) (seen : bool) : OS (option rendered) :=
  match cut_section item (slen prefix) with
  | None => mret None
  | Some sect =>
      data ← section m sect;
      mret (Some (MkRendered ["BODY[" +:+ sect +:+ "] " +:+ literal data] seen false))
  end.

Definition fetch_item (m : Message) (item : string) : OS (option rendered) :=
  let up := ToUpper item in
  let one s : OS (option rendered) := mret (Some (MkRendered [s] false false)) in
  if String.eqb up "ALL" || String.eqb up "FAST" || String.eqb up "FULL" then
    e ← (if String.eqb up "FAST" then mret [] else e ← envelope m; mret ["ENVELOPE " +:+ e]);
    b ← (if String.eqb up "FULL" then b ← bodyStructure m; mret ["BODY " +:+ b] else mret []);
    mret (Some (MkRendered ([flags_text m; internal_date m; size_text m] ++ e ++ b) false false))
  else if String.eqb up "UID" then mret (Some (MkRendered [] false true))
  else if String.eqb up "FLAGS" then one (flags_text m)
  else if String.eqb up "INTERNALDATE" then one (internal_date m)
  else if String.eqb up "RFC822.SIZE" then one (size_text m)
  else if String.eqb up "ENVELOPE" then e ← envelope m; one ("ENVELOPE " +:+ e)
  else if String.eqb up "BODYSTRUCTURE" then b ← bodyStructure m; one ("BODYSTRUCTURE " +:+ b)
  else if String.eqb up "BODY" then b ← bodyStructure m; one ("BODY " +:+ b)
  else if String.eqb up "RFC822" then
    data ← load m; mret (Some (MkRendered ["RFC822 " +:+ literal data] true false))
  else if String.eqb up "RFC822.HEADER" then
    data ← load m; one ("RFC822.HEADER " +:+ literal (headerOf data))
  else if String.eqb up "RFC822.TEXT" then
    data ← load m; mret (Some (MkRendered ["RFC822.TEXT " +:+ literal (bodyOf data)] true false))
  else if HasPrefix up "BODY.PEEK[" then body_section m item "BODY.PEEK[" false
  else if HasPrefix up "BODY[" then body_section m item "BODY[" true
  else mret (Some (MkRendered [] false false)).

Fixpoint fetch_items (m : Message) (items : list string) : OS (option rendered) :=
  match items with
  | [] => mret (Some (MkRendered [] false false))
  | item :: items =>
      x ← fetch_item m item;
      match x with
      | None => mret None
      | Some x =>
          y ← fetch_items m items;
          mret (match y with
                | None => None
                | Some y => Some (MkRendered (r_out x ++ r_out y) (r_seen x || r_seen y) (r_uid x || r_uid y))
                end)
      end
  end.

(** The rendered items and whether the message is marked as seen; [None]
    is a panic. *)
Definition fetchItems (m : Message) (spec : string) (uidMode : bool) : OS (option (list string * bool)) :=
  x ← fetch_items m (splitItems spec);
  mret (match x with
        | None => None
        | Some x => Some (r_out x ++ (if uidMode || r_uid x then ["UID " +:+ dec (UID m)] else []), r_seen x)
        end).

(** ** [SEARCH] *)

Definition containsHeader (data name value : string) : bool :=
  match ReadMessage data with
  | None => false
  | Some h =>
      let got := Get h name in
      if is_empty value then negb (is_empty got) else Contains (ToLower got) (ToLower value)
  end.

Definition sameDay (a b : Z) : bool := bool_decide (Date (zone a) a = Date 0 b).

(** [n, _ := strconv.ParseInt(s, 10, 64)]: zero for a malformed number,
    the nearest one for a number out of range. *)
Definition ParseInt_value (s : string) : Z :=
  match ParseInt s with
  | Some n => n
  | None =>
      let '(neg, body) :=
        match s with String "+" r => (false, r) | String "-" r => (true, r) | _ => (false, s) end in
      if is_empty body then 0 else
      match digits_val 0 body with
      | Some _ => if neg : bool then min_int64 else max_int64
      | None => 0
      end
  end.

(** The arguments a criterion takes. *)
Definition arity (key : string) : nat :=
  if mem key ["FROM"; "TO"; "CC"; "BCC"; "SUBJECT"; "BODY"; "TEXT"; "LARGER"; "SMALLER"; "BEFORE"; "SINCE";
              "ON"; "UID"; "NOT"] then 1
  else if String.eqb key "HEADER" then 2 else 0.

(** [load()] keeps what it read. *)
Definition load_once (m : Message) (data : option string) : OS (string * option string) :=
  match data with
  | Some d => mret (d, Some d)
  | None =>
      r ← os_try (Read env mb m);
      mret (match r with Ok d => (d, Some d) | Err _ => ("", None) end)
  end.

(** A test of what was read. *)
Definition on_data (m : Message) (data : option string) (f : string → bool) : OS (bool * option string) :=
  x ← load_once m data; mret (f x.1, x.2).

(** One criterion with its first two arguments; [neg] evaluates the
    argument of [NOT]. *)
Definition criterion (neg : token → OS bool) (m : Message) (data : option string) (c : token) (rest : list token)
    : OS (bool * option string) :=
  let key := upper c in
  let arg := match rest with t :: _ => t_str t | [] => "" end in
  let arg2 := match rest with _ :: t :: _ => t_str t | _ => "" end in
  let flag f b : OS (bool * option string) := mret (Bool.eqb (Has (m_Flags m) f) b, data) in
  let pure b : OS (bool * option string) := mret (b, data) in
  if String.eqb key "ALL" then pure true
  else if String.eqb key "ANSWERED" then flag FlagAnswered true
  else if String.eqb key "UNANSWERED" then flag FlagAnswered false
  else if String.eqb key "DELETED" then flag FlagDeleted true
  else if String.eqb key "UNDELETED" then flag FlagDeleted false
  else if String.eqb key "DRAFT" then flag FlagDraft true
  else if String.eqb key "UNDRAFT" then flag FlagDraft false
  else if String.eqb key "FLAGGED" then flag FlagFlagged true
  else if String.eqb key "UNFLAGGED" then flag FlagFlagged false
  else if String.eqb key "SEEN" then flag FlagSeen true
  else if String.eqb key "UNSEEN" then flag FlagSeen false
  else if String.eqb key "NEW" then pure (m_Recent m && negb (Has (m_Flags m) FlagSeen))
  else if String.eqb key "OLD" then pure (negb (m_Recent m))
  else if String.eqb key "RECENT" then pure (m_Recent m)
  else if mem key ["FROM"; "TO"; "CC"; "BCC"; "SUBJECT"] then on_data m data (λ d, containsHeader d key arg)
  else if String.eqb key "HEADER" then on_data m data (λ d, containsHeader d arg arg2)
  else if String.eqb key "BODY" then on_data m data (λ d, Contains (ToLower (bodyOf d)) (ToLower arg))
  else if String.eqb key "TEXT" then on_data m data (λ d, Contains (ToLower d) (ToLower arg))
  else if String.eqb key "LARGER" then pure (ParseInt_value arg <? m_Size m)
  else if String.eqb key "SMALLER" then pure (m_Size m <? ParseInt_value arg)
  else if mem key ["BEFORE"; "SINCE"; "ON"] then
    pure (match Parse_date (Trim arg (String DQUOTE "")) with
          | None => false
          | Some d =>
              let mt := truncate_day (Internal m) in
              if String.eqb key "BEFORE" then mt <? d
              else if String.eqb key "SINCE" then negb (mt <? d)
              else sameDay (Internal m) d
          end)
  else if String.eqb key "UID" then
    pure (match parseSeqSet arg with
          | None => false
          | Some set => contains set (UID m) (match last (messages mb) with Some l => UID l | None => 0 end)
          end)
  else if String.eqb key "NOT" then
    match rest with
    | t :: _ => b ← neg t; mret (negb b, data)
    | [] => pure true
    end
  else pure (match parseSeqSet (t_str c) with
             | Some set => contains set (Seq m) (u32 (Count mb))
             | None => true
             end).

(** A criterion alone: a [NOT] has nothing to negate. *)
Definition matches_one (m : Message) (c : token) : OS bool :=
  x ← criterion (λ _, mret true) m None c []; mret x.1.

(** The criteria of a list, up to the first that fails. *)
Fixpoint matches (m : Message) (data : option string) (crit : list token) : OS bool :=
  match crit with
  | [] => mret true
  | c :: rest =>
      x ← criterion (matches_one m) m data c rest;
      if (x.1 : bool) then
        match arity (upper c), rest with
        | O, _ => matches m x.2 rest
        | 1%nat, _ :: rest => matches m x.2 rest
        | _, _ :: _ :: rest => matches m x.2 rest
        | _, _ => mret true
        end
      else mret false
  end.

(** The positions of the messages that match. *)
Fixpoint search_go (crit : list token) (ims : list (nat * Message)) : OS (list nat) :=
  match ims with
  | [] => mret []
  | (i, m) :: ims =>
      b ← matches m None crit;
      rest ← search_go crit ims;
      mret (if b : bool then i :: rest else rest)
  end.
Definition search (crit : list token) : OS (list nat) :=
  search_go crit (imap (λ i m, (i, m)) (messages mb)).
End items.

(** ** The messages a set selects *)

Lemma elem_of_imap_pair {X} (ms : list X) k im :
  im ∈ imap (λ i m, (i + k, m)%nat) ms ↔ (k <= im.1)%nat ∧ ms !! (im.1 - k)%nat = Some im.2.
Proof.
  rewrite list_elem_of_lookup. split.
  - intros (j&Hj). rewrite list_lookup_imap in Hj. destruct (ms !! j) as [m|] eqn:E; [|done].
    injection Hj as <-. simpl. replace (j + k - k)%nat with j by lia. split; [lia|done].
  - intros [Hk Hm]. exists (im.1 - k)%nat. rewrite list_lookup_imap, Hm. simpl. destruct im. simpl in *. do 2 f_equal. lia.
Qed.

Definition set_max (ms : list Message) (uidMode : bool) : Z :=
  if uidMode then match last ms with Some m => UID m | None => 0 end else u32 (llen ms).
Definition number (uidMode : bool) (m : Message) : Z := if uidMode then UID m else Seq m.

Lemma selected_elem ms set u i :
  i ∈ selected ms set u ↔ ∃ m, ms !! i = Some m ∧ contains set (number u m) (set_max ms u) = true.
Proof.
  unfold selected. rewrite list_elem_of_fmap. split.
  - intros ([j m]&->&[Hc Hin]%list_elem_of_filter). exists m. split; [|done].
    assert (H : (j, m) ∈ imap (λ i m, (i + 0, m)%nat) ms)
      by (erewrite imap_ext; [exact Hin|]; intros; simpl; by rewrite Nat.add_0_r).
    apply elem_of_imap_pair in H as [_ H]. simpl in H. by rewrite Nat.sub_0_r in H.
  - intros (m&Hm&Hc). exists (i, m). split; [done|]. apply list_elem_of_filter. split; [done|].
    assert (H : (i, m) ∈ imap (λ i m, (i + 0, m)%nat) ms)
      by (apply elem_of_imap_pair; simpl; rewrite Nat.sub_0_r; split; [lia|done]).
    erewrite imap_ext in H; [exact H|]. intros; simpl; by rewrite Nat.add_0_r.
Qed.

Lemma imap_pair_NoDup {X} (ms : list X) : NoDup (imap (λ i m, (i, m)) ms).*1.
Proof.
  rewrite fmap_imap. apply NoDup_alt. intros i j x Hi Hj.
  rewrite list_lookup_imap in Hi, Hj. destruct (ms !! i), (ms !! j); simpl in *; congruence.
Qed.

Lemma NoDup_fst_filter {X Y} (P : X * Y → Prop) `{∀ x, Decision (P x)} (l : list (X * Y)) :
  NoDup l.*1 → NoDup (filter P l).*1.
Proof.
  induction l as [|[x y] l IH]; [done|]. rewrite fmap_cons. intros [Hn Hd]%NoDup_cons. rewrite filter_cons.
  case_decide; [|auto]. rewrite fmap_cons. constructor; [|auto]. intros (z&Hz&[_ Hin]%list_elem_of_filter)%list_elem_of_fmap.
  apply Hn, list_elem_of_fmap. by exists z.
Qed.

Lemma selected_NoDup ms set u : NoDup (selected ms set u).
Proof. apply NoDup_fst_filter, imap_pair_NoDup. Qed.

(** ** Reading changes nothing *)

Definition with_tick (n : nat) (w : World) : World := MkWorld (w_files w) (w_dirs w) n (w_seq w) (w_host w).

(** A call that leaves the files alone and does not fail. *)
Definition looks {R} (m : OS R) : Prop := ∀ w, ∃ a n, m w = (Ok a, with_tick n w).

Lemma looks_ret {R} (a : R) : looks (mret (M := OS) a).
Proof. intros w. exists a, (w_tick w). by destruct w. Qed.

Lemma looks_bind {R R'} (m : OS R) (f : R → OS R') : looks m → (∀ a, looks (f a)) → looks (m ≫= f).
Proof.
  intros Hm Hf w. unfold mbind, OS_bind. destruct (Hm w) as (a&n&->).
  destruct (Hf a (with_tick n w)) as (b&n'&->). by exists b, n'.
Qed.

Lemma Read_world env mb m w : (Read env mb m w).2 = with_tick (S (w_tick w)) w.
Proof.
  unfold Read, ReadFile, fallible. destruct (e_fail env (w_tick w)); [done|]. cbn [w_files tick].
  by destruct (w_files w !! _).
Qed.

Lemma looks_Read env mb m : looks (os_try (Read env mb m)).
Proof.
  intros w. unfold os_try. pose proof (Read_world env mb m w) as Hr.
  destruct (Read env mb m w) as [r w']. simpl in Hr. subst w'. by do 2 eexists.
Qed.

Create HintDb looks discriminated.
#[export] Hint Resolve looks_ret looks_Read : looks.
Ltac look := repeat lazymatch goal with
  | |- looks (mbind _ _) => apply looks_bind; [|intros ?]
  | |- looks (if ?b then _ else _) => destruct b
  | |- looks (match ?x with _ => _ end) => destruct x
  | |- looks _ => solve [auto with looks]
  end.

Section looking.
Context (env : Env) (ParseAddressList : string → option (list Address)) (zone : Z → Z) (mb : Mailbox).

Lemma looks_fetch_item m item : looks (fetch_item env ParseAddressList zone mb m item).
Proof. unfold fetch_item, envelope, bodyStructure, load, body_section, section. cbv zeta. look. Qed.

Lemma looks_fetch_items m items : looks (fetch_items env ParseAddressList zone mb m items).
Proof.
  induction items as [|item items IH]; cbn [fetch_items]; [look|]. apply looks_bind; [apply looks_fetch_item|].
  intros [x|]; [|look]. apply looks_bind; [done|]. intros y. look.
Qed.

Lemma looks_fetchItems m spec uidMode : looks (fetchItems env ParseAddressList zone mb m spec uidMode).
Proof. unfold fetchItems. apply looks_bind; [apply looks_fetch_items|]. intros x. look. Qed.

Lemma looks_criterion neg m data c rest : (∀ t, looks (neg t)) → looks (criterion env zone mb neg m data c rest).
Proof. intros Hn. unfold criterion, on_data, load_once. cbv zeta. look; apply Hn. Qed.

Lemma looks_matches m crit : ∀ data, looks (matches env zone mb m data crit).
Proof.
  assert (H1 : ∀ t, looks (matches_one env zone mb m t)).
  { intros t. apply looks_bind; [apply looks_criterion; intros; look|]. intros x. look. }
  induction crit as [crit IH] using (induction_ltof1 _ (@length token)); intros data; unfold ltof in IH.
  destruct crit as [|c rest]; cbn [matches]; [look|]. apply looks_bind; [by apply looks_criterion|].
  intros [[] d]; cbn [fst snd]; [|look]. destruct (arity (upper c)) as [|[|n]].
  - apply IH. simpl. lia.
  - destruct rest as [|t rest]; [look|]. apply IH. simpl. lia.
  - destruct rest as [|t [|t' rest]]; [look..|]. apply IH. simpl. lia.
Qed.

Lemma looks_search crit : looks (search env zone mb crit).
Proof.
  unfold search. induction (imap _ _) as [|[i m] ims IH]; cbn [search_go]; [look|].
  apply looks_bind; [apply looks_matches|]. intros b. apply looks_bind; [done|]. intros rest. look.
Qed.
End looking.

#[export] Hint Resolve looks_fetchItems looks_search : looks.
