(* ===== verification/Imap.v ===== *)
(** * IMAP: the session

    Models [internal/imap/session.go], the commands of
    [internal/imap/fetch.go] and the admission of connections in
    [internal/imap/server.go], over the mailbox of [Mailbox] and the files
    of [Fs].  As in the other sessions the settings are loaded at every use
    from an arbitrary sequence, and a session runs against the bytes its
    client is going to send.  Whatever other processes do to the files
    happens between two commands and between two polls of [IDLE].  An
    [IDLE] takes a number of polls and may then expire; both come from an
    arbitrary sequence.  When it expires, the goroutine that waits for
    [DONE] is still there: the model lets it take the next line, which is
    what it does unless the two readers race.  A slice out of range panics,
    which ends the process: the session logs it and stops.  Log lines,
    deadlines and the size of the output buffer are not modelled. *)

From S2P Require Import Prelude GoStrings GoNum GoBase64 GoNet GoTime GoMail GoIO Session Fs Maildir Mailbox.
From S2P Require Import ImapParse ImapFetch.

Definition maxLine : Z := 8192.

Inductive state := stateNotAuthenticated | stateAuthenticated | stateSelected.

#[global] Instance state_eq_dec : EqDecision state.
Proof. solve_decision. Defined.

Record Settings := MkSettings {
  set_Hostname : string;
  set_TLS : bool;
  set_ImplicitTLS : bool;
  set_MaxSize : Z;
}.

(** The backend: a state and what becomes of it when credentials are
    checked; the answer is the root of the account's mailboxes. *)
Definition Backend (A : Type) : Type := string → string → string → A → result path * A.

(** The protocol state of [session]. *)
Record Trans := MkTrans {
  st : state;
  tls : bool;
  user : string;
  s_root : path;
  mbox : option Mailbox;
  readOnly : bool;
}.

(** A check of credentials, and over which channel it was made; a panic. *)
Inductive event :=
  | EvAuth (user pass : string) (tls : bool) (answer : result path)
  | EvPanic.

Record session (A : Type) := MkSession {
  ip : string;
  conn : Conn;
  tr : Trans;
  n_sets : nat;
  n_turn : nat;
  backend : A;
  world : World;
  log : list event;
}.
Arguments MkSession {A}.
Arguments ip {A}.
Arguments conn {A}.
Arguments tr {A}.
Arguments n_sets {A}.
Arguments n_turn {A}.
Arguments backend {A}.
Arguments world {A}.
Arguments log {A}.

#[global] Program Instance session_channel {A} : Channel (session A) := {|
  channel := conn;
  set_channel c s := MkSession (ip s) c (tr s) (n_sets s) (n_turn s) (backend s) (world s) (log s);
|}.
Next Obligation. done. Qed.

(** A computation of a session. *)
Abbreviation M A := (St (session A)).

(** ** Changes of the protocol state *)

Definition set_mbox (t : Trans) (mb : Mailbox) : Trans :=
  MkTrans (st t) (tls t) (user t) (s_root t) (Some mb) (readOnly t).
Definition unselected (t : Trans) : Trans :=
  MkTrans stateAuthenticated (tls t) (user t) (s_root t) None (readOnly t).

(** The messages of the mailbox in use, [s.mbox.Messages()]. *)
Definition msgs (t : Trans) : list Message :=
  match mbox t with Some mb => messages mb | None => [] end.

(** ** Names *)

Definition normalizeMailbox (name : string) : string :=
  let name := TrimSpace name in
  if EqualFold name Inbox then Inbox else Trim name ".".

(** A star stands for any text, a percent sign for text without the
    delimiter.  The loops of the code try the ends of the text in turn. *)
Fixpoint wildcard (pat s : string) : bool :=
  match pat with
  | "" => is_empty s
  | String c pat' =>
      if Ascii.eqb c "*" then
        is_empty pat' ||
        (fix try (s : string) : bool :=
           wildcard pat' s || match s with String _ s => try s | "" => false end) s
      else if Ascii.eqb c "%" then
        (fix try (s : string) : bool :=
           wildcard pat' s ||
           match s with String d s => negb (Ascii.eqb d ".") && try s | "" => false end) s
      else match s with String d s => Ascii.eqb d c && wildcard pat' s | "" => false end
  end.

Definition matchPattern (pattern name : string) : bool :=
  if is_empty pattern then is_empty name
  else EqualFold pattern name || wildcard pattern name.

Definition looksLikeDate (s : string) : bool :=
  (20 <=? slen s) && (2 <=? CountByte s "-") && Contains s ":".

(** ** Flags of [STORE] *)

Section flags.
Context `{SliceSort}.

Definition wanted_flags (names : list string) : Flags :=
  foldl (λ f name, match FlagFromIMAP name with Some x => Add f x | None => f end) [] names.

Definition flag_names (t : token) : list string :=
  if t_isList t then t_str <$> t_list t else [t_str t].

(** [None]: an unknown operation. *)
Definition store_flags (op : string) (cur wanted : Flags) : option Flags :=
  if String.eqb op "FLAGS" then Some wanted
  else if String.eqb op "+FLAGS" then Some (foldl Add cur wanted)
  else if String.eqb op "-FLAGS" then Some (foldl remove_flag cur wanted)
  else None.
End flags.

Section session.
Context `{SliceSort} {A : Type} (env : Env) (Authenticate : Backend A) (sets : nat → Settings)
  (others : nat → World → World) (idle : nat → nat * bool)
  (ParseAddressList : string → option (list Address)) (zone : Z → Z).

(** ** State access *)

Definition get_tr : M A Trans := λ s, (tr s, s).
Definition put_tr (t : Trans) : M A unit := λ s,
  (tt, MkSession (ip s) (conn s) t (n_sets s) (n_turn s) (backend s) (world s) (log s)).

Definition set : M A Settings := λ s,
  (sets (n_sets s),
   MkSession (ip s) (conn s) (tr s) (S (n_sets s)) (n_turn s) (backend s) (world s) (log s)).

(** A call of the operating system. *)
Definition os {R} (m : OS R) : M A (result R) := λ s,
  let '(r, w) := m (world s) in
  (r, MkSession (ip s) (conn s) (tr s) (n_sets s) (n_turn s) (backend s) w (log s)).

(** The work of the other processes between two commands or polls. *)
Definition interfere : M A unit := λ s,
  (tt, MkSession (ip s) (conn s) (tr s) (n_sets s) (S (n_turn s)) (backend s)
         (others (n_turn s) (world s)) (log s)).

(** How many times [IDLE] polls, and whether it then expires. *)
Definition idle_window : M A (nat * bool) := λ s, (idle (n_turn s), s).

Definition check_credentials (u p : string) : M A (result path) := λ s,
  let '(r, b) := Authenticate u p (ip s) (backend s) in
  (r, MkSession (ip s) (conn s) (tr s) (n_sets s) (n_turn s) b (world s)
        (log s ++ [EvAuth u p (tls (tr s)) r])).

Definition panic : M A unit := λ s,
  (tt, MkSession (ip s) (conn s) (tr s) (n_sets s) (n_turn s) (backend s) (world s) (log s ++ [EvPanic])).

(** One line, or several, flushed; [true] is a failure. *)
Definition out (line : string) : M A bool := send_lines [line].
Fixpoint outs (lines : list string) : M A unit :=
  match lines with [] => mret tt | l :: lines => out l;; outs lines end.

(** What [raw] collected, and [flush]. *)
Definition flush_raw (lines : list string) : M A bool :=
  match lines with [] => mret false | _ => send_lines lines end.

Definition readLine : M A (option string) := read_limited maxLine.

(** [io.ReadFull]: at the end of the input everything is read. *)
Definition read_full (n : Z) : M A (option string) :=
  c ← get_conn;
  if slen (c_in c) <? n then put_conn (MkConn "" (c_tls c) (c_writes c) (c_out c));; mret None
  else put_conn (MkConn (slice_from (c_in c) n) (c_tls c) (c_writes c) (c_out c));;
       mret (Some (slice_to (c_in c) n)).

Definition readLiteral (n : Z) : M A (option string) :=
  set ← set;
  if set_MaxSize set <? n then mret None else
  failed ← out "+ ready for literal";
  if (failed : bool) then mret None else read_full n.

Definition next (p : string) : M A (option token * string) := ImapParse.next readLiteral p.
Definition all (p : string) : M A (option (list token)) := ImapParse.all readLiteral p.

Definition capabilities : M A string :=
  set ← set;
  t ← get_tr;
  mret (Join (["IMAP4rev1"; "IDLE"; "UIDPLUS"; "MOVE"; "NAMESPACE"; "CHILDREN"]
    ++ (if negb (tls t) && set_TLS set then ["STARTTLS"] else [])
    ++ (if negb (tls t) then ["LOGINDISABLED"]
        else if decide (st t = stateNotAuthenticated) then ["AUTH=PLAIN"; "AUTH=LOGIN"] else [])) " ").

Definition requireAuth (tag : string) (m : M A unit) : M A unit :=
  t ← get_tr;
  if decide (st t = stateNotAuthenticated) then out (tag +:+ " NO not authenticated");; mret tt else m.

(** [default] is the answer of a command that was not run. *)
Definition requireSelected {R} (tag : string) (default : R) (m : M A R) : M A R :=
  t ← get_tr;
  if decide (st t = stateSelected) then m else out (tag +:+ " NO no mailbox selected");; mret default.

(** An operation on the mailbox in use, which changes in place. *)
Definition on_mbox {R} (default : R) (f : Mailbox → OS (Mailbox * R)) : M A R :=
  t ← get_tr;
  match mbox t with
  | None => mret default
  | Some mb =>
      r ← os (f mb);
      match r with
      | Ok (mb, x) => put_tr (set_mbox t mb);; mret x
      | Err _ => mret default
      end
  end.

Definition refresh : M A (option error) := on_mbox None (Refresh env).
Definition set_flags (i : nat) (f : Flags) : M A (option error) :=
  on_mbox None (λ mb, SetFlags env mb i f).
Definition expunge : M A (result (list Z)) := on_mbox (Ok []) (Expunge env).

(** The message at a position of the mailbox in use. *)
Definition message_at (i : nat) : M A (option (Mailbox * Message)) :=
  t ← get_tr;
  mret (match mbox t with
        | Some mb => match messages mb !! i with Some m => Some (mb, m) | None => None end
        | None => None
        end).

Definition openMailbox (name : string) : M A (result Mailbox) :=
  t ← get_tr; os (OpenMailbox env (s_root t) (normalizeMailbox name)).

(** ** Commands in any state *)

Definition pollAndReport : M A unit :=
  t ← get_tr;
  match mbox t with
  | None => mret tt
  | Some before =>
      e ← refresh;
      match e with
      | Some _ => mret tt
      | None =>
          t ← get_tr;
          match mbox t with
          | Some mb =>
              if Count mb =? Count before then mret tt
              else out ("* " +:+ dec (Count mb) +:+ " EXISTS");;
                   out ("* " +:+ dec (Recent mb) +:+ " RECENT");; mret tt
          | None => mret tt
          end
      end
  end.

Definition cmdNoop (tag : string) : M A unit :=
  t ← get_tr;
  (if decide (st t = stateSelected) then pollAndReport else mret tt);;
  out (tag +:+ " OK NOOP completed");; mret tt.

Definition cmdStartTLS (tag : string) : M A bool :=
  set ← set;
  t ← get_tr;
  if negb (set_TLS set) then out (tag +:+ " NO TLS not available");; mret false
  else if tls t then out (tag +:+ " BAD already in TLS");; mret false
  else
    failed ← out (tag +:+ " OK begin TLS negotiation");
    if (failed : bool) then mret true else
    c ← get_conn;
    match c_tls c with
    | None => mret true
    | Some bytes =>
        put_conn (MkConn bytes None (c_writes c) (c_out c));;
        put_tr (MkTrans (st t) true (user t) (s_root t) (mbox t) (readOnly t));;
        mret false
    end.

Definition authenticate (tag u p : string) : M A unit :=
  r ← check_credentials u p;
  match r with
  | Err _ => out (tag +:+ " NO [AUTHENTICATIONFAILED] authentication failed");; mret tt
  | Ok root =>
      t ← get_tr;
      put_tr (MkTrans stateAuthenticated (tls t) (ToLower u) root (mbox t) (readOnly t));;
      caps ← capabilities;
      out (tag +:+ " OK [CAPABILITY " +:+ caps +:+ "] LOGIN completed");; mret tt
  end.

Definition cmdLogin (tag p : string) : M A unit :=
  t ← get_tr;
  if negb (tls t) then out (tag +:+ " NO [PRIVACYREQUIRED] STARTTLS required before LOGIN");; mret tt
  else if decide (st t ≠ stateNotAuthenticated) then out (tag +:+ " BAD already authenticated");; mret tt
  else
    '(u, p) ← next p;
    '(pw, _) ← next p;
    match u, pw with
    | Some u, Some pw => authenticate tag (t_str u) (t_str pw)
    | _, _ => out (tag +:+ " BAD LOGIN needs a username and a password");; mret tt
    end.

(** A response of the client; [None] when there is none to use. *)
Definition readResp (tag prompt : string) : M A (option string) :=
  failed ← out ("+ " +:+ prompt);
  if (failed : bool) then mret None else
  line ← readLine;
  match line with
  | None => out (tag +:+ " BAD authentication cancelled");; mret None
  | Some line =>
      if String.eqb line "*" then out (tag +:+ " BAD authentication cancelled");; mret None
      else match DecodeString (TrimSpace line) with
           | None => out (tag +:+ " BAD invalid base64");; mret None
           | Some raw => mret (Some raw)
           end
  end.

Definition NUL : ascii := byte 0.

(** The three parts of a [PLAIN] response. *)
Definition finish_plain (tag resp : string) : M A unit :=
  match GoStrings.Split resp NUL with
  | [_; u; p] =>
      if is_empty u then out (tag +:+ " BAD invalid PLAIN response");; mret tt else authenticate tag u p
  | _ => out (tag +:+ " BAD invalid PLAIN response");; mret tt
  end.

Definition authPlain (tag p : string) : M A unit :=
  '(ir, _) ← next p;
  let ask := r ← readResp tag "";
             match r with Some resp => finish_plain tag resp | None => mret tt end in
  match ir with
  | Some ir =>
      if String.eqb (t_str ir) "=" then ask
      else match DecodeString (t_str ir) with
           | None => out (tag +:+ " BAD invalid base64");; mret tt
           | Some raw => finish_plain tag raw
           end
  | None => ask
  end.

Definition authLogin (tag : string) : M A unit :=
  u ← readResp tag "VXNlcm5hbWU6";
  match u with
  | None => mret tt
  | Some u =>
      p ← readResp tag "UGFzc3dvcmQ6";
      match p with None => mret tt | Some p => authenticate tag u p end
  end.

Definition cmdAuthenticate (tag p : string) : M A unit :=
  t ← get_tr;
  if negb (tls t) then out (tag +:+ " NO [PRIVACYREQUIRED] STARTTLS required before AUTHENTICATE");; mret tt
  else if decide (st t ≠ stateNotAuthenticated) then out (tag +:+ " BAD already authenticated");; mret tt
  else
    '(mech, p) ← next p;
    match mech with
    | None => out (tag +:+ " BAD AUTHENTICATE needs a mechanism");; mret tt
    | Some mech =>
        if String.eqb (upper mech) "PLAIN" then authPlain tag p
        else if String.eqb (upper mech) "LOGIN" then authLogin tag
        else out (tag +:+ " NO unsupported authentication mechanism");; mret tt
    end.

(** ** Mailboxes *)

Definition select_lines (mb : Mailbox) (examine : bool) : list string :=
  ["* " +:+ dec (Count mb) +:+ " EXISTS"; "* " +:+ dec (Recent mb) +:+ " RECENT"]
  ++ (if 0 <? FirstUnseen mb then ["* OK [UNSEEN " +:+ dec (FirstUnseen mb) +:+ "] first unseen message"] else [])
  ++ ["* FLAGS (\Answered \Flagged \Deleted \Seen \Draft)";
      if examine then "* OK [PERMANENTFLAGS ()] read-only mailbox"
      else "* OK [PERMANENTFLAGS (\Answered \Flagged \Deleted \Seen \Draft)] limited";
      "* OK [UIDVALIDITY " +:+ dec (uidValidity mb) +:+ "] UIDs valid";
      "* OK [UIDNEXT " +:+ dec (uidNext mb) +:+ "] predicted next UID"].

Definition cmdSelect (tag p : string) (examine : bool) : M A unit := requireAuth tag (
  let name := if examine then "EXAMINE" else "SELECT" in
  '(n, _) ← next p;
  match n with
  | None => out (tag +:+ " BAD " +:+ name +:+ " needs a mailbox name");; mret tt
  | Some n =>
      mb ← openMailbox (t_str n);
      match mb with
      | Err _ => out (tag +:+ " NO mailbox does not exist");; mret tt
      | Ok mb =>
          t ← get_tr;
          put_tr (MkTrans stateSelected (tls t) (user t) (s_root t) (Some mb) examine);;
          outs (select_lines mb examine);;
          out (tag +:+ " OK [" +:+ (if examine then "READ-ONLY" else "READ-WRITE") +:+ "] " +:+ name +:+ " completed");;
          mret tt
      end
  end).

Definition cmdList (tag p : string) : M A unit := requireAuth tag (
  '(ref, p) ← next p;
  '(pat, _) ← next p;
  match ref, pat with
  | Some ref, Some pat =>
      if is_empty (t_str pat) then
        out ("* LIST (\Noselect) " +:+ quote "." +:+ " " +:+ quote "");; out (tag +:+ " OK LIST completed");; mret tt
      else
        t ← get_tr;
        folders ← os (Folders env (s_root t));
        match folders with
        | Err _ => out (tag +:+ " NO cannot list mailboxes");; mret tt
        | Ok folders =>
            outs ((λ f, "* LIST () " +:+ quote "." +:+ " " +:+ quote f) <$>
                  filter (λ f, matchPattern (t_str ref +:+ t_str pat) f = true) folders);;
            out (tag +:+ " OK LIST completed");; mret tt
        end
  | _, _ => out (tag +:+ " BAD LIST needs a reference and a pattern");; mret tt
  end).

Definition status_item (mb : Mailbox) (item : token) : list string :=
  let up := upper item in
  if String.eqb up "MESSAGES" then ["MESSAGES " +:+ dec (Count mb)]
  else if String.eqb up "RECENT" then ["RECENT " +:+ dec (Recent mb)]
  else if String.eqb up "UIDNEXT" then ["UIDNEXT " +:+ dec (uidNext mb)]
  else if String.eqb up "UIDVALIDITY" then ["UIDVALIDITY " +:+ dec (uidValidity mb)]
  else if String.eqb up "UNSEEN" then ["UNSEEN " +:+ dec (Unseen mb)]
  else [].

Definition cmdStatus (tag p : string) : M A unit := requireAuth tag (
  '(n, p) ← next p;
  match n with
  | None => out (tag +:+ " BAD STATUS needs a mailbox");; mret tt
  | Some n =>
      '(items, _) ← next p;
      match items with
      | Some (MkToken _ items true) =>
          mb ← openMailbox (t_str n);
          match mb with
          | Err _ => out (tag +:+ " NO mailbox does not exist");; mret tt
          | Ok mb =>
              out ("* STATUS " +:+ quote (normalizeMailbox (t_str n)) +:+ " (" +:+
                   Join (items ≫= status_item mb) " " +:+ ")");;
              out (tag +:+ " OK STATUS completed");; mret tt
          end
      | _ => out (tag +:+ " BAD STATUS needs an item list");; mret tt
      end
  end).

(** [%v] of an error. *)
Definition error_text (e : error) : string :=
  match e with EMsg s => s | ENotExist => "file does not exist" end.

(** [CREATE] and [DELETE]: an operation on a folder by its name. *)
Definition folder_command (tag p name : string) (f : path → string → OS unit) : M A unit := requireAuth tag (
  '(n, _) ← next p;
  match n with
  | None => out (tag +:+ " BAD " +:+ name +:+ " needs a mailbox name");; mret tt
  | Some n =>
      t ← get_tr;
      r ← os (f (s_root t) (normalizeMailbox (t_str n)));
      match r with
      | Err e => out (tag +:+ " NO " +:+ error_text e);; mret tt
      | Ok _ => out (tag +:+ " OK " +:+ name +:+ " completed");; mret tt
      end
  end).

Definition cmdCreate (tag p : string) : M A unit := folder_command tag p "CREATE" (CreateFolder env).
Definition cmdDelete (tag p : string) : M A unit := folder_command tag p "DELETE" (DeleteFolder env).

Definition cmdSubscribe (tag p : string) : M A unit := requireAuth tag (
  '(n, _) ← next p;
  match n with
  | None => out (tag +:+ " BAD needs a mailbox name");; mret tt
  | Some n =>
      mb ← openMailbox (t_str n);
      match mb with
      | Err _ => out (tag +:+ " NO mailbox does not exist");; mret tt
      | Ok _ => out (tag +:+ " OK completed");; mret tt
      end
  end).

Definition cmdUnselect (tag : string) : M A unit := requireSelected tag tt (
  t ← get_tr; put_tr (unselected t);; out (tag +:+ " OK UNSELECT completed");; mret tt).

Definition cmdClose (tag : string) : M A unit := requireSelected tag tt (
  t ← get_tr;
  (if readOnly t then mret tt else expunge;; mret tt);;
  t ← get_tr;
  put_tr (unselected t);;
  out (tag +:+ " OK CLOSE completed");; mret tt).

Definition expunge_lines (seqs : list Z) : list string := (λ n, "* " +:+ dec n +:+ " EXPUNGE") <$> seqs.

Definition cmdExpunge (tag : string) : M A unit := requireSelected tag tt (
  t ← get_tr;
  if readOnly t then out (tag +:+ " NO mailbox is read-only");; mret tt else
  r ← expunge;
  match r with
  | Err _ => out (tag +:+ " NO expunge failed");; mret tt
  | Ok seqs => outs (expunge_lines seqs);; out (tag +:+ " OK EXPUNGE completed");; mret tt
  end).

Record append_args := MkArgs { a_flags : Flags; a_internal : Z; a_data : string }.

(** One argument of [APPEND]. *)
Definition append_arg (args : append_args) (t : token) : append_args :=
  if t_isList t then
    MkArgs (foldl (λ f n, match FlagFromIMAP n with Some x => Add f x | None => f end)
              (a_flags args) (t_str <$> t_list t)) (a_internal args) (a_data args)
  else if looksLikeDate (t_str t) then
    match Parse_date_time (t_str t) with
    | Some d => MkArgs (a_flags args) d (a_data args)
    | None => args
    end
  else MkArgs (a_flags args) (a_internal args) (t_str t).

(** The loop over the arguments: every turn consumes a byte. *)
Fixpoint append_loop (fuel : nat) (args : append_args) (p : string) : M A append_args :=
  match fuel with
  | O => mret args
  | Datatypes.S fuel =>
      '(t, p) ← next p;
      match t with
      | None => mret args
      | Some t => append_loop fuel (append_arg args t) p
      end
  end.
Definition append_arguments (p : string) : M A append_args :=
  append_loop (Datatypes.S (String.length p)) (MkArgs [] 0 "") p.

(** A message was stored in [mb]: the client learns the new count when it
    is the mailbox in use. *)
Definition report_appended (mb : Mailbox) : M A unit :=
  t ← get_tr;
  match mbox t with
  | Some cur =>
      if bool_decide (st t = stateSelected) && String.eqb (folder cur) (folder mb) then
        refresh;;
        t ← get_tr;
        match mbox t with
        | Some cur => out ("* " +:+ dec (Count cur) +:+ " EXISTS");; mret tt
        | None => mret tt
        end
      else mret tt
  | None => mret tt
  end.

Definition cmdAppend (tag p : string) : M A unit := requireAuth tag (
  '(n, p) ← next p;
  match n with
  | None => out (tag +:+ " BAD APPEND needs a mailbox");; mret tt
  | Some n =>
      args ← append_arguments p;
      if is_empty (a_data args) then out (tag +:+ " BAD APPEND needs message data");; mret tt else
      mb ← openMailbox (t_str n);
      match mb with
      | Err _ => out (tag +:+ " NO [TRYCREATE] mailbox does not exist");; mret tt
      | Ok mb =>
          r ← os (Append env mb (a_data args) (a_flags args) (a_internal args));
          match r with
          | Ok (mb, Ok m) =>
              report_appended mb;;
              out (tag +:+ " OK [APPENDUID " +:+ dec (uidValidity mb) +:+ " " +:+ dec (UID m) +:+
                   "] APPEND completed");; mret tt
          | _ => out (tag +:+ " NO append failed");; mret tt
          end
      end
  end).

(** The polls of an [IDLE]. *)
Fixpoint idle_polls (n : nat) : M A unit :=
  match n with O => mret tt | S n => interfere;; pollAndReport;; idle_polls n end.

Definition cmdIdle (tag : string) : M A unit := requireSelected tag tt (
  failed ← out "+ idling";
  if (failed : bool) then mret tt else
  '(polls, expired) ← idle_window;
  idle_polls polls;;
  if (expired : bool) then
    out "* BYE idle timeout";; out (tag +:+ " OK IDLE terminated");; read_string;; mret tt
  else
    line ← read_string;
    match line with
    | None => mret tt
    | Some line =>
        if EqualFold (TrimSpace line) "DONE" then out (tag +:+ " OK IDLE terminated");; mret tt else mret tt
    end).

(** ** Messages *)

(** The sequence set of a command: [None] when the answer was sent. *)
Definition seq_arg (tag p name : string) : M A (option (seqSet * string)) :=
  '(t, p) ← next p;
  match t with
  | None => out (tag +:+ " BAD " +:+ name +:+ " needs a sequence set");; mret None
  | Some t =>
      match parseSeqSet (t_str t) with
      | None => out (tag +:+ " BAD invalid sequence set");; mret None
      | Some set => mret (Some (set, p))
      end
  end.

Definition selected_now (set : seqSet) (uidMode : bool) : M A (list nat) :=
  t ← get_tr; mret (selected (msgs t) set uidMode).

(** The lines of the messages at some positions; [None] is a panic. *)
Fixpoint fetch_loop (items : string) (uidMode : bool) (ps : list nat) : M A (option (list string)) :=
  match ps with
  | [] => mret (Some [])
  | i :: ps =>
      x ← message_at i;
      match x with
      | None => fetch_loop items uidMode ps
      | Some (mb, m) =>
          r ← os (fetchItems env ParseAddressList zone mb m items uidMode);
          match r with
          | Ok (Some (payload, markSeen)) =>
              t ← get_tr;
              extra ← (if markSeen && negb (readOnly t) && negb (Has (m_Flags m) FlagSeen) then
                         e ← set_flags i (Add (m_Flags m) FlagSeen);
                         x ← message_at i;
                         mret (match e, x with
                               | None, Some (_, m) => [flags_text m]
                               | _, _ => []
                               end)
                       else mret []);
              lines ← fetch_loop items uidMode ps;
              mret (match lines with
                    | Some lines =>
                        Some (("* " +:+ dec (Seq m) +:+ " FETCH (" +:+ Join (payload ++ extra) " " +:+ ")") :: lines)
                    | None => None
                    end)
          | _ => mret None
          end
      end
  end.

(** [true]: a panic. *)
Definition cmdFetch (tag p : string) (uidMode : bool) : M A bool := requireSelected tag false (
  x ← seq_arg tag p "FETCH";
  match x with
  | None => mret false
  | Some (set, p) =>
      let items := TrimSpace (rest p) in
      if is_empty items then out (tag +:+ " BAD FETCH needs data items");; mret false else
      ps ← selected_now set uidMode;
      lines ← fetch_loop items uidMode ps;
      match lines with
      | None => panic;; mret true
      | Some lines => flush_raw lines;; out (tag +:+ " OK FETCH completed");; mret false
      end
  end).

Definition store_line (m : Message) (uidMode : bool) : string :=
  "* " +:+ dec (Seq m) +:+ " FETCH (" +:+ flags_text m +:+ (if uidMode then " UID " +:+ dec (UID m) else "") +:+ ")".

(** The lines to send; [None] for an unknown operation. *)
Fixpoint store_loop (op : string) (wanted : Flags) (silent uidMode : bool) (ps : list nat)
    : M A (option (list string)) :=
  match ps with
  | [] => mret (Some [])
  | i :: ps =>
      x ← message_at i;
      match x with
      | None => store_loop op wanted silent uidMode ps
      | Some (_, m) =>
          match store_flags op (m_Flags m) wanted with
          | None => mret None
          | Some flags =>
              e ← set_flags i flags;
              x ← message_at i;
              lines ← store_loop op wanted silent uidMode ps;
              mret (match lines with
                    | Some lines =>
                        Some (match e, x with
                              | None, Some (_, m) => if silent then lines else store_line m uidMode :: lines
                              | _, _ => lines
                              end)
                    | None => None
                    end)
          end
      end
  end.

Definition cmdStore (tag p : string) (uidMode : bool) : M A unit := requireSelected tag tt (
  t ← get_tr;
  if readOnly t then out (tag +:+ " NO mailbox is read-only");; mret tt else
  x ← seq_arg tag p "STORE";
  match x with
  | None => mret tt
  | Some (set, p) =>
      '(op, p) ← next p;
      match op with
      | None => out (tag +:+ " BAD STORE needs an operation");; mret tt
      | Some op =>
          let silent := HasSuffix (upper op) ".SILENT" in
          let op := TrimSuffix (upper op) ".SILENT" in
          '(flags, _) ← next p;
          match flags with
          | None => out (tag +:+ " BAD STORE needs flags");; mret tt
          | Some flags =>
              ps ← selected_now set uidMode;
              lines ← store_loop op (wanted_flags (flag_names flags)) silent uidMode ps;
              match lines with
              | None => out (tag +:+ " BAD unknown STORE operation");; mret tt
              | Some lines => flush_raw lines;; out (tag +:+ " OK STORE completed");; mret tt
              end
          end
      end
  end).

(** [false] when a copy failed. *)
Fixpoint copy_loop (dst : string) (ps : list nat) : M A bool :=
  match ps with
  | [] => mret true
  | i :: ps =>
      x ← message_at i;
      match x with
      | None => copy_loop dst ps
      | Some (mb, m) =>
          r ← os (CopyTo env mb m dst);
          match r with Ok _ => copy_loop dst ps | Err _ => mret false end
      end
  end.

(** [false] when a message could not be flagged. *)
Fixpoint delete_loop (ps : list nat) : M A bool :=
  match ps with
  | [] => mret true
  | i :: ps =>
      x ← message_at i;
      match x with
      | None => delete_loop ps
      | Some (_, m) =>
          e ← set_flags i (Add (m_Flags m) FlagDeleted);
          match e with None => delete_loop ps | Some _ => mret false end
      end
  end.

(** The sources of a [MOVE] are flagged, then the mailbox is expunged. *)
Definition remove_sources (tag : string) (ps : list nat) : M A bool :=
  ok ← delete_loop ps;
  if negb ok then out (tag +:+ " NO MOVE failed");; mret false else
  r ← expunge;
  match r with
  | Err _ => out (tag +:+ " NO MOVE failed");; mret false
  | Ok seqs => outs (expunge_lines seqs);; mret true
  end.

(** The body of [cmdCopyMove] once its arguments are read. *)
Definition copy_to (tag : string) (uidMode move : bool) (set : seqSet) (dst : string) : M A unit :=
  let name := if move then "MOVE" else "COPY" in
  t ← get_tr;
  mb ← os (OpenMailbox env (s_root t) dst);
  match mb with
  | Err _ => out (tag +:+ " NO [TRYCREATE] destination does not exist");; mret tt
  | Ok _ =>
      if move && readOnly t then out (tag +:+ " NO mailbox is read-only");; mret tt else
      ps ← selected_now set uidMode;
      ok ← copy_loop dst ps;
      if negb ok then out (tag +:+ " NO " +:+ name +:+ " failed");; mret tt else
      ok ← (if move then remove_sources tag ps else mret true);
      if (ok : bool) then out (tag +:+ " OK " +:+ name +:+ " completed");; mret tt else mret tt
  end.

Definition cmdCopyMove (tag p : string) (uidMode move : bool) : M A unit := requireSelected tag tt (
  let name := if move then "MOVE" else "COPY" in
  x ← seq_arg tag p name;
  match x with
  | None => mret tt
  | Some (set, p) =>
      '(d, _) ← next p;
      match d with
      | None => out (tag +:+ " BAD " +:+ name +:+ " needs a destination");; mret tt
      | Some d => copy_to tag uidMode move set (normalizeMailbox (t_str d))
      end
  end).

Definition ids (uidMode : bool) (ms : list Message) (ps : list nat) : list string :=
  omap (λ i, (λ m, dec (if uidMode then UID m else Seq m)) <$> ms !! i) ps.

Definition cmdSearch (tag p : string) (uidMode : bool) : M A unit := requireSelected tag tt (
  crit ← all p;
  match crit with
  | None | Some [] => out (tag +:+ " BAD SEARCH needs criteria");; mret tt
  | Some crit =>
      t ← get_tr;
      match mbox t with
      | None => mret tt
      | Some mb =>
          r ← os (search env zone mb crit);
          let ps := match r with Ok ps => ps | Err _ => [] end in
          out (match ps with
               | [] => "* SEARCH"
               | _ => "* SEARCH " +:+ Join (ids uidMode (messages mb) ps) " "
               end);;
          out (tag +:+ " OK SEARCH completed");; mret tt
      end
  end).

(** ** The loop *)

(** The command [cmd] with its arguments; [true] ends the session. *)
Definition command (tag cmd : string) (uidMode : bool) (p : string) : M A bool :=
  let go (m : M A unit) : M A bool := m;; mret false in
  if String.eqb cmd "CAPABILITY" then
    caps ← capabilities;
    go (out ("* CAPABILITY " +:+ caps);; out (tag +:+ " OK CAPABILITY completed");; mret tt)
  else if String.eqb cmd "NOOP" then go (cmdNoop tag)
  else if String.eqb cmd "LOGOUT" then
    out "* BYE logging out";; out (tag +:+ " OK LOGOUT completed");; mret true
  else if String.eqb cmd "STARTTLS" then cmdStartTLS tag
  else if String.eqb cmd "LOGIN" then go (cmdLogin tag p)
  else if String.eqb cmd "AUTHENTICATE" then go (cmdAuthenticate tag p)
  else if String.eqb cmd "SELECT" then go (cmdSelect tag p false)
  else if String.eqb cmd "EXAMINE" then go (cmdSelect tag p true)
  else if mem cmd ["LIST"; "LSUB"] then go (cmdList tag p)
  else if String.eqb cmd "STATUS" then go (cmdStatus tag p)
  else if String.eqb cmd "CREATE" then go (cmdCreate tag p)
  else if String.eqb cmd "DELETE" then go (cmdDelete tag p)
  else if mem cmd ["SUBSCRIBE"; "UNSUBSCRIBE"] then go (cmdSubscribe tag p)
  else if String.eqb cmd "NAMESPACE" then
    go (out ("* NAMESPACE ((" +:+ quote "" +:+ " " +:+ quote "." +:+ ")) NIL NIL");;
        out (tag +:+ " OK NAMESPACE completed");; mret tt)
  else if String.eqb cmd "CHECK" then
    go (requireSelected tag tt (out (tag +:+ " OK CHECK completed");; mret tt))
  else if String.eqb cmd "CLOSE" then go (cmdClose tag)
  else if String.eqb cmd "UNSELECT" then go (cmdUnselect tag)
  else if String.eqb cmd "EXPUNGE" then go (cmdExpunge tag)
  else if String.eqb cmd "APPEND" then go (cmdAppend tag p)
  else if String.eqb cmd "FETCH" then cmdFetch tag p uidMode
  else if String.eqb cmd "STORE" then go (cmdStore tag p uidMode)
  else if String.eqb cmd "SEARCH" then go (cmdSearch tag p uidMode)
  else if String.eqb cmd "COPY" then go (cmdCopyMove tag p uidMode false)
  else if String.eqb cmd "MOVE" then go (cmdCopyMove tag p uidMode true)
  else if String.eqb cmd "IDLE" then go (cmdIdle tag)
  else go (out (tag +:+ " BAD unknown command " +:+ cmd);; mret tt).

Definition uid_commands : list string := ["FETCH"; "STORE"; "SEARCH"; "COPY"; "MOVE"; "EXPUNGE"].

Definition dispatch (line : string) : M A bool :=
  '(tag, p) ← next line;
  match tag with
  | None => out "* BAD invalid command line";; mret false
  | Some tag =>
      let tag := t_str tag in
      '(cmd, p) ← next p;
      match cmd with
      | None => out (tag +:+ " BAD missing command");; mret false
      | Some cmd =>
          if String.eqb (upper cmd) "UID" then
            '(sub, p) ← next p;
            match sub with
            | None => out (tag +:+ " BAD UID needs a command");; mret false
            | Some sub =>
                if mem (upper sub) uid_commands then command tag (upper sub) true p
                else out (tag +:+ " BAD UID does not apply to " +:+ upper sub);; mret false
            end
          else command tag (upper cmd) false p
      end
  end.

(** One turn: [true] ends the session. *)
Definition step : M A bool :=
  line ← readLine;
  match line with
  | None => mret true
  | Some line => if is_empty (TrimSpace line) then mret false else interfere;; dispatch line
  end.

(** [None]: out of fuel. *)
Definition loop : nat → session A → option (session A) := turns step.

Definition greet : M A bool :=
  caps ← capabilities;
  set ← set;
  out ("* OK [CAPABILITY " +:+ caps +:+ "] " +:+ set_Hostname set +:+ " Kavira IMAP4rev1 ready").

Definition run (fuel : nat) (s : session A) : option (session A) :=
  let '(failed, s) := greet s in
  if (failed : bool) then Some s else loop fuel s.

Definition newSession (i : string) (c : Conn) (n : nat) (b : A) (w : World) : session A :=
  MkSession i c (MkTrans stateNotAuthenticated (set_ImplicitTLS (sets n)) "" [] None false) (S n) 0 b w [].

(** The address of a connection without its port. *)
Definition remoteIP (addr : string) : string :=
  match SplitHostPort addr with Ok (host, _) => host | Err _ => addr end.

(** One turn of [Serve]: the line that refuses the connection, or the
    session; [busy] sessions are running. *)
Definition accept_conn (addr : string) (c : Conn) (busy workers : Z) (n : nat) (b : A) (w : World)
    : string + session A :=
  if workers <=? busy then inl "* BYE server busy, try again later"
  else inr (newSession (remoteIP addr) c n b w).
End session.
