(* ===== verification/ImapSafety.v ===== *)
(** * IMAP: the protocol

    The abstract specification of an IMAP session as a state machine over
    its protocol state, the checks of credentials it made and the files;
    every session is a run of it.  From the moves follow the invariants of
    the session: credentials are checked over TLS only, nothing is done
    before some were accepted, and a mailbox opened read-only is not
    written. *)

From S2P Require Import Prelude GoStrings GoBase64 GoTime GoMail GoIO Session Fs Maildir Mailbox CopyFiles ImapParse ImapFetch Imap.

(** ** What the protocol sees of a session *)

Definition visible : Type := Trans * list event * World.
Definition view {A} (s : session A) : visible := (tr s, log s, world s).
#[global] Instance imap_observe {A} : Observe (session A) visible := view.
#[global] Instance imap_detached {A} : Detached (session A) visible.
Proof. by intros c s. Qed.

Section rules.
Context {A : Type} (Authenticate : Backend A) (sets : nat → Settings) (others : nat → World → World)
  (idle : nat → nat * bool).

Lemma imap_wp_get_tr Q t l w : Q t (t, l, w) → wp (S := session A) get_tr Q (t, l, w).
Proof. by intros HQ s [= <- <- <-]. Qed.

Lemma imap_wp_put_tr t' Q t l w : Q tt (t', l, w) → wp (S := session A) (put_tr t') Q (t, l, w).
Proof. by intros HQ s [= <- <- <-]. Qed.

Lemma imap_wp_os {R} (m : OS R) Q t l w : Q (m w).1 (t, l, (m w).2) → wp (S := session A) (os m) Q (t, l, w).
Proof. intros HQ s [= <- <- <-]. unfold os, view. by destruct (m (world s)). Qed.

Lemma wp_check_credentials u p (Q : result path → visible → Prop) t l w :
  (∀ r, Q r (t, l ++ [EvAuth u p (tls t) r], w)) → wp (check_credentials Authenticate u p) Q (t, l, w).
Proof.
  intros HQ s [= <- <- <-]. unfold check_credentials, view.
  destruct (Authenticate u p (ip s) (backend s)) as [r b]. apply HQ.
Qed.

Lemma imap_wp_interfere (Q : unit → visible → Prop) t l w :
  (∀ n, Q tt (t, l, others n w)) → wp (S := session A) (interfere others) Q (t, l, w).
Proof. intros HQ s [= <- <- <-]. apply HQ. Qed.

Lemma wp_panic Q t l w : Q tt (t, l ++ [EvPanic], w) → wp (S := session A) panic Q (t, l, w).
Proof. by intros HQ s [= <- <- <-]. Qed.

Lemma imap_quiet_set : quiet (S := session A) (set sets). Proof. done. Qed.
Lemma imap_quiet_get_tr : quiet (S := session A) get_tr. Proof. done. Qed.
Lemma quiet_idle_window : quiet (S := session A) (idle_window idle). Proof. done. Qed.
Lemma quiet_out x : quiet (S := session A) (out x). Proof. apply quiet_send_lines. Qed.
Lemma quiet_message_at i : quiet (S := session A) (message_at i). Proof. done. Qed.
Lemma quiet_selected_now set u : quiet (S := session A) (selected_now set u). Proof. done. Qed.

Lemma quiet_outs ls : quiet (S := session A) (outs ls).
Proof. induction ls as [|l ls IH]; [done|]. apply quiet_bind; [apply quiet_out|]. intros _. apply IH. Qed.

Lemma quiet_flush_raw ls : quiet (S := session A) (flush_raw ls).
Proof. destruct ls; [done|]. apply quiet_send_lines. Qed.

Lemma quiet_read_full n : quiet (S := session A) (read_full n).
Proof.
  apply quiet_bind; [apply quiet_get_conn|]. intros c. destruct (_ <? _);
    (apply quiet_bind; [apply quiet_put_conn|intros _; apply quiet_ret]).
Qed.

Lemma quiet_readLiteral n : quiet (S := session A) (readLiteral sets n).
Proof.
  apply quiet_bind; [apply imap_quiet_set|]. intros st. destruct (_ <? _); [done|].
  apply quiet_bind; [apply quiet_out|]. intros []; [done|apply quiet_read_full].
Qed.

Lemma imap_quiet_next p : quiet (S := session A) (next sets p).
Proof.
  apply (next_lifts (readLiteral sets) (λ _ m, quiet m));
    [intros; apply quiet_ret|intros; by apply quiet_bind|apply quiet_readLiteral].
Qed.

Lemma imap_quiet_all p : quiet (S := session A) (all sets p).
Proof.
  apply (all_lifts (readLiteral sets) (λ _ m, quiet m));
    [intros; apply quiet_ret|intros; by apply quiet_bind|apply quiet_readLiteral].
Qed.

Lemma quiet_append_loop `{SliceSort} fuel args p : quiet (S := session A) (append_loop sets fuel args p).
Proof.
  revert args p. induction fuel as [|fuel IH]; intros args p; [done|]. cbn [append_loop].
  apply quiet_bind; [apply imap_quiet_next|]. intros [[t|] q]; [apply IH|done].
Qed.

Lemma quiet_capabilities : quiet (S := session A) (capabilities sets).
Proof. done. Qed.

Lemma quiet_seq_arg tag p name : quiet (S := session A) (seq_arg sets tag p name).
Proof.
  apply quiet_bind; [apply imap_quiet_next|]. intros [[t|] q]; [destruct (parseSeqSet _); [done|]|];
    (apply quiet_bind; [apply quiet_out|done]).
Qed.

Lemma quiet_readResp tag prompt : quiet (S := session A) (readResp tag prompt).
Proof.
  apply quiet_bind; [apply quiet_out|]. intros []; [done|]. apply quiet_bind; [apply quiet_read_limited|].
  intros [l|]; [|apply quiet_bind; [apply quiet_out|done]].
  destruct (String.eqb l "*"); [apply quiet_bind; [apply quiet_out|done]|].
  destruct (DecodeString _); [done|]. apply quiet_bind; [apply quiet_out|done].
Qed.
End rules.

#[export] Hint Resolve imap_quiet_set imap_quiet_get_tr quiet_idle_window quiet_out quiet_message_at
  quiet_selected_now quiet_outs quiet_flush_raw imap_quiet_next imap_quiet_all quiet_append_loop
  quiet_capabilities quiet_seq_arg quiet_readResp : quiet.

(** One step of symbolic execution. *)
Ltac imap_step :=
  lazymatch goal with
  | |- wp (mret _) _ _ => apply wp_ret
  | |- wp (mbind _ _) _ _ => apply wp_bind
  | |- wp get_tr _ _ => apply imap_wp_get_tr
  | |- wp (put_tr _) _ _ => apply imap_wp_put_tr
  | |- wp (os _) _ _ => apply imap_wp_os
  | |- wp panic _ _ => apply wp_panic
  | |- wp (check_credentials _ _ _) _ _ => apply wp_check_credentials; intros ?
  | |- wp (interfere _) _ _ => apply imap_wp_interfere; intros ?
  | |- wp (let '(_, _) := ?x in _) _ _ => destruct x eqn:?
  | |- wp (if ?b then _ else _) _ _ => destruct b eqn:?
  | |- wp (match ?x with _ => _ end) _ _ => destruct x eqn:?
  | |- wp _ _ _ => apply wp_quiet; [solve [auto with quiet]|intros ?]
  end.
Ltac imap_run := repeat (imap_step; cbn beta).

(** An answer at the end of a command. *)
Ltac answer := apply keeps_quiet;
  solve [repeat first [solve [auto with quiet]|apply quiet_bind; [solve [auto with quiet]|intros ?]]].

(** ** The protocol *)

Section protocol.
Context `{SliceSort} {A : Type} (env : Env) (Authenticate : Backend A) (sets : nat → Settings)
  (others : nat → World → World) (idle : nat → nat * bool)
  (ParseAddressList : string → option (list Address)) (zone : Z → Z).

Definition authed (t : Trans) : Prop := st t ≠ stateNotAuthenticated.

(** The moves of a session: what it may do to its state, to the log of
    credentials and to the files. *)
Inductive move : visible → visible → Prop :=
  | I_others n t l w : move (t, l, w) (t, l, others n w)
  | I_tls t l w : tls t = false →
      move (t, l, w) (MkTrans (st t) true (user t) (s_root t) (mbox t) (readOnly t), l, w)
  | I_refused t l w u p e : tls t = true → ¬ authed t →
      move (t, l, w) (t, l ++ [EvAuth u p true (Err e)], w)
  | I_login t l w u p rt : tls t = true → ¬ authed t →
      move (t, l, w) (MkTrans stateAuthenticated true (ToLower u) rt (mbox t) (readOnly t),
                      l ++ [EvAuth u p true (Ok rt)], w)
  | I_look t l w n : authed t → move (t, l, w) (t, l, with_tick n w)
  | I_open t l w fld : authed t → move (t, l, w) (t, l, (OpenMailbox env (s_root t) fld w).2)
  | I_select t l w fld mb w' ro : authed t → OpenMailbox env (s_root t) fld w = (Ok mb, w') →
      move (t, l, w) (MkTrans stateSelected (tls t) (user t) (s_root t) (Some mb) ro, l, w')
  | I_folders t l w : authed t → move (t, l, w) (t, l, (Folders env (s_root t) w).2)
  | I_create t l w fld : authed t → move (t, l, w) (t, l, (CreateFolder env (s_root t) fld w).2)
  | I_delete t l w fld : authed t → move (t, l, w) (t, l, (DeleteFolder env (s_root t) fld w).2)
  | I_append t l w fld mb w1 data f d : authed t → OpenMailbox env (s_root t) fld w = (Ok mb, w1) →
      move (t, l, w) (t, l, (Append env mb data f d w1).2)
  | I_refresh t l w mb mb' e w' : st t = stateSelected → mbox t = Some mb →
      Refresh env mb w = (Ok (mb', e), w') → move (t, l, w) (set_mbox t mb', l, w')
  | I_copy t l w mb m dst : st t = stateSelected → mbox t = Some mb →
      move (t, l, w) (t, l, (CopyTo env mb m dst w).2)
  | I_flags t l w mb i f mb' e w' : st t = stateSelected → mbox t = Some mb → readOnly t = false →
      SetFlags env mb i f w = (Ok (mb', e), w') → move (t, l, w) (set_mbox t mb', l, w')
  | I_expunge t l w mb mb' r w' : st t = stateSelected → mbox t = Some mb → readOnly t = false →
      Expunge env mb w = (Ok (mb', r), w') → move (t, l, w) (set_mbox t mb', l, w')
  | I_unselect t l w : st t = stateSelected → move (t, l, w) (unselected t, l, w)
  | I_panic t l w : st t = stateSelected → move (t, l, w) (t, l ++ [EvPanic], w).

Definition moves : visible → visible → Prop := rtc move.

#[local] Instance imap_moves_preorder : PreOrder moves.
Proof. unfold moves. apply _. Qed.

Lemma imap_moved v v' : move v v' → moves v v'.
Proof. apply rtc_once. Qed.

(** Moves within a selected mailbox. *)
Definition within (v v' : visible) : Prop :=
  moves v v' ∧ st v'.1.1 = stateSelected ∧ readOnly v'.1.1 = readOnly v.1.1.

Lemma within_refl v : st v.1.1 = stateSelected → within v v.
Proof. intros Hs. split; [apply rtc_refl|done]. Qed.

Lemma within_trans v1 v2 v3 : within v1 v2 → within v2 v3 → within v1 v3.
Proof. intros (H1&H2&H3) (H4&H5&H6). split; [by etrans|split; [done|congruence]]. Qed.

(** What moves within the mailbox from a state that has one selected can
    be done at any later point as well. *)
Lemma keeps_within {R} (m : M A R) v0 : (∀ v, st v.1.1 = stateSelected → readOnly v.1.1 = readOnly v0.1.1 →
  wp m (λ _, within v) v) → keeps (within v0) m.
Proof.
  intros Hm v Hv. destruct (Hv) as (_&Hs&Hr). eapply wp_mono; [|by apply Hm]. cbn beta. intros r v' Hv'.
  by eapply within_trans.
Qed.

Lemma selected_authed t : st t = stateSelected → authed t.
Proof. unfold authed. by intros ->. Qed.

(** *** The mailbox in use *)

Lemma within_refresh v : st v.1.1 = stateSelected →
  wp (S := session A) (refresh env) (λ _, within v) v.
Proof.
  destruct v as [[t l] w]. cbn [fst]. intros Hs. unfold refresh, on_mbox. apply wp_bind, imap_wp_get_tr.
  destruct (mbox t) as [mb|] eqn:E; [|by apply wp_ret, within_refl]. apply wp_bind, imap_wp_os.
  destruct (Refresh_total env mb w) as ([mb' e]&w'&Er). rewrite Er. cbn [fst snd]. imap_run.
  split; [|done]. apply imap_moved. by eapply I_refresh.
Qed.

Lemma within_set_flags i f v : st v.1.1 = stateSelected → readOnly v.1.1 = false →
  wp (S := session A) (set_flags env i f) (λ _, within v) v.
Proof.
  destruct v as [[t l] w]. cbn [fst]. intros Hs Hr. unfold set_flags, on_mbox. apply wp_bind, imap_wp_get_tr.
  destruct (mbox t) as [mb|] eqn:E; [|by apply wp_ret, within_refl]. apply wp_bind, imap_wp_os.
  destruct (SetFlags_total env mb i f w) as ([mb' e]&w'&Er). rewrite Er. cbn [fst snd]. imap_run.
  split; [|done]. apply imap_moved. by eapply I_flags.
Qed.

Lemma within_expunge v : st v.1.1 = stateSelected → readOnly v.1.1 = false →
  wp (S := session A) (expunge env) (λ _, within v) v.
Proof.
  destruct v as [[t l] w]. cbn [fst]. intros Hs Hr. unfold expunge, on_mbox. apply wp_bind, imap_wp_get_tr.
  destruct (mbox t) as [mb|] eqn:E; [|by apply wp_ret, within_refl]. apply wp_bind, imap_wp_os.
  destruct (Expunge_total env mb w) as ([mb' r]&w'&Er). rewrite Er. cbn [fst snd]. imap_run.
  split; [|done]. apply imap_moved. by eapply I_expunge.
Qed.

Lemma within_look {R} (m : OS R) v : looks m → st v.1.1 = stateSelected →
  wp (S := session A) (os m) (λ r v', within v v' ∧ ∃ a, r = Ok a) v.
Proof.
  destruct v as [[t l] w]. cbn [fst]. intros Hm Hs. apply imap_wp_os. destruct (Hm w) as (a&n&->). simpl.
  split; [|by exists a]. split; [|done]. by apply imap_moved, I_look, selected_authed.
Qed.

(** *** Loops *)

Lemma keeps_refresh v0 : keeps (S := session A) (within v0) (refresh env).
Proof. apply keeps_within. intros v Hs _. by apply within_refresh. Qed.

Lemma keeps_set_flags v0 i f : readOnly v0.1.1 = false → keeps (S := session A) (within v0) (set_flags env i f).
Proof. intros Hr. apply keeps_within. intros v Hs Hv. apply within_set_flags; [done|congruence]. Qed.

Lemma keeps_expunge v0 : readOnly v0.1.1 = false → keeps (S := session A) (within v0) (expunge env).
Proof. intros Hr. apply keeps_within. intros v Hs Hv. apply within_expunge; [done|congruence]. Qed.

Lemma keeps_look {R} (m : OS R) v0 : looks m → keeps (S := session A) (within v0) (os m).
Proof.
  intros Hm. apply keeps_within. intros v Hs _. eapply wp_mono; [|by apply within_look]. cbn beta. by intros r v' [? _].
Qed.

Lemma keeps_interfere v0 : keeps (S := session A) (within v0) (interfere others).
Proof.
  apply keeps_within. intros [[t l] w] Hs _. apply imap_wp_interfere. intros n. split; [|done].
  by apply imap_moved, I_others.
Qed.

Lemma keeps_poll v0 : keeps (S := session A) (within v0) (pollAndReport env).
Proof.
  apply keeps_bind; [by apply keeps_quiet|]. intros t. destruct (mbox t) as [before|]; [|by apply keeps_quiet].
  apply keeps_bind; [apply keeps_refresh|]. intros [e|]; [by apply keeps_quiet|].
  apply keeps_quiet, quiet_bind; [done|]. intros t'. destruct (mbox t') as [mb|]; [|done].
  destruct (_ =? _); [done|]. repeat (apply quiet_bind; [apply quiet_out|intros _]). done.
Qed.

Lemma keeps_idle_polls v0 n : keeps (S := session A) (within v0) (idle_polls env others n).
Proof.
  induction n as [|n IH]; [by apply keeps_quiet|]. cbn [idle_polls].
  apply keeps_bind; [apply keeps_interfere|intros _]. apply keeps_bind; [apply keeps_poll|by intros _].
Qed.

(** A flag of [FETCH]: only when the mailbox is not read-only. *)
Lemma keeps_fetch_loop v0 items uidMode ps :
  keeps (S := session A) (within v0) (fetch_loop env ParseAddressList zone items uidMode ps).
Proof.
  induction ps as [|i ps IH]; [by apply keeps_quiet|]. cbn [fetch_loop].
  apply keeps_bind; [apply keeps_quiet, quiet_message_at|]. intros [[mb m]|]; [|done].
  apply keeps_bind; [apply keeps_look; auto with looks|].
  intros [[[payload seen]|]|e]; [|by apply keeps_quiet..].
  intros [[t l] w] Hv. pose proof (proj2 (proj2 Hv)) as Hro. cbn [fst] in Hro.
  apply wp_bind, imap_wp_get_tr. revert Hv. generalize (t, l, w). apply keeps_bind.
  - destruct (seen && negb (readOnly t) && _) eqn:E; [|by apply keeps_quiet]. reflect_bool.
    apply keeps_bind; [apply keeps_set_flags; congruence|]. intros e.
    apply keeps_bind; [apply keeps_quiet, quiet_message_at|]. intros x. by apply keeps_quiet.
  - intros extra. apply keeps_bind; [done|]. intros ls. by apply keeps_quiet.
Qed.

Lemma keeps_store_loop v0 op wanted silent uidMode ps : readOnly v0.1.1 = false →
  keeps (S := session A) (within v0) (store_loop env op wanted silent uidMode ps).
Proof.
  intros Hr. induction ps as [|i ps IH]; [by apply keeps_quiet|]. cbn [store_loop].
  apply keeps_bind; [apply keeps_quiet, quiet_message_at|]. intros [[mb m]|]; [|done].
  destruct (store_flags _ _ _) as [flags|]; [|by apply keeps_quiet].
  apply keeps_bind; [by apply keeps_set_flags|]. intros e.
  apply keeps_bind; [apply keeps_quiet, quiet_message_at|]. intros x.
  apply keeps_bind; [done|]. intros ls. by apply keeps_quiet.
Qed.

Lemma keeps_delete_loop v0 ps : readOnly v0.1.1 = false →
  keeps (S := session A) (within v0) (delete_loop env ps).
Proof.
  intros Hr. induction ps as [|i ps IH]; [by apply keeps_quiet|]. cbn [delete_loop].
  apply keeps_bind; [apply keeps_quiet, quiet_message_at|]. intros [[mb m]|]; [|done].
  apply keeps_bind; [by apply keeps_set_flags|]. intros [e|]; [by apply keeps_quiet|done].
Qed.

Lemma keeps_remove_sources v0 tag ps : readOnly v0.1.1 = false →
  keeps (S := session A) (within v0) (remove_sources env tag ps).
Proof.
  intros Hr. apply keeps_bind; [by apply keeps_delete_loop|]. intros [].
  - apply keeps_bind; [by apply keeps_expunge|]. intros [seqs|e]; apply keeps_quiet;
      (apply quiet_bind; [first [apply quiet_outs|apply quiet_out]|done]).
  - apply keeps_quiet, quiet_bind; [apply quiet_out|done].
Qed.

Lemma keeps_copy_loop v0 dst ps : keeps (S := session A) (within v0) (copy_loop env dst ps).
Proof.
  induction ps as [|i ps IH]; [by apply keeps_quiet|]. cbn [copy_loop].
  intros [[t l] w] Hv. unfold message_at. apply wp_bind, wp_bind, imap_wp_get_tr, wp_ret.
  destruct (mbox t) as [mb|] eqn:Em; [|by apply IH]. destruct (messages mb !! i) as [m|]; [|by apply IH].
  destruct (Hv) as (_&Hs&_). cbn [fst] in Hs. apply wp_bind, imap_wp_os.
  assert (Hv' : within v0 (t, l, (CopyTo env mb m dst w).2)).
  { eapply within_trans; [exact Hv|]. split; [|done]. apply imap_moved. by apply I_copy. }
  destruct ((CopyTo env mb m dst w).1); [by apply IH|by apply wp_ret].
Qed.

(** *** Commands that need a mailbox *)

Lemma requireSelected_moves {R} tag (d : R) (m : M A R) v :
  (∀ t l w, st t = stateSelected → v = (t, l, w) → wp m (λ _, within v) v) →
  wp (requireSelected tag d m) (λ _, moves v) v.
Proof.
  destruct v as [[t l] w]. intros Hm. unfold requireSelected. apply wp_bind, imap_wp_get_tr.
  destruct (decide _) as [Hs|Hs]; [|imap_run; apply rtc_refl].
  eapply wp_mono; [|by eapply Hm]. cbn beta. by intros r v' [Hv' _].
Qed.

Lemma requireSelected_keeps {R} tag (d : R) (m : M A R) v : (∀ v0, keeps (within v0) m) →
  wp (requireSelected tag d m) (λ _, moves v) v.
Proof.
  intros Hm. apply requireSelected_moves. intros t l w Hs ->. apply Hm. by apply within_refl.
Qed.

Lemma keeps_get_tr {R} v0 (f : Trans → M A R) :
  (∀ t, readOnly t = readOnly v0.1.1 → keeps (within v0) (f t)) → keeps (within v0) (get_tr ≫= f).
Proof.
  intros Hf [[t l] w] Hv. apply wp_bind, imap_wp_get_tr. apply Hf; [|done]. by destruct Hv as (_&_&Hr).
Qed.

Lemma keeps_open {R} v0 fld (f : Trans → result Mailbox → M A R) :
  (∀ t r, readOnly t = readOnly v0.1.1 → keeps (within v0) (f t r)) →
  keeps (within v0) (get_tr ≫= λ t, os (OpenMailbox env (s_root t) fld) ≫= f t).
Proof.
  intros Hf [[t l] w] Hv. apply wp_bind, imap_wp_get_tr, wp_bind, imap_wp_os.
  apply Hf; [by destruct Hv as (_&_&Hr)|]. eapply within_trans; [exact Hv|]. split; [|by destruct Hv as (_&?&_)].
  apply imap_moved, I_open, selected_authed. by destruct Hv as (_&?&_).
Qed.

Lemma cmdFetch_moves tag p u v :
  wp (S := session A) (cmdFetch env sets ParseAddressList zone tag p u) (λ _, moves v) v.
Proof.
  apply requireSelected_keeps. intros v0.
  apply keeps_bind; [apply keeps_quiet, quiet_seq_arg|]. intros [[set q]|]; [|by apply keeps_quiet].
  cbv zeta. destruct (is_empty _); [apply keeps_quiet, quiet_bind; [apply quiet_out|done]|].
  apply keeps_bind; [apply keeps_quiet, quiet_selected_now|]. intros ps.
  apply keeps_bind; [apply keeps_fetch_loop|]. intros [ls|].
  - apply keeps_quiet, quiet_bind; [apply quiet_flush_raw|]. intros _. apply quiet_bind; [apply quiet_out|done].
  - apply keeps_bind; [|intros _; by apply keeps_quiet]. apply keeps_within. intros [[t1 l1] w1] Hs1 _.
    apply wp_panic. split; [|done]. by apply imap_moved, I_panic.
Qed.

Lemma cmdStore_moves tag p u v : wp (S := session A) (cmdStore env sets tag p u) (λ _, moves v) v.
Proof.
  apply requireSelected_keeps. intros v0. apply keeps_get_tr. intros t Hro.
  destruct (readOnly t) eqn:Er; [answer|].
  apply keeps_bind; [answer|]. intros [[set q]|]; [|answer].
  apply keeps_bind; [answer|]. intros [[op|] q2]; [|answer]. cbv zeta.
  apply keeps_bind; [answer|]. intros [[fl|] q3]; [|answer].
  apply keeps_bind; [answer|]. intros ps.
  apply keeps_bind; [by apply keeps_store_loop|]. intros [ls|]; answer.
Qed.

Lemma cmdSearch_moves tag p u v : wp (S := session A) (cmdSearch env sets zone tag p u) (λ _, moves v) v.
Proof.
  apply requireSelected_keeps. intros v0. apply keeps_bind; [answer|].
  intros [[|c crit]|]; [answer| |answer]. apply keeps_get_tr. intros t Hro.
  destruct (mbox t) as [mb|]; [|answer]. apply keeps_bind; [apply keeps_look; auto with looks|]. intros r. answer.
Qed.

Lemma cmdCopyMove_moves tag p u mv v : wp (S := session A) (cmdCopyMove env sets tag p u mv) (λ _, moves v) v.
Proof.
  apply requireSelected_keeps. intros v0. cbv zeta. apply keeps_bind; [answer|].
  intros [[set q]|]; [|answer]. apply keeps_bind; [answer|]. intros [[d|] q2]; [|answer]. unfold copy_to. cbv zeta.
  apply (keeps_open v0 (normalizeMailbox (t_str d))). intros t [mb|e] Hro; [|answer].
  destruct (mv && readOnly t) eqn:E; [answer|]. apply keeps_bind; [answer|]. intros ps.
  apply keeps_bind; [apply keeps_copy_loop|]. intros []; [|answer]. cbn [negb]. cbv iota.
  apply keeps_bind; [|intros []; answer]. destruct mv; [|answer].
  apply keeps_remove_sources. cbn in E. congruence.
Qed.

Lemma cmdExpunge_moves tag v : wp (S := session A) (cmdExpunge env tag) (λ _, moves v) v.
Proof.
  apply requireSelected_keeps. intros v0. apply keeps_get_tr. intros t Hro.
  destruct (readOnly t) eqn:Er; [answer|]. apply keeps_bind; [by apply keeps_expunge|]. intros [seqs|e]; answer.
Qed.

Lemma cmdIdle_moves tag v : wp (S := session A) (cmdIdle env others idle tag) (λ _, moves v) v.
Proof.
  apply requireSelected_keeps. intros v0. apply keeps_bind; [answer|]. intros []; [answer|].
  apply keeps_bind; [answer|]. intros [polls expired].
  apply keeps_bind; [apply keeps_idle_polls|]. intros _. destruct expired; [answer|].
  apply keeps_bind; [answer|]. intros [line|]; [|answer]. destruct (EqualFold _ _); answer.
Qed.

Lemma wp_unselect (k : M A unit) v0 v : quiet k → within v0 v →
  wp (t ← get_tr; put_tr (unselected t);; k) (λ _, moves v0) v.
Proof.
  destruct v as [[t l] w]. intros Hq (Hv&Hs&_). apply wp_bind, imap_wp_get_tr, wp_bind, imap_wp_put_tr.
  apply wp_quiet; [done|]. intros _. etrans; [exact Hv|]. by apply imap_moved, I_unselect.
Qed.

Lemma cmdUnselect_moves tag v : wp (S := session A) (cmdUnselect tag) (λ _, moves v) v.
Proof.
  destruct v as [[t l] w]. unfold cmdUnselect, requireSelected. apply wp_bind, imap_wp_get_tr.
  destruct (decide _) as [Hs|Hs]; [|imap_run; apply rtc_refl]. apply wp_unselect; [|by apply within_refl].
  apply quiet_bind; [apply quiet_out|done].
Qed.

Lemma cmdClose_moves tag v : wp (S := session A) (cmdClose env tag) (λ _, moves v) v.
Proof.
  destruct v as [[t l] w]. unfold cmdClose, requireSelected. apply wp_bind, imap_wp_get_tr.
  destruct (decide _) as [Hs|Hs]; [|imap_run; apply rtc_refl]. apply wp_bind, imap_wp_get_tr, wp_bind.
  assert (Hk : ∀ v1, within (t, l, w) v1 → wp (t ← get_tr; put_tr (unselected t);; out (A := A) (tag +:+ " OK CLOSE completed");;
    mret tt) (λ _ : unit, moves (t, l, w)) v1).
  { intros v1. apply wp_unselect, quiet_bind; [apply quiet_out|done]. }
  destruct (readOnly t) eqn:Er; [by apply wp_ret, Hk, within_refl|]. apply wp_bind.
  eapply wp_mono; [|apply within_expunge; done]. cbn beta. intros _ v1 Hv1. apply wp_ret. by apply Hk.
Qed.

(** *** Commands in any state *)

Lemma reads_moves {R} (m : M A R) v : quiet m → wp m (λ _, moves v) v.
Proof. intros Hm. apply wp_quiet; [done|]. intros _. apply rtc_refl. Qed.

Lemma cmdNoop_moves tag v : wp (S := session A) (cmdNoop env tag) (λ _, moves v) v.
Proof.
  destruct v as [[t l] w]. unfold cmdNoop. apply wp_bind, imap_wp_get_tr, wp_bind.
  assert (Hk : ∀ v1, moves (t, l, w) v1 → wp (out (A := A) (tag +:+ " OK NOOP completed");; mret tt)
    (λ _ : unit, moves (t, l, w)) v1) by (intros v1 Hv; by imap_run).
  destruct (decide _) as [Hs|Hs]; [|by apply wp_ret, Hk, rtc_refl].
  eapply wp_mono; [|apply (keeps_poll (t, l, w)); by apply within_refl]. cbn beta. intros _ v1 [Hv _]. by apply Hk.
Qed.

Lemma starttls_moves tag v : wp (S := session A) (cmdStartTLS sets tag) (λ _, moves v) v.
Proof.
  destruct v as [[t l] w]. unfold cmdStartTLS.
  destruct (tls t) eqn:E; imap_run; try congruence; try apply rtc_refl. by apply imap_moved, I_tls.
Qed.

Lemma authenticate_moves tag u p t l w : tls t = true → ¬ authed t →
  wp (authenticate Authenticate sets tag u p) (λ _, moves (t, l, w)) (t, l, w).
Proof.
  intros Ht Ha. unfold authenticate. apply wp_bind, wp_check_credentials. intros [rt|e]; rewrite Ht.
  - imap_run. match goal with H : tls t = true |- _ => rewrite ?H end. apply imap_moved. by apply I_login.
  - imap_run. apply imap_moved. by apply I_refused.
Qed.

(** What was checked before credentials are looked at. *)
Lemma not_authed t : ¬ st t ≠ stateNotAuthenticated → ¬ authed t.
Proof. done. Qed.

Lemma cmdLogin_moves tag p v : wp (cmdLogin Authenticate sets tag p) (λ _, moves v) v.
Proof.
  destruct v as [[t l] w]. unfold cmdLogin. apply wp_bind, imap_wp_get_tr.
  destruct (tls t) eqn:Ht; [|apply reads_moves; apply quiet_bind; [apply quiet_out|done]]. cbn [negb]. cbv iota.
  destruct (decide _) as [Ha|Ha]; [apply reads_moves; apply quiet_bind; [apply quiet_out|done]|].
  apply wp_bind, wp_quiet; [apply imap_quiet_next|]. intros [u q].
  apply wp_bind, wp_quiet; [apply imap_quiet_next|]. intros [pw q2].
  destruct u as [u|]; [destruct pw as [pw|]|]; [by apply authenticate_moves| |];
    (apply reads_moves; apply quiet_bind; [apply quiet_out|done]).
Qed.

Lemma cmdAuthenticate_moves tag p v : wp (cmdAuthenticate Authenticate sets tag p) (λ _, moves v) v.
Proof.
  destruct v as [[t l] w]. unfold cmdAuthenticate. apply wp_bind, imap_wp_get_tr.
  assert (Hq : ∀ x, wp (out (A := A) x;; mret tt) (λ _ : unit, moves (t, l, w)) (t, l, w))
    by (intros x; apply reads_moves; apply quiet_bind; [apply quiet_out|done]).
  destruct (tls t) eqn:Ht; [|apply Hq]. cbn [negb]. cbv iota. destruct (decide _) as [Ha|Ha]; [apply Hq|].
  assert (Hplain : ∀ resp, wp (finish_plain Authenticate sets tag resp) (λ _, moves (t, l, w)) (t, l, w)).
  { intros resp. unfold finish_plain. destruct (GoStrings.Split resp NUL) as [|a [|u [|p' [|]]]]; try apply Hq.
    destruct (is_empty u); [apply Hq|by apply authenticate_moves]. }
  assert (Hask : wp (r ← readResp tag "";
    match r with Some resp => finish_plain Authenticate sets tag resp | None => mret tt end)
    (λ _, moves (t, l, w)) (t, l, w)).
  { apply wp_bind, wp_quiet; [apply quiet_readResp|]. intros [r|]; [apply Hplain|apply wp_ret, rtc_refl]. }
  apply wp_bind, wp_quiet; [apply imap_quiet_next|]. intros [[mech|] q]; [|apply Hq].
  destruct (String.eqb (upper mech) "PLAIN"); [|destruct (String.eqb (upper mech) "LOGIN"); [|apply Hq]].
  - unfold authPlain. apply wp_bind, wp_quiet; [apply imap_quiet_next|]. intros [[ir|] q2]; [|apply Hask].
    destruct (String.eqb (t_str ir) "="); [apply Hask|]. destruct (DecodeString _); [apply Hplain|apply Hq].
  - unfold authLogin. apply wp_bind, wp_quiet; [apply quiet_readResp|]. intros [u|]; [|apply wp_ret, rtc_refl].
    apply wp_bind, wp_quiet; [apply quiet_readResp|]. intros [p'|]; [by apply authenticate_moves|apply wp_ret, rtc_refl].
Qed.

Lemma requireAuth_moves tag (m : M A unit) v :
  (∀ t l w, authed t → v = (t, l, w) → wp m (λ _, moves v) v) → wp (requireAuth tag m) (λ _, moves v) v.
Proof.
  destruct v as [[t l] w]. intros Hm. unfold requireAuth. apply wp_bind, imap_wp_get_tr.
  destruct (decide _) as [Hs|Hs]; [|by eapply Hm]. imap_run. apply rtc_refl.
Qed.

(** A mailbox that was opened, whatever is done next. *)
Lemma wp_openMailbox name (Q : result Mailbox → visible → Prop) t l w :
  Q (OpenMailbox env (s_root t) (normalizeMailbox name) w).1
    (t, l, (OpenMailbox env (s_root t) (normalizeMailbox name) w).2) →
  wp (S := session A) (openMailbox env name) Q (t, l, w).
Proof. intros HQ. unfold openMailbox. by apply wp_bind, imap_wp_get_tr, imap_wp_os. Qed.

Lemma opened_moves fld t l w : authed t → moves (t, l, w) (t, l, (OpenMailbox env (s_root t) fld w).2).
Proof. intros Ha. by apply imap_moved, I_open. Qed.

Lemma cmdSelect_moves tag p ex v : wp (S := session A) (cmdSelect env sets tag p ex) (λ _, moves v) v.
Proof.
  apply requireAuth_moves. intros t l w Ha ->. cbv zeta.
  apply wp_bind, wp_quiet; [apply imap_quiet_next|]. intros [[n|] q]; [|imap_run; apply rtc_refl].
  apply wp_bind, wp_openMailbox. destruct (OpenMailbox env (s_root t) _ w) as [[mb|e] w'] eqn:E; cbn [fst snd].
  - imap_run. apply imap_moved. by eapply I_select.
  - pose proof (opened_moves (normalizeMailbox (t_str n)) t l w Ha) as Ho. rewrite E in Ho. imap_run. exact Ho.
Qed.

Lemma cmdList_moves tag p v : wp (S := session A) (cmdList env sets tag p) (λ _, moves v) v.
Proof.
  apply requireAuth_moves. intros t l w Ha ->.
  assert (Hf : moves (t, l, w) (t, l, (Folders env (s_root t) w).2)) by by apply imap_moved, I_folders.
  imap_run; first [exact Hf|apply rtc_refl].
Qed.

Lemma cmdStatus_moves tag p v : wp (S := session A) (cmdStatus env sets tag p) (λ _, moves v) v.
Proof.
  apply requireAuth_moves. intros t l w Ha ->.
  apply wp_bind, wp_quiet; [apply imap_quiet_next|]. intros [[n|] q]; [|imap_run; apply rtc_refl].
  apply wp_bind, wp_quiet; [apply imap_quiet_next|]. intros [[[s items []]|] q2]; [|imap_run; apply rtc_refl..].
  apply wp_bind, wp_openMailbox.
  pose proof (opened_moves (normalizeMailbox (t_str n)) t l w Ha) as Ho. imap_run; exact Ho.
Qed.

Lemma cmdSubscribe_moves tag p v : wp (S := session A) (cmdSubscribe env sets tag p) (λ _, moves v) v.
Proof.
  apply requireAuth_moves. intros t l w Ha ->.
  apply wp_bind, wp_quiet; [apply imap_quiet_next|]. intros [[n|] q]; [|imap_run; apply rtc_refl].
  apply wp_bind, wp_openMailbox.
  pose proof (opened_moves (normalizeMailbox (t_str n)) t l w Ha) as Ho. imap_run; exact Ho.
Qed.

Lemma folder_command_moves tag p name f v :
  (∀ fld t l w, authed t → moves (t, l, w) (t, l, (f (s_root t) fld w).2)) →
  wp (S := session A) (folder_command sets tag p name f) (λ _, moves v) v.
Proof.
  intros Hf. apply requireAuth_moves. intros t l w Ha ->.
  apply wp_bind, wp_quiet; [apply imap_quiet_next|]. intros [[n|] q]; [|imap_run; apply rtc_refl].
  pose proof (Hf (normalizeMailbox (t_str n)) t l w Ha) as Ho. imap_run; exact Ho.
Qed.

Lemma report_appended_moves mb v0 v : moves v0 v →
  wp (S := session A) (report_appended env mb) (λ _, moves v0) v.
Proof.
  destruct v as [[t l] w]. intros Hv. unfold report_appended. apply wp_bind, imap_wp_get_tr.
  destruct (mbox t) as [cur|] eqn:Em; [|by apply wp_ret].
  destruct (_ && _)%bool eqn:E; [|by apply wp_ret]. reflect_bool.
  apply wp_bind. eapply wp_mono; [|by apply within_refresh]. cbn beta. intros _ v1 [Hv1 _].
  apply wp_quiet; [|intros _; by etrans].
  apply quiet_bind; [apply imap_quiet_get_tr|]. intros t1. destruct (mbox t1); [|done].
  apply quiet_bind; [apply quiet_out|done].
Qed.

Lemma cmdAppend_moves tag p v : wp (S := session A) (cmdAppend env sets tag p) (λ _, moves v) v.
Proof.
  apply requireAuth_moves. intros t l w Ha ->.
  apply wp_bind, wp_quiet; [apply imap_quiet_next|]. intros [[n|] q]; [|imap_run; apply rtc_refl].
  apply wp_bind, wp_quiet; [apply quiet_append_loop|]. intros args.
  destruct (is_empty (a_data args)); [imap_run; apply rtc_refl|].
  apply wp_bind, wp_openMailbox.
  destruct (OpenMailbox env (s_root t) (normalizeMailbox (t_str n)) w) as [[mb|e] w1] eqn:E; cbn [fst snd].
  2:{ pose proof (opened_moves (normalizeMailbox (t_str n)) t l w Ha) as Ho. rewrite E in Ho. imap_run. exact Ho. }
  apply wp_bind, imap_wp_os.
  pose proof (imap_moved _ _ (I_append t l w _ mb w1 (a_data args) (a_flags args) (a_internal args) Ha E)) as Hm.
  destruct (Append env mb (a_data args) (a_flags args) (a_internal args) w1) as [[[mb' [m|e]]|e] w2]; cbn [fst snd] in *;
    [|imap_run; exact Hm..].
  apply wp_bind. eapply wp_mono; [|by apply (report_appended_moves mb' (t, l, w))]. cbn beta. intros _ v1 Hv1.
  imap_run. exact Hv1.
Qed.

(** *** Whole sessions *)

Lemma go_moves {R} (m : M A R) v : wp m (λ _, moves v) v → wp (m;; mret (M := M A) false) (λ _, moves v) v.
Proof.
  intros Hm. apply wp_bind. eapply wp_mono; [|exact Hm]. cbn beta. intros r v' Hv. by apply wp_ret.
Qed.

Lemma command_moves tag cmd u p v :
  wp (command env Authenticate sets others idle ParseAddressList zone tag cmd u p) (λ _, moves v) v.
Proof.
  unfold command. cbv zeta.
  assert (Hq : ∀ x, wp (out (A := A) x;; mret tt) (λ _ : unit, moves v) v)
    by (intros x; apply reads_moves; apply quiet_bind; [apply quiet_out|done]).
  repeat (lazymatch goal with |- wp (if ?b then _ else _) _ _ => destruct b end).
  - apply reads_moves. apply quiet_bind; [apply quiet_capabilities|]. intros caps.
    repeat (apply quiet_bind; [|done]). apply quiet_bind; [apply quiet_out|]. intros _.
    apply quiet_bind; [apply quiet_out|done].
  - apply go_moves, cmdNoop_moves.
  - apply reads_moves. repeat (apply quiet_bind; [apply quiet_out|intros _]). done.
  - apply starttls_moves.
  - apply go_moves, cmdLogin_moves.
  - apply go_moves, cmdAuthenticate_moves.
  - apply go_moves, cmdSelect_moves.
  - apply go_moves, cmdSelect_moves.
  - apply go_moves, cmdList_moves.
  - apply go_moves, cmdStatus_moves.
  - apply go_moves, folder_command_moves. intros. by apply imap_moved, I_create.
  - apply go_moves, folder_command_moves. intros. by apply imap_moved, I_delete.
  - apply go_moves, cmdSubscribe_moves.
  - apply reads_moves. repeat (apply quiet_bind; [|done]). apply quiet_bind; [apply quiet_out|]. intros _.
    apply quiet_bind; [apply quiet_out|done].
  - apply go_moves, requireSelected_keeps. intros v0. answer.
  - apply go_moves, cmdClose_moves.
  - apply go_moves, cmdUnselect_moves.
  - apply go_moves, cmdExpunge_moves.
  - apply go_moves, cmdAppend_moves.
  - apply cmdFetch_moves.
  - apply go_moves, cmdStore_moves.
  - apply go_moves, cmdSearch_moves.
  - apply go_moves, cmdCopyMove_moves.
  - apply go_moves, cmdCopyMove_moves.
  - apply go_moves, cmdIdle_moves.
  - apply go_moves, Hq.
Qed.

Lemma dispatch_moves line v :
  wp (dispatch env Authenticate sets others idle ParseAddressList zone line) (λ _, moves v) v.
Proof.
  assert (Hq : ∀ x, wp (out (A := A) x;; mret false) (λ _ : bool, moves v) v)
    by (intros x; apply reads_moves; apply quiet_bind; [apply quiet_out|done]).
  apply wp_bind, wp_quiet; [apply imap_quiet_next|]. intros [[tag|] p]; [|apply Hq]. cbv zeta.
  apply wp_bind, wp_quiet; [apply imap_quiet_next|]. intros [[cmd|] p2]; [|apply Hq].
  destruct (String.eqb (upper cmd) "UID"); [|apply command_moves].
  apply wp_bind, wp_quiet; [apply imap_quiet_next|]. intros [[sub|] p3]; [|apply Hq].
  destruct (mem _ _); [apply command_moves|apply Hq].
Qed.

Lemma imap_step_moves v : wp (step env Authenticate sets others idle ParseAddressList zone) (λ _, moves v) v.
Proof.
  apply wp_bind, wp_quiet; [apply quiet_read_limited|]. intros [line|]; [|apply wp_ret, rtc_refl].
  destruct (is_empty (TrimSpace line)); [apply wp_ret, rtc_refl|].
  destruct v as [[t l] w]. apply wp_bind, imap_wp_interfere. intros n.
  eapply wp_mono; [|apply dispatch_moves]. cbn beta. intros q v' Hv.
  etrans; [|exact Hv]. apply imap_moved, I_others.
Qed.

Lemma run_moves fuel s s' : run env Authenticate sets others idle ParseAddressList zone fuel s = Some s' →
  moves (view s) (view s').
Proof.
  unfold run. assert (Hg : quiet (S := session A) (greet sets)).
  { apply quiet_bind; [apply quiet_capabilities|]. intros caps. apply quiet_bind; [done|]. intros x. apply quiet_out. }
  specialize (Hg s). destruct (greet sets s) as [f s1]. cbn [snd] in Hg.
  change (observe s1) with (view s1) in Hg. change (observe s) with (view s) in Hg. rewrite <- Hg.
  destruct f; [intros [= <-]; apply rtc_refl|]. intros Hl.
  refine (turns_keep (step env Authenticate sets others idle ParseAddressList zone) (moves (view s1)) (moves (view s1))
    _ fuel s1 s' _ Hl); [|apply rtc_refl].
  intros v Hv. eapply wp_mono; [|apply imap_step_moves]. cbn beta. intros q v' Hv'. destruct q; by etrans.
Qed.

(** C7: an IMAP session is a sequence of the moves of the protocol, whatever
    the client sends, the backend answers and the other processes do. *)
Theorem imap_refines fuel s s' :
  run env Authenticate sets others idle ParseAddressList zone fuel s = Some s' → moves (view s) (view s').
Proof. apply run_moves. Qed.
End protocol.

(** ** Safety *)

(** A session before its first command. *)
Definition imap_fresh {A} (s : session A) : Prop :=
  ∃ b, tr s = MkTrans stateNotAuthenticated b "" [] None false ∧ log s = [].

Definition over_tls (e : event) : Prop := match e with EvAuth _ _ b _ => b = true | EvPanic => True end.

Section safety.
Context `{SliceSort} {A : Type} (env : Env) (Authenticate : Backend A) (sets : nat → Settings)
  (others : nat → World → World) (idle : nat → nat * bool)
  (ParseAddressList : string → option (list Address)) (zone : Z → Z).

(** The work of the other processes alone. *)
Definition undisturbed : World → World → Prop := rtc (λ w w', ∃ n, w' = others n w).

(** The backend gave this root for accepted credentials. *)
Definition accepted_root (l : list event) (rt : path) : Prop := ∃ u p, EvAuth u p true (Ok rt) ∈ l.

Record safe (w0 : World) (v : visible) : Prop := {
  sf_tls : Forall over_tls v.1.2;
  sf_authed : authed v.1.1 → tls v.1.1 = true ∧ accepted_root v.1.2 (s_root v.1.1);
  sf_selected : st v.1.1 = stateSelected → is_Some (mbox v.1.1);
  sf_root mb : mbox v.1.1 = Some mb → authed v.1.1 ∧ root mb = s_root v.1.1;
  sf_quiet : (∀ rt, ¬ accepted_root v.1.2 rt) → undisturbed w0 v.2 ∧ EvPanic ∉ v.1.2;
}.

Lemma imap_accepted_app l k rt : accepted_root l rt → accepted_root (l ++ k) rt.
Proof. intros (u&p&Hin). exists u, p. apply elem_of_app. by left. Qed.

Lemma imap_accepted_snoc l u p rt : accepted_root (l ++ [EvAuth u p true (Ok rt)]) rt.
Proof. exists u, p. apply elem_of_app. right. constructor. Qed.

Lemma over_tls_snoc l e : Forall over_tls l → over_tls e → Forall over_tls (l ++ [e]).
Proof. intros Hl He. apply Forall_app. split; [done|]. by constructor. Qed.

Lemma imap_move_safe w0 v v' : move env others v v' → safe w0 v → safe w0 v'.
Proof.
  intros Hm [H1 H2 H3 H4 H5]. destruct Hm; simpl in *; split; simpl; auto using over_tls_snoc;
    try (intros Hn; exfalso; first
      [ destruct (H2 ltac:(first [assumption|by apply selected_authed])) as [_ Ha]; by apply (Hn (s_root t))
      | destruct (H2 ltac:(first [assumption|by apply selected_authed])) as [_ Ha];
        by apply (Hn (s_root t)), imap_accepted_app ]).
  - intros Hn. destruct (H5 Hn) as [Hu Hp]. split; [|done]. eapply rtc_r; [exact Hu|]. by exists n.
  - intros Ha. by destruct (H2 Ha).
  - by apply over_tls_snoc.
  - done.
  - intros Hn. rewrite not_elem_of_app, list_elem_of_singleton. split; [|split; [|done]]; apply H5; intros rt Hrt;
      by apply (Hn rt), imap_accepted_app.
  - by apply over_tls_snoc.
  - intros _. split; [done|apply imap_accepted_snoc].
  - done.
  - intros mb Hmb. by destruct (H4 mb Hmb).
  - intros Hn. destruct (Hn rt). apply imap_accepted_snoc.
  - intros mb0 [= <-]. split; [done|]. by eapply OpenMailbox_root.
  - intros mb0 [= <-]. split; [by apply selected_authed|]. erewrite Refresh_root by done. by apply H4.
  - intros mb0 [= <-]. split; [by apply selected_authed|]. erewrite SetFlags_root by done. by apply H4.
  - intros mb0 [= <-]. split; [by apply selected_authed|]. erewrite Expunge_root by done. by apply H4.
  - intros _. by apply H2, selected_authed.
  - done.
  - done.
  - by apply over_tls_snoc.
  - intros Ha. destruct (H2 Ha) as [Ht Hr]. split; [done|]. by apply imap_accepted_app.
Qed.

Lemma run_imap_safe fuel s s' : imap_fresh s →
  run env Authenticate sets others idle ParseAddressList zone fuel s = Some s' → safe (world s) (view s').
Proof.
  intros (b&Ht&Hl) Hv%run_moves. revert Hv.
  assert (H0 : safe (world s) (view s)).
  { unfold view. rewrite Ht, Hl. split; simpl; try done.
    intros _. split; [apply rtc_refl|apply not_elem_of_nil]. }
  generalize (view s'). intros v. revert H0. generalize (world s) as w0. intros w0 H0 Hv. revert H0.
  induction Hv as [|v1 v2 v3 Hm _ IH]; [done|]. intros H1. apply IH. by eapply imap_move_safe.
Qed.

(** C5: an IMAP session checks credentials over TLS only; whoever is
    authenticated is so over TLS, with a root the backend gave for accepted
    credentials, and the mailbox in use is one of that root; as long as no
    credentials were accepted the files are left to the other processes and
    no input makes the server panic. *)
Theorem imap_safe fuel s s' : imap_fresh s →
  run env Authenticate sets others idle ParseAddressList zone fuel s = Some s' →
  Forall over_tls (log s') ∧
  (st (tr s') ≠ stateNotAuthenticated → tls (tr s') = true ∧ accepted_root (log s') (s_root (tr s'))) ∧
  (st (tr s') = stateSelected → ∃ mb, mbox (tr s') = Some mb ∧ root mb = s_root (tr s')) ∧
  ((∀ rt, ¬ accepted_root (log s') rt) → undisturbed (world s) (world s') ∧ EvPanic ∉ log s').
Proof.
  intros Hf Hrun. destruct (run_imap_safe fuel s s' Hf Hrun) as [H1 H2 H3 H4 H5]. split_and!; try done.
  intros Hs. destruct (H3 Hs) as [mb Hmb]. exists mb. split; [done|by apply H4].
Qed.

(** ** Read-only mailboxes *)

(** A mailbox that was opened with [EXAMINE], and the files it found. *)
Definition examined (w0 : World) (v : visible) : Prop :=
  st v.1.1 = stateSelected ∧ readOnly v.1.1 = true ∧ w_files v.2 = w_files w0.

Definition files_kept {R} (w0 : World) (m : St (session A) R) : Prop :=
  ∀ v, examined w0 v → wp m (λ _ v', w_files v'.2 = w_files w0) v.

Lemma examined_look {R} (m : OS R) w0 : looks m → keeps (S := session A) (examined w0) (os m).
Proof.
  intros Hm [[t l] w] (Hs&Hr&Hw). apply imap_wp_os. destruct (Hm w) as (a&n&->). by split_and!.
Qed.

Lemma examined_fetch_loop w0 items u ps :
  keeps (S := session A) (examined w0) (fetch_loop env ParseAddressList zone items u ps).
Proof.
  induction ps as [|i ps IH]; [by apply keeps_quiet|]. cbn [fetch_loop].
  apply keeps_bind; [apply keeps_quiet, quiet_message_at|]. intros [[mb m]|]; [|done].
  apply keeps_bind; [apply examined_look; auto with looks|].
  intros [[[payload seen]|]|e]; [|by apply keeps_quiet..].
  intros [[t l] w] Hv. pose proof Hv as (_&Hr&_). cbn [fst] in Hr.
  apply wp_bind, imap_wp_get_tr. rewrite Hr, andb_false_r. cbn [negb andb]. revert Hv. generalize (t, l, w).
  apply keeps_bind; [by apply keeps_quiet|]. intros extra. apply keeps_bind; [done|]. intros ls. by apply keeps_quiet.
Qed.

Lemma kept_examined {R} w0 (m : M A R) : keeps (examined w0) m → files_kept w0 m.
Proof. intros Hm v Hv. eapply wp_mono; [|by apply Hm]. cbn beta. by intros r v' (_&_&Hw). Qed.

Lemma kept_selected {R} w0 tag (d : R) (m : M A R) : files_kept w0 m → files_kept w0 (requireSelected tag d m).
Proof.
  intros Hm [[t l] w] Hv. pose proof Hv as (Hs&_&Hw). unfold requireSelected. apply wp_bind, imap_wp_get_tr.
  rewrite decide_True by done. by apply Hm.
Qed.

Lemma kept_go {R} w0 (m : M A R) : files_kept w0 m → files_kept w0 (m;; mret (M := M A) false).
Proof.
  intros Hm v Hv. apply wp_bind. eapply wp_mono; [|by apply Hm]. cbn beta. intros r v' Hw. by apply wp_ret.
Qed.

Lemma kept_read_only {R} w0 (m m' : M A R) : quiet m →
  files_kept w0 (t ← get_tr; if readOnly t then m else m').
Proof.
  intros Hm [[t l] w] (_&Hr&Hw). cbn [fst snd] in Hr, Hw. apply wp_bind, imap_wp_get_tr. rewrite Hr. by apply wp_quiet.
Qed.

Lemma kept_unselect w0 (k : M A unit) : quiet k → files_kept w0 (t ← get_tr; put_tr (unselected t);; k).
Proof.
  intros Hk [[t l] w] (_&_&Hw). apply wp_bind, imap_wp_get_tr, wp_bind, imap_wp_put_tr. by apply wp_quiet.
Qed.

Lemma kept_fetch w0 tag p u : files_kept w0 (cmdFetch env sets ParseAddressList zone tag p u).
Proof.
  apply kept_selected, kept_examined. apply keeps_bind; [answer|]. intros [[set q]|]; [|answer]. cbv zeta.
  destruct (is_empty _); [answer|]. apply keeps_bind; [answer|]. intros ps.
  apply keeps_bind; [apply examined_fetch_loop|]. intros [ls|]; [answer|].
  apply keeps_bind; [|intros _; answer]. intros [[t l] w] Hv. by apply wp_panic.
Qed.

Lemma kept_search w0 tag p u : files_kept w0 (cmdSearch env sets zone tag p u).
Proof.
  apply kept_selected, kept_examined. apply keeps_bind; [answer|].
  intros [[|c crit]|]; [answer| |answer]. apply keeps_bind; [answer|]. intros t.
  destruct (mbox t) as [mb|]; [|answer]. apply keeps_bind; [apply examined_look; auto with looks|]. intros r. answer.
Qed.

Lemma kept_close w0 tag : files_kept w0 (cmdClose env tag).
Proof.
  apply kept_selected. intros [[t l] w] Hv. pose proof Hv as (_&Hr&_). cbn [fst] in Hr.
  apply wp_bind, imap_wp_get_tr. rewrite Hr. apply wp_bind, wp_ret.
  apply (kept_unselect w0); [apply quiet_bind; [apply quiet_out|done]|done].
Qed.

(** *** Copies out of it *)

(** The arguments [COPY] and [MOVE] read: the messages and the folder. *)
Definition copy_operands (tag name p : string) : M A (option (seqSet * string)) :=
  x ← seq_arg sets tag p name;
  match x with
  | None => mret None
  | Some (set, p) =>
      '(d, _) ← next sets p;
      mret ((λ d, (set, normalizeMailbox (t_str d))) <$> d)
  end.

(** Either the arguments are refused and the session is as it was for the
    protocol, or the copy is made of what they name. *)
Lemma cmdCopyMove_cases tag p u (move : bool) s : st (tr s) = stateSelected →
  match copy_operands tag (if move then "MOVE" else "COPY") p s with
  | (None, _) => view (cmdCopyMove env sets tag p u move s).2 = view s
  | (Some (set, dst), s1) => view s1 = view s ∧ cmdCopyMove env sets tag p u move s = copy_to env tag u move set dst s1
  end.
Proof.
  intros Hs. unfold cmdCopyMove, requireSelected, copy_operands, mbind, St_bind, get_tr, mret, St_ret. cbv beta iota zeta.
  rewrite decide_True by done. set (name := if move then "MOVE" else "COPY").
  pose proof (quiet_seq_arg sets tag p name s) as H1. destruct (seq_arg sets tag p name s) as [[[set q]|] s1]; [|done].
  pose proof (imap_quiet_next sets q s1) as H2. destruct (next sets q s1) as [[[d|] q2] s2]; cbn [snd fst fmap option_fmap option_map] in *.
  - split; [|done]. etrans; [exact H2|exact H1].
  - pose proof (quiet_out (A := A) (tag +:+ " BAD " +:+ name +:+ " needs a destination") s2) as H3. destruct (out _ s2) as [b s3].
    etrans; [exact H3|]. etrans; [exact H2|exact H1].
Qed.

(** The files a copy to a folder may write. *)
Definition copies_into (t : Trans) (dst : string) (p : path) : Prop :=
  list_file (folderDir (s_root t) dst) p ∨ ∃ mb, mbox t = Some mb ∧ copy_file env (folderDir (root mb) dst) p.

(** Nothing happened to the protocol, and to the files only what [P]
    allows. *)
Definition only_wrote (P : path → Prop) (v0 v : visible) : Prop :=
  v.1 = v0.1 ∧ ∀ p : path, w_files v.2 !! p = w_files v0.2 !! p ∨ P p.

Lemma only_wrote_refl P v : only_wrote P v v. Proof. split; [done|by left]. Qed.

Lemma only_wrote_mbox P v (s : session A) : only_wrote P v (view s) → mbox (tr s) = mbox v.1.1.
Proof. intros [Hv _]. by rewrite <- Hv. Qed.

Lemma only_wrote_os {R} P (m : OS R) v0 t l w : alters P m → only_wrote P v0 (t, l, w) → only_wrote P v0 (t, l, (m w).2).
Proof.
  intros Hm [H1 H2]. split; [done|]. intros p. destruct (Hm w p) as [E|?]; [|by right]. cbn in *. rewrite E. apply H2.
Qed.

Lemma only_wrote_mono P Q v0 v : (∀ p, P p → Q p) → only_wrote P v0 v → only_wrote Q v0 v.
Proof. intros HPQ [H1 H2]. split; [done|]. intros p. destruct (H2 p); [by left|right; auto]. Qed.

Lemma copy_loop_writes dst ps v0 : keeps (S := session A) (only_wrote (copies_into v0.1.1 dst) v0) (copy_loop env dst ps).
Proof.
  induction ps as [|i ps IH]; [by apply keeps_quiet|]. cbn [copy_loop].
  intros [[t l] w] Hv. unfold message_at. apply wp_bind, wp_bind, imap_wp_get_tr, wp_ret.
  destruct (mbox t) as [mb|] eqn:Em; [|by apply IH]. destruct (messages mb !! i) as [m|]; [|by apply IH].
  apply wp_bind, imap_wp_os.
  assert (Hv' : only_wrote (copies_into v0.1.1 dst) v0 (t, l, (CopyTo env mb m dst w).2)).
  { apply only_wrote_os; [|done]. eapply alters_mono; [|apply alters_CopyTo]. intros p Hp. right. exists mb. split; [|done].
    destruct Hv as [Ht _]. cbn in Ht. by rewrite <- Ht. }
  destruct ((CopyTo env mb m dst w).1); [by apply IH|by apply wp_ret].
Qed.

(** Opening the destination writes its UID list only. *)
Lemma open_writes dst t l w : only_wrote (list_file (folderDir (s_root t) dst)) (t, l, w) (t, l, (OpenMailbox env (s_root t) dst w).2).
Proof. apply only_wrote_os; [apply alters_OpenMailbox|apply only_wrote_refl]. Qed.

Lemma copy_writes tag u set dst v0 :
  wp (S := session A) (copy_to env tag u false set dst) (λ _, only_wrote (copies_into v0.1.1 dst) v0) v0.
Proof.
  destruct v0 as [[t l] w]. unfold copy_to. cbv zeta. apply wp_bind, imap_wp_get_tr, wp_bind, imap_wp_os.
  pose proof (only_wrote_mono _ (copies_into t dst) _ _ ltac:(by left) (open_writes dst t l w)) as Ho.
  destruct (OpenMailbox env (s_root t) dst w) as [[mb|e] w1]; cbn [fst snd andb] in *; [|by imap_run].
  apply wp_bind, wp_quiet; [auto with quiet|]. intros ps. apply wp_bind.
  eapply wp_mono; [|exact (copy_loop_writes dst ps (t, l, w) (t, l, w1) Ho)]. cbn beta. intros [] v Hv; cbn [negb]; cbv iota; by imap_run.
Qed.

(** On a mailbox opened read-only [MOVE] goes no further. *)
Lemma move_refused tag u set dst v0 : readOnly v0.1.1 = true →
  wp (S := session A) (copy_to env tag u true set dst) (λ _, only_wrote (list_file (folderDir (s_root v0.1.1) dst)) v0) v0.
Proof.
  destruct v0 as [[t l] w]. cbn [fst]. intros Hr. unfold copy_to. cbv zeta. apply wp_bind, imap_wp_get_tr, wp_bind, imap_wp_os.
  pose proof (open_writes dst t l w) as Ho.
  destruct (OpenMailbox env (s_root t) dst w) as [[mb|e] w1]; cbn [fst snd andb] in *; [|by imap_run].
  rewrite Hr. by imap_run.
Qed.

(** The commands on the messages of the mailbox in use, those that copy
    them to a folder apart. *)
Definition message_commands : list string :=
  ["FETCH"; "STORE"; "SEARCH"; "EXPUNGE"; "CLOSE"; "UNSELECT"; "CHECK"].

(** C18: a mailbox opened with [EXAMINE] is not written.  [FETCH], [STORE],
    [SEARCH], [EXPUNGE], [CLOSE], [UNSELECT] and [CHECK] change no file,
    whatever their arguments are.  [COPY] and [MOVE] leave the mailbox in
    use, its flags and its state as they are, and change no file unless
    they name a folder: then [MOVE] writes nothing but the UID list of the
    folder, which it opens before it sees that it may not remove the
    originals, and [COPY], whose folder may be the one that is examined,
    that list and files under names it makes up. *)
Theorem examine_read_only tag cmd u p s : st (tr s) = stateSelected → readOnly (tr s) = true →
  let s' := (command env Authenticate sets others idle ParseAddressList zone tag cmd u p s).2 in
  (cmd ∈ message_commands → w_files (world s') = w_files (world s)) ∧
  (cmd ∈ ["COPY"; "MOVE"] → tr s' = tr s ∧ ∀ q : path, w_files (world s') !! q = w_files (world s) !! q ∨
     ∃ set dst, (copy_operands tag cmd p s).1 = Some (set, dst) ∧
       if String.eqb cmd "MOVE" then list_file (folderDir (s_root (tr s)) dst) q else copies_into (tr s) dst q).
Proof.
  intros Hs Hr. split.
  - intros Hc.
    enough (Hk : files_kept (world s) (command env Authenticate sets others idle ParseAddressList zone tag cmd u p))
      by (by apply (Hk (view s) ltac:(by split_and!) s)).
    revert Hc. unfold message_commands. rewrite !elem_of_cons, elem_of_nil.
    intros [-> |[-> |[-> |[-> |[-> |[-> |[-> |[]]]]]]]].
    + apply kept_fetch.
    + apply kept_go, kept_selected, kept_read_only. apply quiet_bind; [apply quiet_out|done].
    + apply kept_go, kept_search.
    + apply kept_go, kept_selected, kept_read_only. apply quiet_bind; [apply quiet_out|done].
    + apply kept_go, kept_close.
    + apply kept_go, kept_selected, kept_unselect. apply quiet_bind; [apply quiet_out|done].
    + apply kept_go, kept_selected, kept_examined. answer.
  - set (kept := λ (move : bool) (s' : session A), tr s' = tr s ∧ ∀ q : path, w_files (world s') !! q = w_files (world s) !! q ∨
      ∃ set dst, (copy_operands tag (if move then "MOVE" else "COPY") p s).1 = Some (set, dst) ∧
        if move then list_file (folderDir (s_root (tr s)) dst) q else copies_into (tr s) dst q).
    assert (Hgo : ∀ move, kept move (cmdCopyMove env sets tag p u move s).2).
    { intros move. unfold kept. pose proof (cmdCopyMove_cases tag p u move s Hs) as Hc.
      destruct (copy_operands _ _ p s) as [[[set dst]|] s1].
      - destruct Hc as [Hv ->].
        assert (Hw : only_wrote (λ q, if move then list_file (folderDir (s_root (tr s)) dst) q else copies_into (tr s) dst q)
          (view s) (view (copy_to env tag u move set dst s1).2)).
        { destruct move; [by apply (move_refused tag u set dst (view s) Hr s1)|by apply (copy_writes tag u set dst (view s) s1)]. }
        destruct Hw as [[= Ht _] Hf]. split; [done|]. intros q. destruct (Hf q) as [?|?]; [by left|right; by exists set, dst].
      - injection Hc as -> _ ->. split; [done|by left]. }
    assert (Hrun : ∀ move, (command env Authenticate sets others idle ParseAddressList zone tag (if (move : bool) then "MOVE" else "COPY") u p s).2 =
      (cmdCopyMove env sets tag p u move s).2).
    { intros move. transitivity ((cmdCopyMove env sets tag p u move;; mret (M := M A) false) s).2; [by destruct move|].
      unfold mbind, St_bind, mret, St_ret. by destruct (cmdCopyMove env sets tag p u move s). }
    rewrite !elem_of_cons, elem_of_nil. intros [-> |[-> |[]]].
    + rewrite (Hrun false). apply (Hgo false).
    + rewrite (Hrun true). apply (Hgo true).
Qed.
End safety.
