(* ===== verification/ImapFlow.v ===== *)
(** * IMAP: what the commands do

    Termination of a session, the wildcards of [LIST] against a reference
    definition, what [STORE], [COPY], [MOVE] and [APPEND] do to the
    messages, and a session evaluated from end to end. *)

From S2P Require Import Prelude GoStrings GoNum GoBase64 GoTime GoMail GoIO Session Fs Maildir Mailbox MailFiles CopyFiles.
From S2P Require Import ImapParse ImapFetch Imap ImapSafety.

(** ** Termination *)

Section shrinking.
Context `{SliceSort} {A : Type} (env : Env) (Authenticate : Backend A) (sets : nat → Settings)
  (others : nat → World → World) (idle : nat → nat * bool).

Lemma imap_shrinks_get_tr : shrinks (S := session A) get_tr. Proof. by apply shrinks_still. Qed.
Lemma imap_shrinks_put_tr t : shrinks (S := session A) (put_tr t). Proof. by apply shrinks_still. Qed.
Lemma imap_shrinks_set : shrinks (S := session A) (set sets). Proof. by apply shrinks_still. Qed.
Lemma imap_shrinks_interfere : shrinks (S := session A) (interfere others). Proof. by apply shrinks_still. Qed.
Lemma shrinks_idle_window : shrinks (S := session A) (idle_window idle). Proof. by apply shrinks_still. Qed.
Lemma shrinks_panic : shrinks (S := session A) panic. Proof. by apply shrinks_still. Qed.
Lemma imap_shrinks_os {R} (m : OS R) : shrinks (S := session A) (os m).
Proof. apply shrinks_still. intros s. unfold os. by destruct (m (world s)). Qed.
Lemma shrinks_check_credentials u p : shrinks (check_credentials Authenticate u p).
Proof. apply shrinks_still. intros s. unfold check_credentials. by destruct (Authenticate _ _ _ _). Qed.

Lemma shrinks_out x : shrinks (S := session A) (out x). Proof. apply shrinks_send_lines. Qed.

Lemma shrinks_outs ls : shrinks (S := session A) (outs ls).
Proof. induction ls as [|l ls IH]; [apply shrinks_ret|]. apply shrinks_bind; [apply shrinks_out|by intros _]. Qed.

Lemma shrinks_flush_raw ls : shrinks (S := session A) (flush_raw ls).
Proof. destruct ls; [apply shrinks_ret|apply shrinks_send_lines]. Qed.

Lemma shrinks_read_full n : shrinks (S := session A) (read_full n).
Proof.
  apply shrinks_get_conn. intros s. destruct (slen (c_in (channel s)) <? n);
    (apply shrinks_put_conn; [apply shrinks_ret|]); unfold budget; simpl; [lia|].
  unfold slice_from. rewrite sdrop_length. lia.
Qed.
End shrinking.

#[export] Hint Resolve imap_shrinks_get_tr imap_shrinks_put_tr imap_shrinks_set imap_shrinks_interfere
  shrinks_idle_window shrinks_panic imap_shrinks_os shrinks_check_credentials shrinks_out shrinks_outs
  shrinks_flush_raw shrinks_read_full : shrinks.

Section total.
Context `{SliceSort} {A : Type} (env : Env) (Authenticate : Backend A) (sets : nat → Settings)
  (others : nat → World → World) (idle : nat → nat * bool)
  (ParseAddressList : string → option (list Address)) (zone : Z → Z).

Lemma shrinks_readLiteral n : shrinks (S := session A) (readLiteral sets n).
Proof. unfold readLiteral. shrink. Qed.

Lemma shrinks_next p : shrinks (S := session A) (next sets p).
Proof.
  apply (next_lifts (readLiteral sets) (λ _ m, shrinks m));
    [intros; apply shrinks_ret|intros; by apply shrinks_bind|apply shrinks_readLiteral].
Qed.

Lemma shrinks_all p : shrinks (S := session A) (all sets p).
Proof.
  apply (all_lifts (readLiteral sets) (λ _ m, shrinks m));
    [intros; apply shrinks_ret|intros; by apply shrinks_bind|apply shrinks_readLiteral].
Qed.
#[local] Hint Resolve shrinks_next shrinks_all : shrinks.

Lemma shrinks_append_loop fuel : ∀ args p, shrinks (S := session A) (append_loop sets fuel args p).
Proof. induction fuel as [|fuel IH]; intros args p; cbn [append_loop]; shrink. Qed.

Lemma shrinks_on_mbox {R} (d : R) f : shrinks (S := session A) (on_mbox d f).
Proof. unfold on_mbox. shrink. Qed.

Lemma shrinks_message_at i : shrinks (S := session A) (message_at i).
Proof. unfold message_at. shrink. Qed.
#[local] Hint Resolve shrinks_append_loop shrinks_message_at : shrinks.
#[local] Hint Extern 1 (shrinks (refresh _)) => apply shrinks_on_mbox : shrinks.
#[local] Hint Extern 1 (shrinks (set_flags _ _ _)) => apply shrinks_on_mbox : shrinks.
#[local] Hint Extern 1 (shrinks (expunge _)) => apply shrinks_on_mbox : shrinks.

Lemma shrinks_poll : shrinks (S := session A) (pollAndReport env).
Proof. unfold pollAndReport. shrink. Qed.
#[local] Hint Resolve shrinks_poll : shrinks.

Lemma shrinks_idle_polls n : shrinks (S := session A) (idle_polls env others n).
Proof. induction n; cbn [idle_polls]; shrink. Qed.

Lemma shrinks_capabilities : shrinks (S := session A) (capabilities sets).
Proof. unfold capabilities. shrink. Qed.

Lemma shrinks_seq_arg tag p name : shrinks (S := session A) (seq_arg sets tag p name).
Proof. unfold seq_arg. shrink. Qed.

Lemma shrinks_readResp tag prompt : shrinks (S := session A) (readResp tag prompt).
Proof. unfold readResp, readLine. shrink. Qed.
#[local] Hint Resolve shrinks_idle_polls shrinks_capabilities shrinks_seq_arg shrinks_readResp : shrinks.

Lemma shrinks_fetch_loop items u ps :
  shrinks (S := session A) (fetch_loop env ParseAddressList zone items u ps).
Proof. induction ps; cbn [fetch_loop]; shrink. Qed.

Lemma shrinks_store_loop op wanted silent u ps : shrinks (S := session A) (store_loop env op wanted silent u ps).
Proof. induction ps; cbn [store_loop]; shrink. Qed.

Lemma shrinks_copy_loop dst ps : shrinks (S := session A) (copy_loop env dst ps).
Proof. induction ps; cbn [copy_loop]; shrink. Qed.

Lemma shrinks_delete_loop ps : shrinks (S := session A) (delete_loop env ps).
Proof. induction ps; cbn [delete_loop]; shrink. Qed.

Lemma shrinks_authenticate_cmd tag u p : shrinks (authenticate Authenticate sets tag u p).
Proof. unfold authenticate. shrink. Qed.
#[local] Hint Resolve shrinks_fetch_loop shrinks_store_loop shrinks_copy_loop shrinks_delete_loop
  shrinks_authenticate_cmd : shrinks.

Lemma imap_shrinks_cmdStartTLS tag : shrinks (S := session A) (cmdStartTLS sets tag).
Proof.
  unfold cmdStartTLS. shrink. destruct (c_tls (channel s)) as [b|] eqn:E; [|done].
  apply shrinks_put_conn; [shrink|]. unfold budget. rewrite E. simpl. lia.
Qed.

Lemma shrinks_command tag cmd u p :
  shrinks (command env Authenticate sets others idle ParseAddressList zone tag cmd u p).
Proof.
  unfold command, cmdNoop, cmdLogin, cmdAuthenticate, authPlain, authLogin, finish_plain, cmdSelect, cmdList, cmdStatus,
    cmdCreate, cmdDelete, folder_command, cmdSubscribe, cmdClose, cmdUnselect, cmdExpunge, cmdAppend, append_arguments,
    report_appended, cmdFetch, selected_now, cmdStore, cmdSearch, cmdCopyMove, copy_to, remove_sources, cmdIdle, openMailbox,
    requireAuth, requireSelected. cbv zeta.
  shrink; apply imap_shrinks_cmdStartTLS.
Qed.

Lemma shrinks_dispatch_imap line :
  shrinks (dispatch env Authenticate sets others idle ParseAddressList zone line).
Proof. unfold dispatch. cbv zeta. shrink; apply shrinks_command. Qed.

Lemma imap_step_progress : ∀ s, (step env Authenticate sets others idle ParseAddressList zone s).1 = false →
  (budget (conn (step env Authenticate sets others idle ParseAddressList zone s).2) < budget (conn s))%nat.
Proof.
  unfold step, readLine. match goal with |- context [read_limited maxLine ≫= ?k] =>
    pose proof (turn_progress maxLine k (read_limited maxLine ≫= k) eq_refl) as Hp end.
  cbn [channel session_channel] in Hp. apply Hp; [done|]. intros l.
  destruct (is_empty _); [auto with shrinks|].
  apply shrinks_bind; [auto with shrinks|]. intros _. apply shrinks_dispatch_imap.
Qed.

(** C30: every IMAP session comes to an end, with any number of polls in
    every [IDLE]: as many turns as the client sends bytes, in clear and
    under TLS, are enough. *)
Theorem imap_total s : is_Some (run env Authenticate sets others idle ParseAddressList zone (S (budget (conn s))) s).
Proof.
  unfold run. assert (Hg : shrinks (S := session A) (greet sets)).
  { unfold greet. shrink. }
  specialize (Hg s). destruct (greet sets s) as [[] s1]; [by eexists|].
  apply turns_total; [apply imap_step_progress|]. cbn in Hg |- *. lia.
Qed.
End total.

(** ** The wildcards of [LIST] *)

(** RFC 3501: a star matches any text, a percent sign any text without the
    hierarchy delimiter, every other character itself. *)
Inductive glob : string → string → Prop :=
  | gl_end : glob "" ""
  | gl_star p a b : glob p b → glob (String "*" p) (a +:+ b)
  | gl_percent p a b : avoids "." a = true → glob p b → glob (String "%" p) (a +:+ b)
  | gl_char c p s : c ≠ "*"%char → c ≠ "%"%char → glob p s → glob (String c p) (String c s).

Definition try_star (pat : string) : string → bool :=
  fix try (s : string) : bool := wildcard pat s || match s with String _ s => try s | "" => false end.
Definition try_percent (pat : string) : string → bool :=
  fix try (s : string) : bool :=
    wildcard pat s || match s with String d s => negb (Ascii.eqb d ".") && try s | "" => false end.

Lemma wildcard_cons c pat s : wildcard (String c pat) s =
  if Ascii.eqb c "*" then is_empty pat || try_star pat s
  else if Ascii.eqb c "%" then try_percent pat s
  else match s with String d s => Ascii.eqb d c && wildcard pat s | "" => false end.
Proof. done. Qed.

Lemma try_star_spec pat s : try_star pat s = true ↔ ∃ a b, s = a +:+ b ∧ wildcard pat b = true.
Proof.
  induction s as [|c s IH]; cbn [try_star].
  - rewrite orb_false_r. split; [intros Hw; by exists "", ""|]. by intros ([|]&[|]&E&Hw).
  - fold (try_star pat). rewrite orb_true_iff, IH. split.
    + intros [Hw|(a&b&->&Hw)]; [by exists "", (String c s)|by exists (String c a), b].
    + intros ([|d a]&b&E&Hw); simpl in E; [left; by rewrite E|]. injection E as -> ->. right. by exists a, b.
Qed.

Lemma try_percent_spec pat s : try_percent pat s = true ↔
  ∃ a b, s = a +:+ b ∧ avoids "." a = true ∧ wildcard pat b = true.
Proof.
  induction s as [|c s IH]; cbn [try_percent].
  - rewrite orb_false_r. split; [intros Hw; by exists "", ""|]. by intros ([|]&[|]&E&_&Hw).
  - fold (try_percent pat). rewrite orb_true_iff, andb_true_iff, IH. split.
    + intros [Hw|[Hc (a&b&->&Ha&Hw)]]; [by exists "", (String c s)|]. exists (String c a), b.
      rewrite avoids_cons. split_and!; try done. intros ->. done.
    + intros ([|d a]&b&E&Ha&Hw); simpl in E; [left; by rewrite E|]. injection E as -> ->.
      apply avoids_cons in Ha as [Hd Ha]. right. split; [|by exists a, b].
      by destruct (Ascii.eqb_spec d ".").
Qed.

Lemma glob_star p s : glob (String "*" p) s ↔ ∃ a b, s = a +:+ b ∧ glob p b.
Proof.
  split; [|intros (a&b&->&Hg); by constructor]. intros Hg. inversion Hg; subst; [by do 2 eexists|done].
Qed.

Lemma glob_percent p s : glob (String "%" p) s ↔ ∃ a b, s = a +:+ b ∧ avoids "." a = true ∧ glob p b.
Proof.
  split; [|intros (a&b&->&Ha&Hg); by constructor]. intros Hg. inversion Hg; subst; [by do 2 eexists|done].
Qed.

Lemma glob_char c p s : c ≠ "*"%char → c ≠ "%"%char → glob (String c p) s ↔ ∃ s', s = String c s' ∧ glob p s'.
Proof.
  intros H1 H2. split; [|intros (s'&->&Hg); by constructor]. intros Hg. inversion Hg; subst; try done. by eexists.
Qed.

Lemma wildcard_spec pat : ∀ s, wildcard pat s = true ↔ glob pat s.
Proof.
  induction pat as [|c pat IH]; intros s.
  - split; [by destruct s; [constructor|]|]. intros Hg. by inversion Hg.
  - rewrite wildcard_cons. destruct (Ascii.eqb_spec c "*") as [->|Hs]; [|destruct (Ascii.eqb_spec c "%") as [->|Hp]].
    + rewrite orb_true_iff, try_star_spec, glob_star. split.
      * intros [He|(a&b&->&Hw)]; [|exists a, b; by rewrite <- IH].
        destruct pat; [|done]. exists s, "". rewrite sapp_nil_r. split; [done|constructor].
      * intros (a&b&->&Hg). right. exists a, b. by rewrite IH.
    + rewrite try_percent_spec, glob_percent. split; intros (a&b&->&Ha&Hw); exists a, b; by rewrite IH in *.
    + rewrite glob_char by done. destruct s as [|d s]; [split; [done|by intros (?&?&_)]|].
      rewrite andb_true_iff, IH. split.
      * intros [E Hg]. apply Ascii.eqb_eq in E as ->. by exists s.
      * intros (s'&[= -> ->]&Hg). by rewrite Ascii.eqb_refl.
Qed.

(** C29: the folders [LIST] answers with are those whose name matches the
    pattern as RFC 3501 defines it, or is the pattern up to case. *)
Theorem matchPattern_spec pattern name : pattern ≠ "" →
  matchPattern pattern name = true ↔ ToLower pattern = ToLower name ∨ glob pattern name.
Proof.
  intros Hp. unfold matchPattern, EqualFold. destruct (is_empty pattern) eqn:E; [by destruct pattern|].
  by rewrite orb_true_iff, String.eqb_eq, wildcard_spec.
Qed.
Lemma matchPattern_spec_witness :
  (matchPattern "Work.%" "Work.2024.Q1" = true ↔ ToLower "Work.%" = ToLower "Work.2024.Q1" ∨ glob "Work.%" "Work.2024.Q1") ∧
  matchPattern "Work.*1" "Work.2024.Q1" = true ∧ matchPattern "Work.%" "Work.2024.Q1" = false.
Proof. split; [by apply (matchPattern_spec "Work.%" "Work.2024.Q1")|split; vm_compute; reflexivity]. Defined.

(** ** [APPEND] *)

Section append.
Context `{SliceSort} {A : Type} (env : Env) (Authenticate : Backend A) (sets : nat → Settings)
  (others : nat → World → World) (idle : nat → nat * bool)
  (ParseAddressList : string → option (list Address)) (zone : Z → Z).

(** The session after lines were sent and input was read. *)
Definition talked (s : session A) (k : nat) (rest : string) (writes : nat) (lines : list string) : session A :=
  MkSession (ip s) (MkConn rest (c_tls (conn s)) writes (c_out (conn s) ++ lines)) (tr s) (k + n_sets s)%nat
    (n_turn s) (backend s) (world s) (log s).

Lemma send_lines_eq ls (s : session A) n : c_writes (conn s) = S n →
  send_lines ls s = (false, talked s 0 (c_in (conn s)) n ls).
Proof. intros Hw. unfold send_lines, mbind, St_bind, get_conn. cbn [channel session_channel]. by rewrite Hw. Qed.

Lemma out_eq x (s : session A) n : c_writes (conn s) = S n →
  out x s = (false, talked s 0 (c_in (conn s)) n [x]).
Proof. apply send_lines_eq. Qed.

Lemma readLiteral_eq msg more (s : session A) n : c_in (conn s) = msg +:+ more → c_writes (conn s) = S n →
  slen msg <= set_MaxSize (sets (n_sets s)) →
  readLiteral sets (slen msg) s = (Some msg, talked s 1 more n ["+ ready for literal"]).
Proof.
  intros Hin Hw Hmax. unfold readLiteral. erewrite St_bind_eq by reflexivity.
  rewrite (proj2 (Z.ltb_ge _ _)) by done. erewrite St_bind_eq by (by apply out_eq). cbv iota.
  unfold read_full, mbind, St_bind, get_conn. cbn [channel session_channel talked conn c_in].
  rewrite Hin, slen_app. pose proof (slen_nonneg more).
  rewrite (proj2 (Z.ltb_ge _ _)) by lia. unfold put_conn. cbn. by rewrite slice_to_app, slice_from_app.
Qed.

(** The text of a literal argument. *)
Lemma append_arguments_date msg more (s : session A) n : c_in (conn s) = msg +:+ more → c_writes (conn s) = S n →
  slen msg <= set_MaxSize (sets (n_sets s)) → slen msg <= 64 * 1024 * 1024 → looksLikeDate msg = true →
  ∃ args, append_arguments sets (" {" +:+ dec (slen msg) +:+ "}") s =
    (args, talked s 1 more n ["+ ready for literal"]) ∧ a_data args = "".
Proof.
  intros Hin Hw Hmax Hlen Hd. unfold append_arguments. cbn [append_loop String.append String.length].
  pose proof (slen_nonneg msg).
  erewrite St_bind_eq.
  2:{ unfold next. change (String " " (String "{" (dec (slen msg) +:+ "}"))) with (" {" +:+ dec (slen msg) +:+ "}").
      rewrite next_literal by lia. by erewrite readLiteral_eq. }
  cbn [fmap option_fmap option_map]. unfold append_arg. cbn [t_isList str_token t_str]. rewrite Hd.
  destruct (Parse_date_time msg) as [d|]; eexists; (split; [reflexivity|done]).
Qed.

(** a message with two hyphens and a colon, as every message with the
    usual header fields is, is taken for a date: [APPEND] reads it, answers
    that there is no message data and stores nothing. *)
Theorem append_hyphens tag name msg more s n : st (tr s) ≠ stateNotAuthenticated →
  c_in (conn s) = msg +:+ more → c_writes (conn s) = S (S n) →
  slen msg <= set_MaxSize (sets (n_sets s)) → slen msg <= 64 * 1024 * 1024 → looksLikeDate msg = true →
  cmdAppend env sets tag (quote name +:+ " {" +:+ dec (slen msg) +:+ "}") s =
    (tt, talked s 1 more n ["+ ready for literal"; tag +:+ " BAD APPEND needs message data"]).
Proof.
  intros Ha Hin Hw Hmax Hlen Hd. unfold cmdAppend, requireAuth. erewrite St_bind_eq by reflexivity.
  rewrite decide_False by done. erewrite St_bind_eq.
  2:{ unfold next. apply (next_print _ (str_token name)). constructor. }
  cbv beta iota.
  destruct (append_arguments_date msg more s (S n)) as (args&E&Hargs); [done..|].
  rewrite (St_bind_eq _ _ _ _ _ E), Hargs. cbn [is_empty]. cbv iota.
  erewrite St_bind_eq by (by apply out_eq). unfold talked. cbn. by rewrite <- app_assoc.
Qed.
End append.

(** ** [FETCH] of a section that is not closed *)

Lemma message_at_eq {A} i (s : session A) mb m : mbox (tr s) = Some mb → messages mb !! i = Some m →
  message_at i s = (Some (mb, m), s).
Proof. intros Hmb Hm. unfold message_at, get_tr, mbind, St_bind. cbn. by rewrite Hmb, Hm. Qed.

Section panics.
Context `{SliceSort} {A : Type} (env : Env) (sets : nat → Settings)
  (ParseAddressList : string → option (list Address)) (zone : Z → Z).

Lemma fetch_unclosed mb m u w : fetchItems env ParseAddressList zone mb m "BODY[" u w = (Ok None, w).
Proof. reflexivity. Qed.

(** a client that asks for the item [BODY[] without a closing bracket
    makes the server panic, in every mailbox in which the set selects a
    message: nothing is answered and the process ends. *)
Theorem fetch_unclosed_panics tag setstr set u s mb : st (tr s) = stateSelected → mbox (tr s) = Some mb →
  parseSeqSet setstr = Some set → selected (messages mb) set u ≠ [] →
  (cmdFetch env sets ParseAddressList zone tag (quote setstr +:+ " BODY[") u s) =
    (true, MkSession (A := A) (ip s) (conn s) (tr s) (n_sets s) (n_turn s) (backend s) (world s) (log s ++ [EvPanic])).
Proof.
  intros Hs Hm Hset Hsel. unfold cmdFetch, requireSelected. erewrite St_bind_eq by reflexivity.
  rewrite decide_True by done. unfold seq_arg. erewrite St_bind_eq.
  2:{ erewrite St_bind_eq by (unfold next; apply (next_print _ (str_token setstr)); constructor).
      cbv beta iota. cbn [t_str str_token]. rewrite Hset. reflexivity. }
  cbv beta iota zeta. change (TrimSpace (rest " BODY[")) with "BODY[". cbn [is_empty]. cbv iota.
  unfold selected_now. erewrite St_bind_eq by reflexivity. unfold msgs. rewrite Hm.
  destruct (selected (messages mb) set u) as [|i ps] eqn:E; [done|].
  assert (Hi : i ∈ selected (messages mb) set u) by (rewrite E; constructor).
  apply selected_elem in Hi as (m&Hi&_). erewrite St_bind_eq.
  2:{ cbn [fetch_loop]. erewrite St_bind_eq by (by apply message_at_eq). cbv beta iota.
      erewrite St_bind_eq by (unfold os; rewrite fetch_unclosed; reflexivity). reflexivity. }
  done.
Qed.
End panics.

(** ** [STORE] *)

Section store.
Context `{SliceSort} {A : Type} (env : Env) (sets : nat → Settings).

(** The session with a mailbox changed. *)
Definition stored (s : session A) (mb : Mailbox) (w : World) : session A :=
  MkSession (ip s) (conn s) (set_mbox (tr s) mb) (n_sets s) (n_turn s) (backend s) w (log s).

Lemma set_flags_eq i f (s : session A) mb m : mbox (tr s) = Some mb → messages mb !! i = Some m →
  ∃ e mb' w, set_flags env i f s = (e, stored s mb' w) ∧
  match e with
  | Some _ => mb' = mb
  | None => ∃ m', messages mb' = <[i := m']> (messages mb) ∧ UID m' = UID m ∧ Seq m' = Seq m ∧ m_Flags m' = f
  end ∧ SetFlags env mb i f (world s) = (Ok (mb', e), w) ∧
  (reliable env → tidy mb → placed (world s) mb → e = None ∧ tidy mb' ∧ placed w mb').
Proof.
  intros Hmb Hm. unfold set_flags, on_mbox. erewrite St_bind_eq by reflexivity. rewrite Hmb.
  destruct (SetFlags_total env mb i f (world s)) as ([mb' e]&w&E).
  exists e, mb', w. split; [|split; [by eapply SetFlags_messages|split; [done|]]].
  2:{ intros Hr Ht Hp. destruct (SetFlags_placed env mb i m f (world s) Hr Ht Hp Hm) as (mb1&w1&E1&Ht1&Hp1).
      rewrite E in E1. injection E1 as -> -> ->. done. }
  erewrite St_bind_eq by (unfold os; rewrite E; reflexivity). reflexivity.
Qed.

(** The flags a token names, and what an operation makes of the flags of a
    message. *)
Definition named (t : token) (x : Flag) : Prop := ∃ name, name ∈ flag_names t ∧ FlagFromIMAP name = Some x.

Definition updated (op : string) (by_name : Flag → Prop) (cur new : Flags) : Prop :=
  ∀ x, x ∈ new ↔
    if String.eqb op "+FLAGS" then x ∈ cur ∨ by_name x
    else if String.eqb op "-FLAGS" then x ∈ cur ∧ ¬ by_name x
    else by_name x.

(** The three operations [STORE] knows. *)
Definition store_ops : list string := ["FLAGS"; "+FLAGS"; "-FLAGS"].

Lemma elem_of_wanted names x : x ∈ wanted_flags names ↔ ∃ name, name ∈ names ∧ FlagFromIMAP name = Some x.
Proof.
  unfold wanted_flags. assert (Hg : ∀ f, x ∈ foldl (λ f name, match FlagFromIMAP name with Some x => Add f x | None => f end) f names
    ↔ x ∈ f ∨ ∃ name, name ∈ names ∧ FlagFromIMAP name = Some x).
  2:{ rewrite Hg, elem_of_nil. tauto. }
  induction names as [|n names IH]; intros f; cbn [foldl].
  - split; [by left|]. intros [?|(n&?%elem_of_nil&_)]; done.
  - rewrite IH. setoid_rewrite elem_of_cons. destruct (FlagFromIMAP n) as [y|] eqn:E.
    + rewrite elem_of_Add. split.
      * intros [[?| ->]|(n'&?&?)]; [by left|right; exists n; by split; [left|]|right; exists n'; by split; [right|]].
      * intros [?|(n'&[->|?]&?)]; [by left; left|left; right; congruence|right; by exists n'].
    + split; [intros [?|(n'&?&?)]; [by left|right; exists n'; by split; [right|]]|].
      intros [?|(n'&[->|?]&?)]; [by left|congruence|right; by exists n'].
Qed.

Lemma store_flags_updated op fl cur : op ∈ store_ops →
  ∃ new, store_flags op cur (wanted_flags (flag_names fl)) = Some new ∧ updated op (named fl) cur new.
Proof.
  unfold store_ops, updated, named. rewrite !elem_of_cons, elem_of_nil. intros [->|[->|[->|[]]]]; eexists; (split; [reflexivity|]).
  - intros x. cbn. apply elem_of_wanted.
  - intros x. cbn. by rewrite elem_of_Add_all, elem_of_wanted.
  - intros x. cbn. by rewrite elem_of_remove_all, elem_of_wanted.
Qed.

(** What [STORE] did to the messages: those at the positions of [hit] have
    their new flags, the others are as they were. *)
Definition stored_at (op : string) (by_name : Flag → Prop) (hit : list nat) (ms ms' : list Message) : Prop :=
  length ms' = length ms ∧ ∀ i m, ms !! i = Some m → ∃ m', ms' !! i = Some m' ∧ UID m' = UID m ∧ Seq m' = Seq m ∧
    if decide (i ∈ hit) then updated op by_name (m_Flags m) (m_Flags m') else m' = m.

(** The path [SetFlags] moves a message to. *)
Definition flagged_path (mb : Mailbox) (m : Message) (f : Flags) : path :=
  path_join (path_join (mb_dir mb) "cur") (FileName (BaseName (Name m)) f).

(** A run of [STORE] over the messages at some positions, one after
    another and each of them tried: [hit] are those that have their new
    flags, and one is left out only when the very renaming of its file
    that its new flags ask for failed. *)
Inductive storing (op : string) (by_name : Flag → Prop) : list nat → list nat → Mailbox → World → Mailbox → World → Prop :=
  | sg_done mb w : storing op by_name [] [] mb w mb w
  | sg_hit i ps hit mb m new mb1 mb' w w1 w' : messages mb !! i = Some m → updated op by_name (m_Flags m) new →
      SetFlags env mb i new w = (Ok (mb1, None), w1) →
      storing op by_name ps hit mb1 w1 mb' w' → storing op by_name (i :: ps) (i :: hit) mb w mb' w'
  | sg_miss i ps hit mb m new e mb' w w1 w' : messages mb !! i = Some m → updated op by_name (m_Flags m) new →
      msg_path mb m ≠ flagged_path mb m new →
      Rename env (msg_path mb m) (flagged_path mb m new) w = (Err e, w1) →
      storing op by_name ps hit mb w1 mb' w' → storing op by_name (i :: ps) hit mb w mb' w'.

Lemma storing_sublist op f ps hit mb w mb' w' : storing op f ps hit mb w mb' w' → hit `sublist_of` ps.
Proof. induction 1; by constructor. Qed.

(** A failure of [SetFlags] is that of its renaming. *)
Lemma SetFlags_failed i f mb m mb' e w w' : messages mb !! i = Some m →
  SetFlags env mb i f w = (Ok (mb', Some e), w') →
  msg_path mb m ≠ flagged_path mb m f ∧ Rename env (msg_path mb m) (flagged_path mb m f) w = (Err e, w').
Proof.
  intros Hm. unfold SetFlags. rewrite Hm. unfold mbind, OS_bind, os_try, flagged_path. case_bool_decide as Heq; [done|].
  destruct (Rename env _ _ w) as [[?|e1] w1]; [done|]. by intros [= <- <- <-].
Qed.

Lemma store_loop_eq op fl silent u ps : ∀ (s : session A) mb, mbox (tr s) = Some mb → NoDup ps →
  (∀ i, i ∈ ps → is_Some (messages mb !! i)) → op ∈ store_ops →
  ∃ mb' w hit, store_loop env op (wanted_flags (flag_names fl)) silent u ps s =
    (Some (if silent then [] else omap (λ i, (λ m, store_line m u) <$> messages mb' !! i) hit), stored s mb' w) ∧
    stored_at op (named fl) hit (messages mb) (messages mb') ∧ storing op (named fl) ps hit mb (world s) mb' w ∧
    (reliable env → tidy mb → placed (world s) mb → hit = ps).
Proof.
  induction ps as [|i ps IH]; intros s mb Hmb Hnd Hps Hop.
  { exists mb, (world s), []. cbn [store_loop omap list_omap]. split_and!; [|split; [done|]|constructor|done].
    - unfold stored, set_mbox. destruct s as [? ? [? ? ? ? ? ?] ? ? ? ? ?]. cbn in Hmb. subst. by destruct silent.
    - intros j m Hj. by exists m. }
  apply NoDup_cons in Hnd as [Hni Hnd]. destruct (Hps i ltac:(constructor)) as [m Hm].
  destruct (store_flags_updated op fl (m_Flags m) Hop) as (new&Hfl&Hnew).
  destruct (set_flags_eq i new s mb m Hmb Hm) as (e&mb1&w1&E&He&Ef&Hplaced).
  assert (Hlen : length (messages mb1) = length (messages mb)).
  { destruct e; [by subst|]. destruct He as (m'&->&_). by rewrite length_insert. }
  destruct (IH (stored s mb1 w1) mb1 eq_refl Hnd) as (mb'&w&hit&E2&[Hl Hst]&Htr&Hall); [|done|].
  { intros j Hj. apply lookup_lt_is_Some_2. rewrite Hlen. apply lookup_lt_is_Some_1, Hps. by constructor. }
  assert (Hid : i ∉ hit) by (intros Hin; apply Hni; by eapply elem_of_sublist, storing_sublist).
  cbn [store_loop]. erewrite St_bind_eq by (by apply message_at_eq). cbv beta iota. rewrite Hfl.
  rewrite (St_bind_eq _ _ _ _ _ E).
  assert (Hi1 : ∃ m1, messages mb1 !! i = Some m1).
  { apply lookup_lt_is_Some_2. rewrite Hlen. by eapply lookup_lt_Some. }
  destruct Hi1 as [m1 Hm1]. erewrite St_bind_eq by (by apply message_at_eq). rewrite (St_bind_eq _ _ _ _ _ E2).
  destruct (Hst i m1 Hm1) as (m2&Hm2&_&_&Hd). rewrite decide_False in Hd by done. subst m2.
  destruct e as [e|].
  - subst mb1. exists mb', w, hit. split_and!; [done|done| |].
    { destruct (SetFlags_failed _ _ _ _ _ _ _ _ Hm Ef) as [Hne Hren]. by apply (sg_miss _ _ i ps hit mb m new e mb' _ w1 w Hm Hnew Hne Hren). }
    intros Hr Ht Hp. by destruct (Hplaced Hr Ht Hp) as (?&_).
  - destruct He as (m'&Hins&Hu&Hs&Hf). exists mb', w, (i :: hit). split_and!.
    + cbn [omap list_omap]. rewrite Hm2. cbn [fmap option_fmap option_map]. by destruct silent.
    + split; [congruence|]. intros j mj Hj. destruct (decide (j = i)) as [->|Hne].
      * rewrite Hins, list_lookup_insert_eq in Hm1 by (by eapply lookup_lt_Some).
        injection Hm1 as <-. simplify_eq. exists m'. split_and!; [done..|].
        by rewrite decide_True by constructor.
      * destruct (Hst j mj) as (m3&H3&HU&HS&HD); [by rewrite Hins, list_lookup_insert_ne|].
        exists m3. split_and!; try done. destruct (decide (j ∈ hit)).
        -- by rewrite decide_True by (by constructor).
        -- rewrite decide_False; [done|]. by intros [->|]%elem_of_cons.
    + by eapply sg_hit.
    + intros Hr Ht Hp. destruct (Hplaced Hr Ht Hp) as (_&Ht1&Hp1). f_equal. by apply Hall.
Qed.

Lemma store_op_text op (silent : bool) : op ∈ store_ops →
  HasSuffix (ToUpper (op +:+ if silent then ".SILENT" else "")) ".SILENT" = silent ∧
  TrimSuffix (ToUpper (op +:+ if silent then ".SILENT" else "")) ".SILENT" = op.
Proof.
  unfold store_ops. rewrite !elem_of_cons, elem_of_nil. by intros [->|[->|[->|[]]]]; destruct silent.
Qed.

(** C20: [STORE] on a mailbox that is not read-only gives exactly the
    messages the set selects their new flags, the named ones, or those it
    had with the named ones added or removed.  Every selected message is
    tried, whatever became of those before it, and one is left out only
    when the renaming of its own file that its new flags ask for failed
    ([storing]); so none is when the files are in place and no call fails.
    No other message changes and none changes its UID or number.  The answer has a line with the new flags of each
    message that changed, unless the operation is silent. *)
Theorem store_spec tag setstr set op (silent : bool) fl u s mb n :
  st (tr s) = stateSelected → readOnly (tr s) = false → mbox (tr s) = Some mb → c_writes (conn s) = S (S n) →
  parseSeqSet setstr = Some set → op ∈ store_ops → printable fl →
  ∃ mb' w hit k, cmdStore (A := A) env sets tag (quote setstr +:+ String " "
      (quote (op +:+ if silent then ".SILENT" else "") +:+ String " " (print fl))) u s =
    (tt, MkSession (ip s) (MkConn (c_in (conn s)) (c_tls (conn s)) k (c_out (conn s) ++
      (if silent then [] else omap (λ i, (λ m, store_line m u) <$> messages mb' !! i) hit) ++
      [tag +:+ " OK STORE completed"])) (set_mbox (tr s) mb') (n_sets s) (n_turn s) (backend s) w (log s)) ∧
    stored_at op (named fl) hit (messages mb) (messages mb') ∧
    storing op (named fl) (selected (messages mb) set u) hit mb (world s) mb' w ∧
    (reliable env → tidy mb → placed (world s) mb → hit = selected (messages mb) set u).
Proof.
  intros Hs Hro Hmb Hw Hset Hop Hfl.
  destruct (store_loop_eq op fl silent u (selected (messages mb) set u) s mb Hmb) as (mb'&w&hit&E&Hst&Hsub).
  { apply selected_NoDup. }
  { intros i (m&Hi&_)%selected_elem. by exists m. }
  { done. }
  destruct (store_op_text op silent Hop) as [Hsil Htrim].
  unfold cmdStore, requireSelected. erewrite St_bind_eq by reflexivity. rewrite decide_True by done.
  erewrite St_bind_eq by reflexivity. rewrite Hro. cbv iota. unfold seq_arg. erewrite St_bind_eq.
  2:{ erewrite St_bind_eq by (unfold next; apply (next_print _ (str_token setstr)); constructor).
      cbv beta iota. cbn [t_str str_token]. rewrite Hset. reflexivity. }
  cbv beta iota. erewrite St_bind_eq.
  2:{ unfold next. rewrite next_space.
      apply (next_print _ (str_token (op +:+ if silent then ".SILENT" else ""))). constructor. }
  cbv beta iota zeta. unfold upper. cbn [t_str str_token]. rewrite Hsil, Htrim. erewrite St_bind_eq.
  2:{ unfold next. rewrite next_space. rewrite <- (sapp_nil_r (print fl)). by apply next_print. }
  cbv beta iota. erewrite St_bind_eq by reflexivity. unfold msgs. rewrite Hmb, (St_bind_eq _ _ _ _ _ E).
  cbv beta iota. set (lines := if silent then [] else _).
  exists mb', w, hit, (match lines with [] => S n | _ => n end). split; [|done].
  fold lines. destruct lines as [|l ls].
  - erewrite St_bind_eq by reflexivity. cbv beta. erewrite St_bind_eq by (apply out_eq; exact Hw). done.
  - erewrite St_bind_eq by (apply send_lines_eq; exact Hw). cbv beta.
    erewrite St_bind_eq by (apply out_eq; reflexivity). unfold talked. cbn. by rewrite <- app_assoc.
Qed.
End store.

(** ** [COPY] and [MOVE] *)

Section moving.
Context `{SliceSort} {A : Type} (env : Env) (sets : nat → Settings).

(** The messages at some positions copied one after another. *)
Inductive copied (mb : Mailbox) (dst : string) : list nat → World → World → Prop :=
  | cp_nil w : copied mb dst [] w w
  | cp_cons i m ps w w1 w2 : messages mb !! i = Some m → CopyTo env mb m dst w = (Ok tt, w1) →
      copied mb dst ps w1 w2 → copied mb dst (i :: ps) w w2.

Lemma copy_loop_copied mb dst t l ps : mbox t = Some mb → (∀ i, i ∈ ps → is_Some (messages mb !! i)) → ∀ w,
  wp (S := session A) (copy_loop env dst ps)
    (λ ok v', ok = true → ∃ w', v' = (t, l, w') ∧ copied mb dst ps w w') (t, l, w).
Proof.
  intros Hmb. induction ps as [|i ps IH]; intros Hps w; cbn [copy_loop].
  { apply wp_ret. intros _. exists w. split; [done|constructor]. }
  destruct (Hps i ltac:(constructor)) as [m Hm].
  unfold message_at. apply wp_bind, wp_bind, imap_wp_get_tr, wp_ret. rewrite Hmb, Hm.
  apply wp_bind, imap_wp_os. destruct (CopyTo env mb m dst w) as [[[]|e] w1] eqn:E; cbn [fst snd]; [|by apply wp_ret].
  eapply wp_mono; [|apply IH; intros j Hj; apply Hps; by constructor]. cbn beta.
  intros ok v' Hok Ht. destruct (Hok Ht) as (w'&->&Hc). exists w'. split; [done|]. by econstructor.
Qed.

(** What a [MOVE] of some messages to a folder leaves of a session: the
    mailbox in use is as it was, and at most copies were written; or the
    folder was opened, every one of the messages was copied to it, one
    after another, and then those messages were removed. *)
Definition moved_safely (tag : string) (ps : list nat) (dst : string) (mb : Mailbox) (v0 v : visible) : Prop :=
  only_wrote (copies_into env v0.1.1 dst) v0 v ∨
  ∃ dmb w1 w2 s2, OpenMailbox env (s_root v0.1.1) dst v0.2 = (Ok dmb, w1) ∧ copied mb dst ps w1 w2 ∧
    view (A := A) s2 = (v0.1, w2) ∧ v = view (remove_sources env tag ps s2).2.

Lemma copy_to_moves tag u set dst mb v0 : mbox v0.1.1 = Some mb →
  wp (S := session A) (copy_to env tag u true set dst) (λ _, moved_safely tag (selected (messages mb) set u) dst mb v0) v0.
Proof.
  destruct v0 as [[t l] w]. cbn [fst]. intros Hmb. unfold copy_to. cbv zeta.
  apply wp_bind, imap_wp_get_tr, wp_bind, imap_wp_os.
  pose proof (only_wrote_mono _ (copies_into env t dst) _ _ ltac:(by left) (open_writes env dst t l w)) as Ho.
  destruct (OpenMailbox env (s_root t) dst w) as [[dmb|e] w1] eqn:Eo; cbn [fst snd] in *; [|by imap_run; left].
  destruct (true && readOnly t); [by imap_run; left|].
  unfold selected_now. apply wp_bind, wp_bind, imap_wp_get_tr, wp_ret. unfold msgs. rewrite Hmb.
  set (ps := selected (messages mb) set u). apply wp_bind. eapply wp_mono; [|eapply wp_and].
  3: exact (copy_loop_writes env dst ps (t, l, w) (t, l, w1) Ho).
  2: apply (copy_loop_copied mb); [done|by intros i (m&Hm&_)%selected_elem; exists m].
  cbn beta. intros [] v [Hc Hk]; cbn [negb]; cbv iota; [|by imap_run; left].
  destruct (Hc eq_refl) as (w2&->&Hcp). intros s2 Hs2. right. exists dmb, w1, w2, s2. split_and!; [done..|].
  unfold mbind, St_bind. destruct (remove_sources env tag ps s2) as [ok s3]. destruct ok; [|done].
  pose proof (quiet_out (A := A) (tag +:+ " OK MOVE completed") s3) as Hq. destruct (out _ s3) as [b s4]. exact Hq.
Qed.


(** The mailbox while the sources are flagged: their flags change, nothing
    else. *)
Definition flagged_at (hit : list nat) (ms ms' : list Message) : Prop :=
  length ms' = length ms ∧ ∀ i m, ms !! i = Some m → ∃ m', ms' !! i = Some m' ∧ UID m' = UID m ∧
    deleted m' = (bool_decide (i ∈ hit) || deleted m).

Lemma deleted_Add f m : deleted m = true ∨ f = FlagDeleted → ∀ m', m_Flags m' = Add (m_Flags m) f → deleted m' = true.
Proof.
  intros Hd m' Hm'. unfold deleted, Has, mem in *. rewrite Hm'. apply bool_decide_eq_true.
  destruct Hd as [Hd| ->].
  - apply bool_decide_eq_true in Hd. unfold Add. destruct (Has _ _); [done|]. unfold sort_flags. rewrite sort_slice_perm.
    apply elem_of_app. by left.
  - unfold Add. destruct (Has (m_Flags m) FlagDeleted) eqn:E; [by apply bool_decide_eq_true in E|].
    unfold sort_flags. rewrite sort_slice_perm. apply elem_of_app. right. constructor.
Qed.

Lemma delete_loop_eq ps : ∀ (s : session A) mb s', mbox (tr s) = Some mb → NoDup ps →
  (∀ i, i ∈ ps → is_Some (messages mb !! i)) → delete_loop env ps s = (true, s') →
  ∃ mb', mbox (tr s') = Some mb' ∧ flagged_at ps (messages mb) (messages mb').
Proof.
  induction ps as [|i ps IH]; intros s mb s' Hmb Hnd Hps; cbn [delete_loop].
  { intros [= <-]. exists mb. split; [done|]. split; [done|]. intros i m Hm. by exists m. }
  apply NoDup_cons in Hnd as [Hni Hnd]. destruct (Hps i ltac:(constructor)) as [m Hm].
  erewrite St_bind_eq by (by apply message_at_eq). cbv beta iota.
  destruct (set_flags_eq env i (Add (m_Flags m) FlagDeleted) s mb m Hmb Hm) as (e&mb1&w1&E&He&_).
  rewrite (St_bind_eq _ _ _ _ _ E). destruct e as [e|]; [done|]. destruct He as (m'&Hins&HU&_&HF).
  intros Hl. destruct (IH (stored s mb1 w1) mb1 s' eq_refl Hnd) as (mb'&Hmb'&Hlen&Hf); [|done|].
  { intros j Hj. apply lookup_lt_is_Some_2. rewrite Hins, length_insert. apply lookup_lt_is_Some_1, Hps. by constructor. }
  exists mb'. split; [done|]. split; [by rewrite Hlen, Hins, length_insert|].
  intros j mj Hj. destruct (decide (j = i)) as [->|Hne].
  - destruct (Hf i m') as (m2&Hm2&HU2&Hd2).
    { rewrite Hins. apply list_lookup_insert_eq. by eapply lookup_lt_Some. }
    simplify_eq. exists m2. split_and!; [done|congruence|].
    rewrite Hd2, (deleted_Add FlagDeleted _ (or_intror eq_refl) m' HF), orb_true_r.
    by rewrite bool_decide_true by constructor.
  - destruct (Hf j mj) as (m2&Hm2&HU2&Hd2); [by rewrite Hins, list_lookup_insert_ne|].
    exists m2. split_and!; [done|done|]. rewrite Hd2. f_equal. apply bool_decide_ext. rewrite elem_of_cons.
    split; [by right|by intros [->|]].
Qed.

(** The UIDs at the positions a test keeps. *)
Definition uids_where (keep : nat → Message → bool) (ms : list Message) : list Z :=
  (λ im, UID im.2) <$> filter (λ im, keep im.1 im.2 = true) (imap (λ i m, (i, m)) ms).

Lemma flagged_uids hit ms ms' : flagged_at hit ms ms' →
  UID <$> filter (λ m, deleted m = false) ms' =
  uids_where (λ i m, negb (bool_decide (i ∈ hit) || deleted m)) ms.
Proof.
  unfold uids_where. intros [Hl Hf].
  enough (Hg : ∀ k ms', length ms' = length ms →
    (∀ i m, ms !! i = Some m → ∃ m', ms' !! i = Some m' ∧ UID m' = UID m ∧
       deleted m' = (bool_decide ((i + k)%nat ∈ hit) || deleted m)) →
    UID <$> filter (λ m, deleted m = false) ms' =
    (λ im, UID im.2) <$> filter (λ im : nat * Message, negb (bool_decide (im.1 ∈ hit) || deleted im.2) = true)
      (imap (λ i m, ((i + k)%nat, m)) ms)).
  { rewrite (Hg 0%nat ms' Hl); [|intros i m Hm; rewrite Nat.add_0_r; by apply Hf].
    f_equal. f_equal. apply imap_ext. intros. by rewrite Nat.add_0_r. }
  clear. induction ms as [|m ms IH]; intros k [|m' ms'] Hl Hf; try done.
  rewrite imap_cons. destruct (Hf 0%nat m eq_refl) as (m''&[= <-]&HU&Hd). cbn [Nat.add] in Hd.
  assert (Hr : UID <$> filter (λ m, deleted m = false) ms' =
    (λ im, UID im.2) <$> filter (λ im : nat * Message, negb (bool_decide (im.1 ∈ hit) || deleted im.2) = true)
      (imap ((λ i m, ((i + k)%nat, m)) ∘ S) ms)).
  { rewrite (IH (S k) ms'); [f_equal; f_equal; apply imap_ext; intros; simpl; f_equal; lia|by injection Hl|].
    intros i mi Hi. destruct (Hf (S i) mi Hi) as (mi'&?&?&?). exists mi'. split_and!; try done.
    by replace (i + S k)%nat with (S i + k)%nat by lia. }
  destruct (bool_decide (k ∈ hit) || deleted m) eqn:E.
  - rewrite filter_cons_False by (by rewrite Hd). rewrite filter_cons_False by (cbn [fst snd Nat.add]; by rewrite E).
    exact Hr.
  - rewrite filter_cons_True by (by rewrite Hd). rewrite filter_cons_True by (cbn [fst snd Nat.add]; by rewrite E).
    rewrite !fmap_cons. cbn [snd]. by rewrite Hr, HU.
Qed.

(** when a [MOVE] has removed its sources the mailbox in use holds,
    in their order, the messages that were neither selected nor flagged as
    deleted before: it removes the latter as well, moved or not. *)
Theorem move_removes tag ps (s : session A) mb s' : mbox (tr s) = Some mb → NoDup ps →
  (∀ i, i ∈ ps → is_Some (messages mb !! i)) → remove_sources env tag ps s = (true, s') →
  ∃ mb', mbox (tr s') = Some mb' ∧
    UID <$> messages mb' = uids_where (λ i m, negb (bool_decide (i ∈ ps) || deleted m)) (messages mb).
Proof.
  intros Hmb Hnd Hps. unfold remove_sources.
  destruct (delete_loop env ps s) as [ok s1] eqn:E. rewrite (St_bind_eq _ _ _ _ _ E).
  destruct ok; cbn [negb]; cbv iota.
  2:{ unfold mbind, St_bind. by destruct (out _ s1). }
  destruct (delete_loop_eq ps s mb s1 Hmb Hnd Hps E) as (mb1&Hmb1&Hfl).
  unfold expunge, on_mbox. destruct (Expunge_total env mb1 (world s1)) as ([mb2 r]&w&Ex).
  erewrite St_bind_eq.
  2:{ erewrite St_bind_eq by reflexivity. rewrite Hmb1. erewrite St_bind_eq by (unfold os; rewrite Ex; reflexivity).
      reflexivity. }
  cbv beta iota. apply Expunge_messages in Ex. destruct r as [seqs|e].
  2:{ unfold mbind, St_bind. by destruct (out _ _). }
  unfold mbind, St_bind. set (s2 := MkSession _ _ _ _ _ _ _ _).
  pose proof (quiet_outs (expunge_lines seqs) s2) as Hq. destruct (outs (expunge_lines seqs) s2) as [x s3].
  intros [= <-]. exists mb2. split; [|rewrite Ex; by apply flagged_uids].
  unfold observe, imap_observe, view in Hq. simpl in Hq. injection Hq as -> _ _. done.
Qed.
End moving.

(** ** A session, evaluated *)

Definition imap_settings : Settings := MkSettings "mx.example" true false 1000000.

Definition imap_auth : Backend nat := λ u p _ n,
  (if (String.eqb u "bob" && String.eqb p "pw")%bool then Ok ["bob"] else Err (EMsg "invalid credentials"), S n).

Definition first_text : string := "Subject: hi" +:+ CRLF +:+ CRLF +:+ "hello" +:+ CRLF.
Definition imap_world : World :=
  (Deliver calm ["bob"] "two" (Deliver calm ["bob"] first_text empty_world).2).2.

Definition dialogue (lines : list string) : string := Join ((λ l, l +:+ CRLF) <$> lines) "".

Definition clear_lines : list string := ["a LOGIN bob pw"; "b STARTTLS"].
Definition tls_lines : list string :=
  ["c SELECT INBOX"; "d LOGIN bob pw"; "e EXAMINE inbox"; "f STORE 1 FLAGS (\Seen)"; "g SELECT INBOX";
   "h FETCH 1 (UID BODY[TEXT])"; "i STORE 2 +FLAGS.SILENT (\Deleted)"; "j SEARCH DELETED"; "k UID COPY 1 Sent";
   "l IDLE"; "done"; "m EXPUNGE"; "n LOGOUT"].

Definition imap_session : session nat :=
  newSession (λ _, imap_settings) "192.0.2.1"
    (MkConn (dialogue clear_lines) (Some (dialogue tls_lines)) 60 []) 0 O imap_world.

Abbreviation imap_run := (run calm imap_auth (λ _, imap_settings) (λ _ w, w) (λ _, (1%nat, false)) (λ _, None)
  (λ _, 0) 40 imap_session).

Example imap_transcript : (λ s, drop 1 (c_out (conn s))) <$> imap_run =
  Some ["a NO [PRIVACYREQUIRED] STARTTLS required before LOGIN";
        "b OK begin TLS negotiation";
        "c NO not authenticated";
        "d OK [CAPABILITY IMAP4rev1 IDLE UIDPLUS MOVE NAMESPACE CHILDREN] LOGIN completed";
        "* 2 EXISTS"; "* 2 RECENT"; "* OK [UNSEEN 1] first unseen message";
        "* FLAGS (\Answered \Flagged \Deleted \Seen \Draft)"; "* OK [PERMANENTFLAGS ()] read-only mailbox";
        "* OK [UIDVALIDITY 29] UIDs valid"; "* OK [UIDNEXT 3] predicted next UID";
        "e OK [READ-ONLY] EXAMINE completed";
        "f NO mailbox is read-only";
        "* 2 EXISTS"; "* 2 RECENT"; "* OK [UNSEEN 1] first unseen message";
        "* FLAGS (\Answered \Flagged \Deleted \Seen \Draft)";
        "* OK [PERMANENTFLAGS (\Answered \Flagged \Deleted \Seen \Draft)] limited";
        "* OK [UIDVALIDITY 29] UIDs valid"; "* OK [UIDNEXT 3] predicted next UID";
        "g OK [READ-WRITE] SELECT completed";
        "* 1 FETCH (BODY[TEXT] {7}" +:+ CRLF +:+ "hello" +:+ CRLF +:+ " UID 1 FLAGS (\Seen))";
        "h OK FETCH completed";
        "i OK STORE completed";
        "* SEARCH 2"; "j OK SEARCH completed";
        "k OK COPY completed";
        "+ idling"; "l OK IDLE terminated";
        "* 2 EXPUNGE"; "m OK EXPUNGE completed";
        "* BYE logging out"; "n OK LOGOUT completed"].
Proof. vm_compute. reflexivity. Qed.

Lemma imap_refines_witness : ∃ s', imap_run = Some s' ∧ moves calm (λ _ w, w) (view imap_session) (view s') ∧
  st (tr s') = stateSelected.
Proof.
  assert (E : is_Some imap_run) by (vm_compute; by eexists). destruct E as [s' E]. exists s'.
  split; [exact E|]. split; [exact (imap_refines _ _ _ _ _ _ _ _ _ _ E)|].
  assert (Hs : (λ s, st (tr s)) <$> imap_run = Some stateSelected) by (vm_compute; reflexivity).
  rewrite E in Hs. by injection Hs.
Defined.

Lemma imap_safe_witness : ∃ s', imap_run = Some s' ∧ Forall over_tls (log s') ∧
  (st (tr s') ≠ stateNotAuthenticated → tls (tr s') = true ∧ accepted_root (log s') (s_root (tr s'))).
Proof.
  assert (E : is_Some imap_run) by (vm_compute; by eexists). destruct E as [s' E]. exists s'.
  split; [exact E|].
  destruct (imap_safe calm imap_auth (λ _, imap_settings) (λ _ w, w) (λ _, (1%nat, false)) (λ _, None) (λ _, 0) 40
    imap_session s') as (H1&H2&_);
    [exists false; split; reflexivity|exact E|]. exact (conj H1 H2).
Defined.

(** A session with a mailbox of three messages in use. *)
Definition in_use (ro : bool) (input : string) : session nat :=
  MkSession "192.0.2.1" (MkConn input None 9 []) (MkTrans stateSelected true "bob" ["bob"] (Some sample_mailbox) ro)
    0 0 O mail_world [].

(** Looking at the messages of an examined mailbox writes nothing, and
    moving one of them to another folder writes nothing but its UID list. *)
Lemma examine_read_only_witness :
  let after cmd p := (command calm imap_auth (λ _, imap_settings) (λ _ w, w) (λ _, (0%nat, false)) (λ _, None) (λ _, 0)
    "a" cmd false p (in_use true "")).2 in
  w_files (world (after "FETCH" "1:* BODY[]")) = w_files (world (in_use true "")) ∧
  tr (after "MOVE" "1 Trash") = tr (in_use true "") ∧
  (∀ q : path, w_files (world (after "MOVE" "1 Trash")) !! q = w_files (world (in_use true "")) !! q ∨
     list_file ["bob"; ".Trash"] q).
Proof.
  intros after. split_and!.
  - refine (proj1 (examine_read_only _ _ _ _ _ _ _ "a" "FETCH" false "1:* BODY[]" (in_use true "") eq_refl eq_refl) _).
    constructor.
  - refine (proj1 (proj2 (examine_read_only _ _ _ _ _ _ _ "a" "MOVE" false "1 Trash" (in_use true "") eq_refl eq_refl) _)).
    by right; left.
  - intros q. destruct (proj2 (proj2 (examine_read_only calm imap_auth (λ _, imap_settings) (λ _ w, w) (λ _, (0%nat, false))
      (λ _, None) (λ _, 0) "a" "MOVE" false "1 Trash" (in_use true "") eq_refl eq_refl) ltac:(by right; left)) q)
      as [?|(set&dst&Ho&Hq)]; [by left|right]. injection Ho as _ <-. exact Hq.
Defined.

(** A message as mail programs write it. *)
Definition plain_mail : string :=
  "From: a@b.example" +:+ CRLF +:+ "Message-ID: <1@b>" +:+ CRLF +:+ "X-Y: z" +:+ CRLF +:+ CRLF +:+ "hi" +:+ CRLF.

Lemma append_hyphens_witness :
  (cmdAppend calm (λ _, imap_settings) "a" (quote "INBOX" +:+ " {" +:+ dec (slen plain_mail) +:+ "}")
    (in_use false (plain_mail +:+ "more"))).2 =
  talked (in_use false (plain_mail +:+ "more")) 1 "more" 7
    ["+ ready for literal"; "a BAD APPEND needs message data"].
Proof.
  rewrite (append_hyphens calm (λ _, imap_settings) "a" "INBOX" plain_mail "more" (in_use false (plain_mail +:+ "more")) 7);
    [reflexivity|discriminate|reflexivity|reflexivity| | |]; vm_compute; done.
Defined.

Lemma fetch_unclosed_panics_witness :
  (cmdFetch calm (λ _, imap_settings) (λ _, None) (λ _, 0) "a" (quote "1" +:+ " BODY[") false (in_use true "")).1 = true.
Proof.
  rewrite (fetch_unclosed_panics calm (λ _, imap_settings) (λ _, None) (λ _, 0) "a" "1" [(1, 1)] false (in_use true "")
    sample_mailbox); [reflexivity|reflexivity|reflexivity|vm_compute; reflexivity|vm_compute; discriminate].
Defined.

(** The same with the files of its messages. *)
Definition filed : World :=
  MkWorld (list_to_map ((λ m, (msg_path sample_mailbox m, MkFile "hello" 0)) <$> messages sample_mailbox))
    {[ []; ["bob"]; ["bob"; "cur"]; ["bob"; "new"]; ["bob"; "tmp"] ]} 0 0 None.
Definition filed_session : session nat :=
  MkSession "192.0.2.1" (MkConn "" None 9 []) (MkTrans stateSelected true "bob" ["bob"] (Some sample_mailbox) false)
    0 0 O filed [].

Lemma filed_tidy : tidy sample_mailbox.
Proof.
  split.
  - repeat (apply Forall_cons; split; [by split_and!|]). apply Forall_nil_2.
  - repeat (apply Forall_cons; split; [by right|]). apply Forall_nil_2.
  - apply (bool_decide_unpack _). vm_compute. exact I.
Qed.

Lemma filed_placed : placed filed sample_mailbox.
Proof.
  split.
  - apply (bool_decide_unpack _). vm_compute. exact I.
  - apply (bool_decide_unpack _). vm_compute. exact I.
  - assert (Hd : set_Forall (λ p : path, length p ≠ 3%nat) (w_dirs filed)) by (apply (bool_decide_unpack _); vm_compute; exact I).
    apply Forall_forall. intros m Hm f Hin. apply (Hd _ Hin).
    pose proof filed_tidy as [Hn _ _]. rewrite Forall_forall in Hn. destruct (Hn m Hm) as [Ha _].
    rewrite msg_path_proper; [done|by apply proper_FileName|by right].
Qed.

Lemma store_spec_witness : ∃ mb' w k,
  cmdStore calm (λ _, imap_settings) "a" (quote "2:*" +:+ String " " (quote "+FLAGS" +:+ String " "
    (print (list_token [str_token "\Flagged"])))) false filed_session =
  (tt, MkSession "192.0.2.1" (MkConn "" None k
    ((omap (λ i, (λ m, store_line m false) <$> messages mb' !! i) [1%nat; 2%nat]) ++ ["a OK STORE completed"]))
    (set_mbox (tr filed_session) mb') 0 0 O w []) ∧
  stored_at "+FLAGS" (named (list_token [str_token "\Flagged"])) [1%nat; 2%nat] (messages sample_mailbox) (messages mb').
Proof.
  destruct (store_spec calm (λ _, imap_settings) "a" "2:*" [(2, maxUint32)] "+FLAGS" false
    (list_token [str_token "\Flagged"]) false filed_session sample_mailbox 7) as (mb'&w&hit&k&E&Hs&_&Hh);
    [reflexivity|reflexivity|reflexivity|reflexivity|vm_compute; reflexivity| | |].
  - apply (bool_decide_unpack _). vm_compute. exact I.
  - apply pr_list. constructor; [apply pr_str|constructor].
  - assert (Ehit : hit = [1%nat; 2%nat])
      by exact (Hh calm_reliable filed_tidy filed_placed).
    subst hit. exists mb', w, k. split; [exact E|exact Hs].
Defined.


(** Moving the second message removes the first and the third as well,
    which were flagged as deleted. *)
Lemma move_removes_witness : ∃ s' mb',
  remove_sources calm "a" [1%nat] filed_session = (true, s') ∧ mbox (tr s') = Some mb' ∧ UID <$> messages mb' = [].
Proof.
  destruct (remove_sources calm "a" [1%nat] filed_session) as [ok s'] eqn:E.
  assert (Hok : ok = true) by (change ok with (ok, s').1; rewrite <- E; vm_compute; reflexivity). subst ok.
  destruct (move_removes calm "a" [1%nat] filed_session sample_mailbox s') as (mb'&Hm&Hu);
    [reflexivity|apply NoDup_singleton| |exact E|].
  - intros i Hi. apply list_elem_of_singleton in Hi as ->. by eexists.
  - exists s', mb'. split; [reflexivity|]. split; [exact Hm|]. rewrite Hu. vm_compute. reflexivity.
Defined.
