(* ===== verification/ImapSearch.v ===== *)
(** * IMAP: the criteria of [SEARCH]

    A reference definition of the criteria, with the tokens a client
    writes them with, and the theorem that the evaluator of the code agrees
    with it; then criteria of RFC 3501 it does not agree with. *)

From S2P Require Import Prelude GoStrings GoNum GoTime GoMail ImapParse Fs Maildir Mailbox ImapFetch.

(** ** Criteria *)

(** The criteria that take no argument and may follow [NOT]. *)
Inductive test :=
  | TAll | TNew | TOld | TRecent
  | THas (f : Flag) | THasNot (f : Flag)
  | TSeq (items : list seq_item).

Inductive crit :=
  | CTest (t : test)
  | CNot (t : test)
  | CField (name : string) (value : string)
  | CHeader (name value : string)
  | CBody (text : string)
  | CText (text : string)
  | CLarger (n : Z)
  | CSmaller (n : Z)
  | CUid (items : list seq_item).

Definition flag_key_name (f : Flag) : string :=
  match f with
  | FlagDraft => "DRAFT" | FlagFlagged => "FLAGGED" | FlagAnswered => "ANSWERED"
  | FlagSeen => "SEEN" | FlagDeleted => "DELETED" | FlagPassed => ""
  end.

Definition set_text (items : list seq_item) : string := Join (print_item <$> items) ",".
Definition field_names : list string := ["FROM"; "TO"; "CC"; "BCC"; "SUBJECT"].

Definition test_text (t : test) : string :=
  match t with
  | TAll => "ALL" | TNew => "NEW" | TOld => "OLD" | TRecent => "RECENT"
  | THas f => flag_key_name f
  | THasNot f => "UN" +:+ flag_key_name f
  | TSeq items => set_text items
  end.

Definition tokens (c : crit) : list token := str_token <$>
  match c with
  | CTest t => [test_text t]
  | CNot t => ["NOT"; test_text t]
  | CField name value => [name; value]
  | CHeader name value => ["HEADER"; name; value]
  | CBody text => ["BODY"; text]
  | CText text => ["TEXT"; text]
  | CLarger n => ["LARGER"; dec n]
  | CSmaller n => ["SMALLER"; dec n]
  | CUid items => ["UID"; set_text items]
  end.

Definition items_ok (items : list seq_item) : Prop := Forall item_ok items ∧ items ≠ [].
(** There is no criterion for the flag of forwarded messages. *)
Definition test_ok (t : test) : Prop :=
  match t with TSeq items => items_ok items | THas f | THasNot f => f ≠ FlagPassed | _ => True end.
Definition crit_ok (c : crit) : Prop :=
  match c with
  | CTest t | CNot t => test_ok t
  | CField name _ => name ∈ field_names
  | CLarger n | CSmaller n => 0 <= n < 2 ^ 63
  | CUid items => items_ok items
  | _ => True
  end.

(** ** What they mean *)

Definition in_set (items : list seq_item) (max n : Z) : Prop := ∃ i, i ∈ items ∧ denotes max i n.

Definition test_holds (mb : Mailbox) (m : Message) (t : test) : Prop :=
  match t with
  | TAll => True
  | TNew => m_Recent m = true ∧ FlagSeen ∉ m_Flags m
  | TOld => m_Recent m = false
  | TRecent => m_Recent m = true
  | THas f => f ∈ m_Flags m
  | THasNot f => f ∉ m_Flags m
  | TSeq items => in_set items (u32 (Count mb)) (Seq m)
  end.

(** [data]: the text of the message. *)
Definition holds (mb : Mailbox) (m : Message) (data : string) (c : crit) : Prop :=
  match c with
  | CTest t => test_holds mb m t
  | CNot t => ¬ test_holds mb m t
  | CField name value | CHeader name value => containsHeader data name value = true
  | CBody text => Contains (ToLower (bodyOf data)) (ToLower text) = true
  | CText text => Contains (ToLower data) (ToLower text) = true
  | CLarger n => n < m_Size m
  | CSmaller n => m_Size m < n
  | CUid items => in_set items (match last (messages mb) with Some l => UID l | None => 0 end) (UID m)
  end.

(** ** The evaluator agrees *)

(** The first byte of a number or a star. *)
Definition number_start (s : string) : Prop :=
  ∃ c r, s = String c r ∧ c ∈ (schars "0123456789*").

Lemma number_start_app s r : number_start s → number_start (s +:+ r).
Proof. intros (c&x&->&Hc). by exists c, (x +:+ r). Qed.

Lemma print_num_start a : num_ok a → number_start (print_num a).
Proof.
  destruct a as [n|]; simpl; intros Hn.
  - pose proof (dec_digits n ltac:(lia)) as Hd. pose proof (dec_nonempty n ltac:(lia)) as He.
    destruct (dec n) as [|c r]; [done|]. exists c, r. split; [done|]. cbn [sall] in Hd.
    apply andb_true_iff in Hd as [Hc _]. revert Hc.
    destruct c as [[] [] [] [] [] [] [] []]; vm_compute; intros; try done;
      repeat first [apply list_elem_of_here|apply list_elem_of_further].
  - exists "*"%char, "". split; [done|]. vm_compute. repeat first [apply list_elem_of_here|apply list_elem_of_further].
Qed.

Lemma set_text_start items : items_ok items → number_start (set_text items).
Proof.
  intros [Hok Hne]. destruct items as [|i items]; [done|]. apply Forall_cons in Hok as [Hi _].
  assert (Hs : number_start (print_item i)).
  { destruct i as [a|a b]; [by apply print_num_start|]. destruct Hi as [Ha _]. by apply number_start_app, print_num_start. }
  unfold set_text. rewrite fmap_cons. destruct items as [|j items]; [done|].
  rewrite Join_cons_app by done. by apply number_start_app.
Qed.

Section evaluator.
Context (env : Env) (zone : Z → Z) (mb : Mailbox).

(** A computation on a message whose text is there to be read: the answer,
    and nothing else but time goes by. *)
Definition answers {R} (m : OS R) (w : World) (P : R → Prop) : Prop :=
  ∃ r n, m w = (Ok r, with_tick n w) ∧ P r.

Lemma answers_bind {R R'} (m : OS R) (f : R → OS R') w P Q : answers m w P →
  (∀ r n, P r → answers (f r) (with_tick n w) Q) → answers (m ≫= f) w Q.
Proof.
  intros (r&n&E&HP) Hf. destruct (Hf r n HP) as (r'&n'&E'&HQ). exists r', n'. split; [|done].
  unfold mbind, OS_bind. by rewrite E, E'.
Qed.

Lemma answers_ret {R} (r : R) w (P : R → Prop) : P r → answers (mret r) w P.
Proof. intros HP. exists r, (w_tick w). split; [|done]. by destruct w. Qed.

Lemma answers_mono {R} (m : OS R) w (P Q : R → Prop) : (∀ r, P r → Q r) → answers m w P → answers m w Q.
Proof. intros HPQ (r&n&E&HP). exists r, n. split; [done|by apply HPQ]. Qed.

(** The file of the message. *)
Definition readable (m : Message) (d : string) (w : World) : Prop :=
  ∃ f, w_files w !! msg_path mb m = Some f ∧ f_data f = d.

Definition cache_ok (d : string) (data : option string) : Prop := data = None ∨ data = Some d.

Context (Hr : reliable env).

Lemma on_data_answers m d data f w : readable m d w → cache_ok d data →
  answers (on_data env mb m data f) w (λ x, x.1 = f d ∧ cache_ok d x.2).
Proof.
  intros (fl&Hf&Hd) Hc. unfold on_data. eapply (answers_bind _ _ _ (λ x, x = (d, Some d))).
  - unfold load_once. destruct Hc as [->| ->]; [|by apply answers_ret].
    exists (d, Some d), (S (w_tick w)). split; [|done]. unfold mbind, OS_bind, os_try, Read, ReadFile.
    rewrite fallible_reliable by done. cbn [w_files tick]. rewrite Hf. by rewrite Hd.
  - intros r n ->. apply answers_ret. split; [done|by right].
Qed.

Lemma set_test items n max : items_ok items →
  (match parseSeqSet (set_text items) with Some set => contains set n max | None => false end = true ↔ in_set items max n) ∧
  is_Some (parseSeqSet (set_text items)).
Proof. intros [Hok Hne]. destruct (seqset_spec items Hok Hne) as (set&E&Hc). unfold set_text. by rewrite E. Qed.

(** A sequence set is none of the keywords. *)
Lemma criterion_set neg m data s rest : number_start s →
  criterion env zone mb neg m data (str_token s) rest =
  mret (match parseSeqSet s with Some set => contains set (Seq m) (u32 (Count mb)) | None => true end, data) ∧
  arity (ToUpper s) = O.
Proof.
  intros (c&r&->&Hc). revert Hc. cbn [schars]. rewrite !elem_of_cons, elem_of_nil.
  intros Hc. repeat destruct Hc as [->|Hc]; try done.
Qed.

Lemma flag_test b f x : Bool.eqb (Has f x) b = true ↔ if b then x ∈ f else x ∉ f.
Proof. pose proof (Has_spec f x) as Hh. destruct (Has f x), b; simpl; rewrite <- Hh; by split. Qed.

(** A test takes no argument and reads nothing. *)
Lemma criterion_test neg m data t rest w : test_ok t →
  answers (criterion env zone mb neg m data (str_token (test_text t)) rest) w
    (λ x, (x.1 = true ↔ test_holds mb m t) ∧ x.2 = data) ∧ arity (upper (str_token (test_text t))) = O.
Proof.
  intros Hok. destruct t as [| | | |f|f|items]; cbn [test_text test_holds].
  1-4: split; [|done]; apply answers_ret; split; [|done]; cbn [fst].
  - done.
  - rewrite andb_true_iff, negb_true_iff, <- not_true_iff_false. by rewrite Has_spec.
  - by destruct (m_Recent m).
  - done.
  - destruct f; try done; (split; [|done]; apply answers_ret; split; [|done]); apply (flag_test true).
  - destruct f; try done; (split; [|done]; apply answers_ret; split; [|done]); apply (flag_test false).
  - destruct (criterion_set neg m data (set_text items) rest (set_text_start _ Hok)) as [-> Ha]. split; [|done].
    apply answers_ret. split; [|done]. cbn [fst].
    destruct (set_test items (Seq m) (u32 (Count mb)) Hok) as [Hs [set E]]. by rewrite E in *.
Qed.

Lemma not_false_iff b (P : Prop) : (b = true ↔ P) → (negb b = true ↔ ¬ P).
Proof. intros Hb. rewrite <- Hb. by destruct b. Qed.

Lemma criterion_NOT neg m data t rest :
  criterion env zone mb neg m data (str_token "NOT") (t :: rest) = (b ← neg t; mret (negb b, data)).
Proof. reflexivity. Qed.

(** The first token of a criterion, with what follows. *)
Lemma criterion_crit m d data c more w : crit_ok c → readable m d w → cache_ok d data →
  ∃ t args, tokens c = t :: args ∧ length args = arity (upper t) ∧
  answers (criterion env zone mb (matches_one env zone mb m) m data t (args ++ more)) w
    (λ x, (x.1 = true ↔ holds mb m d c) ∧ cache_ok d x.2).
Proof.
  intros Hok Hd Hc. destruct c as [t|t|name v|name v|x|x|n|n|items]; cbn [tokens holds fmap list_fmap];
    eexists _, _; (split; [reflexivity|]).
  - destruct (criterion_test (matches_one env zone mb m) m data t more w Hok) as [Ha Hn]. split; [by rewrite Hn|].
    destruct Ha as (x&n&E&Hx&Hx2). exists x, n. split; [exact E|]. split; [done|by rewrite Hx2].
  - split; [done|]. destruct (criterion_test (λ _, mret true) m None t [] w Hok) as [(x&n&E&Hx&_) _].
    exists (negb x.1, data), n. split; [|split; [by apply not_false_iff|done]].
    cbn [app]. rewrite criterion_NOT. unfold matches_one, mbind, OS_bind. by rewrite E.
  - cbn in Hok. revert Hok. unfold field_names. rewrite !elem_of_cons, elem_of_nil.
    intros Hn; repeat destruct Hn as [->|Hn]; try done; (split; [done|]);
      (eapply answers_mono; [|by apply (on_data_answers m d data (λ d, containsHeader d _ v))]); cbn beta; by intros x [-> ?].
  - split; [done|]. eapply answers_mono; [|by apply (on_data_answers m d data (λ d, containsHeader d name v))].
    cbn beta. by intros x [-> ?].
  - split; [done|]. eapply answers_mono;
      [|by apply (on_data_answers m d data (λ d, Contains (ToLower (bodyOf d)) (ToLower x)))].
    cbn beta. by intros y [-> ?].
  - split; [done|]. eapply answers_mono; [|by apply (on_data_answers m d data (λ d, Contains (ToLower d) (ToLower x)))].
    cbn beta. by intros y [-> ?].
  - split; [done|]. apply answers_ret. split; [|done]. cbn [fst t_str str_token app].
    cbn in Hok. unfold ParseInt_value. pose proof (Atoi_dec n Hok) as E. unfold Atoi in E. rewrite E. apply Z.ltb_lt.
  - split; [done|]. apply answers_ret. split; [|done]. cbn [fst t_str str_token app].
    cbn in Hok. unfold ParseInt_value. pose proof (Atoi_dec n Hok) as E. unfold Atoi in E. rewrite E. apply Z.ltb_lt.
  - split; [done|]. apply answers_ret. split; [|done]. cbn [fst t_str str_token app].
    apply (set_test items (UID m) _ Hok).
Qed.

Lemma matches_crits m d cs : Forall crit_ok cs → ∀ data w, readable m d w → cache_ok d data →
  answers (matches env zone mb m data (cs ≫= tokens)) w (λ b, b = true ↔ Forall (holds mb m d) cs).
Proof.
  induction 1 as [|c cs Hok Hcs IH]; intros data w Hd Hc.
  { apply answers_ret. split; [intros; constructor|done]. }
  destruct (criterion_crit m d data c (cs ≫= tokens) w Hok Hd Hc) as (t&args&E&Hl&Ha).
  rewrite bind_cons, E. cbn [app matches].
  eapply answers_bind; [exact Ha|]. intros [b data'] n [Hb Hc']. cbn [fst snd] in *.
  destruct b.
  - assert (Hd' : readable m d (with_tick n w)) by exact Hd.
    assert (Hm : answers (matches env zone mb m data' (cs ≫= tokens)) (with_tick n w)
      (λ b, b = true ↔ Forall (holds mb m d) (c :: cs))).
    { eapply answers_mono; [|by apply IH]. cbn beta. intros b' Hb'. rewrite Forall_cons, Hb'.
      split; [intros Hh; split; [by apply Hb|done]|by intros [_ Hh]]. }
    destruct args as [|a1 [|a2 [|]]]; cbn [length] in Hl; rewrite <- Hl; try done.
    exfalso. revert Hl. unfold arity. destruct (mem _ _); [done|]. by destruct (String.eqb _ _).
  - apply answers_ret. split; [done|]. intros [Hh _]%Forall_cons. by apply Hb in Hh.
Qed.
End evaluator.

(** C21: [SEARCH] finds exactly the messages that satisfy all criteria, in
    their order: those on flags, numbers, UIDs and sizes, those on the text
    and the header of a message, and the negation of those without an
    argument.  Every message of the mailbox has its file, and no call of
    the file system fails. *)
Theorem search_spec env zone mb (texts : Message → string) cs w : reliable env → Forall crit_ok cs →
  (∀ m, m ∈ messages mb → ∃ f, w_files w !! msg_path mb m = Some f ∧ f_data f = texts m) →
  ∃ ps n, search env zone mb (cs ≫= tokens) w = (Ok ps, with_tick n w) ∧
    StronglySorted lt ps ∧
    ∀ i, i ∈ ps ↔ ∃ m, messages mb !! i = Some m ∧ Forall (holds mb m (texts m)) cs.
Proof.
  intros Hr Hok Hf. unfold search.
  assert (Hg : ∀ k ms w', w_files w' = w_files w → (∀ m, m ∈ ms → m ∈ messages mb) →
    answers (search_go env zone mb (cs ≫= tokens) (imap (λ i m, ((i + k)%nat, m)) ms)) w'
      (λ ps, StronglySorted lt ps ∧ ∀ i, i ∈ ps ↔ ∃ j m, i = (j + k)%nat ∧ ms !! j = Some m ∧
         Forall (holds mb m (texts m)) cs)).
  { intros k ms. revert k. induction ms as [|m ms IH]; intros k w' Hw Hin.
    - apply answers_ret. split; [constructor|]. intros i. split; [by intros ?%elem_of_nil|]. by intros (j&m&_&Hj&_).
    - rewrite imap_cons. cbn [search_go Nat.add].
      eapply answers_bind.
      { apply (matches_crits env zone mb Hr m (texts m)); [done| |by left].
        destruct (Hf m) as (fl&Hfl&Hd); [apply Hin; constructor|]. exists fl. by rewrite Hw. }
      intros b n Hb. eapply answers_bind.
      { rewrite (imap_ext _ (λ i m, ((i + S k)%nat, m))); [|intros; simpl; f_equal; lia].
        apply (IH (S k)); [done|]. intros m' Hm'. apply Hin. by constructor. }
      intros ps n' [Hs Hps]. apply answers_ret. split.
      + destruct b; [|done]. constructor; [done|]. apply Forall_forall. intros i (j&m'&->&_)%Hps. lia.
      + intros i. assert (Hi : i ∈ ps ↔ ∃ j m', i = (S j + k)%nat ∧ ms !! j = Some m' ∧ Forall (holds mb m' (texts m')) cs).
        { rewrite Hps. split; intros (j&m'&->&Hj); exists j, m'; (split; [lia|done]). }
        transitivity ((i = k ∧ b = true) ∨ i ∈ ps); [destruct b|].
        { rewrite elem_of_cons. split; [intros [->|?]; [by left|by right]|intros [[-> _]|?]; [by left|by right]]. }
        { split; [by right|by intros [[_ ?]|?]]. }
        rewrite Hi, Hb. split.
        * intros [[-> Hh]|(j&m'&->&Hj)]; [by exists 0%nat, m|by exists (S j), m'].
        * intros ([|j]&m'&->&Hj&Hh); [left; simpl in Hj; simplify_eq; done|right; by exists j, m']. }
  destruct (Hg 0%nat (messages mb) w eq_refl ltac:(done)) as (ps&n&E&Hs&Hps).
  exists ps, n. split; [|split; [done|]].
  - rewrite (imap_ext _ (λ i m, ((i + 0)%nat, m))); [exact E|]. intros. by rewrite Nat.add_0_r.
  - intros i. rewrite Hps. split; [intros (j&m&->&Hj); exists m; by rewrite Nat.add_0_r|].
    intros (m&Hm). exists i, m. by rewrite Nat.add_0_r.
Qed.

(** ** Examples *)

(** A message that was read, from [a@x], of 30 bytes. *)
Definition search_text : string := "From: a@x" +:+ CRLF +:+ "Subject: hi" +:+ CRLF +:+ CRLF +:+ "ok" +:+ CRLF.
Definition search_box : Mailbox :=
  MkMailbox ["bob"] "INBOX"
    [MkMessage 4 1 "a:2,S" "cur" [FlagSeen] false 30 0; MkMessage 7 2 "b:2," "cur" [] false 3 0] 1 8.
Definition search_world : World :=
  MkWorld (<[ ["bob"; "cur"; "a:2,S"] := MkFile search_text 0 ]> (<[ ["bob"; "cur"; "b:2,"] := MkFile "odd" 0 ]> ∅))
    ∅ 0 0 None.

Lemma search_spec_witness : ∃ ps n,
  search calm (λ _, 0) search_box ([CTest (THas FlagSeen); CNot TNew; CField "FROM" "A@X"; CLarger 10] ≫= tokens)
    search_world = (Ok ps, with_tick n search_world) ∧ 0%nat ∈ ps ∧ 1%nat ∉ ps.
Proof.
  destruct (search_spec calm (λ _, 0) search_box (λ m, if UID m =? 4 then search_text else "odd")
    [CTest (THas FlagSeen); CNot TNew; CField "FROM" "A@X"; CLarger 10] search_world) as (ps&n&E&_&Hi).
  - exact calm_reliable.
  - repeat constructor; try done; apply (bool_decide_unpack _); vm_compute; exact I.
  - intros m Hm. apply elem_of_cons in Hm as [->|Hm]; [by eexists|].
    apply elem_of_cons in Hm as [->|Hm]; [by eexists|by apply elem_of_nil in Hm].
  - exists ps, n. split; [exact E|]. split.
    + apply Hi. eexists. split; [reflexivity|]. repeat constructor; try done.
      * intros [H1 _]. discriminate.
    + intros H1. apply Hi in H1 as (m&Hm&Hh). injection Hm as <-. apply Forall_inv in Hh.
      by apply elem_of_nil in Hh.
Defined.

(** Criteria the evaluator gets wrong: a negation leaves the argument of
    what it negates behind, an alternative and a list in parentheses are
    conjunctions at best, and two negations never hold. *)
Definition found (crit : list token) : result (list nat) := (search calm (λ _, 0) search_box crit search_world).1.

Example search_not_from : found (str_token <$> ["NOT"; "FROM"; "nobody"]) = Ok [1%nat].
Proof. vm_compute. reflexivity. Qed.
Example search_or : found (str_token <$> ["OR"; "SEEN"; "UNSEEN"]) = Ok [].
Proof. vm_compute. reflexivity. Qed.
Example search_list : found [list_token [str_token "SEEN"]] = Ok [0%nat; 1%nat].
Proof. vm_compute. reflexivity. Qed.
Example search_not_not : found (str_token <$> ["NOT"; "NOT"; "SEEN"]) = Ok [].
Proof. vm_compute. reflexivity. Qed.
Example search_one_digit : found (str_token <$> ["BEFORE"; "1-Jan-2030"]) = Ok [] ∧
  found (str_token <$> ["BEFORE"; "01-Jan-2030"]) = Ok [0%nat; 1%nat].
Proof. split; vm_compute; reflexivity. Qed.
