(* ===== verification/MailAuth.v ===== *)
(** * Authentication of inbound mail: SPF, DKIM and DMARC

    Models [internal/mailauth/mailauth.go]: the verdict over the answers
    of the SPF, DKIM, DMARC and public suffix libraries, the alignment of
    identifiers and the header that reports the result.  The libraries are
    the interface [AuthLib]: what they answer while one message is checked,
    the policies a record can name and the random number that samples
    enforcement. *)

From S2P Require Import Prelude GoStrings GoNet GoMail.

Inductive Action := Accept | Quarantine | Reject.

#[global] Instance Action_eq_dec : EqDecision Action.
Proof. solve_decision. Defined.

Record Result := MkResult {
  res_Action : Action;
  res_Reason : string;
  res_AuthResults : string;
  res_SPF : string;
  res_DKIM : string;
  res_DMARC : string;
}.

(** The fields of a DMARC record the code reads. *)
Record DmarcRecord := MkDmarc {
  Policy : string;
  SubdomainPolicy : string;
  SPFAlignment : string;
  DKIMAlignment : string;
  Percent : option Z;
}.

(** What the libraries answer: the SPF verdict of a connection, the domain
    of each DKIM signature and whether it verifies ([None]: the message
    could not be checked), the DMARC record of a domain and the registered
    domain above a name ([None] is an error), the addresses of a header
    field, and a random number below 100. *)
Class AuthLib := {
  PolicyNone : string;
  PolicyQuarantine : string;
  PolicyReject : string;
  AlignmentStrict : string;
  CheckHostWithSender : option IP → string → string → string;
  VerifyWithOptions : string → option (list (string * bool));
  LookupWithOptions : string → option DmarcRecord;
  EffectiveTLDPlusOne : string → option string;
  ParseAddressList : string → option (list Address);
  IntN100 : Z;
}.

(** What the code relies on: the three policies differ, and none is the
    empty one, which stands for no policy. *)
Class AuthLibOk `{AuthLib} := {
  policies_differ : NoDup [""; PolicyNone; PolicyQuarantine; PolicyReject];
}.

Section mailauth.
Context `{AuthLib}.

(** ** Domains *)

Definition domainOf (addr : string) : string :=
  let at_ := LastIndexByte addr "@" in
  if (at_ <? 0) || (at_ =? slen addr - 1) then "" else ToLower (slice_from addr (at_ + 1)).

Definition orgDomain (d : string) : string := default d (EffectiveTLDPlusOne d).

Definition aligned (d fromDomain mode : string) : bool :=
  let d := ToLower d in
  let fromDomain := ToLower fromDomain in
  if String.eqb d fromDomain then true
  else if String.eqb mode AlignmentStrict then false
  else String.eqb (orgDomain d) (orgDomain fromDomain).

Definition headerFromDomain (data : string) : string :=
  match ReadMessage data with
  | None => ""
  | Some h =>
      match AddressList ParseAddressList h "From" with
      | Some [a] => domainOf (a_Address a)
      | _ => ""
      end
  end.

(** ** DMARC *)

(** The record of a domain, and whether it is the one of the
    organizational domain. *)
Definition lookupDMARC (domain : string) : option (DmarcRecord * bool) :=
  match LookupWithOptions domain with
  | Some r => Some (r, false)
  | None =>
      let org := orgDomain domain in
      if String.eqb org domain then None
      else match LookupWithOptions org with Some r => Some (r, true) | None => None end
  end.

(** The policy a message is subject to once sampled. *)
Definition sampled (rec : DmarcRecord) (policy : string) : string :=
  match Percent rec with
  | Some p =>
      if (p <? 100) && (p <=? IntN100) then
        if String.eqb policy PolicyReject then PolicyQuarantine else PolicyNone
      else policy
  | None => policy
  end.

Definition evaluateDMARC (fromDomain spfDomain spfResult : string) (dkims : list (string * bool))
    : string * string :=
  if is_empty fromDomain then ("none", PolicyNone) else
  match lookupDMARC fromDomain with
  | None => ("none", PolicyNone)
  | Some (rec, usedOrg) =>
      let spfAligned := String.eqb spfResult "pass" && aligned spfDomain fromDomain (SPFAlignment rec) in
      let dkimAligned := existsb (λ d, (d.2 : bool) && aligned d.1 fromDomain (DKIMAlignment rec)) dkims in
      if spfAligned || dkimAligned then ("pass", Policy rec)
      else
        let policy :=
          if usedOrg && negb (is_empty (SubdomainPolicy rec)) then SubdomainPolicy rec else Policy rec in
        ("fail", sampled rec policy)
  end.

(** ** The pipeline *)

Definition dkimSummary (dkims : list (string * bool)) : string :=
  match dkims with
  | [] => "none"
  | _ => if existsb (λ d, d.2) dkims then "pass" else "fail"
  end.

(** The end of a line of the header, and the start of the next one. *)
Definition fold : string := ";" +:+ CRLF +:+ String TAB "".

Definition authResults (hostname spfRes spfDomain : string) (dkims : list (string * bool))
    (dmarcRes fromDomain : string) : string :=
  "Authentication-Results: " +:+ hostname +:+ fold +:+ "spf=" +:+ spfRes +:+ " smtp.mailfrom=" +:+ spfDomain +:+
  (match dkims with [] => fold +:+ "dkim=none" | _ => "" end) +:+
  Join ((λ d, fold +:+ "dkim=" +:+ (if d.2 : bool then "pass" else "fail") +:+ " header.d=" +:+ d.1) <$> dkims) "" +:+
  (if is_empty fromDomain then ""
   else fold +:+ "dmarc=" +:+ dmarcRes +:+ " header.from=" +:+ fromDomain) +:+ CRLF.

Definition sender_of (helo mailFrom : string) : string :=
  if is_empty mailFrom then "postmaster@" +:+ helo else mailFrom.

Definition dkims_of (data : string) : list (string * bool) :=
  match VerifyWithOptions data with
  | Some verifs => (λ v, (ToLower v.1, v.2)) <$> verifs
  | None => []
  end.

Definition Check (hostname : string) (enforce : bool) (ip : option IP) (helo mailFrom data : string) : Result :=
  let sender := sender_of helo mailFrom in
  let spfResult := CheckHostWithSender ip helo sender in
  let spfDomain := domainOf sender in
  let dkims := dkims_of data in
  let fromDomain := headerFromDomain data in
  let '(dmarcResult, policy) := evaluateDMARC fromDomain spfDomain spfResult dkims in
  let '(action, reason) :=
    if String.eqb dmarcResult "fail" && enforce then
      if String.eqb policy PolicyReject then (Reject, "DMARC policy reject for " +:+ fromDomain)
      else if String.eqb policy PolicyQuarantine then (Quarantine, "DMARC policy quarantine for " +:+ fromDomain)
      else (Accept, "")
    else (Accept, "") in
  MkResult action reason (authResults hostname spfResult spfDomain dkims dmarcResult fromDomain)
    spfResult (dkimSummary dkims) dmarcResult.

(** ** What a verdict means *)

(** Two domains are the same for a mode of alignment. *)
Definition same_domain (mode a b : string) : Prop :=
  ToLower a = ToLower b ∨ mode ≠ AlignmentStrict ∧ orgDomain (ToLower a) = orgDomain (ToLower b).

(** The message is authenticated for its author's domain: by the host it
    comes from or by a signature. *)
Definition authenticated (rec : DmarcRecord) (ip : option IP) (helo mailFrom data : string) : Prop :=
  let sender := sender_of helo mailFrom in
  let from := headerFromDomain data in
  CheckHostWithSender ip helo sender = "pass" ∧ same_domain (SPFAlignment rec) (domainOf sender) from ∨
  ∃ d, (d, true) ∈ dkims_of data ∧ same_domain (DKIMAlignment rec) d from.

(** How severe a policy is, and an action. *)
Definition severity (policy : string) : Z :=
  if String.eqb policy PolicyReject then 2 else if String.eqb policy PolicyQuarantine then 1 else 0.
Definition rank (a : Action) : Z := match a with Accept => 0 | Quarantine => 1 | Reject => 2 end.

(** The policy a record publishes for a domain: the record of the
    organizational domain may have one for subdomains. *)
Definition published (rec : DmarcRecord) (usedOrg : bool) : string :=
  if usedOrg then if is_empty (SubdomainPolicy rec) then Policy rec else SubdomainPolicy rec else Policy rec.

Definition sampled_out (rec : DmarcRecord) : Prop := ∃ p, Percent rec = Some p ∧ p < 100 ∧ p <= IntN100.

Lemma aligned_spec d from mode : aligned d from mode = true ↔ same_domain mode d from.
Proof.
  unfold aligned, same_domain. destruct (String.eqb_spec (ToLower d) (ToLower from)) as [E|E]; [by split; [left|]|].
  destruct (String.eqb_spec mode AlignmentStrict) as [->|Hm]; [split; [done|by intros [|[]]]|].
  rewrite String.eqb_eq. split; [by right|by intros [|[]]].
Qed.

Lemma authenticated_spec rec ip helo mailFrom data :
  (String.eqb (CheckHostWithSender ip helo (sender_of helo mailFrom)) "pass" &&
     aligned (domainOf (sender_of helo mailFrom)) (headerFromDomain data) (SPFAlignment rec))
  || existsb (λ d, (d.2 : bool) && aligned d.1 (headerFromDomain data) (DKIMAlignment rec)) (dkims_of data) = true
  ↔ authenticated rec ip helo mailFrom data.
Proof.
  unfold authenticated. rewrite orb_true_iff, andb_true_iff, existsb_exists, String.eqb_eq, aligned_spec.
  apply or_iff_compat_l. split.
  - intros ([d b]&Hin%list_elem_of_In&[Hb Ha%aligned_spec]%andb_true_iff). cbn in Hb. subst. by exists d.
  - intros (d&Hin&Ha). exists (d, true). split; [by apply list_elem_of_In|]. cbn. by apply aligned_spec.
Qed.

Lemma policies_distinct `{!AuthLibOk} : PolicyReject ≠ PolicyQuarantine ∧ PolicyNone ≠ PolicyReject ∧
  PolicyNone ≠ PolicyQuarantine.
Proof.
  pose proof policies_differ as Hd. rewrite !NoDup_cons, !not_elem_of_cons in Hd. destruct Hd as (_&(?&?&_)&(?&_)&_).
  split_and!; congruence.
Qed.

(** Sampling lowers a policy by one. *)
Lemma sampled_severity `{!AuthLibOk} rec p :
  (sampled_out rec → severity (sampled rec p) = Z.max 0 (severity p - 1)) ∧
  (¬ sampled_out rec → sampled rec p = p).
Proof.
  destruct policies_distinct as (H1&H2&H3). unfold sampled, sampled_out, severity. split.
  - intros (n&->&Hn&Hi). rewrite (proj2 (Z.ltb_lt _ _)), (proj2 (Z.leb_le _ _)) by lia. cbn [andb].
    destruct (String.eqb_spec p PolicyReject) as [->|?].
    + rewrite (proj2 (String.eqb_neq _ _)), String.eqb_refl by congruence. done.
    + rewrite !(proj2 (String.eqb_neq PolicyNone _)) by done. by destruct (String.eqb _ _).
  - intros Hn. destruct (Percent rec) as [n|]; [|done]. destruct (Z.ltb_spec n 100), (Z.leb_spec n IntN100); try done.
    exfalso. apply Hn. by exists n.
Qed.

(** The action is the one the policy asks for. *)
Lemma action_severity `{!AuthLibOk} (policy a b : string) :
  rank (if String.eqb policy PolicyReject then (Reject, a)
        else if String.eqb policy PolicyQuarantine then (Quarantine, b) else (Accept, "")).1 = severity policy.
Proof. unfold severity. by repeat case_match. Qed.

(** C36: a message is refused or quarantined exactly as far as the policy
    published for the domain of its author asks, one step less when it is
    not sampled, and only when enforcement is on, the domain has a record
    and neither the sending host nor a signature authenticates the message
    for that domain; every other message is accepted.  A check that failed
    for the time being counts as one that authenticates nothing, and a
    failed lookup as a domain without a record, whose organizational domain
    is asked next: so a failing resolver can have a message refused
    ([flaky_resolver_rejects]). *)
Theorem check_disposition `{!AuthLibOk} hostname enforce ip helo mailFrom data :
  let v := Check hostname enforce ip helo mailFrom data in
  let from := headerFromDomain data in
  match (if is_empty from then None else lookupDMARC from) with
  | None => res_DMARC v = "none" ∧ res_Action v = Accept
  | Some (rec, usedOrg) =>
      (authenticated rec ip helo mailFrom data → res_DMARC v = "pass" ∧ res_Action v = Accept) ∧
      (¬ authenticated rec ip helo mailFrom data →
        res_DMARC v = "fail" ∧ (enforce = false → res_Action v = Accept) ∧
        (enforce = true →
          (sampled_out rec → rank (res_Action v) = Z.max 0 (severity (published rec usedOrg) - 1)) ∧
          (¬ sampled_out rec → rank (res_Action v) = severity (published rec usedOrg))))
  end.
Proof.
  intros v from. unfold v, Check, evaluateDMARC. fold from. destruct (is_empty from) eqn:Ef; [done|].
  destruct (lookupDMARC from) as [[rec usedOrg]|] eqn:El; [|done].
  pose proof (authenticated_spec rec ip helo mailFrom data) as Ha. fold from in Ha. cbv zeta.
  destruct (_ || _)%bool.
  { split; [done|]. intros Hn. destruct Hn. by apply Ha. }
  split; [intros Hau; apply Ha in Hau; discriminate|]. intros _.
  assert (Hp : (if usedOrg && negb (is_empty (SubdomainPolicy rec)) then SubdomainPolicy rec else Policy rec) =
    published rec usedOrg) by (unfold published; by destruct usedOrg, (is_empty (SubdomainPolicy rec))).
  rewrite Hp. change (String.eqb "fail" "fail") with true. destruct (sampled_severity rec (published rec usedOrg)) as [Hs Hns].
  destruct enforce; cbn [andb].
  2:{ split_and!; [done|done|discriminate]. }
  cbv iota.
  pose proof (action_severity (sampled rec (published rec usedOrg)) ("DMARC policy reject for " +:+ from)
    ("DMARC policy quarantine for " +:+ from)) as Hr.
  destruct (if String.eqb _ PolicyReject then _ else _) as [action reason]. cbn [fst] in Hr. cbn [res_DMARC res_Action].
  split_and!; [done|discriminate|]. intros _. rewrite Hr. split; [exact Hs|]. intros Hn. by rewrite Hns.
Qed.

(** ** The header *)

(** A text without blanks and line ends. *)
Definition clean (s : string) : bool := sall (λ c, negb (is_blank c) && negb (Ascii.eqb c LF)) s.

Lemma clean_spec s : clean s = true → sall (λ c, negb (is_blank c)) s = true ∧ avoids LF s = true.
Proof. intros Hs. split; eapply sall_impl, Hs; by intros c [? ?]%andb_true_iff. Qed.

(** The results reported, in order. *)
Definition results (spfRes spfDomain : string) (dkims : list (string * bool)) (dmarcRes fromDomain : string)
    : list string :=
  ("spf=" +:+ spfRes +:+ " smtp.mailfrom=" +:+ spfDomain) ::
  (match dkims with [] => ["dkim=none"] | _ => [] end) ++
  ((λ d, "dkim=" +:+ (if d.2 : bool then "pass" else "fail") +:+ " header.d=" +:+ d.1) <$> dkims) ++
  (if is_empty fromDomain then [] else ["dmarc=" +:+ dmarcRes +:+ " header.from=" +:+ fromDomain]).

(** Every line but the last ends with a semicolon. *)
Fixpoint ended (ls : list string) : list string :=
  match ls with [] => [] | [l] => [l] | l :: ls => (l +:+ ";") :: ended ls end.

Lemma authResults_lines hostname spfRes spfDomain dkims dmarcRes fromDomain :
  authResults hostname spfRes spfDomain dkims dmarcRes fromDomain =
  ("Authentication-Results: " +:+ hostname) +:+
  Join ((λ l, fold +:+ l) <$> results spfRes spfDomain dkims dmarcRes fromDomain) "" +:+ CRLF.
Proof.
  unfold authResults, results. rewrite Join_map_cons, !fmap_app, !Join_empty_app, !sapp_assoc.
  do 5 f_equal. do 3 f_equal.
  replace (Join ((λ l, fold +:+ l) <$> match dkims with [] => ["dkim=none"] | _ => [] end) "")
    with (match dkims with [] => fold +:+ "dkim=none" | _ => "" end) by (by destruct dkims).
  f_equal. rewrite <- list_fmap_compose. do 2 f_equal. by destruct (is_empty fromDomain).
Qed.

Lemma folded_lines x ls : ls ≠ [] →
  x +:+ Join ((λ l, fold +:+ l) <$> ls) "" +:+ CRLF = (x +:+ ";") +:+ CRLF +:+ folded (ended ls).
Proof.
  revert x. induction ls as [|l ls IH]; intros x Hne; [done|]. rewrite Join_map_cons. destruct ls as [|l' ls].
  - cbn [fmap list_fmap Join ended folded]. unfold fold. by rewrite ?sapp_assoc, ?sapp_nil_r, ?sapp_cons.
  - change (ended (l :: l' :: ls)) with ((l +:+ ";") :: ended (l' :: ls)). cbn [folded].
    rewrite <- IH by done. unfold fold. by rewrite !sapp_assoc, !sapp_cons.
Qed.

Lemma unfolded_ended x ls : Forall (λ l, trim_blanks l = l ∧ trim_blanks (l +:+ ";") = l +:+ ";") ls → ls ≠ [] →
  unfolded (x +:+ ";") (ended ls) = x +:+ "; " +:+ Join ls "; ".
Proof.
  revert x. induction ls as [|l ls IH]; intros x Hl Hne; [done|]. apply Forall_cons in Hl as [[H1 H2] Hl].
  destruct ls as [|l' ls].
  - cbn. rewrite H1. by rewrite sapp_assoc.
  - change (ended (l :: l' :: ls)) with ((l +:+ ";") :: ended (l' :: ls)). cbn [unfolded foldl]. rewrite H2.
    replace ((x +:+ ";") +:+ " " +:+ l +:+ ";") with ((x +:+ "; " +:+ l) +:+ ";") by (by rewrite !sapp_assoc).
    change (foldl (λ b l, b +:+ " " +:+ trim_blanks l) ?b ?ls) with (unfolded b ls).
    rewrite (IH (x +:+ "; " +:+ l)) by done. by rewrite !sapp_assoc.
Qed.

(** A line of the header keeps its ends. *)
Lemma line_trim c a d : is_blank c = false → clean d = true →
  let l := String c a +:+ "=" +:+ d in trim_blanks l = l ∧ trim_blanks (l +:+ ";") = l +:+ ";".
Proof.
  intros Hc [Hd _]%clean_spec l.
  assert (Hl : ∀ x, trim_left is_blank (String c a +:+ x) = String c a +:+ x)
    by (intros x; rewrite sapp_cons; cbn [trim_left]; by rewrite Hc).
  assert (Hk : trim_right is_blank ("=" +:+ d) = "=" +:+ d) by (apply trim_right_keep; rewrite sall_app, Hd; done).
  unfold trim_blanks, l. split.
  - rewrite Hl. by apply trim_right_app_keep.
  - rewrite sapp_assoc, Hl. apply trim_right_app_keep; [done|]. by apply trim_right_app_keep.
Qed.

Lemma results_lines spfRes spfDomain dkims dmarcRes fromDomain :
  clean spfDomain = true → Forall (λ d, clean d.1 = true) dkims → clean fromDomain = true →
  avoids LF spfRes = true → avoids LF dmarcRes = true →
  let ls := results spfRes spfDomain dkims dmarcRes fromDomain in
  Forall (λ l, trim_blanks l = l ∧ trim_blanks (l +:+ ";") = l +:+ ";") ls ∧ Forall (λ l, avoids LF l = true) (ended ls).
Proof.
  intros Hs Hd Hf Hr Hm ls.
  assert (Hav : ∀ d, clean d = true → avoids LF d = true) by (intros d; by intros [_ ?]%clean_spec).
  assert (Hls : Forall (λ l, ∃ c a d, l = String c a +:+ "=" +:+ d ∧ is_blank c = false ∧ clean d = true ∧
    avoids LF (String c a) = true) ls).
  { unfold ls, results. repeat apply Forall_cons_2 || apply Forall_app_2.
    - exists "s"%char, ("pf=" +:+ spfRes +:+ " smtp.mailfrom"), spfDomain. split_and!; [by rewrite ?sapp_cons, ?sapp_assoc|done..|].
      change (avoids LF ("spf=" +:+ spfRes +:+ " smtp.mailfrom") = true). rewrite !avoids_app. by rewrite Hr.
    - destruct dkims; [|done]. repeat constructor. by exists "d"%char, "kim", "none".
    - apply Forall_fmap, (Forall_impl _ _ _ Hd). intros [d b] Hc. cbn in *.
      exists "d"%char, ("kim=" +:+ (if b then "pass" else "fail") +:+ " header.d"), d. by destruct b.
    - destruct (is_empty fromDomain); [done|]. repeat constructor.
      exists "d"%char, ("marc=" +:+ dmarcRes +:+ " header.from"), fromDomain. split_and!; [by rewrite ?sapp_cons, ?sapp_assoc|done..|].
      change (avoids LF ("dmarc=" +:+ dmarcRes +:+ " header.from") = true). rewrite !avoids_app. by rewrite Hm. }
  clearbody ls. split.
  - apply (Forall_impl _ _ _ Hls). intros l (c&a&d&->&Hc&Hcl&_). by apply line_trim.
  - induction Hls as [|l ls (c&a&d&->&Hc&Hcl&Ha) Hls IH]; [done|]. 
    assert (Hl : avoids LF (String c a +:+ "=" +:+ d) = true) by (rewrite !avoids_app; split; [done|split; [done|by apply Hav]]).
    destruct ls as [|l' ls]; [by constructor|]. cbn [ended]. constructor; [|done].
    apply avoids_app. by split.
Qed.

(** the header put in front of a message is one field of its own: the
    message with it has the field, whose value is the results in order,
    and every other field as it was, provided the names reported hold
    neither blanks nor line ends. *)
Theorem auth_results_field hostname spfRes spfDomain dkims dmarcRes fromDomain data h :
  clean hostname = true → clean spfDomain = true → Forall (λ d, clean d.1 = true) dkims → clean fromDomain = true →
  avoids LF spfRes = true → avoids LF dmarcRes = true → ReadMessage data = Some h →
  ∃ h', ReadMessage (authResults hostname spfRes spfDomain dkims dmarcRes fromDomain +:+ data) = Some h' ∧
    Get h' "Authentication-Results" = hostname +:+ "; " +:+ Join (results spfRes spfDomain dkims dmarcRes fromDomain) "; " ∧
    ∀ k, CanonicalMIMEHeaderKey k ≠ "Authentication-Results" → Get h' k = Get h k.
Proof.
  intros Hh Hs Hd Hf Hr Hm Hmsg. rewrite authResults_lines.
  destruct (results_lines spfRes spfDomain dkims dmarcRes fromDomain Hs Hd Hf Hr Hm) as [Htrim Hav].
  set (ls := results _ _ _ _ _) in *. assert (Hne : ls ≠ []) by done. rewrite folded_lines by done.
  destruct (clean_spec _ Hh) as [Hb Hl].
  set (first := ("Authentication-Results: " +:+ hostname) +:+ ";").
  assert (Hread : ReadContinuedLine ((first +:+ CRLF +:+ folded (ended ls)) +:+ data) =
    Some ("Authentication-Results" +:+ String ":" (" " +:+ hostname +:+ "; " +:+ Join ls "; "), data)).
  { rewrite !sapp_assoc, ReadContinuedLine_folded; [|done| |done|].
    - do 2 f_equal. replace (trim_blanks first) with first.
      + unfold first. rewrite unfolded_ended by done. by rewrite !sapp_assoc.
      + unfold trim_blanks, first. symmetry. change (trim_left is_blank (("Authentication-Results: " +:+ hostname) +:+ ";"))
          with (("Authentication-Results: " +:+ hostname) +:+ ";"). by apply trim_right_app_keep.
    - unfold first. rewrite !avoids_app. by rewrite Hl.
    - unfold ReadMessage in Hmsg. destruct data as [|c data]; [done|]. cbn. by destruct (is_blank c). }
  destruct (ReadMessage_prepend "Authentication-Results" "Authentication-Results" _ _ _ _ eq_refl ltac:(done) Hread
    eq_refl ltac:(done) eq_refl ltac:(done) Hmsg) as (h'&Em&Hfirst&Hother).
  exists h'. split; [exact Em|]. split.
  - unfold Get. change (CanonicalMIMEHeaderKey "Authentication-Results") with "Authentication-Results".
    change (trim_left is_blank (" " +:+ hostname +:+ "; " +:+ Join ls "; ")) with
      (trim_left is_blank (hostname +:+ "; " +:+ Join ls "; ")) in Hfirst.
    destruct (h' !! "Authentication-Results") as [[|v vs]|]; [done| |done]. cbn in Hfirst. injection Hfirst as ->.
    destruct hostname as [|c r]; [done|]. cbn in Hb. apply andb_true_iff in Hb as [Hc%negb_true_iff _]. cbn. by rewrite Hc.
  - intros k Hk. unfold Get. by rewrite Hother.
Qed.
End mailauth.

(** ** A library for examples *)

Definition sample_record : DmarcRecord := MkDmarc "reject" "quarantine" "r" "r" (Some 50).

(** [bank.example] publishes a record; the random number is 10. *)
Definition sample_lib : AuthLib := {|
  PolicyNone := "none"; PolicyQuarantine := "quarantine"; PolicyReject := "reject"; AlignmentStrict := "s";
  CheckHostWithSender _ _ _ := "pass";
  VerifyWithOptions _ := Some [("Other.example", true)];
  LookupWithOptions d := if String.eqb d "bank.example" then Some sample_record else None;
  EffectiveTLDPlusOne d := if HasSuffix d "bank.example" then Some "bank.example" else None;
  ParseAddressList s := Some [MkAddress "" s];
  IntN100 := 10;
|}.

Lemma sample_lib_ok : @AuthLibOk sample_lib.
Proof. split. apply (bool_decide_unpack _). vm_compute. exact I. Qed.

Definition sample_mail (from : string) : string := "From: " +:+ from +:+ CRLF +:+ CRLF +:+ "hello" +:+ CRLF.

Lemma sample_unauthenticated from : from = "a@bank.example" ∨ from = "a@m.bank.example" →
  ¬ authenticated (H := sample_lib) sample_record None "spam.example" "x@spam.example" (sample_mail from).
Proof.
  intros Hf Ha. apply authenticated_spec in Ha. revert Ha. destruct Hf as [-> | ->]; vm_compute; discriminate.
Qed.

(** The same with a resolver that fails for the time being: SPF ends in a
    temporary error and the keys of the signatures cannot be fetched. *)
Definition flaky_lib : AuthLib := {|
  PolicyNone := "none"; PolicyQuarantine := "quarantine"; PolicyReject := "reject"; AlignmentStrict := "s";
  CheckHostWithSender _ _ _ := "temperror";
  VerifyWithOptions _ := Some [("bank.example", false)];
  LookupWithOptions d := if String.eqb d "bank.example" then Some sample_record else None;
  EffectiveTLDPlusOne d := if HasSuffix d "bank.example" then Some "bank.example" else None;
  ParseAddressList s := Some [MkAddress "" s];
  IntN100 := 10;
|}.

(** A message of the bank is refused then, and one of a subdomain whose own
    record could not be looked up is quarantined. *)
Example flaky_resolver_rejects :
  let verdict from := Check (H := flaky_lib) "mx.example" true None "mail.bank.example" "x@bank.example" (sample_mail from) in
  res_Action (verdict "a@bank.example") = Reject ∧ res_Action (verdict "a@m.bank.example") = Quarantine.
Proof. vm_compute. done. Qed.

Lemma check_disposition_witness :
  rank (res_Action (Check (H := sample_lib) "mx.example" true None "spam.example" "x@spam.example"
    (sample_mail "a@bank.example"))) = 2 ∧
  rank (res_Action (Check (H := sample_lib) "mx.example" true None "spam.example" "x@spam.example"
    (sample_mail "a@m.bank.example"))) = 1.
Proof.
  assert (Hs : ¬ sampled_out (H := sample_lib) sample_record)
    by (intros (p&[= <-]&_&Hi); apply Hi; reflexivity).
  split.
  - exact (proj2 (proj2 (proj2 (proj2 (check_disposition (H := sample_lib) (H0 := sample_lib_ok) "mx.example" true None
      "spam.example" "x@spam.example" (sample_mail "a@bank.example"))
      (sample_unauthenticated _ (or_introl eq_refl)))) eq_refl) Hs).
  - exact (proj2 (proj2 (proj2 (proj2 (check_disposition (H := sample_lib) (H0 := sample_lib_ok) "mx.example" true None
      "spam.example" "x@spam.example" (sample_mail "a@m.bank.example"))
      (sample_unauthenticated _ (or_intror eq_refl)))) eq_refl) Hs).
Defined.

Lemma auth_results_field_witness :
  let line := authResults "mx.example" "pass" "spam.example" [("other.example", true)] "fail" "bank.example" in
  ∃ h', ReadMessage (line +:+ sample_mail "a@bank.example") = Some h' ∧
    Get h' "Authentication-Results" = "mx.example; spf=pass smtp.mailfrom=spam.example; dkim=pass header.d=other.example; dmarc=fail header.from=bank.example" ∧
    Get h' "From" = "a@bank.example".
Proof.
  intros line. destruct (ReadMessage (sample_mail "a@bank.example")) as [h|] eqn:E; [|vm_compute in E; discriminate E].
  destruct (auth_results_field "mx.example" "pass" "spam.example" [("other.example", true)] "fail"
    "bank.example" (sample_mail "a@bank.example") h) as (h'&Em&Hg&Ho);
    [reflexivity|reflexivity|repeat constructor|reflexivity|reflexivity|reflexivity|exact E|].
  exists h'. split; [exact Em|]. split; [exact Hg|].
  transitivity (Get h "From"); [apply Ho; discriminate|]. vm_compute in E. injection E as <-. reflexivity.
Defined.
