(* ===== verification/Reputation.v ===== *)
(** * Reputation and warm-up

    Models [internal/reputation/reputation.go]: the score of every sender
    and domain with its decay, the counters, the suspension of senders and
    the daily allowance of a young domain, and how the store is saved and
    opened.  Scores are binary64 numbers.  [encoding/json] is the interface
    [Codec]: what the store relies on is that it reads back what it wrote.
    Every operation takes the instants its calls of the clock return; the
    mutex is not modelled. *)

From S2P Require Import Prelude GoStrings GoNum Fs Persist.

(** ** Scores *)

Definition num : Z → f64 := f64_of_Z.

Definition ScoreExcellent : f64 := num 100.
Definition ScoreNormal : f64 := num 50.
Definition ScoreSuspect : f64 := num 20.
Definition ScoreBlocked : f64 := num 0.

(** [ScoreSuspect/2], which the compiler evaluates. *)
Definition suspended : f64 := num 10.

Inductive Event :=
  | EventDelivered | EventAuthPass | EventBounce | EventSpamComplaint | EventBlacklisted | EventAnomaly.

#[global] Instance Event_eq_dec : EqDecision Event.
Proof. solve_decision. Defined.

Definition delta (e : Event) : f64 :=
  match e with
  | EventDelivered => fdiv (num 5) (num 10)
  | EventAuthPass => fdiv (num 2) (num 10)
  | EventBounce => num (-2)
  | EventSpamComplaint => num (-15)
  | EventBlacklisted => num (-30)
  | EventAnomaly => num (-25)
  end.

Definition minf (a b : f64) : f64 := if flt a b then a else b.
Definition maxf (a b : f64) : f64 := if fgt a b then a else b.
Definition clamp (v : f64) : f64 := maxf ScoreBlocked (minf ScoreExcellent v).

Definition Band (score : f64) : string :=
  if fge score (num 80) then "excellent"
  else if fge score (num 40) then "normal"
  else if fgt score suspended then "suspect"
  else "blocked".

(** ** The store *)

Record record := MkRecord {
  Score : f64;
  Updated : Z;
  First : Z;
  Sent : Z;
  Bounced : Z;
  Reported : Z;
  DaySent : Z;
  DayFrom : Z;
}.

Record Store := MkStore {
  s_path : option path;
  records : gmap string record;
  dirty : bool;
}.

Definition put (s : Store) (key : string) (r : record) (d : bool) : Store :=
  MkStore (s_path s) (<[key := r]> (records s)) d.

Definition with_score (r : record) (score : f64) (updated : Z) : record :=
  MkRecord score updated (First r) (Sent r) (Bounced r) (Reported r) (DaySent r) (DayFrom r).

(** The days between two instants. *)
Definition days_since (now t : Z) : f64 := fdiv (Hours (time_Sub now t)) (num 24).

(** One point a day towards the baseline, from a full day on. *)
Definition decay (r : record) (now : Z) : record * bool :=
  let days := days_since now (Updated r) in
  if fge days (num 1) then
    let score :=
      if flt (Score r) ScoreNormal then minf ScoreNormal (fadd (Score r) days)
      else if fgt (Score r) ScoreNormal then maxf ScoreNormal (fsub (Score r) days)
      else Score r in
    (with_score r score now, true)
  else (r, false).

(** The daily counter starts again after a day. *)
Definition roll (r : record) (now : Z) : record * bool :=
  if 24 * Hour <=? time_Sub now (DayFrom r) then
    (MkRecord (Score r) (Updated r) (First r) (Sent r) (Bounced r) (Reported r) 0 now, true)
  else (r, false).

Definition get (s : Store) (key : string) (now : Z) : record * Store :=
  match records s !! key with
  | None =>
      let r := MkRecord ScoreNormal now now 0 0 0 0 now in
      (r, put s key r true)
  | Some r =>
      let '(r, d1) := decay r now in
      let '(r, d2) := roll r now in
      (r, put s key r (dirty s || d1 || d2))
  end.

(** What an event counts. *)
Definition counted (r : record) (e : Event) : record :=
  match e with
  | EventDelivered =>
      MkRecord (Score r) (Updated r) (First r) (u64 (Sent r + 1)) (Bounced r) (Reported r) (u64 (DaySent r + 1)) (DayFrom r)
  | EventBounce =>
      MkRecord (Score r) (Updated r) (First r) (Sent r) (u64 (Bounced r + 1)) (Reported r) (DaySent r) (DayFrom r)
  | EventSpamComplaint =>
      MkRecord (Score r) (Updated r) (First r) (Sent r) (Bounced r) (u64 (Reported r + 1)) (DaySent r) (DayFrom r)
  | _ => r
  end.

(** [Record]; the clock answers [now] and then [now']. *)
Definition RecordEvent (s : Store) (key : string) (e : Event) (now now' : Z) : f64 * Store :=
  let '(r, s) := get s key now in
  let r := counted (with_score r (clamp (fadd (Score r) (delta e))) now') e in
  (Score r, put s key r true).

Definition ScoreOf (s : Store) (key : string) (now : Z) : f64 * Store :=
  let '(r, s) := get s key now in (Score r, s).

Definition Blocked (s : Store) (key : string) (now : Z) : bool * Store :=
  let '(score, s) := ScoreOf s key now in (fle score suspended, s).

Record Stats := MkStats {
  st_Key : string;
  st_Score : f64;
  st_Sent : Z;
  st_Bounced : Z;
  st_Reported : Z;
  st_DaySent : Z;
  st_FirstSeen : Z;
}.

Definition Snapshot `{SliceSort} (s : Store) : list Stats :=
  sort_slice (λ a b, flt (st_Score a) (st_Score b))
    ((λ kr : string * record, MkStats kr.1 (Score kr.2) (Sent kr.2) (Bounced kr.2) (Reported kr.2) (DaySent kr.2) (First kr.2))
       <$> map_to_list (records s)).

(** ** Warm-up *)

Record WarmUp := MkWarmUp {
  w_Enabled : bool;
  Day1 : Z;
  Day7 : Z;
  Full : Z;
}.

(** [uint64(f * float64(to - from))] above [from]. *)
Definition ramp (from to : Z) (f : f64) : Z := u64 (from + u64 (trunc (fmul f (num (u64 (to - from)))))).

Definition DailyLimit (w : WarmUp) (age : Z) : Z :=
  if negb (w_Enabled w) then 0 else
  let days := fdiv (Hours age) (num 24) in
  if fle days (num 1) then Day1 w
  else if fge days (num 30) then Full w
  else if fle days (num 7) then ramp (Day1 w) (Day7 w) (fdiv (fsub days (num 1)) (num 6))
  else ramp (Day7 w) (Full w) (fdiv (fsub days (num 7)) (num 23)).

(** [AllowSend]; the clock answers [now] and then [now']. *)
Definition AllowSend (s : Store) (key : string) (w : WarmUp) (now now' : Z) : bool * Z * Store :=
  if negb (w_Enabled w) then (true, 0, s) else
  let '(r, s) := get s key now in
  let limit := DailyLimit w (time_Sub now' (First r)) in
  if limit =? 0 then (true, 0, s) else (DaySent r <? limit, limit, s).

(** ** Persistence *)

Class Codec := {
  Marshal : gmap string record → string;
  Unmarshal : string → option (gmap string record);
}.
Class CodecOk `{Codec} := { unmarshal_marshal m : Unmarshal (Marshal m) = Some m }.

Section persistence.
Context `{Codec} (env : Env).

Definition Open (p : option path) : OS Store :=
  match p with
  | None => mret (MkStore None ∅ false)
  | Some file =>
      r ← os_try (ReadFile env file);
      match r with
      | Err ENotExist => mret (MkStore p ∅ false)
      | Err e => os_err e
      | Ok b => mret (MkStore p (default ∅ (Unmarshal b)) false)
      end
  end.

Definition Save (s : Store) : OS Store :=
  if negb (dirty s) then mret s else
  match s_path s with
  | None => mret s
  | Some p => save_file env p (Marshal (records s));; mret (MkStore (s_path s) (records s) false)
  end.
End persistence.

(** ** Scores in half points

    Every event but a passed authentication moves the score by a whole
    number of half points, and binary64 holds those exactly. *)

(** A score of [h] half points. *)
Definition half (h : Z) : f64 := fdiv (num h) (num 2).

(** The weight of an event in half points; 0.2 is no whole number of them. *)
Definition half_delta (e : Event) : option Z :=
  match e with
  | EventDelivered => Some 1
  | EventAuthPass => None
  | EventBounce => Some (-4)
  | EventSpamComplaint => Some (-30)
  | EventBlacklisted => Some (-60)
  | EventAnomaly => Some (-50)
  end.

(** The score as a number between 0 and 200. *)
Definition half_step (h d : Z) : Z := Z.max 0 (Z.min 200 (h + d)).

Definition half_events : list Event :=
  [EventDelivered; EventBounce; EventSpamComplaint; EventBlacklisted; EventAnomaly].

Lemma half_table : forallb (λ h, forallb (λ e,
    bool_decide (Some (clamp (fadd (half h) (delta e))) = (λ d, half (half_step h d)) <$> half_delta e)) half_events) (seqZ 0 201) = true.
Proof. vm_compute. reflexivity. Qed.

Lemma half_blocked_table : forallb (λ h, Bool.eqb (fle (half h) suspended) (h <=? 20)) (seqZ 0 201) = true.
Proof. vm_compute. reflexivity. Qed.

Lemma forallb_seqZ (P : Z → bool) n h : forallb P (seqZ 0 n) = true → 0 <= h < n → P h = true.
Proof.
  rewrite forallb_forall. intros Hp Hh. apply Hp, list_elem_of_In, elem_of_seqZ. lia.
Qed.

Lemma half_clamp h e d : 0 <= h <= 200 → half_delta e = Some d →
  clamp (fadd (half h) (delta e)) = half (half_step h d).
Proof.
  intros Hh He. pose proof (forallb_seqZ _ _ h half_table ltac:(lia)) as Ht. cbv beta in Ht.
  rewrite forallb_forall in Ht. assert (Hin : In e half_events) by (unfold half_events; destruct e; first [done|simpl; tauto]).
  specialize (Ht e Hin). apply bool_decide_eq_true in Ht. rewrite He in Ht. by injection Ht.
Qed.

Lemma half_suspended h : 0 <= h <= 200 → fle (half h) suspended = (h <=? 20).
Proof.
  intros Hh. pose proof (forallb_seqZ _ _ h half_blocked_table ltac:(lia)) as Ht. by apply Bool.eqb_prop in Ht.
Qed.

Lemma half_step_range h d : 0 <= half_step h d <= 200.
Proof. unfold half_step. lia. Qed.

(** The score of a subject, at the baseline when it is new. *)
Definition score_at (s : Store) (key : string) : f64 :=
  match records s !! key with Some r => Score r | None => ScoreNormal end.

(** No full day has passed since the score was last moved. *)
Definition no_day (s : Store) (key : string) (now : Z) : Prop :=
  ∀ r, records s !! key = Some r → fge (days_since now (Updated r)) (num 1) = false.

Lemma get_no_day s key now : no_day s key now →
  Score (get s key now).1 = score_at s key ∧ (∀ k, k ≠ key → records (get s key now).2 !! k = records s !! k) ∧
  records (get s key now).2 !! key = Some (get s key now).1.
Proof.
  unfold no_day, get, score_at. intros Hn. destruct (records s !! key) as [r|] eqn:E.
  - unfold decay. rewrite (Hn r eq_refl). unfold roll. destruct (_ <=? _); cbn [fst snd put records Score];
      split_and!; try done; try (by rewrite lookup_insert_eq); intros k Hk; by rewrite lookup_insert_ne.
  - cbn [fst snd put records Score]. split_and!; [done| |by rewrite lookup_insert_eq].
    intros k Hk. by rewrite lookup_insert_ne.
Qed.

Lemma counted_score r e : Score (counted r e) = Score r ∧ Updated (counted r e) = Updated r.
Proof. by destruct e. Qed.

(** Events one after the other. *)
Fixpoint record_all (s : Store) (key : string) (es : list (Event * Z)) : Store :=
  match es with
  | [] => s
  | (e, t) :: es => record_all (RecordEvent s key e t t).2 key es
  end.

Lemma record_half s key e d t h : no_day s key t → score_at s key = half h → 0 <= h <= 200 → half_delta e = Some d →
  let s' := (RecordEvent s key e t t).2 in
  (RecordEvent s key e t t).1 = half (half_step h d) ∧ score_at s' key = half (half_step h d) ∧
  (∃ r, records s' !! key = Some r ∧ Updated r = t) ∧ ∀ k, k ≠ key → records s' !! k = records s !! k.
Proof.
  intros Hn Hs Hh He. destruct (get_no_day s key t Hn) as (Hsc&Ho&_). unfold RecordEvent.
  destruct (get s key t) as [r s1]. cbn [fst snd] in *. rewrite Hs in Hsc.
  destruct (counted_score (with_score r (clamp (fadd (Score r) (delta e))) t) e) as [Hc Hu].
  cbn [Score with_score Updated] in Hc, Hu. rewrite Hsc, (half_clamp h e d) in * by done.
  split_and!; [done| | |].
  - unfold score_at, put. cbn [records]. by rewrite lookup_insert_eq.
  - eexists. split; [unfold put; cbn [records]; by rewrite lookup_insert_eq|done].
  - intros k Hk. unfold put. cbn [records]. rewrite lookup_insert_ne by done. by apply Ho.
Qed.

(** *** Any event, at any time *)

(** A score between 0 and 100. *)
Definition in_range (x : f64) : Prop := fle ScoreBlocked x = true ∧ fle x ScoreExcellent = true.

Lemma in_range_finite x : in_range x → is_finite x = true.
Proof. intros [H0 H1]. destruct x as [|[]| |]; done. Qed.

Lemma clamp_range v : is_num v = true → in_range (clamp v).
Proof.
  intros Hv. unfold clamp, minf, maxf, fgt. destruct (flt ScoreExcellent v) eqn:E; [by vm_compute|].
  destruct (flt v ScoreBlocked) eqn:E0; [by vm_compute|]. split; by apply flt_total.
Qed.

Lemma finite_num x : is_finite x = true → is_num x = true. Proof. by destruct x. Qed.

Lemma decay_num r now : is_finite (Score r) = true → is_num (Score (decay r now).1) = true.
Proof.
  intros Hr. unfold decay. destruct (fge _ _) eqn:Ed; [|by apply finite_num]. cbn [fst with_score Score].
  assert (Hd : is_num (days_since now (Updated r)) = true) by (destruct (days_since now (Updated r)); try done; by vm_compute in Ed).
  unfold minf, maxf. repeat case_match; try done; [by apply fadd_num_r|by apply fsub_num_r|by apply finite_num].
Qed.

Lemma get_num s key now : is_finite (score_at s key) = true →
  is_num (Score (get s key now).1) = true ∧ ∀ k, k ≠ key → records (get s key now).2 !! k = records s !! k.
Proof.
  unfold get, score_at. destruct (records s !! key) as [r|] eqn:E; intros Hr.
  - pose proof (decay_num r now Hr) as Hd. destruct (decay r now) as [r1 d1]. unfold roll. destruct (_ <=? _); cbn in *;
      (split; [done|]); intros k Hk; by rewrite lookup_insert_ne.
  - split; [done|]. intros k Hk. cbn. by rewrite lookup_insert_ne.
Qed.

Lemma record_range s key e t t' : is_finite (score_at s key) = true → let s' := (RecordEvent s key e t t').2 in
  in_range (score_at s' key) ∧ ∀ k, k ≠ key → records s' !! k = records s !! k.
Proof.
  intros Hs. destruct (get_num s key t Hs) as [Hn Ho]. unfold RecordEvent. destruct (get s key t) as [r s1]. cbn [fst snd] in *.
  destruct (counted_score (with_score r (clamp (fadd (Score r) (delta e))) t') e) as [Hc _]. cbn [Score with_score] in Hc. split.
  - unfold score_at, put. cbn [records]. rewrite lookup_insert_eq, Hc. apply clamp_range, fadd_num; [done|by destruct e].
  - intros k Hk. unfold put. cbn [records]. rewrite lookup_insert_ne by done. by apply Ho.
Qed.

Lemma record_all_range s key es : in_range (score_at s key) →
  in_range (score_at (record_all s key es) key) ∧ ∀ k, k ≠ key → records (record_all s key es) !! k = records s !! k.
Proof.
  revert s. induction es as [|[e t] es IH]; intros s Hs; [done|]. cbn [record_all].
  destruct (record_range s key e t t (in_range_finite _ Hs)) as [H1 H2]. destruct (IH _ H1) as [H3 H4].
  split; [done|]. intros k Hk. by rewrite H4, H2.
Qed.

Lemma record_all_half s key (es : list (Event * Z)) ds h (ts : list Z) :
  score_at s key = half h → 0 <= h <= 200 → Forall2 (λ (et : Event * Z) d, half_delta et.1 = Some d) es ds →
  (∀ r, records s !! key = Some r → Updated r ∈ ts) → es.*2 ⊆ ts →
  (∀ t t', t ∈ ts → t' ∈ ts → fge (days_since t t') (num 1) = false) →
  score_at (record_all s key es) key = half (foldl half_step h ds) ∧ 0 <= foldl half_step h ds <= 200 ∧
  ∀ r, records (record_all s key es) !! key = Some r → Updated r ∈ ts.
Proof.
  intros Hs Hh Hd Hu Hsub Ht. revert s h Hs Hh Hu. induction Hd as [|[e t] d es ds He _ IH]; intros s h Hs Hh Hu; [done|].
  cbn [fst] in He. assert (Hint : t ∈ ts) by (apply Hsub; left).
  destruct (record_half s key e d t h) as (_&Hs1&(r&Hr&Hur)&_); [|done..|].
  { intros r Hr. apply Ht; [done|by apply Hu]. }
  cbn [record_all foldl]. apply IH; [|done|apply half_step_range|].
  - intros x Hx. apply Hsub. by right.
  - intros r' Hr'. rewrite Hr in Hr'. injection Hr' as <-. by rewrite Hur.
Qed.

(** C37: whatever events are recorded of a sender, of any kind and at any
    time, its score stays between 0 and 100 once it is there, and no other
    subject's record changes.  Where no event is a passed authentication,
    whose weight of 0.2 no binary number is, and the score was a whole
    number of half points with less than a day between any two instants, so
    that nothing decays, the score is exactly the number of half points
    that adding up the weights between 0 and 200 gives, and the sender is
    suspended exactly when at most 20 half points are left. *)
Theorem score_exact s key (es : list (Event * Z)) : in_range (score_at s key) →
  let s' := record_all s key es in
  in_range (score_at s' key) ∧ (∀ k, k ≠ key → records s' !! k = records s !! k) ∧
  ∀ h ds now, score_at s key = half h → 0 <= h <= 200 →
    Forall2 (λ (et : Event * Z) d, half_delta et.1 = Some d) es ds →
    (∀ r, records s !! key = Some r → Updated r ∈ now :: es.*2) →
    (∀ t t', t ∈ now :: es.*2 → t' ∈ now :: es.*2 → fge (days_since t t') (num 1) = false) →
    let h' := foldl half_step h ds in
    score_at s' key = half h' ∧ (Blocked s' key now).1 = (h' <=? 20).
Proof.
  intros Hs s'. destruct (record_all_range s key es Hs) as [H1 H2]. split_and!; [done..|].
  intros h ds now Hhalf Hh Hd Hu Ht h'.
  destruct (record_all_half s key es ds h (now :: es.*2)) as (H3&H4&H5); try done; [by right|]. split; [done|].
  unfold Blocked, ScoreOf. destruct (get_no_day s' key now) as (Hg&_).
  { intros r Hr. apply Ht; [by left|by apply H5]. }
  destruct (get s' key now) as [r s2]. cbn [fst] in *. rewrite Hg. unfold s'. rewrite H3. by apply half_suspended.
Qed.

(** ** The daily allowance *)

(** What sessions and the rest of the daemon do to the store on account of
    a domain: a session asks before it takes the message ([MaySend] in
    [cmdData]), and much later counts it ([Sent]), unless the message was
    refused meanwhile; other records are written, and any key looked at. *)
Inductive sending :=
  | TryAsk (w : WarmUp) (t t' : Z)
  | TrySent (t t' : Z)
  | TryDrop
  | OtherRecord (k : string) (e : Event) (t t' : Z)
  | OtherLook (k : string) (t : Z).

(** The store, the messages that were allowed and are neither counted nor
    refused yet, those counted, and the most that were under way at once. *)
Record under_way := MkSending { ln_store : Store; ln_flight : Z; ln_sent : Z; ln_peak : Z }.

Definition send_step (key : string) (l : under_way) (e : sending) : under_way :=
  match e with
  | TryAsk w t t' =>
      let '(ok, _, s) := AllowSend (ln_store l) key w t t' in
      if (ok : bool) then MkSending s (ln_flight l + 1) (ln_sent l) (Z.max (ln_peak l) (ln_flight l + 1))
      else MkSending s (ln_flight l) (ln_sent l) (ln_peak l)
  | TrySent t t' =>
      if ln_flight l <=? 0 then l else
      MkSending (RecordEvent (ln_store l) key EventDelivered t t').2 (ln_flight l - 1) (ln_sent l + 1) (ln_peak l)
  | TryDrop => if ln_flight l <=? 0 then l else MkSending (ln_store l) (ln_flight l - 1) (ln_sent l) (ln_peak l)
  | OtherRecord k e t t' => MkSending (RecordEvent (ln_store l) k e t t').2 (ln_flight l) (ln_sent l) (ln_peak l)
  | OtherLook k t => MkSending (Blocked (ln_store l) k t).2 (ln_flight l) (ln_sent l) (ln_peak l)
  end.

Definition sendings (key : string) (s : Store) (es : list sending) : under_way := foldl (send_step key) (MkSending s 0 0 0) es.

(** The day of a record at an instant is still the one it counts. *)
Definition same_day (r : record) (now : Z) : Prop := time_Sub now (DayFrom r) < 24 * Hour.

Lemma get_same_day s key now r : records s !! key = Some r → same_day r now →
  ∃ r', (get s key now).1 = r' ∧ records (get s key now).2 !! key = Some r' ∧
    DaySent r' = DaySent r ∧ DayFrom r' = DayFrom r ∧ First r' = First r.
Proof.
  intros Hr Hd. unfold get. rewrite Hr.
  assert (H : ∀ r0, DayFrom r0 = DayFrom r → roll r0 now = (r0, false)).
  { intros r0 E. unfold roll. rewrite E. unfold same_day in Hd. by rewrite (proj2 (Z.leb_gt _ _)). }
  unfold decay. destruct (fge _ _); rewrite H by done; eexists; (split; [reflexivity|]); cbn [snd put records];
    by rewrite lookup_insert_eq.
Qed.

(** What a step keeps of the record of a domain within its day. *)
Definition day_counts (r : record) (n : Z) (s : Store) (key : string) : Prop :=
  ∃ r', records s !! key = Some r' ∧ DaySent r' = n ∧ DayFrom r' = DayFrom r ∧ First r' = First r.

Lemma same_day_of r r' t : DayFrom r' = DayFrom r → same_day r t → same_day r' t.
Proof. unfold same_day. by intros ->. Qed.

Lemma get_other s key k now : k ≠ key → records (get s k now).2 !! key = records s !! key.
Proof.
  intros Hk. unfold get. destruct (records s !! k) as [r|]; [destruct (decay r now) as [r1 d1], (roll r1 now) as [r2 d2]|];
    cbn; by rewrite lookup_insert_ne.
Qed.

Lemma record_counts r n s key k e t t' : day_counts r n s key → (k = key → same_day r t) → 0 <= n < 2 ^ 64 - 1 →
  day_counts r (if bool_decide (k = key ∧ e = EventDelivered) then n + 1 else n) (RecordEvent s k e t t').2 key.
Proof.
  intros (r0&Hr&Hn&Hd&Hf) Ht Hrange. destruct (decide (k = key)) as [->|Hk].
  - destruct (get_same_day s key t r0 Hr (same_day_of r r0 t Hd (Ht eq_refl))) as (r1&E1&_&Hs&Hfr&Hfi). unfold RecordEvent.
    destruct (get s key t) as [r2 s2]. cbn [fst] in E1. subst r2. eexists. cbn [snd put records].
    rewrite lookup_insert_eq. split; [reflexivity|]. rewrite Hn in Hs.
    destruct e; cbn [counted with_score DaySent DayFrom First];
      [rewrite bool_decide_eq_true_2 by done|rewrite bool_decide_eq_false_2 by (by intros [_ ?]); split_and!; congruence..].
    split_and!; [|congruence..]. rewrite Hs. unfold u64. rewrite Z.mod_small by lia. done.
  - rewrite bool_decide_eq_false_2 by (by intros [? _]). pose proof (get_other s key k t Hk) as Ho. unfold RecordEvent.
    destruct (get s k t) as [r2 s2]. cbn [snd] in Ho. exists r0. cbn [snd put records]. by rewrite lookup_insert_ne, Ho.
Qed.

Lemma look_counts r n s key k t : day_counts r n s key → (k = key → same_day r t) → day_counts r n (get s k t).2 key.
Proof.
  intros (r0&Hr&Hn&Hd&Hf) Ht. destruct (decide (k = key)) as [->|Hk].
  - destruct (get_same_day s key t r0 Hr (same_day_of r r0 t Hd (Ht eq_refl))) as (r1&_&Hg&Hs&Hfr&Hfi). exists r1. split_and!; congruence.
  - exists r0. by rewrite get_other.
Qed.

(** An instant of the day the record counts, at which the allowance is
    limited, by [limit] at most. *)
Definition today (key : string) (r : record) (limit : Z) (e : sending) : Prop :=
  match e with
  | TryAsk w t t' => same_day r t ∧ w_Enabled w = true ∧ 0 < DailyLimit w (time_Sub t' (First r)) <= limit
  | TrySent t _ => same_day r t
  | TryDrop => True
  | OtherRecord k e t _ => k = key → e ≠ EventDelivered ∧ same_day r t
  | OtherLook k t => k = key → same_day r t
  end.

(** The invariant of the sendings of a day. *)
Record kept_cap (key : string) (r : record) (limit steps : Z) (l : under_way) : Prop := {
  wi_count : day_counts r (DaySent r + ln_sent l) (ln_store l) key;
  wi_range : 0 <= ln_flight l ∧ 0 <= ln_sent l ∧ ln_sent l + ln_flight l <= steps ∧ 0 <= ln_peak l <= steps;
  wi_cap : 0 < ln_sent l + ln_flight l → DaySent r + ln_sent l + ln_flight l < limit + ln_peak l;
}.

Lemma send_step_within key r limit steps l e : kept_cap key r limit steps l → today key r limit e →
  0 <= DaySent r → DaySent r + steps < 2 ^ 64 - 1 → kept_cap key r limit (steps + 1) (send_step key l e).
Proof.
  intros [Hc Hr Hcap] He H0 Hs. destruct e as [w t t'|t t'| |k e t t'|k t]; cbn [send_step today] in *.
  - destruct He as (Ht&Hw&Hp&Hl). unfold AllowSend. rewrite Hw. cbn [negb]. cbv iota.
    destruct Hc as (r0&Hr0&Hn&Hd&Hf).
    destruct (get_same_day _ key t r0 Hr0 (same_day_of r r0 t Hd Ht)) as (r1&E1&Hg&Hs1&Hd1&Hf1).
    destruct (get (ln_store l) key t) as [rg sg]. cbn [fst snd] in E1, Hg. subst rg. cbv zeta.
    rewrite Hf1, Hf, (proj2 (Z.eqb_neq _ 0)) by lia. cbv beta iota.
    assert (Hc' : day_counts r (DaySent r + ln_sent l) sg key) by (exists r1; split_and!; congruence).
    destruct (Z.ltb_spec (DaySent r1) (DailyLimit w (time_Sub t' (First r)))); split; cbn; try done; lia.
  - destruct (Z.leb_spec (ln_flight l) 0); [split; [done|lia|done]|].
    pose proof (record_counts r _ _ key key EventDelivered t t' Hc (λ _, He) ltac:(lia)) as Hc'.
    rewrite bool_decide_eq_true_2 in Hc' by done. split; cbn; [by rewrite Z.add_assoc|lia|lia].
  - destruct (Z.leb_spec (ln_flight l) 0); [split; [done|lia|done]|]. split; cbn; [done|lia|lia].
  - pose proof (record_counts r _ _ key k e t t' Hc (λ E, proj2 (He E)) ltac:(lia)) as Hc'.
    rewrite bool_decide_eq_false_2 in Hc' by (intros [-> ->]; by destruct (He eq_refl)). split; cbn; [done|lia|done].
  - pose proof (look_counts r _ _ key k t Hc He) as Hc'. unfold Blocked, ScoreOf.
    destruct (get (ln_store l) k t) as [r2 s2]. split; cbn; [done|lia|done].
Qed.

(** C38: in the course of one day a domain whose allowance is limited sends
    at most its largest limit, counting what it had sent before, and as
    many messages more as other sessions had been allowed to send, and had
    not finished sending, when one of its messages was allowed: a session
    asks before it takes a message and counts it when it is queued, so
    sessions that ask in between pass the same check.  One message at a
    time never exceeds the limit. *)
Theorem warmup_cap s key es r limit : records s !! key = Some r → 0 <= DaySent r →
  Forall (today key r limit) es → DaySent r + llen es < 2 ^ 64 - 1 →
  let l := sendings key s es in
  (∃ r', records (ln_store l) !! key = Some r' ∧ DaySent r' = DaySent r + ln_sent l) ∧
  (0 < ln_sent l → DaySent r + ln_sent l <= limit + (ln_peak l - 1)).
Proof.
  intros Hr H0 He Hl l. assert (Hw : kept_cap key r limit (llen es) l).
  { subst l. unfold sendings. induction es as [|e es IH] using rev_ind.
    - change (llen []) with 0; split; cbn; [exists r; split_and!; [done|lia|done..]|lia|lia].
    - apply Forall_app in He as [He He1]. apply Forall_cons in He1 as [He1 _]. rewrite llen_app in Hl |- *. change (llen [e]) with 1 in *.
      rewrite foldl_app. cbn [foldl]. apply send_step_within; [|done|done|lia]. apply IH; [done|lia]. }
  destruct Hw as [(r'&Hr'&Hn&_) Hrange Hcap]. split; [by exists r'|]. lia.
Qed.

(** ** Saving *)

(** saving replaces the file as a whole: whatever fails, the file holds
    what it held or the records of the store, no other file changes, and
    only a save that succeeded makes the store clean; opening the file
    afterwards gives the records back. *)
Theorem save_open `{CodecOk} env env' s (p : path) w r w' : reliable env' → s_path s = Some p → p ≠ [] → dirty s = true →
  Save env s w = (r, w') →
  (∀ q : path, q ≠ p → q ≠ tmp_of p → w_files w' !! q = w_files w !! q) ∧
  match r with
  | Err _ => w_files w' !! p = w_files w !! p
  | Ok s' => records s' = records s ∧ dirty s' = false ∧ (Open env' (Some p) w').1 = Ok s'
  end.
Proof.
  intros Hr Hp Hne Hd. unfold Save. rewrite Hd, Hp. cbn [negb]. cbv iota. unfold mbind, OS_bind, mret, OS_ret.
  destruct (save_file env p (Marshal (records s)) w) as [[[]|e] w1] eqn:E; apply (save_file_atomic _ _ _ _ _ _ Hne) in E as [Ho Hs];
    intros [= <- <-]; (split; [exact Ho|]); [|exact Hs].
  cbn [records dirty].
  split_and!; [done|done|]. unfold Open, mbind, OS_bind. rewrite (ReadFile_saved _ _ _ _ Hr Hs).
  by rewrite unmarshal_marshal.
Qed.

(** ** Examples *)

Definition empty_store : Store := MkStore None ∅ false.

(** Twenty hard bounces in a row suspend a new sender, nineteen do not. *)
Example bounces : (λ n, (Blocked (record_all empty_store "user:a" (replicate n (EventBounce, 0))) "user:a" 0).1) <$> [19%nat; 20%nat]
  = [false; true].
Proof. vm_compute. reflexivity. Qed.

Definition hours (n : Z) : Z := n * Hour.
Definition sample_ramp : WarmUp := MkWarmUp true 100 1000 20000.

(** The ramp over the first month: day 1, day 4, a week, two weeks, a month. *)
Example ramp_days : (λ n, DailyLimit sample_ramp (hours n)) <$> [1; 96; 168; 336; 720] = [100; 550; 1000; 6782; 20000].
Proof. vm_compute. reflexivity. Qed.

(** A ramp that shrinks wraps around; the configuration refuses it. *)
Example ramp_shrinks : (2 ^ 63 <=? DailyLimit (MkWarmUp true 100 50 20000) (hours 96)) = true.
Proof. vm_compute. reflexivity. Qed.

(** Two days at rest bring a score two points nearer to the baseline. *)
Example decay_days :
  (λ d, fle (half 80) (score_at (get (MkStore None {[ "k" := MkRecord (half 76) 0 0 0 0 0 0 0 ]} false) "k" (hours d)).2 "k"))
    <$> [47; 48] = [false; true].
Proof. vm_compute. reflexivity. Qed.

Abbreviation three_events := [(EventDelivered, 5); (EventSpamComplaint, 7); (EventAnomaly, 9)].

Lemma score_exact_witness :
  score_at (record_all empty_store "user:a" three_events) "user:a" = half 21 ∧
  (Blocked (record_all empty_store "user:a" three_events) "user:a" 9).1 = false ∧
  in_range (score_at (record_all empty_store "user:a" three_events) "user:a").
Proof.
  destruct (score_exact empty_store "user:a" three_events) as (H0&_&H1); [split; vm_compute; reflexivity|].
  destruct (H1 100 [1; -30; -50] 9) as [H2 H3].
  - vm_compute. reflexivity.
  - split; discriminate.
  - repeat constructor.
  - intros r Hr. vm_compute in Hr. discriminate Hr.
  - intros t t' Ht Ht'. revert t' Ht'. apply Forall_forall. revert t Ht. apply Forall_forall.
    repeat (apply Forall_cons; split); try apply Forall_nil_2; vm_compute; reflexivity.
  - split; [exact H2|]. split; [exact H3|exact H0].
Defined.

Definition young : Store := MkStore None {[ "domain:d" := MkRecord (half 100) 0 0 7 0 0 3 0 ]} false.

Definition small : WarmUp := MkWarmUp true 5 5 5.
Definition one_by_one : list sending := [TryAsk small 1 1; TrySent 2 2; TryAsk small 3 3; TrySent 4 4; TryAsk small 5 5].

Lemma warmup_cap_witness :
  let l := sendings "domain:d" young one_by_one in
  ln_sent l = 2 ∧ ln_peak l = 1 ∧ 3 + ln_sent l <= 5 + (ln_peak l - 1).
Proof.
  assert (H : ln_sent (sendings "domain:d" young one_by_one) = 2 ∧ ln_peak (sendings "domain:d" young one_by_one) = 1)
    by (vm_compute; split; reflexivity).
  split; [exact (proj1 H)|]. split; [exact (proj2 H)|].
  apply (warmup_cap young "domain:d" one_by_one (MkRecord (half 100) 0 0 7 0 0 3 0) 5).
  - reflexivity.
  - discriminate.
  - unfold one_by_one. repeat (apply Forall_cons; split); try apply Forall_nil_2; vm_compute; try reflexivity; split_and!; try reflexivity; discriminate.
  - reflexivity.
  - rewrite (proj1 H). reflexivity.
Defined.

(** Two sessions that ask one after the other when one message is left:
    both are allowed, and the domain exceeds its day. *)
Example cap_overshot :
  let l := sendings "domain:d" young [TryAsk small 1 1; TrySent 2 2; TryAsk small 3 3; TryAsk small 3 3; TrySent 4 4; TrySent 4 4] in
  (ln_sent l, DaySent <$> records (ln_store l) !! "domain:d") = (3, Some 6).
Proof. vm_compute. reflexivity. Qed.

(** A codec: the binary digits of the number stdpp gives a map. *)
#[global] Instance f64_countable : Countable f64.
Proof.
  refine (inj_countable'
    (λ x, match x with
          | S754_zero s => inl (inl s) | S754_infinity s => inl (inr s)
          | S754_nan => inr None | S754_finite s m e => inr (Some (s, m, e)) end)
    (λ y, match y with
          | inl (inl s) => S754_zero s | inl (inr s) => S754_infinity s
          | inr None => S754_nan | inr (Some (s, m, e)) => S754_finite s m e end) _).
  by intros [].
Defined.

#[global] Instance record_eq_dec : EqDecision record.
Proof. solve_decision. Defined.

#[global] Instance record_countable : Countable record.
Proof.
  refine (inj_countable'
    (λ r, (Score r, (Updated r, First r, Sent r), (Bounced r, Reported r, DaySent r, DayFrom r)))
    (λ '(s, (u, f, n), (b, c, d, g)), MkRecord s u f n b c d g) _).
  by intros [].
Defined.

Fixpoint bits (p : positive) : string :=
  match p with xH => "" | xO p => String "0" (bits p) | xI p => String "1" (bits p) end.
Fixpoint unbits (s : string) : positive :=
  match s with "" => xH | String c s => if Ascii.eqb c "0" then xO (unbits s) else xI (unbits s) end.

Lemma unbits_bits p : unbits (bits p) = p.
Proof. induction p; cbn; congruence. Qed.

Definition bit_codec : Codec := {| Marshal m := bits (encode m); Unmarshal s := decode (unbits s) |}.

Lemma bit_codec_ok : @CodecOk bit_codec.
Proof. split. intros m. cbn. by rewrite unbits_bits, decode_encode. Qed.

Definition at_home : World := MkWorld ∅ {[ []; ["var"] ]} 0 0 None.
Definition dirty_store : Store := MkStore (Some ["var"; "reputation.json"]) (records young) true.

Lemma save_open_witness :
  ∃ s' w', Save (H := bit_codec) calm dirty_store at_home = (Ok s', w') ∧ records s' = records young ∧
    (Open (H := bit_codec) calm (Some ["var"; "reputation.json"]) w').1 = Ok s'.
Proof.
  destruct (Save (H := bit_codec) calm dirty_store at_home) as [[s'|e] w'] eqn:E; [|vm_compute in E; discriminate E].
  destruct (save_open (H := bit_codec) (H0 := bit_codec_ok) calm calm dirty_store ["var"; "reputation.json"] at_home _ w'
    calm_reliable eq_refl ltac:(discriminate) eq_refl E) as (_&H1&_&H3).
  exists s', w'. split; [reflexivity|]. split; [exact H1|exact H3].
Defined.
