(* ===== verification/Blacklist.v ===== *)
(** * DNS blacklists and their cache

    Models [internal/blacklist/blacklist.go].  The resolver is a
    parameter: what a name resolves to at an instant, [None] for an error.
    The clock's answers are arguments, and every query is logged; the
    mutex and the time a lookup may take are not modelled.  [DNSBL] and
    [URIBL] are the zones of a checker. *)

From S2P Require Import Prelude GoStrings GoNum GoNet.

Record entry := MkEntry {
  listed : bool;
  on : list string;
  expires : Z;
}.

Record Checker := MkChecker {
  DNSBL : list string;
  URIBL : list string;
  TTL : Z;
  cache : gmap string entry;
  (** the names that were looked up *)
  queries : list string;
}.

Definition New (dnsbl uribl : list string) (ttl : Z) : Checker :=
  MkChecker dnsbl uribl (if ttl =? 0 then Hour else ttl) ∅ [].

(** ** Names *)

(** A nibble and an octet of an address in text. *)
Definition nibble (v : Z) : string := String (hex_digit v) "".
Definition itoa (b : Z) : string := dec b.

Definition reverseIP (ip : IP) : string :=
  match To4 ip with
  | Some v4 => Join (itoa <$> rev v4) "."
  | None => Join (flat_map (λ b, [nibble (Z.land b 15); nibble (Z.shiftr b 4)]) (rev ip)) "."
  end.

(** ** The cache *)

Definition cached (c : Checker) (key : string) (now : Z) : option entry :=
  match cache c !! key with
  | Some e => if time_After now (expires e) then None else Some e
  | None => None
  end.

Definition store (c : Checker) (key : string) (ls : bool) (zones : list string) (now : Z) : Checker :=
  let kept := if 65536 <? Z.of_nat (size (cache c)) then ∅ else cache c in
  MkChecker (DNSBL c) (URIBL c) (TTL c) (<[key := MkEntry ls zones (now + TTL c)]> kept) (queries c).

Section lookups.
Context (LookupHost : Z → string → option (list string)).

(** An address in 127.0.0.0/8. *)
Definition is_listing (a : string) : bool :=
  match ParseIP a with
  | Some ip => match To4 ip with Some v4 => nth 0 v4 0 =? 127 | None => false end
  | None => false
  end.

(** [lookup]: whether a name is listed. *)
Definition hit (now : Z) (name : string) : bool :=
  match LookupHost now name with Some addrs => existsb is_listing addrs | None => false end.

Definition lookup (c : Checker) (name : string) (now : Z) : bool * Checker :=
  (hit now name, MkChecker (DNSBL c) (URIBL c) (TTL c) (cache c) (queries c ++ [name])).

(** The loop over the zones: those that list a name. *)
Fixpoint zones_listing (c : Checker) (name : string) (zones : list string) (now : Z) : list string * Checker :=
  match zones with
  | [] => ([], c)
  | z :: zones =>
      let '(h, c) := lookup c (name +:+ "." +:+ z) now in
      let '(l, c) := zones_listing c name zones now in
      (if h : bool then z :: l else l, c)
  end.

(** The answer for a name, kept in the cache; the clock answers [now]
    until the answer is stored at [now']. *)
Definition ask (c : Checker) (key name : string) (zones : list string) (now now' : Z) : entry * Checker :=
  match cached c key now with
  | Some e => (e, c)
  | None =>
      let '(l, c) := zones_listing c name zones now in
      let ls := 0 <? llen l in
      (MkEntry ls l 0, store c key ls l now')
  end.

Definition public (ip : IP) : bool := negb (IsLoopback ip || IsPrivate ip).

Definition ListedIP (c : Checker) (ipStr : string) (now now' : Z) : bool * list string * Checker :=
  if (llen (DNSBL c) =? 0)%Z then (false, [], c) else
  match ParseIP ipStr with
  | None => (false, [], c)
  | Some ip =>
      if negb (public ip) then (false, [], c) else
      let '(e, c) := ask c ("ip:" +:+ ipStr) (reverseIP ip) (DNSBL c) now now' in
      (listed e, on e, c)
  end.

Definition domain_name (domain : string) : string := ToLower (TrimSuffix domain ".").

Definition ListedDomain (c : Checker) (domain : string) (now now' : Z) : bool * Checker :=
  if ((llen (URIBL c) =? 0) || is_empty domain)%Z then (false, c) else
  let domain := domain_name domain in
  match ParseIP domain with
  | Some _ => (false, c)
  | None => let '(e, c) := ask c ("dom:" +:+ domain) domain (URIBL c) now now' in (listed e, c)
  end.
End lookups.

(** ** What an answer stands for *)

Section answers.
Context (LookupHost : Z → string → option (list string)).

(** The zones that list a name at an instant. *)
Definition listing (name : string) (zones : list string) (t : Z) : list string :=
  filter (λ z, hit LookupHost t (name +:+ "." +:+ z) = true) zones.

(** The question behind a key of the cache. *)
Inductive question (c : Checker) : string → string → list string → Prop :=
  | q_ip s ip : ParseIP s = Some ip → question c ("ip:" +:+ s) (reverseIP ip) (DNSBL c)
  | q_domain d : question c ("dom:" +:+ d) d (URIBL c).

Lemma size_insert_le {X} (m : gmap string X) k x : (size (<[k := x]> m) <= S (size m))%nat.
Proof. rewrite map_size_insert. destruct (m !! k); simpl; lia. Qed.

(** An answer that was complete at [t'], from what the zones said at [t]. *)
Definition answer_of (c : Checker) (key : string) (ls : bool) (zs : list string) (t t' : Z) : Prop :=
  ∃ name zones, question c key name zones ∧ zs = listing name zones t ∧ ls = (0 <? llen zs) ∧ t <= t'.

Record sound (c : Checker) : Prop := {
  so_entry key e : cache c !! key = Some e →
    ∃ t t', answer_of c key (listed e) (on e) t t' ∧ expires e = t' + TTL c;
  so_size : Z.of_nat (size (cache c)) <= 65537;
}.

Lemma zones_listing_spec c name zones now :
  zones_listing LookupHost c name zones now =
  (listing name zones now,
   MkChecker (DNSBL c) (URIBL c) (TTL c) (cache c) (queries c ++ ((λ z, name +:+ "." +:+ z) <$> zones))).
Proof.
  revert c. induction zones as [|z zones IH]; intros c; cbn [zones_listing].
  { rewrite app_nil_r. by destruct c. }
  unfold lookup. rewrite IH. cbn [DNSBL URIBL TTL cache queries]. unfold listing. rewrite fmap_cons, <- app_assoc.
  destruct (hit _ _ _) eqn:E; [by rewrite filter_cons_True|]. by rewrite filter_cons_False by congruence.
Qed.

Lemma question_same c c' key name zones : DNSBL c' = DNSBL c → URIBL c' = URIBL c →
  question c key name zones → question c' key name zones.
Proof. intros H1 H2 []; [rewrite <- H1|rewrite <- H2]; by constructor. Qed.

Lemma store_sound c key name zones now now' qs : sound c → question c key name zones → now <= now' →
  let zs := listing name zones now in
  sound (store (MkChecker (DNSBL c) (URIBL c) (TTL c) (cache c) qs) key (0 <? llen zs) zs now').
Proof.
  intros [He Hs] Hq Ht zs. split.
  - intros k e. cbn [store cache TTL]. intros Hk.
    assert (Hcase : k = key ∧ e = MkEntry (0 <? llen zs) zs (now' + TTL c) ∨ cache c !! k = Some e).
    { apply lookup_insert_Some in Hk as [[<- <-]|[_ Hk]]; [by left|right]. by destruct (_ <? _). }
    destruct Hcase as [[-> ->]|Hk'].
    + exists now, now'. split; [|done]. exists name, zones. split_and!; [by apply (question_same c)|done..].
    + destruct (He k e Hk') as (t&t'&(n&z&Hqu&?)&?). exists t, t'. split; [|done]. exists n, z.
      split; [by apply (question_same c)|done].
  - cbn [store cache TTL]. pose proof (size_insert_le (if 65536 <? Z.of_nat (size (cache c)) then ∅ else cache c) key
      (MkEntry (0 <? llen zs) zs (now' + TTL c))) as Hi. destruct (Z.ltb_spec 65536 (Z.of_nat (size (cache c)))).
    + rewrite map_size_empty in Hi. lia.
    + lia.
Qed.

(** An answer is what the zones said at most one lifetime ago, and is kept. *)
Lemma ask_spec c key name zones now now' : sound c → question c key name zones → now <= now' →
  let '(e, c') := ask LookupHost c key name zones now now' in
  sound c' ∧ DNSBL c' = DNSBL c ∧ URIBL c' = URIBL c ∧
  (∃ t t', answer_of c key (listed e) (on e) t t' ∧ (t = now ∧ t' = now' ∨ now <= t' + TTL c)) ∧
  (queries c' = queries c ∧ c' = c ∨ queries c' = queries c ++ ((λ z, name +:+ "." +:+ z) <$> zones)).
Proof.
  intros Hc Hq Ht. unfold ask, cached. destruct (cache c !! key) as [e|] eqn:E; [destruct (time_After now (expires e)) eqn:Ex|].
  2:{ split_and!; [done..| |by left]. destruct (so_entry _ Hc key e E) as (t&t'&Ha&Hexp). exists t, t'. split; [done|right].
      unfold time_After in Ex. apply Z.ltb_ge in Ex. lia. }
  all: rewrite zones_listing_spec; cbn [listed on]; split_and!;
    [by apply (store_sound c key name zones)|done|done| |by right];
    exists now, now'; split; [by exists name, zones|by left].
Qed.

(** an address is reported as listed exactly when some zone answered so for
    its reversed form at an instant no further back than the lifetime of an
    answer, and the zones named are those; a text that is not an address,
    and every private or loopback address, is answered at once without a
    query, so it is never revealed; otherwise one query per zone at most
    is sent. *)
Theorem listed_ip_sound c ipStr now now' : sound c → now <= now' →
  let '(ls, zs, c') := ListedIP LookupHost c ipStr now now' in
  sound c' ∧
  match ParseIP ipStr with
  | Some ip =>
      if public ip && negb (llen (DNSBL c) =? 0) then
        (∃ t t', t <= t' ∧ (t = now ∧ t' = now' ∨ now <= t' + TTL c) ∧
           zs = listing (reverseIP ip) (DNSBL c) t ∧ (ls = true ↔ zs ≠ [])) ∧
        (queries c' = queries c ∨ queries c' = queries c ++ ((λ z, reverseIP ip +:+ "." +:+ z) <$> DNSBL c))
      else ls = false ∧ zs = [] ∧ c' = c
  | None => ls = false ∧ zs = [] ∧ c' = c
  end.
Proof.
  intros Hc Ht. unfold ListedIP. destruct (llen (DNSBL c) =? 0) eqn:En.
  { split; [done|]. destruct (ParseIP ipStr); [|done]. by rewrite andb_false_r. }
  destruct (ParseIP ipStr) as [ip|] eqn:Ei; [|done]. destruct (public ip); [|done]. cbn [negb andb].
  pose proof (ask_spec c ("ip:" +:+ ipStr) (reverseIP ip) (DNSBL c) now now' Hc (q_ip c ipStr ip Ei) Ht) as Ha.
  destruct (ask _ _ _ _ _ _ _) as [e c']. destruct Ha as (Hs&_&_&(t&t'&(n&z&Hq&Hon&Hls&Htt)&Hage)&Hqs).
  split; [done|]. split; [|destruct Hqs as [[? _]|?]; [by left|by right]].
  assert (n = reverseIP ip ∧ z = DNSBL c) as [-> ->].
  { inversion Hq as [s' ip' Hp' E1|]. assert (s' = ipStr) as -> by congruence. split; congruence. }
  exists t, t'. split_and!; [done|done|done|]. rewrite Hls, Hon. rewrite Z.ltb_lt. unfold llen.
  destruct (listing _ _ t); cbn; split; intros; (done || lia).
Qed.

(** The same for the host of a link. *)
Lemma listed_domain_sound c domain now now' : sound c → now <= now' →
  let '(ls, c') := ListedDomain LookupHost c domain now now' in
  sound c' ∧
  if (llen (URIBL c) =? 0) || is_empty domain || bool_decide (is_Some (ParseIP (domain_name domain)))
  then ls = false ∧ c' = c
  else ∃ t t', t <= t' ∧ (t = now ∧ t' = now' ∨ now <= t' + TTL c) ∧
    (ls = true ↔ listing (domain_name domain) (URIBL c) t ≠ []).
Proof.
  intros Hc Ht. unfold ListedDomain. destruct ((llen (URIBL c) =? 0) || is_empty domain); cbn [orb]; [done|].
  cbv zeta. destruct (ParseIP (domain_name domain)) as [ip|] eqn:Ei; [by rewrite bool_decide_true|].
  rewrite bool_decide_false by (by intros []).
  pose proof (ask_spec c ("dom:" +:+ domain_name domain) (domain_name domain) (URIBL c) now now' Hc (q_domain c _) Ht) as Ha.
  destruct (ask _ _ _ _ _ _ _) as [e c']. destruct Ha as (Hs&_&_&(t&t'&(n&z&Hq&Hon&Hls&Htt)&Hage)&_).
  split; [done|]. assert (n = domain_name domain ∧ z = URIBL c) as [-> ->].
  { inversion Hq. split; congruence. }
  exists t, t'. split_and!; [done|done|]. rewrite Hls, Hon, Z.ltb_lt. unfold llen.
  destruct (listing _ _ t); cbn; split; intros; (done || lia).
Qed.
End answers.

(** ** Examples *)

Definition sample_dns (t : Z) (name : string) : option (list string) :=
  if String.eqb name "2.2.0.192.zen.example" then Some ["127.0.0.4"]
  else if String.eqb name "2.2.0.192.hijack.example" then Some ["203.0.113.9"]
  else None.

Definition sample_checker : Checker := New ["zen.example"; "hijack.example"] [] 0.

Lemma new_sound L dnsbl uribl ttl : sound L (New dnsbl uribl ttl).
Proof. split; [|done]. intros key e. cbn. by rewrite lookup_empty. Qed.

Lemma listed_ip_sound_witness :
  ∃ c', ListedIP sample_dns sample_checker "192.0.2.2" 5 6 = (true, ["zen.example"], c') ∧ sound sample_dns c' ∧
    size (cache c') = 1%nat.
Proof.
  pose proof (listed_ip_sound sample_dns sample_checker "192.0.2.2" 5 6 (new_sound _ _ _ _) ltac:(discriminate)) as H.
  destruct (ListedIP sample_dns sample_checker "192.0.2.2" 5 6) as [[ls zs] c'] eqn:E. destruct H as [Hs _].
  exists c'. vm_compute in E. injection E as <- <- <-. split; [reflexivity|]. split; [exact Hs|reflexivity].
Defined.

Example reverse_addresses :
  reverseIP (v4_in_v6 [192; 0; 2; 17]) = "17.2.0.192" ∧
  (reverseIP <$> ParseIP "2001:db8::1") =
    Some "1.0.0.0.0.0.0.0.0.0.0.0.0.0.0.0.0.0.0.0.0.0.0.0.8.b.d.0.1.0.0.2".
Proof. vm_compute. by split. Qed.
