(* ===== verification/Bayes.v ===== *)
(** * The Bayesian classifier

    Models [internal/antispam/bayes.go]: the tokens of a message, the
    corpus and its training, the probability of a message, and the file
    the corpus is kept in.  The logarithm and the exponential of package
    [math] and the tables of package [unicode] are classes. *)

From S2P Require Import Prelude GoStrings GoUtf8 GoNum GoScan Fs Persist.

Definition minTokenLen : Z := 3.
Definition maxTokenLen : Z := 24.
Definition significant : nat := 15.
Definition minOccurrences : Z := 3.
Definition ratio (a b : Z) : f64 := fdiv (f64_of_Z a) (f64_of_Z b).
Definition unknownProb : f64 := ratio 4 10.
Definition probFloor : f64 := ratio 1 100.
Definition probCeil : f64 := ratio 99 100.

Record counts := MkCounts { Ham : Z; Spam : Z }.

(** [b_path] is [None] for the empty path: a corpus kept in memory. *)
Record Bayes := MkBayes {
  b_path : option path;
  tokens : gmap string counts;
  nHam : Z;
  nSpam : Z;
  dirty : bool;
}.

#[global] Instance counts_eq_dec : EqDecision counts.
Proof. solve_decision. Defined.

(** ** Tokens *)

Section tokenize.
Context `{Unicode}.

Definition in_token (r : Z) : bool :=
  IsLetter r || IsDigit r || (r =? 36) || (r =? 39) || (r =? 45) || (r =? 46) || (r =? 33).

Definition token_len (f : string) : bool := (minTokenLen <=? slen f) && (slen f <=? maxTokenLen).

Definition words (s : string) : list string :=
  filter (λ f, token_len f = true)
    ((λ f, Trim (rune_ToLower f) ".-'!") <$> rune_FieldsFunc (λ r, negb (in_token r)) s).

Definition scored_fields : list string :=
  ["subject"; "from"; "to"; "reply-to"; "content-type"; "x-mailer"; "list-unsubscribe"].

(** The features of one line of the header. *)
Definition line_tokens (line : string) : list string :=
  match Cut (TrimRight line (String CR "")) ":" with
  | (name, value, true) =>
      let name := rune_ToLower (rune_TrimSpace name) in
      if mem name scored_fields then (λ t, (name +:+ "*") +:+ t) <$> words value else []
  | (_, _, false) => []
  end.

Definition split_text (text : string) : string * string :=
  match Cut text (CRLF +:+ CRLF) with
  | (header, body, true) => (header, body)
  | _ => let '(header, body, _) := Cut text (String LF (String LF "")) in (header, body)
  end.

(** The keys of the map. *)
Definition Tokenize (data : string) : gset string :=
  let '(header, body) := split_text data in
  list_to_set ((GoStrings.Split header LF ≫= line_tokens) ++ words body).

(** ** The corpus *)

Definition Trained (b : Bayes) : Z * Z := (nHam b, nSpam b).

Definition Ready (b : Bayes) : bool :=
  let '(ham, spam) := Trained b in (20 <=? ham) && (20 <=? spam).

Definition bump (isSpam : bool) (c : counts) : counts :=
  if isSpam then MkCounts (Ham c) (u32 (Spam c + 1)) else MkCounts (u32 (Ham c + 1)) (Spam c).

Definition train_token (isSpam : bool) (m : gmap string counts) (tok : string) : gmap string counts :=
  <[tok := bump isSpam (default (MkCounts 0 0) (m !! tok))]> m.

Definition Train (b : Bayes) (data : string) (isSpam : bool) : Bayes :=
  MkBayes (b_path b) (foldl (train_token isSpam) (tokens b) (elements (Tokenize data)))
    (if isSpam then nHam b else u32 (nHam b + 1))
    (if isSpam then u32 (nSpam b + 1) else nSpam b) true.

(** ** The probability of a message *)

Definition token_prob (b : Bayes) (tok : string) : f64 :=
  match tokens b !! tok with
  | None => unknownProb
  | Some c =>
      if u32 (Ham c + Spam c) <? minOccurrences then unknownProb else
      let one := f64_of_Z 1 in
      let g := fMin one (fdiv (fmul (f64_of_Z (Ham c)) (f64_of_Z 2)) (fMax (f64_of_Z (nHam b)) one)) in
      let s := fMin one (fdiv (f64_of_Z (Spam c)) (fMax (f64_of_Z (nSpam b)) one)) in
      let p := if fgt (fadd g s) (f64_of_Z 0) then fdiv s (fadd g s) else unknownProb in
      fMax probFloor (fMin probCeil p)
  end.

Definition dist (p : f64) : f64 := fAbs (fsub p (ratio 1 2)).

Class MathLib := { Log : f64 → f64; Exp : f64 → f64 }.

Section score.
Context `{MathLib} `{SliceSort}.

(** The sums in log space, and what they stand for. *)
Definition combine (ps : list f64) : f64 :=
  let logSpam := foldl (λ t p, fadd t (Log p)) (f64_of_Z 0) ps in
  let logHam := foldl (λ t p, fadd t (Log (fsub (f64_of_Z 1) p))) (f64_of_Z 0) ps in
  let maxLog := fMax logSpam logHam in
  let es := Exp (fsub logSpam maxLog) in
  let eh := Exp (fsub logHam maxLog) in
  fdiv es (fadd es eh).

Definition Score (b : Bayes) (data : string) : option f64 :=
  if negb (Ready b) then None else
  let list := token_prob b <$> elements (Tokenize data) in
  if llen list =? 0 then None else
  Some (combine (take significant (sort_slice (λ p q, fgt (dist p) (dist q)) list))).
End score.
End tokenize.

(** ** The file *)

Definition header_line (b : Bayes) : string := "H" +:+ dec (nHam b) +:+ " S" +:+ dec (nSpam b).

Definition token_line (kc : string * counts) : string :=
  dec (Ham kc.2) +:+ " " +:+ dec (Spam kc.2) +:+ " " +:+ kc.1.

(** The lines of the file, the tokens in their order. *)
Definition corpus_lines (b : Bayes) : list string :=
  header_line b ::
  ((λ k, token_line (k, default (MkCounts 0 0) (tokens b !! k))) <$>
     insertion_sort String.ltb (map_to_list (tokens b)).*1).

Definition corpus_text (b : Bayes) : string :=
  Join ((λ l, l +:+ String LF "") <$> corpus_lines b) "".

(** The room the scanner has for a line. *)
Definition maxLine : Z := 4 * 1024 * 1024.

Definition parse_header (line : string) : option (option (Z * Z)) :=
  match Fields line with
  | [h; s] =>
      if negb (HasPrefix h "H") || negb (HasPrefix s "S") then None else
      Some (match ParseUint (slice_from h 1) 32, ParseUint (slice_from s 1) 32 with
            | Some a, Some b => Some (a, b)
            | _, _ => None
            end)
  | _ => None
  end.

(** One line of counts; a line that cannot be read is skipped. *)
Definition parse_token (line : string) : option (string * counts) :=
  match Cut line " " with
  | (h, rest, true) =>
      match Cut rest " " with
      | (s, tok, true) =>
          match ParseUint h 32, ParseUint s 32 with
          | Some a, Some b => Some (tok, MkCounts a b)
          | _, _ => None
          end
      | _ => None
      end
  | _ => None
  end.

Definition set_token (m : gmap string counts) (kc : string * counts) : gmap string counts :=
  <[kc.1 := kc.2]> m.

(** [load] on the text of the file. *)
Definition load_text (p : option path) (text : string) : result Bayes :=
  match scan maxLine text with
  | ([], _) => Ok (MkBayes p ∅ 0 0 false)
  | (first :: lines, too_long) =>
      match parse_header first with
      | None => Err (EMsg "bayes corpus: bad header")
      | Some None => Err (EMsg "bayes corpus: bad header counts")
      | Some (Some (a, b)) =>
          if too_long : bool then Err (EMsg "bufio.Scanner: token too long")
          else Ok (MkBayes p (foldl set_token ∅ (omap parse_token lines)) a b false)
      end
  end.

Section persistence.
Context (env : Env).

Definition Save (b : Bayes) : OS Bayes :=
  if negb (dirty b) then mret b else
  match b_path b with
  | None => mret b
  | Some p =>
      save_file env p (corpus_text b);; mret (MkBayes (b_path b) (tokens b) (nHam b) (nSpam b) false)
  end.

Definition NewBayes (p : option path) : OS Bayes :=
  match p with
  | None => mret (MkBayes None ∅ 0 0 false)
  | Some file =>
      r ← os_try (ReadFile env file);
      match r with
      | Err ENotExist => mret (MkBayes p ∅ 0 0 false)
      | Err e => os_err e
      | Ok text => match load_text p text with Ok b => mret b | Err e => os_err e end
      end
  end.
End persistence.

(** ** What a token looks like *)

Definition token_byte (c : ascii) : bool :=
  high c || is_upper c || is_lower c || is_digit c || in_set ".-'!$*" c.

Lemma sall_trim_left p q s : sall q s = true → sall q (trim_left p s) = true.
Proof.
  induction s as [|c s IH]; [done|]. cbn. intros [Hc Hs]%andb_true_iff. destruct (p c); [by apply IH|].
  cbn. by rewrite Hc.
Qed.

Lemma sall_trim_right p q s : sall q s = true → sall q (trim_right p s) = true.
Proof.
  induction s as [|c s IH]; [done|]. cbn [sall]. intros [Hc Hs]%andb_true_iff. specialize (IH Hs). cbn [trim_right].
  destruct (trim_right p s); [destruct (p c); [done|]; cbn; by rewrite Hc|].
  cbn [sall] in *. by rewrite Hc.
Qed.

Lemma sall_trim q s cutset : sall q s = true → sall q (Trim s cutset) = true.
Proof. intros H. by apply sall_trim_right, sall_trim_left. Qed.

Lemma token_byte_free c : token_byte c = true → Ascii.eqb c LF = false ∧ Ascii.eqb c CR = false ∧ Ascii.eqb c " " = false.
Proof.
  intros Hc. assert (H : implb (token_byte c) (negb (Ascii.eqb c LF) && negb (Ascii.eqb c CR) && negb (Ascii.eqb c " ")) = true).
  { clear Hc. revert c. apply byte_cases. vm_compute. reflexivity. }
  rewrite Hc in H. simpl in H. rewrite !andb_true_iff, !negb_true_iff in H. tauto.
Qed.

Section tokens.
Context `{UnicodeOk}.

Lemma in_token_ascii r : 0 <= r < 128 → negb (in_token r) = false → token_byte (byte r) = true.
Proof.
  intros Hr Hn%negb_false_iff. unfold in_token in Hn. rewrite IsLetter_ascii, IsDigit_ascii in Hn by done.
  assert (Hall : forallb (λ r, implb (ascii_letter r || ((48 <=? r) && (r <=? 57)) || (r =? 36) || (r =? 39) || (r =? 45)
    || (r =? 46) || (r =? 33)) (token_byte (byte r))) (seqZ 0 128) = true) by (vm_compute; reflexivity).
  rewrite forallb_forall in Hall. specialize (Hall r). rewrite <- list_elem_of_In, elem_of_seqZ in Hall.
  specialize (Hall ltac:(lia)). by rewrite Hn in Hall.
Qed.

(** The words of a text have between 3 and 24 bytes, none of them white
    space or control characters. *)
Lemma words_spec s w : w ∈ words s → sall token_byte w = true ∧ minTokenLen <= slen w <= maxTokenLen.
Proof.
  unfold words. rewrite list_elem_of_filter. intros [Hl (f&->&Hf)%list_elem_of_fmap].
  unfold token_len in Hl. rewrite andb_true_iff, !Z.leb_le in Hl. split; [|lia].
  pose proof (rune_fields_all (λ r, negb (in_token r)) token_byte s) as Hall. rewrite Forall_forall in Hall.
  apply sall_trim, rune_ToLower_all.
  - intros c Hc. unfold token_byte. by rewrite Hc.
  - intros r Hr. assert (Hd : forallb (λ r, implb (ascii_letter r) (token_byte (byte r))) (seqZ 0 128) = true)
      by (vm_compute; reflexivity).
    rewrite forallb_forall in Hd. specialize (Hd r). rewrite <- list_elem_of_In, elem_of_seqZ, Hr in Hd. apply Hd.
    unfold ascii_letter in Hr. rewrite orb_true_iff, !andb_true_iff, !Z.leb_le in Hr. lia.
  - intros c Hc _. assert (Hd : implb (token_byte c) (token_byte (lower_byte c)) = true)
      by (revert c Hc; intros c _; revert c; apply byte_cases; vm_compute; reflexivity).
    by rewrite Hc in Hd.
  - apply Hall; [..|done].
    + intros c Hc. unfold token_byte. by rewrite Hc.
    + by apply in_token_ascii.
Qed.

Definition tidy (tok : string) : Prop := sall token_byte tok = true ∧ slen tok <= 64.

Lemma Tokenize_tidy data tok : tok ∈ Tokenize data → tidy tok.
Proof.
  unfold Tokenize. destruct (split_text data) as [header body]. rewrite elem_of_list_to_set, elem_of_app.
  intros [(l&Hl&_)%list_elem_of_bind|Hw].
  - unfold line_tokens in Hl. destruct (Cut _ _) as [[name value] []]; [|by apply elem_of_nil in Hl].
    destruct (mem _ scored_fields) eqn:Hm; [|by apply elem_of_nil in Hl].
    apply list_elem_of_fmap in Hl as (w&->&[Hw Hlen]%words_spec). apply bool_decide_eq_true in Hm. unfold tidy.
    rewrite !sall_app, Hw, !slen_app. unfold maxTokenLen in *.
    revert Hm. generalize (rune_ToLower (rune_TrimSpace name)). intros n Hm.
    unfold scored_fields in Hm. repeat (apply elem_of_cons in Hm as [->|Hm]; [split; [reflexivity|unfold slen in *; cbn [String.length]; lia]|]).
    by apply elem_of_nil in Hm.
  - apply words_spec in Hw as [Hw Hlen]. split; [done|]. unfold maxTokenLen in *. lia.
Qed.
End tokens.

(** ** Training *)

Section training.
Context `{Unicode}.

Lemma train_tokens isSpam l m tok : NoDup l →
  foldl (train_token isSpam) m l !! tok =
    if decide (tok ∈ l) then Some (bump isSpam (default (MkCounts 0 0) (m !! tok))) else m !! tok.
Proof.
  intros Hnd. revert m. induction Hnd as [|x l Hx Hnd IH]; intros m; [done|]. cbn [foldl]. rewrite IH.
  unfold train_token. destruct (decide (tok = x)) as [->|Hne].
  - rewrite decide_False by done. rewrite lookup_insert_eq. by rewrite decide_True by left.
  - rewrite lookup_insert_ne by done. case_decide as Hin.
    + by rewrite decide_True by (by right).
    + rewrite decide_False; [done|]. by intros [?|?]%elem_of_cons.
Qed.

Definition empty_corpus (p : option path) : Bayes := MkBayes p ∅ 0 0 false.

Definition train_all (p : option path) (msgs : list (string * bool)) : Bayes :=
  foldl (λ b m, Train b m.1 m.2) (empty_corpus p) msgs.

(** How many messages of a class were learned, and how many of them
    contain a token. *)
Definition learned (isSpam : bool) (msgs : list (string * bool)) : Z := llen (filter (λ m, m.2 = isSpam) msgs).
Definition seen (isSpam : bool) (tok : string) (msgs : list (string * bool)) : Z :=
  llen (filter (λ m, m.2 = isSpam ∧ tok ∈ Tokenize m.1) msgs).

Lemma train_all_snoc p msgs m : train_all p (msgs ++ [m]) = Train (train_all p msgs) m.1 m.2.
Proof. unfold train_all. by rewrite foldl_app. Qed.

Lemma learned_snoc s msgs m : learned s (msgs ++ [m]) = learned s msgs + (if decide (m.2 = s) then 1 else 0).
Proof.
  unfold learned, llen. rewrite filter_app, length_app, filter_cons, filter_nil.
  case_decide; cbn [length]; lia.
Qed.

Lemma seen_snoc s tok msgs m :
  seen s tok (msgs ++ [m]) = seen s tok msgs + (if decide (m.2 = s ∧ tok ∈ Tokenize m.1) then 1 else 0).
Proof.
  unfold seen, llen. rewrite filter_app, length_app, filter_cons, filter_nil.
  case_decide; cbn [length]; lia.
Qed.

Lemma u32_succ n : u32 (u32 n + 1) = u32 (n + 1).
Proof. unfold u32. by rewrite Zplus_mod_idemp_l. Qed.

(** the corpus is a faithful count: after any training the entry of a
    token holds, as 32-bit counters, the number of messages of each class
    that contain it, the totals are the numbers of messages learned, and
    a token without entry is in no message. *)
Theorem trained_counts p msgs : let b := train_all p msgs in
  nHam b = u32 (learned false msgs) ∧ nSpam b = u32 (learned true msgs) ∧
  ∀ tok, match tokens b !! tok with
         | Some c => Ham c = u32 (seen false tok msgs) ∧ Spam c = u32 (seen true tok msgs)
         | None => ∀ m, m ∈ msgs → tok ∉ Tokenize m.1
         end.
Proof.
  cbv zeta. induction msgs as [|m msgs (Hh&Hs&IH)] using rev_ind; [split_and!; [done..|]; intros tok; unfold train_all; cbn [foldl tokens empty_corpus]; rewrite lookup_empty; by intros m ?%elem_of_nil|].
  rewrite train_all_snoc, !learned_snoc. cbn [Train nHam nSpam tokens]. split_and!.
  1,2: destruct (m.2); cbn; rewrite ?Z.add_0_r, ?Hh, ?Hs; try done; apply u32_succ.
  intros tok. rewrite train_tokens by apply NoDup_elements. rewrite !seen_snoc. specialize (IH tok).
  assert (Hz : tokens (train_all p msgs) !! tok = None → ∀ s, seen s tok msgs = 0).
  { intros E s. rewrite E in IH. unfold seen, llen. destruct (filter _ msgs) as [|m' l] eqn:El; [done|].
    assert (Hin : m' ∈ filter (λ m, m.2 = s ∧ tok ∈ Tokenize m.1) msgs) by (rewrite El; left).
    apply list_elem_of_filter in Hin as [[_ Ht] Hin]. by destruct (IH _ Hin). }
  case_decide as Hin; rewrite elem_of_elements in Hin.
  - assert (Hc : ∀ c, default (MkCounts 0 0) (tokens (train_all p msgs) !! tok) = c →
      Ham c = u32 (seen false tok msgs) ∧ Spam c = u32 (seen true tok msgs)).
    { intros c <-. destruct (tokens (train_all p msgs) !! tok); [exact IH|]. by rewrite !Hz. }
    destruct (Hc _ eq_refl) as [Hc1 Hc2]. unfold bump.
    destruct (m.2); cbn [Ham Spam]; rewrite Hc1, Hc2; repeat case_decide; destruct_and?; try done; try (exfalso; match goal with H : ¬ _ |- _ => by apply H end);
      rewrite ?Z.add_0_r, ?u32_succ; done.
  - repeat case_decide; destruct_and?; try done; try (exfalso; match goal with H : ¬ _ |- _ => by apply H end). rewrite !Z.add_0_r.
    destruct (tokens (train_all p msgs) !! tok); [exact IH|].
    intros m' [Hm| ->%list_elem_of_singleton]%elem_of_app; [by apply IH|done].
Qed.
End training.

(** ** The file *)

Definition count_ok (c : counts) : Prop := 0 <= Ham c < 2 ^ 32 ∧ 0 <= Spam c < 2 ^ 32.

Record well_formed (b : Bayes) : Prop := {
  wf_tokens k c : tokens b !! k = Some c → tidy k ∧ count_ok c;
  wf_ham : 0 <= nHam b < 2 ^ 32;
  wf_spam : 0 <= nSpam b < 2 ^ 32;
}.

Lemma u32_range n : 0 <= u32 n < 2 ^ 32.
Proof. apply Z.mod_pos_bound. lia. Qed.

(** Training keeps the corpus in a form the file can hold. *)
Lemma Train_well_formed `{UnicodeOk} b data isSpam : well_formed b → well_formed (Train b data isSpam).
Proof.
  intros [Ht Hh Hs]. split; cbn [Train tokens nHam nSpam]; [|destruct isSpam; try done; apply u32_range..].
  intros k c. rewrite train_tokens by apply NoDup_elements. case_decide as Hin; [|apply Ht].
  intros [= <-]. rewrite elem_of_elements in Hin. split; [by eapply Tokenize_tidy|].
  assert (Hc : count_ok (default (MkCounts 0 0) (tokens b !! k))).
  { destruct (tokens b !! k) eqn:E; [by apply (Ht k)|]. by split. }
  destruct Hc. destruct isSpam; (split; [|]); cbn; try done; apply u32_range.
Qed.

Lemma train_all_well_formed `{UnicodeOk} p msgs : well_formed (train_all p msgs).
Proof.
  induction msgs as [|m msgs IH] using rev_ind; [|rewrite train_all_snoc; by apply Train_well_formed].
  split; [|done..]. unfold train_all. cbn. by intros k c ?%lookup_empty_Some.
Qed.

Lemma parse_token_line k c : count_ok c → parse_token (token_line (k, c)) = Some (k, c).
Proof.
  intros [Hh Hs]. destruct c as [h s]. unfold token_line, parse_token. cbn [fst snd Ham Spam] in *.
  assert (Hsp : ∀ x, " " +:+ x = String " " x) by done. rewrite !Hsp.
  rewrite Cut_byte by (apply dec_avoids; [lia|done]). rewrite Cut_byte by (apply dec_avoids; [lia|done]).
  by rewrite !ParseUint_dec.
Qed.

Lemma parse_corpus_header b : 0 <= nHam b < 2 ^ 32 → 0 <= nSpam b < 2 ^ 32 →
  parse_header (header_line b) = Some (Some (nHam b, nSpam b)).
Proof.
  intros Hh Hs. unfold header_line, parse_header.
  assert (Hd : ∀ c z, 0 <= z → is_space c = false → sall (λ c, negb (is_space c)) (String c (dec z)) = true).
  { intros c z Hz Hc. cbn [sall]. rewrite Hc. by apply digits_not_space, dec_digits. }
  change ("H" +:+ dec (nHam b) +:+ " S" +:+ dec (nSpam b)) with
    (String "H" (dec (nHam b) +:+ " " +:+ String "S" (dec (nSpam b)))).
  rewrite <- sapp_cons, Fields_two by (try done; apply Hd; (lia || done)).
  cbn [HasPrefix].
  assert (Hz : ∀ c s, slice_from (String c s) 1 = s) by (by intros c []). rewrite !Hz.
  by rewrite !ParseUint_dec.
Qed.

Lemma token_line_clean k c : tidy k → count_ok c → clean_line maxLine (token_line (k, c)).
Proof.
  intros [Hk Hl] [Hh Hs]. destruct c as [h s]. cbn [Ham Spam] in *. unfold token_line. cbn [fst snd Ham Spam].
  assert (Hav : ∀ x, Ascii.eqb x " " = false → is_digit x = false →
    sall (λ d, negb (Ascii.eqb d x)) k = true → avoids x (dec h +:+ " " +:+ dec s +:+ " " +:+ k) = true).
  { intros x Hx Hd Hkx. rewrite !avoids_app. split_and!; [apply dec_avoids; [lia|done]| |apply dec_avoids; [lia|done]| |exact Hkx];
      unfold avoids; cbn [sall]; rewrite Ascii.eqb_sym, Hx; reflexivity. }
  assert (Hfree : ∀ x, (x = LF ∨ x = CR) → sall (λ d, negb (Ascii.eqb d x)) k = true).
  { intros x Hx. revert Hk. apply sall_impl. intros d (Hd1&Hd2&_)%token_byte_free. by destruct Hx as [-> | ->]; rewrite ?Hd1, ?Hd2. }
  split_and!.
  - apply Hav; [done..|]. apply Hfree. by left.
  - rewrite !slen_app. pose proof (dec_length32 h Hh). pose proof (dec_length32 s Hs).
    change (slen " ") with 1. unfold maxLine. lia.
  - destruct (HasSuffix _ _) eqn:E; [|done]. apply HasSuffix_char in E as [t E].
    assert (Hcr : avoids CR (dec h +:+ " " +:+ dec s +:+ " " +:+ k) = true) by (apply Hav; [done..|]; apply Hfree; by right).
    rewrite E in Hcr. apply avoids_app in Hcr as [_ Hcr]. discriminate Hcr.
Qed.

Lemma header_line_clean b : 0 <= nHam b < 2 ^ 32 → 0 <= nSpam b < 2 ^ 32 → clean_line maxLine (header_line b).
Proof.
  intros Hh Hs. unfold header_line. split_and!.
  - rewrite !avoids_app. split_and!; try done; apply dec_avoids; (lia || done).
  - rewrite !slen_app. pose proof (dec_length32 _ Hh). pose proof (dec_length32 _ Hs).
    change (slen "H") with 1. change (slen " S") with 2. unfold maxLine. lia.
  - destruct (HasSuffix _ _) eqn:E; [|done]. apply HasSuffix_char in E as [t E].
    assert (Hcr : avoids CR ("H" +:+ dec (nHam b) +:+ " S" +:+ dec (nSpam b)) = true).
    { rewrite !avoids_app. split_and!; try done; apply dec_avoids; (lia || done). }
    rewrite E in Hcr. apply avoids_app in Hcr as [_ Hcr]. discriminate Hcr.
Qed.

Lemma set_tokens_lookup l (m : gmap string counts) : NoDup l.*1 → foldl set_token m l = list_to_map l ∪ m.
Proof.
  revert m. induction l as [|[k c] l IH]; intros m Hnd; cbn [foldl fmap list_fmap] in *.
  - by rewrite list_to_map_nil, (left_id_L ∅ (∪)).
  - apply NoDup_cons in Hnd as [Hk Hnd]. rewrite IH by done. unfold set_token. rewrite list_to_map_cons. cbn [fst snd].
    apply map_eq. intros k'. rewrite lookup_union. destruct (decide (k' = k)) as [->|Hne].
    + rewrite lookup_insert_eq, lookup_union, lookup_insert_eq.
      rewrite (not_elem_of_list_to_map_1 l k Hk). by destruct (m !! k).
    + by rewrite lookup_insert_ne, lookup_union, lookup_insert_ne by done.
Qed.

(** The lines of the tokens are read back as the map. *)
Lemma parse_tokens (m : gmap string counts) : (∀ k c, m !! k = Some c → count_ok c) →
  foldl set_token ∅ (omap parse_token
    ((λ k, token_line (k, default (MkCounts 0 0) (m !! k))) <$> insertion_sort String.ltb (map_to_list m).*1)) = m.
Proof.
  intros Hok. set (f k := (k, default (MkCounts 0 0) (m !! k))).
  set (ks := insertion_sort String.ltb (map_to_list m).*1).
  assert (Hperm : f <$> ks ≡ₚ map_to_list m).
  { unfold ks. rewrite insertion_sort_perm, <- list_fmap_compose.
    rewrite <- (list_fmap_id (map_to_list m)) at 2. erewrite list_fmap_ext; [done|].
    intros i [k c] Hi%list_elem_of_lookup_2. apply elem_of_map_to_list in Hi. unfold f. cbn. by rewrite Hi. }
  assert (Ho : omap parse_token ((λ k, token_line (f k)) <$> ks) = f <$> ks).
  { assert (Hin : ∀ k, k ∈ ks → count_ok (f k).2).
    { intros k Hk. unfold ks in Hk. rewrite insertion_sort_perm in Hk. apply list_elem_of_fmap in Hk as ([k' c]&->&Hk).
      apply elem_of_map_to_list in Hk. unfold f. cbn. rewrite Hk. by eapply Hok. }
    clear Hperm. clearbody ks. induction ks as [|k ks IH]; [done|]. rewrite !fmap_cons. cbn [omap list_omap].
    unfold f at 1. rewrite parse_token_line by (apply (Hin k); left). f_equal. apply IH. intros k' Hk'. apply Hin. by right. }
  change (foldl set_token ∅ (omap parse_token ((λ k, token_line (f k)) <$> ks)) = m). rewrite Ho, set_tokens_lookup.
  - rewrite (right_id_L ∅ (∪)). rewrite (list_to_map_proper _ (map_to_list m)); [apply list_to_map_to_list| |done].
    rewrite Hperm. apply NoDup_fst_map_to_list.
  - rewrite Hperm. apply NoDup_fst_map_to_list.
Qed.

Lemma load_corpus p b : well_formed b →
  load_text p (corpus_text b) = Ok (MkBayes p (tokens b) (nHam b) (nSpam b) false).
Proof.
  intros [Ht Hh Hs]. unfold load_text, corpus_text. rewrite scan_clean.
  - unfold corpus_lines. rewrite parse_corpus_header by done. rewrite parse_tokens; [done|]. intros k c. by apply Ht.
  - unfold corpus_lines. constructor; [by apply header_line_clean|]. apply Forall_fmap, Forall_forall. intros k Hk.
    rewrite insertion_sort_perm in Hk. apply list_elem_of_fmap in Hk as ([k' c]&->&Hk). apply elem_of_map_to_list in Hk.
    cbn. rewrite Hk. apply token_line_clean; by eapply Ht.
Qed.

(** What was learned survives a restart: whatever fails while the corpus
    is saved, the file holds the old corpus or the new one, no other file
    changes, and after a save that succeeded a new classifier reads back
    every counter of the corpus trained on any sequence of messages. *)
Theorem corpus_reload `{UnicodeOk} env env' (p : path) msgs w r w' :
  reliable env' → p ≠ [] → msgs ≠ [] →
  let b := train_all (Some p) msgs in
  Save env b w = (r, w') →
  (∀ q : path, q ≠ p → q ≠ tmp_of p → w_files w' !! q = w_files w !! q) ∧
  match r with
  | Err _ => w_files w' !! p = w_files w !! p
  | Ok b' => tokens b' = tokens b ∧ Trained b' = Trained b ∧ dirty b' = false ∧
             (NewBayes env' (Some p) w').1 = Ok b'
  end.
Proof.
  intros Hr Hne Hm b. assert (Hb : dirty b = true ∧ b_path b = Some p).
  { unfold b. clear -Hm. induction msgs as [|m msgs IH] using rev_ind; [done|]. rewrite train_all_snoc. split; [done|].
    destruct msgs; [done|]. by apply IH. }
  destruct Hb as [Hd Hp]. unfold Save. rewrite Hd, Hp. cbn [negb]. cbv iota. unfold mbind, OS_bind, mret, OS_ret.
  destruct (save_file env p (corpus_text b) w) as [[[]|e] w1] eqn:E; apply (save_file_atomic _ _ _ _ _ _ Hne) in E as [Ho Hs];
    intros [= <- <-]; (split; [exact Ho|]); [|exact Hs].
  split_and!; [done..|]. unfold NewBayes, mbind, OS_bind. rewrite (ReadFile_saved _ _ _ _ Hr Hs).
  by rewrite (load_corpus (Some p) b (train_all_well_formed _ _)).
Qed.

(** ** Examples *)

(** The tables of Unicode cut down to ASCII. *)
Definition ascii_unicode : Unicode := {|
  IsLetter := ascii_letter;
  IsDigit r := (48 <=? r) && (r <=? 57);
  rune_lower r := if (65 <=? r) && (r <=? 90) then r + 32 else r;
|}.

Lemma ascii_unicode_ok : @UnicodeOk ascii_unicode.
Proof.
  split; [done..|]. intros r Hr. left. cbn. case_goal; [|done]. reflect_bool. lia.
Qed.

Definition spam_mail : string := "Subject: FREE Money" +:+ CRLF +:+ CRLF +:+ "Win $1000 now, it's free!" +:+ CRLF.
Definition ham_mail : string := "Subject: lunch" +:+ CRLF +:+ CRLF +:+ "See you at noon." +:+ CRLF.

(** A word of the subject is another feature than the same word of the
    body, and short words do not count. *)
Example tokens_of_mail :
  bool_decide (Tokenize (H := ascii_unicode) spam_mail =
    list_to_set ["subject*free"; "subject*money"; "win"; "$1000"; "now"; "it's"; "free"]) = true.
Proof. vm_compute. reflexivity. Qed.

Definition sample_training : list (string * bool) :=
  replicate 20 (spam_mail, true) ++ replicate 20 (ham_mail, false).
Definition sample_corpus : Bayes := train_all (H := ascii_unicode) None sample_training.

(** A word seen in spam only stands at the ceiling, in good mail only at
    the floor, and one never seen in between. *)
Example sample_probs :
  token_prob sample_corpus <$> ["subject*free"; "noon"; "unseen"] = [probCeil; probFloor; unknownProb].
Proof. vm_compute. reflexivity. Qed.

Example not_ready : Ready (train_all (H := ascii_unicode) None (take 39 sample_training)) = false ∧ Ready sample_corpus = true.
Proof. vm_compute. done. Qed.

Definition corpus_home : World := MkWorld ∅ {[ []; ["var"] ]} 0 0 None.

Lemma corpus_reload_witness :
  ∃ b' w', Save calm (train_all (H := ascii_unicode) (Some ["var"; "bayes.db"]) sample_training) corpus_home = (Ok b', w') ∧
    Trained b' = (20, 20) ∧ (NewBayes calm (Some ["var"; "bayes.db"]) w').1 = Ok b'.
Proof.
  destruct (Save calm (train_all (H := ascii_unicode) (Some ["var"; "bayes.db"]) sample_training) corpus_home)
    as [[b'|e] w'] eqn:E; [|vm_compute in E; discriminate E].
  destruct (corpus_reload (H := ascii_unicode) (H0 := ascii_unicode_ok) calm calm ["var"; "bayes.db"] sample_training
    corpus_home _ w' calm_reliable ltac:(discriminate) ltac:(discriminate) E) as (_&_&H2&_&H4).
  exists b', w'. split; [reflexivity|]. split; [rewrite H2; vm_compute; reflexivity|exact H4].
Defined.
