(* ===== verification/Antivirus.v ===== *)
(** * ClamAV

    Models [internal/antivirus/clamav.go]: the stream a message is sent to
    clamd in, and the reading of its answer.  The connection is a
    parameter: whether it opens, which writes fail, and what the first
    read returns, given all that was written ([None]: the read fails). *)

From S2P Require Import Prelude GoStrings GoUtf8.

Definition chunkSize : Z := 32 * 1024.

Record ClamAV := MkClamAV { Network : string; Address : string; Timeout : Z }.

Definition New (address : string) (timeout : Z) : ClamAV :=
  MkClamAV (if HasPrefix address "/" then "unix" else "tcp") address (if timeout =? 0 then 30 * 1000000000 else timeout).

Record Clamd := MkClamd {
  cl_dial : bool;
  cl_write : nat → bool;
  cl_reply : string → option string;
}.

Definition NUL : string := String (byte 0) "".

(** [binary.BigEndian.PutUint32] *)
Definition be32 (n : Z) : string :=
  String (byte (Z.land (Z.shiftr n 24) 255)) (String (byte (Z.land (Z.shiftr n 16) 255))
    (String (byte (Z.land (Z.shiftr n 8) 255)) (String (byte (Z.land n 255)) ""))).

(** The writes of the loop over the message: a length and a chunk each
    time; the length of the message is enough fuel. *)
Fixpoint chunk_writes (fuel : nat) (data : string) : list string :=
  match fuel with
  | O => []
  | S fuel =>
      if is_empty data then [] else
      let chunk := slice_to data chunkSize in
      be32 (slen chunk) :: chunk :: chunk_writes fuel (slice_from data chunkSize)
  end.

Definition scan_writes (data : string) : list string :=
  ("zINSTREAM" +:+ NUL) :: chunk_writes (String.length data) data ++ [be32 0].

(** Sends the writes one by one and reads at most [room] bytes. *)
Definition exchange (d : Clamd) (writes : list string) (room : Z) : result string :=
  if negb (cl_dial d) then Err (EMsg "clamav: dial")
  else if negb (forallb (cl_write d) (seq 0 (length writes))) then Err (EMsg "clamav: write")
  else match cl_reply d (Join writes "") with
       | Some r => Ok (slice_to r room)
       | None => Err (EMsg "clamav: read")
       end.

Definition Ping (d : Clamd) : result unit :=
  r ← exchange d ["zPING" +:+ NUL] 32;
  if Contains r "PONG" then mret tt else Err (EMsg "clamav: unexpected ping reply").

Definition parse_reply (reply : string) : result string :=
  if HasSuffix reply "OK" then Ok ""
  else if HasSuffix reply "FOUND" then
    let name := TrimSuffix reply " FOUND" in
    match Cut name ": " with
    | (_, after, true) => Ok after
    | _ => Ok name
    end
  else if Contains reply "ERROR" then Err (EMsg ("clamav: " +:+ reply))
  else Err (EMsg "clamav: unexpected reply").

Definition Scan (d : Clamd) (data : string) : result string :=
  r ← exchange d (scan_writes data) 512;
  parse_reply (TrimRight r (NUL +:+ String LF " ")).

(** ** The stream *)

(** How clamd reads a stream: chunks with their length in four bytes, up
    to one of length zero; the message and what follows. *)
Definition be32_value (s : string) : option (Z * string) :=
  match s with
  | String a (String b (String c (String d rest))) =>
      Some (((byte_of a * 256 + byte_of b) * 256 + byte_of c) * 256 + byte_of d, rest)
  | _ => None
  end.

Fixpoint read_stream (fuel : nat) (s : string) : option (string * string) :=
  match fuel with
  | O => None
  | S fuel =>
      match be32_value s with
      | None => None
      | Some (n, s) =>
          if n =? 0 then Some ("", s)
          else if slen s <? n then None
          else match read_stream fuel (slice_from s n) with
               | Some (data, rest) => Some (slice_to s n +:+ data, rest)
               | None => None
               end
      end
  end.

Lemma be32_value_be32 n rest : 0 <= n < 2 ^ 32 → be32_value (be32 n +:+ rest) = Some (n, rest).
Proof.
  intros Hn. unfold be32. rewrite !sapp_cons. cbn [be32_value String.append].
  assert (Hb : ∀ k, 0 <= k → byte_of (byte (Z.land (Z.shiftr n k) 255)) = (n / 2 ^ k) mod 256).
  { intros k Hk. change 255 with (Z.ones 8). rewrite Z.land_ones by done. rewrite Z.shiftr_div_pow2 by done.
    apply byte_of_byte. apply Z.mod_pos_bound. done. }
  rewrite !Hb by done. change (Z.land n 255) with (Z.land (Z.shiftr n 0) 255). rewrite Hb by done.
  f_equal. f_equal. change (2 ^ 0) with 1. change (2 ^ 8) with 256. change (2 ^ 16) with (256 * 256).
  change (2 ^ 24) with (256 * 256 * 256). rewrite Z.div_1_r.
  rewrite <- !Z.div_div by done.
  pose proof (Z.div_mod n 256 ltac:(done)). pose proof (Z.div_mod (n / 256) 256 ltac:(done)).
  pose proof (Z.div_mod (n / 256 / 256) 256 ltac:(done)).
  assert (n / 256 / 256 / 256 < 256) by (rewrite !Z.div_div by done; apply Z.div_lt_upper_bound; lia).
  assert (0 <= n / 256 / 256 / 256) by (rewrite !Z.div_div by done; apply Z.div_pos; lia).
  rewrite (Z.mod_small (n / 256 / 256 / 256)) by lia. lia.
Qed.

Lemma slice_split s n : slice_to s n +:+ slice_from s n = s.
Proof. apply stake_sdrop. Qed.

Lemma slice_to_length s n : 0 < n → s ≠ "" → 0 < slen (slice_to s n) <= n.
Proof.
  intros Hn Hs. unfold slice_to, slen. pose proof (stake_length (Z.to_nat n) s). split; [|lia].
  destruct s as [|c s]; [done|]. destruct (Z.to_nat n) eqn:En; [lia|]. cbn [stake String.length]. lia.
Qed.

Lemma chunkSize_range : 0 < chunkSize < 2 ^ 32. Proof. done. Qed.

#[local] Opaque chunkSize.

Lemma chunk_writes_read fuel data : (String.length data <= fuel)%nat →
  ∀ rest, read_stream (S fuel) (Join (chunk_writes fuel data) "" +:+ be32 0 +:+ rest) = Some (data, rest).
Proof.
  revert data. induction fuel as [|fuel IH]; intros data Hf rest.
  - destruct data; [|simpl in Hf; lia]. cbn [read_stream chunk_writes Join String.append].
    by rewrite (be32_value_be32 0).
  - cbn [chunk_writes]. destruct (is_empty data) eqn:E.
    + destruct data; [|done]. cbn [Join]. rewrite sapp_nil_l. cbn [read_stream]. by rewrite (be32_value_be32 0).
    + assert (Hne : data ≠ "") by (by apply is_empty_false).
      assert (Hpos : 0 < slen data) by (pose proof (slen_nonneg data); assert (slen data ≠ 0) by (by intros ?%slen_zero); lia).
      set (chunk := slice_to data chunkSize). set (tail := slice_from data chunkSize).
      assert (Hct : data = chunk +:+ tail) by (symmetry; apply slice_split).
      pose proof chunkSize_range as Hcs.
      assert (Hlen : 0 < slen chunk <= chunkSize) by (by apply slice_to_length).
      rewrite !Join_nil_cons, !sapp_assoc. remember (S fuel) as f. cbn [read_stream].
      rewrite be32_value_be32 by lia. rewrite (proj2 (Z.eqb_neq _ _)) by lia.
      rewrite slen_app. pose proof (slen_nonneg (Join (chunk_writes fuel tail) "" +:+ be32 0 +:+ rest)).
      rewrite (proj2 (Z.ltb_ge _ _)) by lia. rewrite slice_from_app, slice_to_app. subst f. rewrite IH.
      * by rewrite <- Hct.
      * rewrite Hct, slength_app in Hf. unfold slen in Hlen. lia.
Qed.

(** ** The answer *)

Definition connected (d : Clamd) : Prop := cl_dial d = true ∧ ∀ k, cl_write d k = true.

Lemma exchange_connected d ws room : connected d →
  exchange d ws room = match cl_reply d (Join ws "") with
                       | Some r => Ok (slice_to r room) | None => Err (EMsg "clamav: read") end.
Proof.
  intros [Hd Hw]. unfold exchange. rewrite Hd. cbn [negb].
  assert (Hall : forallb (cl_write d) (seq 0 (length ws)) = true) by (by apply forallb_forall).
  by rewrite Hall.
Qed.

Lemma slice_to_all s n : slen s <= n → slice_to s n = s.
Proof.
  intros H. unfold slice_to. rewrite <- (sapp_nil_r (stake _ _)).
  rewrite <- (stake_sdrop (Z.to_nat n) s) at 2. f_equal.
  destruct (sdrop (Z.to_nat n) s) eqn:E; [done|]. apply (f_equal String.length) in E.
  rewrite sdrop_length in E. unfold slen in H. simpl in E. lia.
Qed.

Lemma trim_reply x y c : in_set (NUL +:+ String LF " ") c = false →
  TrimRight ((x +:+ (y +:+ String c "")) +:+ NUL) (NUL +:+ String LF " ") = x +:+ (y +:+ String c "").
Proof.
  intros Hc. unfold TrimRight. set (p := in_set _) in *.
  assert (Hd : ∀ s, trim_right p (s +:+ NUL) = trim_right p s).
  { induction s as [|e s IH]; [done|]. rewrite sapp_cons. cbn [trim_right]. by rewrite IH. }
  rewrite Hd, <- sapp_assoc. apply trim_right_app_keep; [done|]. cbn [trim_right]. by rewrite Hc.
Qed.

(** clamd is sent exactly the message: after the command, the stream reads
    back as the bytes of the message and nothing more.  Its answers are
    read as the protocol means them, the name of the malware included, and
    a scan that reports no malware had a complete exchange whose answer
    says so: a failure never passes for a clean message. *)
Theorem scan_spec d data : connected d →
  (∃ stream, Join (scan_writes data) "" = ("zINSTREAM" +:+ NUL) +:+ stream ∧
             read_stream (S (String.length data)) stream = Some (data, "")) ∧
  (cl_reply d (Join (scan_writes data) "") = Some ("stream: OK" +:+ NUL) → Scan d data = Ok "") ∧
  (∀ name, cl_reply d (Join (scan_writes data) "") = Some (("stream: " +:+ (name +:+ " FOUND")) +:+ NUL) →
     slen name <= 400 → Scan d data = Ok name) ∧
  (∀ name, Scan d data = Ok name → ∃ reply, cl_reply d (Join (scan_writes data) "") = Some reply ∧
     let line := TrimRight (slice_to reply 512) (NUL +:+ String LF " ") in
     (HasSuffix line "OK" = true ∧ name = "") ∨ HasSuffix line "FOUND" = true).
Proof.
  intros Hc. unfold Scan. rewrite exchange_connected by done. split_and!.
  - eexists. split; [unfold scan_writes; by rewrite Join_nil_cons|].
    rewrite Join_empty_app. cbn [Join]. rewrite <- (sapp_nil_r (be32 0)). by apply chunk_writes_read.
  - intros ->. vm_compute. reflexivity.
  - intros name -> Hn. cbn [mbind result_bind]. rewrite slice_to_all.
    2:{ rewrite !slen_app. change (slen "stream: ") with 8. change (slen " FOUND") with 6. change (slen NUL) with 1. lia. }
    assert (Hf : "stream: " +:+ (name +:+ " FOUND") = ("stream: " +:+ name) +:+ (" FOUN" +:+ String "D" ""))
      by (by rewrite sapp_assoc).
    rewrite Hf, trim_reply by done. unfold parse_reply.
    change "OK" with ("O" +:+ String "K" "") at 1. rewrite HasSuffix_last by done.
    change (" FOUN" +:+ String "D" "") with (" " +:+ "FOUND"). rewrite <- sapp_assoc, HasSuffix_app.
    rewrite sapp_assoc. change (" " +:+ "FOUND") with " FOUND". rewrite TrimSuffix_app. reflexivity.
  - intros name. destruct (cl_reply d _) as [reply|]; [|done]. cbn [mbind result_bind]. intros H. exists reply. split; [done|].
    cbv zeta. revert H. unfold parse_reply. destruct (HasSuffix _ "OK"); [intros [= <-]; by left|].
    destruct (HasSuffix _ "FOUND"); [by right|]. by case_goal.
Qed.

(** A daemon that knows one signature. *)
Definition sample_clamd : Clamd := {|
  cl_dial := true;
  cl_write _ := true;
  cl_reply s := Some ((if Contains s "EICAR" then "stream: Eicar-Test-Signature FOUND" else "stream: OK") +:+ NUL);
|}.

Lemma scan_spec_witness :
  Scan sample_clamd "X5O!EICAR" = Ok "Eicar-Test-Signature" ∧ Scan sample_clamd "hello" = Ok "" ∧
  ∃ reply, cl_reply sample_clamd (Join (scan_writes "hello") "") = Some reply.
Proof.
  assert (Hc : connected sample_clamd) by (split; [reflexivity|intros k; reflexivity]).
  destruct (scan_spec sample_clamd "X5O!EICAR" Hc) as (_&_&Hf&_).
  destruct (scan_spec sample_clamd "hello" Hc) as (_&Hok&_&Hv).
  split; [apply (Hf "Eicar-Test-Signature"); [reflexivity|vm_compute; discriminate]|].
  split; [apply Hok; reflexivity|].
  destruct (Hv "" (Hok eq_refl)) as (reply&E&_). exists reply. exact E.
Defined.

(** A daemon that hangs up, or an answer that is neither, is an error. *)
Example scan_failures :
  Scan (MkClamd true (λ k, negb (k =? 2)%nat) (cl_reply sample_clamd)) "hello" = Err (EMsg "clamav: write") ∧
  is_ok (Scan (MkClamd true (λ _, true) (λ _, Some "INSTREAM size limit exceeded. ERROR")) "hello") = false ∧
  is_ok (Scan (MkClamd true (λ _, true) (λ _, Some "")) "hello") = false.
Proof. vm_compute. done. Qed.
