(* ===== verification/TlsStore.v ===== *)
(** * TLS certificates

    Models [internal/tls/store.go]: the certificates loaded for the
    configured domains and the choice of one by the name the client asks
    for.  Reading a key pair and parsing a certificate are parameters. *)

From S2P Require Import Prelude GoStrings GoNum Fs.

Definition VersionTLS12 : Z := 771.
Definition VersionTLS13 : Z := 772.

Record Params := MkParams {
  p_CertRoot : path;
  p_Hostname : string;
  p_Domains : list string;
  p_MinVersion : string;
  p_ExpiryWarnDays : Z;
}.

Section store.
(** [LoadX509KeyPair] of the two files, and the [NotAfter] of the leaf. *)
Context {C : Type} (LoadX509KeyPair : path → path → result C) (ParseCertificate : C → result Z).
Context (fmt_date : Z → string) `{SliceSort}.

Record entry := MkEntry { cert : C; notAfter : Z }.

Record Store := MkStore {
  s_p : Params;
  minVer : Z;
  domains : list string;
  certs : gmap string entry;
}.

Definition loadCert (root : path) (domain : string) : result entry :=
  let dir := path_join root domain in
  match LoadX509KeyPair (path_join dir "fullchain.pem") (path_join dir "privkey.pem") with
  | Err _ => Err (EMsg "certificate load failed")
  | Ok c =>
      match ParseCertificate c with
      | Err _ => Err (EMsg "certificate parse failed")
      | Ok t => Ok (MkEntry c t)
      end
  end.

(** Longest first. *)
Definition longer : string → string → bool := less_by (λ d, - slen d).

(** The certificates that load, and a warning for each that does not. *)
Fixpoint load_certs (root : path) (ds : list string) : gmap string entry * list string :=
  match ds with
  | [] => (∅, [])
  | d :: ds =>
      let '(m, warns) := load_certs root ds in
      match loadCert root d with
      | Err _ => (m, ("domain " +:+ d) :: warns)
      | Ok e => (<[d := e]> m, warns)
      end
  end.

Definition expiry_warning (now limit : Z) (d : string) (e : entry) : list string :=
  if time_Before (notAfter e) now then ["domain " +:+ d +:+ ": certificate EXPIRED on " +:+ fmt_date (notAfter e)]
  else if time_Before (notAfter e) limit then
    ["domain " +:+ d +:+ ": certificate expires in " +:+ dec (trunc (fdiv (Hours (time_Sub (notAfter e) now)) (f64_of_Z 24)))
     +:+ " days (" +:+ fmt_date (notAfter e) +:+ ")"]
  else [].

Definition ExpiryWarnings (s : Store) (now : Z) : list string :=
  let limit := now + i64 (i64 (p_ExpiryWarnDays (s_p s)) * 24 * Hour) in
  domains s ≫= λ d, match certs s !! d with Some e => expiry_warning now limit d e | None => [] end.

Definition Reload (p : Params) (now : Z) : Store * list string :=
  let ds := sort_slice longer (p_Domains p) in
  let '(m, warns) := load_certs (p_CertRoot p) ds in
  let s := MkStore p (if String.eqb (p_MinVersion p) "1.3" then VersionTLS13 else VersionTLS12) ds m in
  (s, warns ++ ExpiryWarnings s now).

Definition covers (name d : string) : bool := String.eqb name d || HasSuffix name ("." +:+ d).

Definition matchLocked (s : Store) (name : string) : string :=
  if is_empty name then "" else default "" (find (covers name) (domains s)).

Definition Match (s : Store) (sni : string) : string :=
  matchLocked s (TrimSuffix (ToLower (TrimSpace sni)) ".").

(** The name a client sends, as it is looked up. *)
Definition sni_name (ServerName : string) : string := TrimSuffix (ToLower ServerName) ".".

Definition GetCertificate (s : Store) (ServerName : string) : result C :=
  let d := matchLocked s (sni_name ServerName) in
  let d := if is_empty d then matchLocked s (p_Hostname (s_p s)) else d in
  match certs s !! d with
  | Some e => Ok (cert e)
  | None => Err (EMsg "no certificate")
  end.

(** The floor of the TLS configuration. *)
Definition tls_MinVersion (s : Store) : Z := minVer s.

Definition Loaded (s : Store) : list string := insertion_sort String.ltb (map_to_list (certs s)).*1.

(** ** The certificate served *)

Lemma load_certs_lookup root ds d : (load_certs root ds).1 !! d =
  if decide (d ∈ ds) then match loadCert root d with Ok e => Some e | Err _ => None end else None.
Proof.
  induction ds as [|x ds IH]; [by rewrite decide_False by apply not_elem_of_nil|].
  cbn [load_certs]. destruct (load_certs root ds) as [m ws]. cbn [fst] in *.
  destruct (decide (d = x)) as [->|Hne].
  - rewrite decide_True by left. destruct (loadCert root x) eqn:E; cbn [fst]; [by rewrite lookup_insert_eq|].
    rewrite IH. case_decide; by rewrite ?E.
  - assert (Hiff : d ∈ x :: ds ↔ d ∈ ds) by (rewrite elem_of_cons; split; [by intros [?|?]|by right]).
    destruct (loadCert root x); cbn [fst]; rewrite ?lookup_insert_ne by done; rewrite IH; by rewrite (decide_ext _ _ _ _ Hiff).
Qed.

(** [d] is the longest of the domains that a name lies in. *)
Definition best (ds : list string) (name d : string) : Prop :=
  d ∈ ds ∧ covers name d = true ∧ ∀ d', d' ∈ ds → covers name d' = true → slen d' <= slen d.

Lemma find_best l name d : StronglySorted (λ x y, longer y x = false) l → find (covers name) l = Some d →
  best l name d.
Proof.
  induction 1 as [|x l Hs IH Hx]; [done|]. cbn [find]. destruct (covers name x) eqn:E.
  - intros [= <-]. split_and!; [left|done|]. intros d' [->|Hd']%elem_of_cons _; [done|].
    rewrite Forall_forall in Hx. specialize (Hx _ Hd'). unfold longer, less_by in Hx. reflect_bool. lia.
  - intros (Hin&Hc&Hmax)%IH. split_and!; [by right|done|]. intros d' [->|Hd']%elem_of_cons Hc'; [congruence|by apply Hmax].
Qed.

Lemma best_perm l l' name d : l ≡ₚ l' → best l name d → best l' name d.
Proof. intros Hp (Hin&Hc&Hm). split_and!; [by rewrite <- Hp|done|]. intros d' Hd'. apply Hm. by rewrite Hp. Qed.

Lemma covers_spec name d : covers name d = true ↔ name = d ∨ ∃ a, name = a +:+ ("." +:+ d).
Proof.
  unfold covers. rewrite orb_true_iff, String.eqb_eq. split; (intros [Hs|Hs]; [by left|right]).
  - apply HasSuffix_spec in Hs. eauto.
  - destruct Hs as [a ->]. apply HasSuffix_app.
Qed.

Lemma covers_length name d : covers name d = true → ∃ a, name = a +:+ d.
Proof. intros [->|[a ->]]%covers_spec; [by exists ""|]. exists (a +:+ "."). by rewrite sapp_assoc. Qed.

Lemma best_unique ds name d d' : best ds name d → best ds name d' → d = d'.
Proof.
  intros (Hin&Hc&Hm) (Hin'&Hc'&Hm'). assert (Hl : slen d = slen d') by (apply Z.le_antisymm; auto).
  destruct (covers_length _ _ Hc) as [a Ha], (covers_length _ _ Hc') as [b Hb].
  apply (sapp_inv_head a). enough (a = b) as -> by congruence.
  assert (Hla : String.length a = String.length b).
  { apply (f_equal String.length) in Ha. rewrite Hb, !slength_app in Ha. unfold slen in Hl. lia. }
  rewrite <- (stake_app a d), <- (stake_app b d'). congruence.
Qed.

Lemma match_best p now name : "" ∉ p_Domains p → let d := matchLocked (Reload p now).1 name in
  (d = "" ∧ ∀ d', d' ∈ p_Domains p → covers name d' = false) ∨ (d ≠ "" ∧ best (p_Domains p) name d).
Proof.
  intros Hne. cbv zeta. unfold Reload. destruct (load_certs _ _) as [m ws]. cbn [fst]. unfold matchLocked. cbn [domains].
  destruct (is_empty name) eqn:En.
  { left. split; [done|]. intros d' Hd'. destruct name; [|done]. destruct (covers "" d') eqn:Hc; [|done].
    apply covers_spec in Hc as [<-|[[] Ha]]; done. }
  pose proof (sort_slice_perm longer (p_Domains p)) as Hp.
  destruct (find _ _) as [d|] eqn:Ef; cbn [default].
  - right. apply find_best, (best_perm _ _ _ _ Hp) in Ef; [|apply sort_slice_sorted, less_by_strict_weak].
    change (id d) with d. split; [|done]. intros ->. by destruct Ef.
  - left. split; [done|]. intros d' Hin. rewrite <- Hp in Hin. apply list_elem_of_In in Hin.
    by apply (find_none _ _ Ef).
Qed.

(** The domain whose certificate stands for a name: the longest that the
    name lies in or, for a name in none of them, for the host name. *)
Definition serves (p : Params) (ServerName d : string) : Prop :=
  best (p_Domains p) (sni_name ServerName) d ∨
  (∀ d', d' ∈ p_Domains p → covers (sni_name ServerName) d' = false) ∧ best (p_Domains p) (p_Hostname p) d.

(** Whatever the order of the configuration, a client is served the
    certificate loaded for the longest configured domain that its server
    name lies in, and a client whose name lies in none the certificate of
    the host name; when that one did not load the handshake fails, and no
    other certificate is used. *)
Theorem sni_certificate p now ServerName : "" ∉ p_Domains p →
  match GetCertificate (Reload p now).1 ServerName with
  | Ok c => ∃ d e, serves p ServerName d ∧ loadCert (p_CertRoot p) d = Ok e ∧ cert e = c
  | Err _ => ∀ d, serves p ServerName d → is_ok (loadCert (p_CertRoot p) d) = false
  end.
Proof.
  intros Hne. unfold GetCertificate.
  assert (Hcert : ∀ d, certs (Reload p now).1 !! d =
    if decide (d ∈ p_Domains p) then match loadCert (p_CertRoot p) d with Ok e => Some e | Err _ => None end else None).
  { intros d. unfold Reload. pose proof (load_certs_lookup (p_CertRoot p) (sort_slice longer (p_Domains p)) d) as Hl.
    destruct (load_certs _ _) as [m ws]. cbn [fst certs] in *. rewrite Hl.
    apply decide_ext. by rewrite sort_slice_perm. }
  assert (Hhost : p_Hostname (s_p (Reload p now).1) = p_Hostname p).
  { unfold Reload. by destruct (load_certs _ _). }
  rewrite Hhost. set (name := sni_name ServerName).
  assert (Hend : ∀ d, serves p ServerName d → (∀ d', serves p ServerName d' → d' = d) →
    match match certs (Reload p now).1 !! d with Some e => Ok (cert e) | None => Err (EMsg "no certificate") end with
    | Ok c => ∃ d e, serves p ServerName d ∧ loadCert (p_CertRoot p) d = Ok e ∧ cert e = c
    | Err _ => ∀ d, serves p ServerName d → is_ok (loadCert (p_CertRoot p) d) = false
    end).
  { intros d Hs Hu. assert (Hin : d ∈ p_Domains p) by (destruct Hs as [(?&_)|(_&?&_)]; done).
    rewrite Hcert, decide_True by done. destruct (loadCert _ d) as [e|err] eqn:E; [by exists d, e|].
    intros d' ->%Hu. by rewrite E. }
  destruct (match_best p now name Hne) as [[E0 Hnone]|[Hd Hb]].
  - rewrite E0. cbn [is_empty]. destruct (match_best p now (p_Hostname p) Hne) as [[E1 Hn2]|[Hd Hb]].
    + rewrite E1, Hcert, decide_False by done. intros d [(Hin&Hc&_)|(_&Hin&Hc&_)].
      * by rewrite Hnone in Hc.
      * by rewrite Hn2 in Hc.
    + apply Hend; [by right|]. intros d' [(Hin&Hc&_)|(_&Hb')]; [fold name in Hc; by rewrite Hnone in Hc|].
      by eapply best_unique.
  - assert (E : is_empty (matchLocked (Reload p now).1 name) = false) by (by destruct (matchLocked _ name)).
    rewrite E.
    apply Hend; [by left|]. intros d' [Hb'|(Hn&_)]; [by eapply best_unique|].
    destruct Hb as (Hin&Hc&_). fold name in Hn. by rewrite Hn in Hc.
Qed.
End store.

(** ** Examples *)

(** A certificate is named by the directory it was read from; that of
    the last domain cannot be read. *)
Definition sample_load (chain key : path) : result string :=
  if String.eqb (path_base (parent chain)) "broken.example" then Err ENotExist else Ok (path_base (parent chain)).

Definition sample_params : Params :=
  MkParams ["live"] "mx.ente.it" ["ente.it"; "broken.example"; "studenti.ente.it"] "1.2" 14.

Definition sample_store : Store (C := string) :=
  (Reload sample_load (λ _, Ok (20 * 24 * Hour)) dec sample_params (10 * 24 * Hour)).1.

Example served :
  GetCertificate sample_store <$> ["mail.studenti.ente.it"; "ente.it."; "MX.ENTE.IT"; ""; "other.example"; "broken.example"]
  = [Ok "studenti.ente.it"; Ok "ente.it"; Ok "ente.it"; Ok "ente.it"; Ok "ente.it"; Err (EMsg "no certificate")].
Proof. vm_compute. reflexivity. Qed.

Example warned : (Reload sample_load (λ _, Ok (20 * 24 * Hour)) dec sample_params (10 * 24 * Hour)).2 =
  ["domain broken.example"; "domain studenti.ente.it: certificate expires in 10 days (1728000000000000)";
   "domain ente.it: certificate expires in 10 days (1728000000000000)"].
Proof. vm_compute. reflexivity. Qed.

Lemma sni_certificate_witness :
  ∃ d (e : entry (C := string)), serves sample_params "mail.studenti.ente.it" d ∧
    loadCert sample_load (λ _, Ok (20 * 24 * Hour)) ["live"] d = Ok e ∧ cert e = "studenti.ente.it".
Proof.
  assert (Hne : "" ∉ p_Domains sample_params) by (apply (bool_decide_unpack _); vm_compute; exact I).
  pose proof (sni_certificate sample_load (λ _, Ok (20 * 24 * Hour)) dec sample_params (10 * 24 * Hour)
    "mail.studenti.ente.it" Hne) as H.
  change (GetCertificate (Reload sample_load (λ _, Ok (20 * 24 * Hour)) dec sample_params (10 * 24 * Hour)).1
    "mail.studenti.ente.it") with (@Ok string "studenti.ente.it") in H.
  exact H.
Defined.
