(* ===== verification/Dkim.v ===== *)
(** * DKIM keys

    Models [internal/dkim/dkim.go]: the key of a domain and selector in its
    file, the record to publish, and the signature.  Keys, their encodings
    and the signature itself belong to libraries: they are the operations
    of a class, with the law that an encoded key is decoded again. *)

From S2P Require Import Prelude GoStrings GoBase64 Fs Persist.

Definition DefaultSelector : string := "default".

Definition signedHeaders : list string :=
  ["From"; "To"; "Cc"; "Subject"; "Date"; "Message-ID";
   "Reply-To"; "MIME-Version"; "Content-Type"; "Content-Transfer-Encoding"].

(** [encode_key] is PKCS #8 in PEM, [decode_key] its inverse ([None]:
    not a PEM block, or no key in it), [public_key] the PKIX form of the
    public half, [dkim_Sign] the library's signature over the named
    header fields. *)
Class KeyLib := {
  Key : Type;
  GenerateKey : result Key;
  encode_key : Key → result string;
  decode_key : string → option Key;
  public_key : Key → result string;
  dkim_Sign : string → string → Key → list string → string → result string;
}.

Class KeyLibOk `{KeyLib} := {
  decode_encode_key k s : encode_key k = Ok s → decode_key s = Some k;
}.

Section dkim.
Context `{KeyLib} (env : Env).

(** A store is its directory. *)
Definition keyPath (dir : path) (domain selector : string) : path :=
  path_join (path_join dir domain) (selector +:+ ".pem").

Definition selector_or_default (selector : string) : string :=
  if is_empty selector then DefaultSelector else selector.

Definition Signer (dir : path) (domain selector : string) : OS (option Key) :=
  let selector := selector_or_default selector in
  r ← os_try (ReadFile env (keyPath dir domain selector));
  mret (match r with Ok b => decode_key b | Err _ => None end).

Definition Sign (msg domain selector : string) (key : Key) : result string :=
  match dkim_Sign domain (selector_or_default selector) key signedHeaders msg with
  | Ok out => Ok out
  | Err _ => Err (EMsg ("dkim sign " +:+ domain))
  end.

(** The record for a public key. *)
Definition txt_record (domain selector pub : string) : string * string :=
  (selector +:+ "._domainkey." +:+ domain, "v=DKIM1; k=rsa; p=" +:+ EncodeToString pub).

Definition lift {A} (r : result A) : OS A := λ w, (r, w).

Definition Generate (dir : path) (domain selector : string) : OS (string * string) :=
  let selector := selector_or_default selector in
  let file := keyPath dir domain selector in
  st ← os_try (Stat env file);
  match st with
  | Ok _ => os_err (EMsg "key already exists")
  | Err _ =>
      key ← lift GenerateKey;
      pem ← lift (encode_key key);
      MkdirAll env (parent file);;
      WriteFile env file pem;;
      pub ← lift (public_key key);
      mret (txt_record domain selector pub)
  end.

Definition TXTRecord (dir : path) (domain selector : string) : OS (string * string) :=
  let selector := selector_or_default selector in
  signer ← Signer dir domain selector;
  match signer with
  | None => os_err (EMsg "no key")
  | Some key => pub ← lift (public_key key); mret (txt_record domain selector pub)
  end.
End dkim.

(** Fetching a key reads one file. *)
Lemma Signer_files `{KeyLib} env dir domain selector w r w' : Signer env dir domain selector w = (r, w') →
  w_files w' = w_files w ∧ w_host w' = w_host w.
Proof.
  unfold Signer, os_try, mbind, OS_bind. destruct (ReadFile _ _ w) as [x w1] eqn:E. intros [= _ <-].
  split; [by apply ReadFile_files in E as [? _]|]. revert E. unfold ReadFile. run_call.
Qed.

(** The key is the one in the file, when it can be decoded. *)
Lemma Signer_reliable `{KeyLib} env dir domain selector w : reliable env →
  Signer env dir domain selector w =
  (Ok (w_files w !! keyPath dir domain (selector_or_default selector) ≫= λ f, decode_key (f_data f)), tick w).
Proof.
  intros Hr. unfold Signer, os_try. unfold mbind at 1, OS_bind at 1. rewrite ReadFile_reliable by done.
  by destruct (w_files w !! _).
Qed.

Lemma TXTRecord_same `{KeyLib} env dir domain selector w w' : reliable env → w_files w' = w_files w →
  (TXTRecord env dir domain selector w').1 = (TXTRecord env dir domain selector w).1 ∧
  w_files (TXTRecord env dir domain selector w').2 = w_files w'.
Proof.
  intros Hr Hf. unfold TXTRecord. cbv zeta. unfold mbind, OS_bind. rewrite !Signer_reliable, Hf by done.
  destruct (w_files w !! _ ≫= _) as [k|]; [|done]. unfold lift. by destruct (public_key k).
Qed.

Lemma selector_idemp s : selector_or_default (selector_or_default s) = selector_or_default s.
Proof. by destruct s. Qed.

(** A key is never overwritten while the file system answers: whether
    [Generate] succeeds or not, every file that was there keeps its
    content.  After a success the key can be read back, the record shown
    again is the one that was published, and there was no key before. *)
Lemma generate_spec `{KeyLibOk} env env' dir domain selector w r w' :
  reliable env → reliable env' → Generate env dir domain selector w = (r, w') →
  let file := keyPath dir domain (selector_or_default selector) in
  (∀ q f, w_files w !! q = Some f → w_files w' !! q = Some f) ∧
  match r with
  | Err _ => True
  | Ok rec => w_files w !! file = None ∧
      (∃ k, (Signer env' dir domain selector w').1 = Ok (Some k)) ∧
      (TXTRecord env' dir domain selector w').1 = Ok rec
  end.
Proof.
  intros Hr Hr' HG file. revert HG. unfold Generate. fold file. unfold mbind, OS_bind, os_try, lift, mret, OS_ret.
  rewrite (Stat_reliable env file w Hr).
  destruct (is_dir w file || is_file w file) eqn:Es; [intros [= <- <-]; by split|].
  apply orb_false_iff in Es as [_ Es]. unfold is_file in Es. apply bool_decide_eq_false in Es.
  apply eq_None_not_Some in Es.
  destruct GenerateKey as [key|]; [|intros [= <- <-]; by split].
  destruct (encode_key key) as [pem|] eqn:Ek; [|intros [= <- <-]; by split].
  destruct (MkdirAll env (parent file) (tick w)) as [[[]|] w1] eqn:E1; apply MkdirAll_files in E1; cbn [tick w_files] in E1;
    [|intros [= <- <-]; rewrite E1; by split].
  destruct (WriteFile env file pem w1) as [rw w2] eqn:E2. apply WriteFile_files in E2 as [Ho Hs].
  assert (Hkeep : ∀ q f, w_files w !! q = Some f → w_files w2 !! q = Some f).
  { intros q f Hq. rewrite Ho, E1; [done|]. intros ->. congruence. }
  destruct rw as [[]|]; [|intros [= <- <-]; by split]. specialize (Hs eq_refl).
  destruct (public_key key) as [pub|] eqn:Ep; intros [= <- <-]; [|by split]. split; [done|]. split; [done|].
  assert (Hsig : ∀ s, selector_or_default s = selector_or_default selector →
    Signer env' dir domain s w2 = (Ok (Some key), tick w2)).
  { intros s E. unfold Signer. rewrite E. fold file. unfold mbind, OS_bind, mret, OS_ret.
    rewrite (ReadFile_saved _ _ _ _ Hr' Hs). by rewrite (decode_encode_key _ _ Ek). }
  split; [exists key; by rewrite Hsig|]. unfold TXTRecord, mbind, OS_bind, lift, mret, OS_ret.
  rewrite Hsig by apply selector_idemp. by rewrite Ep.
Qed.

(** ** Examples *)

Definition sample_keys (k : string) : KeyLib := {|
  Key := string;
  GenerateKey := Ok k;
  encode_key k := Ok ("PEM " +:+ k);
  decode_key s := if HasPrefix s "PEM " then Some (sskip "PEM " s) else None;
  public_key k := Ok ("public " +:+ k);
  dkim_Sign domain selector k fields msg := Ok ("DKIM-Signature: " +:+ domain +:+ CRLF +:+ msg);
|}.

Lemma sample_keys_ok k : @KeyLibOk (sample_keys k).
Proof. split. cbn. intros k' s [= <-]. done. Qed.

Definition key_home : World := MkWorld {[ ["dkim"; "old.example"; "default.pem"] := MkFile "PEM old" 0 ]} {[ [] ]} 0 0 None.

Lemma generate_spec_witness :
  ∃ rec w', Generate (H := sample_keys "new") calm ["dkim"] "new.example" "" key_home = (Ok rec, w') ∧
    rec.1 = "default._domainkey.new.example" ∧
    w_files w' !! ["dkim"; "old.example"; "default.pem"] = Some (MkFile "PEM old" 0) ∧
    (TXTRecord (H := sample_keys "new") calm ["dkim"] "new.example" "default" w').1 = Ok rec.
Proof.
  destruct (Generate (H := sample_keys "new") calm ["dkim"] "new.example" "" key_home) as [[rec|e] w'] eqn:E;
    [|vm_compute in E; discriminate E].
  destruct (generate_spec (H := sample_keys "new") (H0 := sample_keys_ok "new") calm calm ["dkim"] "new.example" "" key_home
    _ w' calm_reliable calm_reliable E) as (Hk&_&_&Ht).
  exists rec, w'. split; [reflexivity|]. split; [vm_compute in E; injection E as <- <-; reflexivity|].
  split; [apply Hk; reflexivity|exact Ht].
Defined.

(** When the first call fails for another reason than a missing file, an
    existing key is overwritten. *)
Definition fails_first : Env :=
  MkEnv (λ t, bool_decide (t = 0%nat)) (e_short calm) (e_clock calm) (e_rand calm) (e_pid calm) (e_hostname calm).

Example stat_failure_overwrites :
  let '(r, w') := Generate (H := sample_keys "new") fails_first ["dkim"] "old.example" "" key_home in
  is_ok r = true ∧ f_data <$> w_files w' !! ["dkim"; "old.example"; "default.pem"] = Some "PEM new".
Proof. vm_compute. done. Qed.
