(* ===== verification/Antispam.v ===== *)
(** * Antispam: the rules and the engine

    Models [internal/antispam/rules.go] and [internal/antispam/engine.go]:
    the heuristics over headers, body and attachments, and the verdict that
    adds up their points, the blacklisted links, the classifier's opinion
    and the scanner's.  The classifier, the scanner and the list of domains
    are the interfaces the engine has for them; the parser of address lists
    is a parameter.  Letters outside ASCII keep their case. *)

From S2P Require Import Prelude GoStrings GoNum GoMail GoRegexp.

Definition points : Z → f64 := f64_of_Z.

Record Rule := MkRule { Name : string; r_Score : f64 }.

Record Analysis := MkAnalysis {
  Rules : list Rule;
  URIDomains : list string;
  BadAttachment : string;
}.

Definition Total (a : Analysis) : f64 := foldl (λ t r, fadd t (r_Score r)) (points 0) (Rules a).
Definition Names (a : Analysis) : list string := Name <$> Rules a.

(** ** Expressions *)

Definition executableExtensions : list string :=
  [".exe"; ".scr"; ".pif"; ".com"; ".bat"; ".cmd"; ".vbs"; ".vbe"; ".js"; ".jse"; ".wsf"; ".wsh"; ".msi"; ".jar";
   ".lnk"; ".ps1"; ".hta"; ".cpl"; ".msc"; ".reg"].

Definition host_byte (c : ascii) : bool := is_digit c || Ascii.eqb c "." || Ascii.eqb c "-".

Definition reURL : re :=
  RSeq (RWord "http") (RSeq (ROpt (RFold "s")) (RSeq (RLit "://") (RGroup (RPlus (RLetters host_byte))))).

Definition reFilename : re :=
  RSeq (RAlt (RWord "filename") (RWord "name")) (RSeq (RStar blank_class) (RSeq (RByte "=") (RSeq (RStar blank_class)
    (RSeq (ROpt (RByte DQUOTE))
      (RSeq (RGroup (RPlus (RClass (λ c, negb (in_set (of_chars [DQUOTE; ";"%char; CR; LF]) c))))) (ROpt (RByte DQUOTE))))))).

Definition octet : re := let d := RClass is_digit in RSeq d (ROpt (RSeq d (ROpt d))).
Definition reIPLiteral : re :=
  RSeq (RLit "http") (RSeq (ROpt (RByte "s")) (RSeq (RLit "://")
    (RSeq octet (RSeq (RByte ".") (RSeq octet (RSeq (RByte ".") (RSeq octet (RSeq (RByte ".") octet)))))))).

Definition reManyExcl : re := RSeq (RLit "!!") (RPlus (RByte "!")).

Definition letter : re := RLetters (λ _, false).
Definition spaced (r : re) : re := RSeq letter (RSeq (RPlus blank_class) r).
Definition reObfuscated : re := RSeq RBoundary (spaced (spaced (spaced (spaced (RSeq letter RBoundary))))).

(** ** Heuristics *)

(** [filepath.Ext]: from the last dot of the last element. *)
Definition Ext (name : string) : string :=
  let base := slice_from name (LastIndexByte name "/" + 1) in
  let i := LastIndexByte base "." in
  if i <? 0 then "" else slice_from base i.

Fixpoint count_letters (s : string) (letters upper : Z) : Z * Z :=
  match s with
  | "" => (letters, upper)
  | String c s =>
      if is_lower c then count_letters s (letters + 1) upper
      else if is_upper c then count_letters s (letters + 1) (upper + 1)
      else count_letters s letters upper
  end.

Definition isShouty (s : string) : bool :=
  let '(letters, upper) := count_letters s 0 0 in
  (12 <=? letters) && fgt (fdiv (f64_of_Z upper) (f64_of_Z letters)) (fdiv (f64_of_Z 3) (f64_of_Z 4)).

(** A rule that applies or not. *)
Definition rule (b : bool) (name : string) (score : Z) : list Rule := if b then [MkRule name (points score)] else [].

Definition no_field (h : Header) (key : string) : bool := is_empty (Get h key).

Section rules.
Context (ParseAddressList : string → option (list Address)).

Definition spoofed (h : Header) : bool :=
  match AddressList ParseAddressList h "From" with
  | Some [a] => Contains (a_Name a) "@" && negb (EqualFold (a_Name a) (a_Address a))
  | _ => false
  end.

Definition header_rules (h : Header) : list Rule :=
  let subject := Get h "Subject" in
  rule (no_field h "Message-ID") "NO_MESSAGE_ID" 8 ++
  rule (no_field h "Date") "NO_DATE" 5 ++
  rule (no_field h "From") "NO_FROM" 12 ++
  rule (no_field h "To" && no_field h "Cc") "NO_RECIPIENT_HEADER" 6 ++
  rule (1 <? CountByte (Get h "From") "@") "MULTIPLE_FROM_ADDRESSES" 10 ++
  rule (spoofed h) "FROM_DISPLAY_NAME_SPOOF" 20 ++
  (if is_empty subject then [MkRule "NO_SUBJECT" (points 4)]
   else rule (isShouty subject) "SUBJECT_ALL_CAPS" 6 ++
        rule (MatchString reManyExcl subject) "SUBJECT_EXCESS_EXCLAMATION" 5).

Definition uri_domains (body : string) : list string :=
  (λ m, ToLower (TrimSuffix m ".")) <$> FindAllStringSubmatch reURL body.

Definition body_rules (body : string) (domains : list string) : list Rule :=
  rule (20 <? llen domains) "EXCESSIVE_LINKS" 6 ++
  rule (MatchString reIPLiteral body) "URL_IS_RAW_IP" 12 ++
  rule (MatchString reObfuscated body) "SPACED_OUT_TEXT" 8 ++
  rule ((0 <? slen body) && isShouty body) "BODY_ALL_CAPS" 5 ++
  rule ((0 <? llen domains) && (slen (TrimSpace (ToLower body)) <? 200)) "SHORT_BODY_WITH_LINK" 5.

(** The file names of attachments that may be executed. *)
Definition executable (name : string) : bool := mem (ToLower (Ext name)) executableExtensions.
Definition attachments (data : string) : list string :=
  filter (λ n, executable n = true) (TrimSpace <$> FindAllStringSubmatch reFilename data).

Definition attachment_rules (name : string) : list Rule :=
  MkRule "EXECUTABLE_ATTACHMENT" (points 50) ::
  rule (negb (is_empty (Ext (TrimSuffix name (Ext name))))) "DOUBLE_EXTENSION" 30.

Definition AnalyzeHeaders (data : string) : Analysis :=
  match ReadMessage data with
  | None => MkAnalysis [MkRule "MALFORMED_HEADERS" (points 15)] [] ""
  | Some h =>
      let body := bodyOf data in
      let domains := uri_domains body in
      MkAnalysis (header_rules h ++ body_rules body domains ++ (attachments data ≫= attachment_rules))
        domains (default "" (last (attachments data)))
  end.

(** ** The engine *)

Record Verdict := MkVerdict {
  v_Score : f64;
  v_Rules : list string;
  v_Virus : string;
  v_BadAttachment : string;
  v_Bayes : f64;
}.

Definition VerdictHeader (v : Verdict) (threshold : f64) : string :=
  "X-Spam-Status: " +:+ (if fge (v_Score v) threshold then "Yes" else "No") +:+ ", score=" +:+ fmt1 (v_Score v) +:+
  " required=" +:+ fmt1 threshold +:+
  (match v_Rules v with [] => "" | rs => " tests=" +:+ Join rs "," end) +:+ CRLF.

Context {W : Type}
  (Bayes : option (string → option f64))
  (URIBL : option (string → W → bool * W))
  (Scanner : option (string → W → result string * W))
  (BayesWeight : f64).

(** The distinct domains, asked for in order up to the first that is listed. *)
Fixpoint any_listed (ListedDomain : string → W → bool * W) (seen domains : list string) (w : W) : bool * W :=
  match domains with
  | [] => (false, w)
  | d :: domains =>
      if mem d seen then any_listed ListedDomain seen domains w else
      let '(b, w) := ListedDomain d w in
      if (b : bool) then (true, w) else any_listed ListedDomain (d :: seen) domains w
  end.

(** The points of the classifier: none for a neutral opinion. *)
Definition bayes_points (p : f64) : f64 :=
  let weight := if SFeqb BayesWeight (points 0) then points 60 else BayesWeight in
  fmul (fmul (fsub p (fdiv (points 1) (points 2))) (points 2)) weight.

Definition bayes_rule (p : f64) : list string :=
  if fge p (fdiv (points 9) (points 10)) then ["BAYES_99"]
  else if fge p (fdiv (points 7) (points 10)) then ["BAYES_80"]
  else if fle p (fdiv (points 1) (points 10)) then ["BAYES_00"] else [].

(** The last lines of [Check]. *)
Definition within (score : f64) : f64 :=
  let score := if flt score (points 0) then points 0 else score in
  if fgt score (points 100) then points 100 else score.

Definition add_uribl (a : Analysis) (w : W) : f64 * list string * W :=
  match URIBL with
  | None => (Total a, Names a, w)
  | Some f =>
      let '(b, w) := any_listed f [] (URIDomains a) w in
      if (b : bool) then (fadd (Total a) (points 25), Names a ++ ["URIBL_LISTED"], w) else (Total a, Names a, w)
  end.

Definition add_bayes (data : string) (score : f64) (names : list string) : f64 * list string * f64 :=
  match Bayes with
  | None => (score, names, points (-1))
  | Some f =>
      match f data with
      | None => (score, names, points (-1))
      | Some p => (fadd score (bayes_points p), names ++ bayes_rule p, p)
      end
  end.

Definition Check (data : string) (w : W) : Verdict * W :=
  let a := AnalyzeHeaders data in
  let '(score, names, w) := add_uribl a w in
  let '(score, names, p) := add_bayes data score names in
  match Scanner with
  | None => (MkVerdict (within score) names "" (BadAttachment a) p, w)
  | Some f =>
      let '(r, w) := f data w in
      match r with
      | Ok name =>
          if is_empty name then (MkVerdict (within score) names "" (BadAttachment a) p, w)
          else (MkVerdict (within (points 100)) (names ++ ["VIRUS_FOUND"]) name (BadAttachment a) p, w)
      | Err _ => (MkVerdict (within score) names "" (BadAttachment a) p, w)
      end
  end.
End rules.

(** ** Effects *)

(** The engine changes the world only through its list of domains and its
    scanner: a preorder they both respect is respected by the check. *)
Section effects.
Context (P : string → option (list Address)) {W : Type} (Bayes : option (string → option f64))
  (URIBL : option (string → W → bool * W)) (Scanner : option (string → W → result string * W)) (weight : f64).
Context (R : W → W → Prop) `{!PreOrder R}.

Lemma any_listed_effects f : (∀ d w, R w (f d w).2) → ∀ seen ds w, R w (any_listed f seen ds w).2.
Proof.
  intros Hf seen ds. revert seen. induction ds as [|d ds IH]; intros seen w; cbn [any_listed]; [done|].
  destruct (mem d seen); [apply IH|]. specialize (Hf d w). destruct (f d w) as [[] w']; [done|].
  etrans; [exact Hf|apply IH].
Qed.

Lemma Check_effects : (∀ f d w, URIBL = Some f → R w (f d w).2) → (∀ f s w, Scanner = Some f → R w (f s w).2) →
  ∀ data w, R w (Check P Bayes URIBL Scanner weight data w).2.
Proof.
  intros Hu Hs data w. unfold Check.
  assert (H1 : R w (add_uribl URIBL (AnalyzeHeaders P data) w).2).
  { unfold add_uribl. destruct URIBL as [f|]; [|done]. pose proof (any_listed_effects f (λ d w, Hu f d w eq_refl) []
      (URIDomains (AnalyzeHeaders P data)) w) as Ha. by destruct (any_listed _ _ _ _) as [[] ?]. }
  destruct (add_uribl _ _ _) as [[s n] w1]. cbn [snd] in H1. destruct (add_bayes _ _ _ _ _) as [[s' n'] p].
  destruct Scanner as [f|]; [|done]. specialize (Hs f data w1 eq_refl). destruct (f data w1) as [[name|e] w2].
  - destruct (is_empty name); (etrans; [exact H1|exact Hs]).
  - etrans; [exact H1|exact Hs].
Qed.
End effects.

(** ** Executable attachments *)

(** A name that can be the value of a parameter between quotes. *)
Definition name_byte (c : ascii) : bool := negb (in_set (of_chars [DQUOTE; ";"%char; CR; LF]) c).

Definition named_part (name post : string) : string :=
  "filename=" +:+ String DQUOTE (name +:+ String DQUOTE post).

Lemma last_byte_app p x y : last_byte p (x +:+ y) = last_byte (last_byte p x) y.
Proof. revert p. induction x as [|c x IH]; intros p; [done|]. rewrite sapp_cons. cbn. apply IH. Qed.

Lemma last_byte_all q p x : sall q x = true → x ≠ "" → ∃ c, last_byte p x = Some c ∧ q c = true.
Proof.
  revert p. induction x as [|c x IH]; [done|]. intros p [Hc Hx]%andb_true_iff _. cbn [last_byte].
  destruct x as [|d x]; [by exists c|]. by apply IH.
Qed.

(** The expression cannot begin to match before the parameter. *)
Lemma filename_here_only y name post z : avoids "=" y = true → y ≠ "" →
  match_here reFilename z (y +:+ named_part name post) = None.
Proof.
  intros Hy Hne. destruct (match_here _ _ _) as [v|] eqn:E; [exfalso|done].
  apply exec_lang in E as (x&p'&Hl&E&_). cbn [p_rest] in E.
  apply lang_seq in Hl as (w&r1&->&Hw&Hl). apply lang_seq in Hl as (b&r2&->&Hb&Hl).
  apply lang_seq in Hl as (e&r3&->&He&Hl). apply lang_class in He as (c&Hc%Ascii.eqb_eq&->). subst c.
  apply lang_star_class in Hb.
  assert (Hword : (String.length w <= 8)%nat ∧ sall (λ c, is_lower (lower_byte c)) w = true).
  { apply lang_alt in Hw as [Hw|Hw]; (apply lang_word in Hw as [Hlen Hw]; [|done|done]); rewrite Hlen; (split; [cbn; lia|done]). }
  destruct Hword as [Hlen Hw'].
  assert (Hcut : y +:+ "filename" = w +:+ b).
  { assert (E1 : cut_opt (y +:+ named_part name post) "=" = Some (y +:+ "filename", String DQUOTE (name +:+ String DQUOTE post))).
    { replace (y +:+ named_part name post) with ((y +:+ "filename") +:+ String "=" (String DQUOTE (name +:+ String DQUOTE post)))
        by (unfold named_part; by rewrite sapp_assoc).
      apply cut_opt_byte. apply avoids_app. by split. }
    rewrite E in E1. rewrite !sapp_assoc in E1. rewrite <- sapp_assoc in E1. change (String "=" "" +:+ r3 +:+ p_rest p')
      with (String "=" (r3 +:+ p_rest p')) in E1. rewrite cut_opt_byte in E1.
    - by injection E1 as ->.
    - apply avoids_app. split; eapply sall_impl; [|exact Hw'| |exact Hb]; intros d Hd; apply negb_true_iff, Ascii.eqb_neq; intros ->; done. }
  destruct b as [|c b].
  - rewrite sapp_nil_r in Hcut. rewrite <- Hcut, slength_app in Hlen. destruct y; [done|]. cbn in Hlen. lia.
  - assert (Hlast : last_byte None (y +:+ "filename") = Some "e"%char) by (by rewrite last_byte_app).
    rewrite Hcut, last_byte_app in Hlast. destruct (last_byte_all _ (last_byte None w) (String c b) Hb ltac:(done)) as (d&Hd&Hd').
    rewrite Hlast in Hd. injection Hd as <-. done.
Qed.

Lemma filename_here name post z : name ≠ "" → sall name_byte name = true →
  match_here reFilename z (named_part name post) = Some (post, name).
Proof.
  intros Hne Hn. unfold match_here, reFilename, named_part.
  assert (Hgroup : ∀ prev g, exec (RSeq (RGroup (RPlus (RClass name_byte))) (ROpt (RByte DQUOTE)))
    (MkPos prev (name +:+ String DQUOTE post) g) (λ p, Some (p_rest p, p_group p)) = Some (post, name)).
  { intros prev g. change (exec (RPlus (RClass name_byte)) (MkPos prev (name +:+ String DQUOTE post) g)
      (λ p', exec (ROpt (RByte DQUOTE)) (MkPos (p_prev p') (p_rest p') (before (name +:+ String DQUOTE post) (p_rest p')))
        (λ p, Some (p_rest p, p_group p))) = Some (post, name)).
    apply exec_plus_class; [done|done|done|]. cbn [p_prev p_rest exec]. cbn [RByte exec p_rest p_group p_prev].
    cbv beta iota. change (exec (RByte DQUOTE) ?p ?k) with (k (MkPos (Some DQUOTE) post (p_group p))). cbn [p_rest p_group].
    unfold before. rewrite slength_app, Nat.add_sub. do 2 f_equal. apply stake_app. }
  change (exec (RSeq (RAlt (RWord "filename") (RWord "name")) ?r) ?p ?k)
    with (exec (RAlt (RWord "filename") (RWord "name")) p (λ y, exec r y k)).
  apply exec_alt_l. change ("filename=" +:+ String DQUOTE (name +:+ String DQUOTE post)) with
    ("filename" +:+ String "=" (String DQUOTE (name +:+ String DQUOTE post))).
  change (exec (RWord "filename") (MkPos z ("filename" +:+ ?r) "") ?k) with (k (MkPos (Some "e"%char) r "")). cbv beta.
  change (exec (RSeq ?a ?b) ?p ?k) with (exec a p (λ y, exec b y k)). unfold blank_class. rewrite exec_star_none by done.
  change (exec (RSeq (RByte "=") ?b) (MkPos ?z (String "=" ?r) ?g) ?k) with (exec b (MkPos (Some "="%char) r g) k).
  change (exec (RSeq ?a ?b) ?p ?k) with (exec a p (λ y, exec b y k)). rewrite exec_star_none by done.
  change (exec (RSeq (ROpt ?a) ?b) ?p ?k) with (exec (ROpt a) p (λ y, exec b y k)). apply exec_opt. apply Hgroup.
Qed.

(** an attachment whose name has a refused extension is found wherever its
    [filename="..."] stands in a readable message, as long as no equals
    sign comes before it, whatever else the message holds: its rule fires,
    and a refused attachment is reported. *)
Theorem executable_flagged P pre name post h : let data := pre +:+ named_part name post in
  ReadMessage data = Some h → avoids "=" pre = true → name ≠ "" → sall name_byte name = true →
  executable (TrimSpace name) = true →
  "EXECUTABLE_ATTACHMENT" ∈ Names (AnalyzeHeaders P data) ∧ executable (BadAttachment (AnalyzeHeaders P data)) = true.
Proof.
  intros data Hm Hpre Hne Hn Hx. unfold AnalyzeHeaders. rewrite Hm. cbn [Names Rules BadAttachment].
  assert (Hin : TrimSpace name ∈ attachments data).
  { unfold attachments. apply list_elem_of_filter. split; [done|]. apply list_elem_of_fmap. exists name. split; [done|].
    unfold FindAllStringSubmatch, data. apply (find_all_skip _ name post); [|by intros; apply filename_here|lia].
    intros x y z -> Hy. apply filename_here_only; [|done]. by apply avoids_app in Hpre as [_ ?]. }
  split.
  - unfold Names. cbn [Rules]. rewrite !fmap_app, !elem_of_app. right. right.
    apply list_elem_of_fmap. exists (MkRule "EXECUTABLE_ATTACHMENT" (points 50)). split; [done|].
    apply list_elem_of_bind. exists (TrimSpace name). split; [|done]. left.
  - destruct (last (attachments data)) as [n|] eqn:El.
    + cbn. apply last_Some_elem_of in El. unfold attachments in El. by apply list_elem_of_filter in El as [? _].
    + apply last_None in El. rewrite El in Hin. by apply elem_of_nil in Hin.
Qed.

(** ** The verdict *)

Lemma within_range x : is_num x = true → fle (points 0) (within x) = true ∧ fle (within x) (points 100) = true.
Proof.
  intros Hx. unfold within, fgt. destruct (flt x (points 0)) eqn:E0; [by vm_compute|].
  destruct (flt (points 100) x) eqn:E1; [by vm_compute|]. split.
  - by apply flt_total.
  - by apply flt_total.
Qed.

(** The points of every rule are a finite number. *)
Definition sane (rs : list Rule) : Prop := Forall (λ r, is_finite (r_Score r) = true) rs.

Lemma sane_rule b n z : is_finite (points z) = true → sane (rule b n z).
Proof. intros Hz. destruct b; [|constructor]. by repeat constructor. Qed.

Lemma analysis_sane P data : sane (Rules (AnalyzeHeaders P data)).
Proof.
  unfold AnalyzeHeaders. destruct (ReadMessage data) as [h|]; [|by repeat constructor]. cbn [Rules]. unfold sane.
  rewrite !Forall_app. split_and!.
  - unfold header_rules. rewrite !Forall_app. split_and!; try (by apply sane_rule).
    destruct (is_empty _); [by repeat constructor|]. rewrite Forall_app. split; by apply sane_rule.
  - unfold body_rules. rewrite !Forall_app. split_and!; by apply sane_rule.
  - apply Forall_forall. intros r (n&Hr&_)%list_elem_of_bind. revert r Hr. apply Forall_forall.
    unfold attachment_rules. constructor; [done|]. by apply sane_rule.
Qed.

Lemma total_num rs : ∀ x, sane rs → is_num x = true → is_num (foldl (λ t r, fadd t (r_Score r)) x rs) = true.
Proof.
  induction rs as [|r rs IH]; intros x Hs Hx; [done|]. apply Forall_cons in Hs as [Hr Hs]. cbn [foldl].
  apply IH; [done|]. by apply fadd_num.
Qed.

Section verdict.
Context (P : string → option (list Address)) {W : Type} (Bayes : option (string → option f64))
  (URIBL : option (string → W → bool * W)) (Scanner : option (string → W → result string * W)) (BayesWeight : f64).

(** What the classifier adds is a number. *)
Definition bayes_sane : Prop := ∀ f p data, Bayes = Some f → f data = Some p → is_finite (bayes_points BayesWeight p) = true.

Lemma add_uribl_num data w : let '(score, _, _) := add_uribl URIBL (AnalyzeHeaders P data) w in is_num score = true.
Proof.
  assert (Ht : is_num (Total (AnalyzeHeaders P data)) = true) by (apply total_num; [apply analysis_sane|done]).
  unfold add_uribl. destruct URIBL as [f|]; [|done]. destruct (any_listed _ _ _ _) as [[] w']; [|done]. by apply fadd_num.
Qed.

(** C39: the score of every message lies between 0 and 100 when the classifier's
    points are finite; malware the scanner finds gives the full score
    whatever else was found, and is named; without a hit the verdict names
    no malware.  A scanner that fails counts as no hit, whatever
    [antivirus.reject_on_error] says: the setting, which is to defer the
    message, reaches neither the engine nor the session. *)
Theorem verdict_spec data w : bayes_sane →
  let '(v, w') := Check P Bayes URIBL Scanner BayesWeight data w in
  fle (points 0) (v_Score v) = true ∧ fle (v_Score v) (points 100) = true ∧
  v_BadAttachment v = BadAttachment (AnalyzeHeaders P data) ∧
  match Scanner with
  | None => v_Virus v = ""
  | Some scan =>
      match (scan data (add_uribl URIBL (AnalyzeHeaders P data) w).2).1 with
      | Ok name => v_Virus v = name ∧ (name ≠ "" → v_Score v = points 100 ∧ "VIRUS_FOUND" ∈ v_Rules v)
      | Err _ => v_Virus v = ""
      end
  end.
Proof.
  intros Hb. unfold Check. pose proof (add_uribl_num data w) as Hu.
  destruct (add_uribl URIBL (AnalyzeHeaders P data) w) as [[score names] w1].
  assert (Hs : let '(score, _, _) := add_bayes Bayes BayesWeight data score names in is_num score = true).
  { unfold add_bayes. destruct Bayes as [f|] eqn:Ef; [|done]. destruct (f data) as [p|] eqn:Ep; [|done].
    apply fadd_num; [done|]. by eapply Hb. }
  destruct (add_bayes Bayes BayesWeight data score names) as [[score' names'] p].
  destruct (within_range score' Hs) as [H0 H100]. destruct Scanner as [scan|]; [|done]. cbn [snd].
  destruct (scan data w1) as [[name|e] w2]; [|done]. cbn [fst].
  destruct (is_empty name) eqn:En; [destruct name; done|]. split_and!; [by vm_compute|by vm_compute|done|done|].
  intros _. split; [by vm_compute|]. cbn. apply elem_of_app. right. by left.
Qed.
End verdict.

(** ** Examples *)

Definition sample_list (s : string) : option (list Address) := Some [MkAddress "servizio@banca.it" "ladro@evil.tld"].

Definition mail_of (header body : string) : string :=
  "From: a@b.it" +:+ CRLF +:+ "Message-ID: <1@b.it>" +:+ CRLF +:+ "Date: x" +:+ CRLF +:+ "To: c@d.it" +:+ CRLF +:+
  header +:+ CRLF +:+ CRLF +:+ body.

Example rules_fire :
  Names (AnalyzeHeaders (λ _, None) (mail_of "Subject: s" "visit http://192.0.2.1/login now")) =
    ["URL_IS_RAW_IP"; "SHORT_BODY_WITH_LINK"] ∧
  Names (AnalyzeHeaders (λ _, None) (mail_of "Subject: URGENT ACTION REQUIRED NOW!!!!" "body")) =
    ["SUBJECT_ALL_CAPS"; "SUBJECT_EXCESS_EXCLAMATION"] ∧
  Names (AnalyzeHeaders sample_list (mail_of "Subject: s" "so f r e e  x y")) =
    ["FROM_DISPLAY_NAME_SPOOF"; "SPACED_OUT_TEXT"] ∧
  URIDomains (AnalyzeHeaders (λ _, None) (mail_of "Subject: s" "https://Esempio.TLD/path e http://altro.tld.?x=1"))
    = ["esempio.tld"; "altro.tld"].
Proof. vm_compute. repeat split. Qed.

Definition attached (params : string) : string := mail_of "Subject: s" ("Content-Disposition: attachment; " +:+ params).

(** Names in the extended form, encoded names and names after a parameter
    that swallows the quote are not seen. *)
Example unseen_attachments :
  (λ p, BadAttachment (AnalyzeHeaders (λ _, None) (attached p))) <$>
    ["filename=" +:+ String DQUOTE ("fattura.pdf.exe" +:+ String DQUOTE ""); "filename*=UTF-8''fattura.exe";
     "filename=" +:+ String DQUOTE ("=?UTF-8?Q?fattura=2Eexe?=" +:+ String DQUOTE "");
     "name=filename=" +:+ String DQUOTE ("fattura.exe" +:+ String DQUOTE "")]
  = ["fattura.pdf.exe"; ""; ""; ""].
Proof. vm_compute. reflexivity. Qed.

Example spam_header :
  VerdictHeader (MkVerdict (fdiv (points 25) (points 2)) ["NO_MESSAGE_ID"; "BAYES_80"] "" "" (points 0)) (points 5) =
  "X-Spam-Status: Yes, score=12.5 required=5.0 tests=NO_MESSAGE_ID,BAYES_80" +:+ CRLF.
Proof. vm_compute. reflexivity. Qed.

Example one_decimal : fmt1 <$> [fdiv (points 1) (points 4); fdiv (points 3) (points 4); fdiv (points (-1)) (points 20); points 1000]
  = ["0.2"; "0.8"; "-0.1"; "1000.0"].
Proof. vm_compute. reflexivity. Qed.

Lemma executable_flagged_witness :
  "EXECUTABLE_ATTACHMENT" ∈ Names (AnalyzeHeaders (λ _, None)
    ("Subject: x" +:+ CRLF +:+ CRLF +:+ "attachment; " +:+ named_part "fattura.pdf.EXE" "; size=3")).
Proof.
  destruct (ReadMessage (("Subject: x" +:+ CRLF +:+ CRLF +:+ "attachment; ") +:+ named_part "fattura.pdf.EXE" "; size=3"))
    as [h|] eqn:E; [|vm_compute in E; discriminate E].
  exact (proj1 (executable_flagged (λ _, None) ("Subject: x" +:+ CRLF +:+ CRLF +:+ "attachment; ") "fattura.pdf.EXE" "; size=3" h
    E eq_refl ltac:(discriminate) eq_refl eq_refl)).
Defined.

(** A scanner that finds a test pattern. *)
Definition eicar (data : string) (n : nat) : result string * nat :=
  (Ok (if Contains data "EICAR" then "Eicar-Test-Signature" else ""), S n).

Lemma verdict_spec_witness :
  let '(v, _) := Check (λ _, None) (Some (λ _, Some (fdiv (points 1) (points 2)))) None (Some eicar) (points 0)
    (mail_of "Subject: s" "EICAR") 0%nat in
  fle (v_Score v) (points 100) = true ∧ v_Virus v = "Eicar-Test-Signature".
Proof.
  pose proof (verdict_spec (λ _, None) (Some (λ _, Some (fdiv (points 1) (points 2)))) None (Some eicar) (points 0)
    (mail_of "Subject: s" "EICAR") 0%nat) as H.
  assert (Hb : bayes_sane (Some (λ _, Some (fdiv (points 1) (points 2)))) (points 0)).
  { intros f p data [= <-] [= <-]. vm_compute. reflexivity. }
  specialize (H Hb).
  destruct (Check (λ _, None) (Some (λ _, Some (fdiv (points 1) (points 2)))) None (Some eicar) (points 0)
    (mail_of "Subject: s" "EICAR") 0%nat) as [v w] eqn:E.
  destruct H as (_&H100&_). split; [exact H100|]. apply (f_equal fst) in E. vm_compute in E. rewrite <- E. reflexivity.
Defined.
