(* ===== verification/Daemon.v ===== *)
(** * The daemon

    Models the closures of [runDaemon] in [cmd/kavira/main.go]: the backend
    that ties the SMTP server to the configuration, the mailboxes, the
    queue, the authenticator, the screening of messages, the reputation of
    senders and the DKIM keys, and the authentication of the mail access
    protocols.  What lies outside the program is one class; the current
    configuration is read at every use from an arbitrary sequence, so it
    may be reloaded at any time. *)

From S2P Require Import Prelude GoStrings GoUtf8 GoNum GoNet GoMail Session Container Config Storage Queue Fs Maildir Auth MailAuth Reputation Blacklist Bayes Antispam Antivirus Dkim Smtp.

(** The machine and the world around it: the outcomes of system calls,
    the clock, the random numbers, the configuration at a load, the
    libraries of mail authentication, the resolver, clamd, the accounts of
    the host, and the two password hash functions. *)
Class Host := {
  h_env : Env;
  h_io : nat → QueueIO;
  h_clock : nat → Z;
  h_rand : nat → Z;
  h_config : nat → Config;
  h_auth : nat → AuthLib;
  h_LookupHost : Z → string → option (list string);
  h_clamd : nat → Clamd;
  h_linux : bool;
  h_user_Lookup : string → option (string * string);
  h_argon2 : string → string → Z → Z → Z → Z → string;
  h_bcrypt : string → string → bool;
  h_date : Z → string;
}.

(** [antispam.Engine]: the classifier, and whether the scanner and the
    blacklists take part. *)
Record Engine := MkEngine { en_Bayes : Bayes; en_Scanner : bool; en_URIBL : bool }.

(** What [runDaemon] builds once; [None] is a nil pointer. *)
Record Daemon := MkDaemon {
  d_ticks : nat;
  d_fs : World;
  d_queue : Queue.Queue;
  d_guard : Guard;
  d_bl : option Checker;
  d_engine : option Engine;
  d_rep : option Reputation.Store;
  d_keys : path;
}.

Abbreviation D := (St Daemon).

Section daemon.
Context `{Host} `{KeyLib} `{Unicode} `{MathLib} `{SliceSort}.

(** ** State access *)

Definition tick : D nat := λ d,
  (d_ticks d, MkDaemon (S (d_ticks d)) (d_fs d) (d_queue d) (d_guard d) (d_bl d) (d_engine d) (d_rep d) (d_keys d)).
Definition now : D Z := t ← tick; mret (h_clock t).
Definition mgr_Get : D Config := t ← tick; mret (h_config t).

Definition state {A} (f : Daemon → A * Daemon) : D A := f.
Definition get {A} (f : Daemon → A) : D A := λ d, (f d, d).
Definition set_fs (w : World) (d : Daemon) : Daemon :=
  MkDaemon (d_ticks d) w (d_queue d) (d_guard d) (d_bl d) (d_engine d) (d_rep d) (d_keys d).
Definition set_queue (q : Queue.Queue) (d : Daemon) : Daemon :=
  MkDaemon (d_ticks d) (d_fs d) q (d_guard d) (d_bl d) (d_engine d) (d_rep d) (d_keys d).
Definition set_guard (g : Guard) (d : Daemon) : Daemon :=
  MkDaemon (d_ticks d) (d_fs d) (d_queue d) g (d_bl d) (d_engine d) (d_rep d) (d_keys d).
Definition set_bl (c : Checker) (d : Daemon) : Daemon :=
  MkDaemon (d_ticks d) (d_fs d) (d_queue d) (d_guard d) (Some c) (d_engine d) (d_rep d) (d_keys d).
Definition set_rep (r : Reputation.Store) (d : Daemon) : Daemon :=
  MkDaemon (d_ticks d) (d_fs d) (d_queue d) (d_guard d) (d_bl d) (d_engine d) (Some r) (d_keys d).

(** A call on the file system. *)
Definition in_fs {A} (m : OS A) : D (result A) := λ d,
  let '(r, w) := m (d_fs d) in (r, set_fs w d).

(** ** Mailboxes *)

(** The place of a mailbox directory, and the folder of quarantined mail
    in it. *)
Definition place (dir : string) : path := path_join [] dir.
Definition box (mb : Storage.Mailbox) (spam : bool) : path :=
  if spam then path_join (place (Dir mb)) ".Spam" else place (Dir mb).

Definition Resolve_now (cfg : Config) (email : string) : option Storage.Mailbox :=
  Resolve h_linux h_user_Lookup cfg email.

Definition be_deliver (mb : Storage.Mailbox) (from : string) (spam : bool) (msg : string) : D (option string) :=
  r ← in_fs (Maildir.Deliver h_env (box mb spam) ("Return-Path: <" +:+ from +:+ ">" +:+ CRLF +:+ msg));
  mret (match r with Ok _ => None | Err _ => Some "maildir" end).

Definition be_postmaster (cfg : Config) : string :=
  match c_Domains cfg with
  | d :: _ => "postmaster@" +:+ d_Name d
  | [] => ""
  end.

(** ** Accounts and the queue *)

Definition check_password : string → string → bool := VerifyPassword h_argon2 h_bcrypt.

(** [authr.Verify]; the delay before the answer is not state. *)
Definition be_auth (email password ip : string) : D (option auth_error) :=
  cfg ← mgr_Get;
  t ← get d_ticks;
  g ← get d_guard;
  let v := Verify (PasswordHashFor cfg) check_password g (λ n, h_clock (t + n)%nat) email password ip in
  tick;; tick;; tick;; tick;;
  state (λ d, (v_err v, set_guard (v_guard v) d)).

Definition be_enqueue (from rcpt data : string) : D (option string) :=
  t ← tick;
  state (λ d,
    let '(q, err) := Queue.Enqueue (h_io t) (d_queue d) from rcpt data (h_clock t) (h_rand t) in
    (match err with None => None | Some _ => Some "queue" end, set_queue q d)).

(** [accessAuth]: what IMAP and POP3 ask. *)
Definition access_auth (email password ip : string) : D (result path) :=
  err ← be_auth email password ip;
  match err with
  | Some _ => mret (Err (EMsg "authentication"))
  | None =>
      cfg ← mgr_Get;
      match Resolve_now cfg (ToLower email) with
      | None => mret (Err (EMsg ("no mailbox for " +:+ email)))
      | Some mb => mret (Ok (place (Dir mb)))
      end
  end.

(** ** Screening *)

Definition listed_ip (ip : string) : D (bool * list string) :=
  bl ← get d_bl;
  match bl with
  | None => mret (false, [])
  | Some c =>
      t ← now; t' ← now;
      let '(l, zones, c) := ListedIP h_LookupHost c ip t t' in
      state (λ d, ((l, zones), set_bl c d))
  end.

Definition listed_domain (domain : string) : D bool :=
  bl ← get d_bl;
  match bl with
  | None => mret false
  | Some c =>
      t ← now; t' ← now;
      let '(l, c) := ListedDomain h_LookupHost c domain t t' in
      state (λ d, (l, set_bl c d))
  end.

Definition scan (data : string) : D (result string) :=
  t ← tick; mret (Antivirus.Scan (h_clamd t) data).

(** [spamEngine.Check] *)
Definition spam_check (en : Engine) (data : string) : D Antispam.Verdict :=
  t ← tick;
  Antispam.Check (@ParseAddressList (h_auth t))
    (Some (Bayes.Score (en_Bayes en)))
    (if en_URIBL en then Some listed_domain else None)
    (if en_Scanner en then Some scan else None) (f64_of_Z 0) data.

Definition action_of (a : MailAuth.Action) : ScreenAction :=
  match a with Accept => ScreenAccept | Quarantine => ScreenQuarantine | Reject => ScreenReject end.

(** The stage of SPF, DKIM and DMARC. *)
Definition screen_auth (cfg : Config) (ip helo from data : string) : D ScreenResult :=
  if MailAuth_IsEnabled (c_MailAuth cfg) then
    t ← tick;
    let r := @MailAuth.Check (h_auth t) (Config.Hostname (c_Server cfg)) (MailAuth_IsEnforced (c_MailAuth cfg))
               (ParseIP ip) helo from data in
    mret (MkScreenResult (action_of (MailAuth.res_Action r)) (MailAuth.res_Reason r) (MailAuth.res_AuthResults r) "")
  else mret (MkScreenResult ScreenAccept "" "" "").

Definition refuse (out : ScreenResult) (reason : string) : ScreenResult :=
  MkScreenResult ScreenReject reason (sr_AuthResults out) (sr_SpamHeader out).

(** What a verdict of the engine makes of a message. *)
Definition apply_verdict (cfg : Config) (out : ScreenResult) (v : Antispam.Verdict) : ScreenResult :=
  let a := c_Antispam cfg in
  let out := MkScreenResult (sr_Action out) (sr_Reason out) (sr_AuthResults out) (VerdictHeader v (TagScore a)) in
  if negb (is_empty (v_Virus v)) then refuse out ("message contains " +:+ v_Virus v)
  else if negb (is_empty (v_BadAttachment v)) && RejectsExecutables a then
    refuse out ("executable attachment refused: " +:+ v_BadAttachment v)
  else if fge (v_Score v) (RejectScore a) then refuse out ("message rejected, spam score " +:+ fmt1 (v_Score v))
  else if fge (v_Score v) (QuarantineScore a) then
    MkScreenResult ScreenQuarantine
      (if is_empty (sr_Reason out) then "spam score " +:+ fmt1 (v_Score v) else sr_Reason out)
      (sr_AuthResults out) (sr_SpamHeader out)
  else out.

(** The stage of the blacklists, when they are to be enforced. *)
Definition screen_listed (cfg : Config) (ip : string) : D (bool * list string) :=
  bl ← get d_bl;
  if match bl with Some _ => RejectListed (c_Blacklist cfg) | None => false end
  then listed_ip ip else mret (false, []).

Definition be_screen (ip helo from data : string) : D ScreenResult :=
  cfg ← mgr_Get;
  out ← screen_auth cfg ip helo from data;
  match sr_Action out with
  | ScreenReject => mret out
  | _ =>
      l ← screen_listed cfg ip;
      if (l.1 : bool) then mret (refuse out ("your IP is listed on " +:+ Join l.2 ", ")) else
      en ← get d_engine;
      match en with
      | None => mret out
      | Some en => v ← spam_check en data; mret (apply_verdict cfg out v)
      end
  end.

(** ** Reputation *)

Definition warmUp (cfg : Config) : Reputation.WarmUp :=
  let w := rep_WarmUp (c_Reputation cfg) in
  Reputation.MkWarmUp (wu_Enabled w) (Config.Day1 w) (Config.Day7 w) (FullPerDay w).

Definition rep_blocked (s : Reputation.Store) (key : string) : D (bool * Reputation.Store) :=
  t ← now; mret (Reputation.Blocked s key t).

Definition be_may_send (user domain : string) : D (bool * string) :=
  rep ← get d_rep;
  match rep with
  | None => mret (true, "")
  | Some s =>
      b ← rep_blocked s ("user:" +:+ user);
      let '(blocked, s) := b in
      if (blocked : bool) then
        state (λ d, ((false, "sending temporarily suspended, contact your administrator"), set_rep s d))
      else
        b ← rep_blocked s ("domain:" +:+ domain);
        let '(blocked, s) := b in
        if (blocked : bool) then state (λ d, ((false, "domain sending temporarily suspended"), set_rep s d))
        else
          cfg ← mgr_Get; t ← now; t' ← now;
          let '(ok, limit, s) := AllowSend s ("domain:" +:+ domain) (warmUp cfg) t t' in
          state (λ d, (if (ok : bool) then (true, "")
                       else (false, "daily sending limit reached (" +:+ dec limit +:+ "), try again tomorrow"), set_rep s d))
  end.

(** An event for a subject, when reputation is kept. *)
Definition record_event (key : string) (e : Event) : D unit :=
  t ← now; t' ← now;
  state (λ d, (tt, match d_rep d with
                    | None => d
                    | Some s => set_rep (RecordEvent s key e t t').2 d
                    end)).

Definition be_sent (user domain : string) : D unit :=
  record_event ("user:" +:+ user) EventDelivered;;
  record_event ("domain:" +:+ domain) EventDelivered.

(** ** Signing *)

Definition be_sign (fromDomain msg : string) : D (result string) :=
  cfg ← mgr_Get;
  keys ← get d_keys;
  let sel := DKIMSelectorFor cfg fromDomain in
  signer ← in_fs (Signer h_env keys fromDomain sel);
  match signer with
  | Ok (Some key) => mret (Dkim.Sign msg fromDomain sel key)
  | _ => mret (Ok msg)
  end.

(** ** The backend, and bounces *)

Definition backend : Smtp.Backend Daemon := {|
  IsLocalDomain domain := cfg ← mgr_Get; mret (HasDomain cfg domain);
  be_Lookup email := cfg ← mgr_Get; mret (Resolve_now cfg email);
  be_Deliver mb from spam msg := be_deliver mb from spam msg;
  Postmaster := cfg ← mgr_Get; mret (be_postmaster cfg);
  Authenticate := Some be_auth;
  be_Enqueue from rcpt data := be_enqueue from rcpt data;
  Smtp.Screen := Some be_screen;
  Smtp.Sign := Some be_sign;
  MaySend := Some be_may_send;
  Sent := Some (λ user domain d, (be_sent user domain d).2);
|}.

(** What [bounceFn] records of the sender. *)
Definition bounce_recorded (e : Envelope) : D unit :=
  if negb (is_empty (From e)) then
    record_event ("user:" +:+ From e) EventBounce;;
    match Storage.Split (From e) with
    | Some (_, domain) => record_event ("domain:" +:+ domain) EventBounce
    | None => mret tt
    end
  else mret tt.

(** [bounceFn]: the notice to the sender of an envelope that was given up. *)
Definition bounce (e : Envelope) (reason : string) : D unit :=
  bounce_recorded e;;
  cfg ← mgr_Get;
  t ← now;
  match BuildBounce (Config.Hostname (c_Server cfg)) e reason (h_date t) with
  | None => mret tt
  | Some data =>
      cfg ← mgr_Get;
      match Resolve_now cfg (From e) with
      | None => mret tt
      | Some mb =>
          in_fs (Maildir.Deliver h_env (place (Dir mb)) ("Return-Path: <>" +:+ CRLF +:+ data));;
          mret tt
      end
  end.
End daemon.
