(* ===== verification/DaemonSafety.v ===== *)
(** * The daemon: what its ports do to the machine

    The SMTP session of [SmtpSession] run against the backend of [Daemon]:
    what a session, whatever its client sends, does to the files of the
    machine, to the outbound queue and to the record of failed logins; and
    what the two steps that decide about a message and about a login
    amount to. *)

From S2P Require Import Prelude GoStrings GoUtf8 GoNum GoNet GoMail GoIO RateLimit Stats Session Container Config Storage Queue Fs Maildir Auth MailAuth Reputation Blacklist Bayes Antispam Antivirus Dkim Smtp SmtpSession SmtpSafety SmtpWorld Daemon.

Section daemon.
Context {HO : Host} {KL : KeyLib} {UC : Unicode} {ML : MathLib} {SS : SliceSort}.

(** ** Operations that leave mail alone *)

(** Two states with the same files, queue and record of failed logins. *)
Record alike (d d' : Daemon) : Prop := {
  al_files : w_files (d_fs d') = w_files (d_fs d);
  al_host : w_host (d_fs d') = w_host (d_fs d);
  al_queue : d_queue d' = d_queue d;
  al_guard : d_guard d' = d_guard d;
}.

#[local] Instance alike_preorder : PreOrder alike.
Proof.
  split; [by intros d; split|].
  intros a b c [H1 H2 H3 H4] [H5 H6 H7 H8]. split; etrans; eassumption.
Qed.

Definition aside {A} (m : D A) : Prop := ∀ d, alike d (m d).2.

Lemma aside_ret {A} (a : A) : aside (mret a).
Proof. by intros d. Qed.

Lemma aside_bind {A B} (m : D A) (f : A → D B) : aside m → (∀ a, aside (f a)) → aside (m ≫= f).
Proof.
  intros Hm Hf d. unfold mbind, St_bind. specialize (Hm d). destruct (m d) as [a d']. etrans; [exact Hm|apply Hf].
Qed.

Lemma aside_state {A} (f : Daemon → A * Daemon) : (∀ d, alike d (f d).2) → aside (state f).
Proof. done. Qed.

Lemma aside_get {A} (f : Daemon → A) : aside (get f). Proof. by intros d. Qed.
Lemma aside_tick : aside tick. Proof. by intros d. Qed.
Lemma aside_now : aside now. Proof. by intros d. Qed.
Lemma aside_mgr_Get : aside mgr_Get. Proof. by intros d. Qed.
Hint Resolve aside_ret aside_get aside_tick aside_now aside_mgr_Get : core.

Ltac aside_step :=
  lazymatch goal with
  | |- aside (mbind _ _) => apply aside_bind; [|intros ?]
  | |- aside (let '(_, _) := ?x in _) => destruct x
  | |- aside (if ?b then _ else _) => destruct b
  | |- aside (match ?x with _ => _ end) => destruct x eqn:?
  | |- aside (state _) => apply aside_state; intros ?; cbn [snd]; by repeat case_match
  | |- aside _ => solve [auto]
  end.
Ltac aside := repeat aside_step.

Lemma aside_listed_ip i : aside (listed_ip i).
Proof. unfold listed_ip. aside. Qed.
Lemma aside_listed_domain d : aside (listed_domain d).
Proof. unfold listed_domain. aside. Qed.
Lemma aside_scan s : aside (scan s).
Proof. unfold scan. aside. Qed.
Lemma aside_spam_check en data : aside (spam_check en data).
Proof.
  unfold spam_check. aside. intros d. apply Check_effects; [apply alike_preorder|..]; intros f s w; [destruct (en_URIBL en)|destruct (en_Scanner en)]; intros [= <-];
    [apply aside_listed_domain|apply aside_scan].
Qed.
Lemma aside_screen_auth cfg i h f data : aside (screen_auth cfg i h f data).
Proof. unfold screen_auth. aside. Qed.
Lemma aside_screen_listed cfg i : aside (screen_listed cfg i).
Proof. unfold screen_listed. aside. apply aside_listed_ip. Qed.
Hint Resolve aside_screen_listed aside_spam_check aside_screen_auth : core.

Lemma aside_be_screen i h f data : aside (be_screen i h f data).
Proof. unfold be_screen. aside. Qed.
Lemma aside_rep_blocked s k : aside (rep_blocked s k).
Proof. unfold rep_blocked. aside. Qed.
Hint Resolve aside_rep_blocked : core.
Lemma aside_be_may_send u dom : aside (be_may_send u dom).
Proof. unfold be_may_send. aside. Qed.
Lemma aside_be_sent u dom : aside (be_sent u dom).
Proof. unfold be_sent, record_event. aside. Qed.

Lemma aside_be_sign dom msg : aside (be_sign dom msg).
Proof.
  unfold be_sign, in_fs. aside. intros d. destruct (Signer h_env _ _ _ (d_fs d)) as [r w'] eqn:E. cbn [snd].
  apply Signer_files in E as [Hf Hh]. by split.
Qed.

(** ** What the events of a session do to the machine *)

(** A file of a maildir: one that is being written, or one delivered. *)
Definition mail_file (dir p : Fs.path) : Prop :=
  ∃ sub name, (sub = "tmp" ∨ sub = "new") ∧ plain name ∧ p = dir ++ [sub; name].

(** The credentials of an account of a configuration. *)
Definition valid_login (cfg : Config) (user pass : string) : Prop :=
  valid_credentials (PasswordHashFor cfg) check_password user pass = true.

(** The changes that the events [l] may have made between two states. *)
Record accounted (w0 : Daemon) (l : list event) (w : Daemon) : Prop := {
  ac_host : host_ok (d_fs w);
  ac_files p : w_files (d_fs w) !! p = w_files (d_fs w0) !! p ∨
    ∃ mb f spam msg err, EvDeliver mb f spam msg err ∈ l ∧ mail_file (box mb spam) p;
  ac_queue n : Queue.entries (d_queue w) !! n = Queue.entries (d_queue w0) !! n ∨
    ∃ e f rcpt msg, EvEnqueue f rcpt msg None ∈ l ∧ Queue.entries (d_queue w) !! n = Some (QEnvelope e) ∧
      From e = ToLower f ∧ Rcpt e = ToLower rcpt ∧ Data e = msg;
  ac_guard : d_guard w = d_guard w0 ∨ ∃ user pass t err, EvAuth user pass t err ∈ l;
  ac_login user pass t : EvAuth user pass t None ∈ l → ∃ k, valid_login (h_config k) user pass;
}.

(** The state and the log may be looked at apart. *)
Lemma accounted_alike w0 l w w' : accounted w0 l w → alike w w' → accounted w0 l w'.
Proof.
  intros [Ah Af Aq Ag Al] [Ef Eh Eq Eg]. split; rewrite ?Ef, ?Eq, ?Eg; auto. unfold host_ok. by rewrite Eh.
Qed.

Lemma accounted_event w0 l w ev : accounted w0 l w →
  (∀ user pass t, ev = EvAuth user pass t None → ∃ k, valid_login (h_config k) user pass) →
  accounted w0 (l ++ [ev]) w.
Proof.
  intros [Ah Af Aq Ag Al] Hev.
  assert (Hin : ∀ e, e ∈ l → e ∈ l ++ [ev]) by (intros; apply elem_of_app; by left).
  split; [done|intros p|intros n| |].
  - destruct (Af p) as [?|(mb&f&sp&msg&e&?&?)]; [by left|right]. exists mb, f, sp, msg, e. auto.
  - destruct (Aq n) as [?|(e&f&r&msg&?&?)]; [by left|right]. exists e, f, r, msg. auto.
  - destruct Ag as [?|(u&p&t&e&?)]; [by left|right]. exists u, p, t, e. auto.
  - intros u p t [?|E%list_elem_of_singleton]%elem_of_app; [eauto|]. by eapply Hev.
Qed.

Lemma last_event {A} (l : list A) x : x ∈ l ++ [x].
Proof. apply elem_of_app. right. by apply list_elem_of_singleton. Qed.

Lemma be_deliver_accounted w0 l w mb f spam msg : accounted w0 l w →
  accounted w0 (l ++ [EvDeliver mb f spam msg (be_deliver mb f spam msg w).1]) (be_deliver mb f spam msg w).2.
Proof.
  intros Ha. eapply (accounted_event _ _ _ (EvDeliver mb f spam msg (be_deliver mb f spam msg w).1)) in Ha as [Ah Af Aq Ag Al]; [|done].
  revert Af Aq Ag Al. unfold be_deliver, in_fs, mbind, St_bind.
  set (full := "Return-Path: <" +:+ f +:+ ">" +:+ CRLF +:+ msg).
  pose proof (Deliver_effect h_env (box mb spam) full (d_fs w) Ah) as (name&Hn&Hq&_).
  pose proof (Deliver_host_ok h_env (box mb spam) full (d_fs w) Ah) as Hok.
  destruct (Maildir.Deliver h_env (box mb spam) full (d_fs w)) as [r fs'] eqn:E. cbn in *.
  intros Af Aq Ag Al. split; cbn [d_fs d_queue d_guard set_fs]; [done| |done..]. intros p.
  destruct (decide (p = box mb spam ++ ["tmp"; name] ∨ p = box mb spam ++ ["new"; name])) as [Hp|Hp].
  - right. exists mb, f, spam, msg. eexists. split; [apply last_event|]. destruct Hp; eexists _, name; eauto.
  - rewrite Hq by tauto. apply Af.
Qed.

Lemma be_enqueue_accounted w0 l w f rcpt msg : accounted w0 l w →
  accounted w0 (l ++ [EvEnqueue f rcpt msg (be_enqueue f rcpt msg w).1]) (be_enqueue f rcpt msg w).2.
Proof.
  intros Ha. eapply (accounted_event _ _ _ (EvEnqueue f rcpt msg (be_enqueue f rcpt msg w).1)) in Ha as [Ah Af Aq Ag Al]; [|done].
  revert Af Aq Ag Al. unfold be_enqueue, tick, state, mbind, St_bind. cbn [d_queue].
  set (t := d_ticks w). set (io := h_io t). unfold Enqueue.
  destruct (Storage.Split rcpt) as [[local domain]|]; [|by split].
  set (e := MkEnvelope _ _ _ _ _ _ _ _ _). pose proof (write_entries io (d_queue w) e) as Hw.
  destruct (write io (d_queue w) e) as [q [x|]]; cbn [fst snd] in *; intros Af Aq Ag Al;
    (split; cbn [d_fs d_queue d_guard set_queue]; [done|done| |done|done]); intros n; rewrite Hw; [apply Aq|].
  destruct (decide (n = Queue.path (ID e))) as [->|]; [|rewrite lookup_insert_ne by done; apply Aq].
  right. exists e, f, rcpt, msg. rewrite lookup_insert_eq. split_and!; [apply last_event|done..].
Qed.

Lemma be_auth_accounted w0 l w user pass i t : accounted w0 l w →
  accounted w0 (l ++ [EvAuth user pass t (be_auth user pass i w).1]) (be_auth user pass i w).2.
Proof.
  assert (Hv : (be_auth user pass i w).1 = None → valid_login (h_config (d_ticks w)) user pass) by apply Verify_accepts.
  intros Ha. eapply (accounted_event _ _ _ (EvAuth user pass t (be_auth user pass i w).1)) in Ha as [Ah Af Aq Ag Al].
  - split; [done|done|done| |done]. right. do 4 eexists. apply last_event.
  - intros u p t' [= -> -> -> Hn]. exists (d_ticks w). by apply Hv.
Qed.

Lemma explained_accounted w0 l w : host_ok (d_fs w0) → explains backend w0 l w → accounted w0 l w.
Proof.
  intros Hok. induction 1 as [|l w auth u p i t _ IH Ha|l w mb f sp msg _ IH|l w f r msg _ IH
    |l w dom _ IH|l w a _ IH|l w _ IH|l w g i h f body _ IH Hg|l w g dom msg _ IH Hg|l w g u dom _ IH Hg|l w g u dom _ IH Hg].
  - split; [done|auto|auto|by left|by intros ? ? ? ?%elem_of_nil].
  - injection Ha as <-. by apply be_auth_accounted.
  - by apply be_deliver_accounted.
  - by apply be_enqueue_accounted.
  - eapply accounted_alike; [done|by repeat split].
  - eapply accounted_alike; [done|by repeat split].
  - eapply accounted_alike; [done|by repeat split].
  - injection Hg as <-. eapply accounted_alike; [done|apply aside_be_screen].
  - injection Hg as <-. eapply accounted_alike; [done|apply aside_be_sign].
  - injection Hg as <-. eapply accounted_alike; [done|apply aside_be_may_send].
  - injection Hg as <-. eapply accounted_alike; [done|apply aside_be_sent].
Qed.
(** ** The ports for mail *)

(** The files of a mailbox of the configuration, its quarantine included. *)
Definition configured_file (p : Fs.path) : Prop :=
  ∃ k addr mb spam, denotes (h_config k) addr (Dir mb) ∧ Email mb = addr ∧ mail_file (box mb spam) p.

Section session.
Context (sets : nat → Settings) (clock : nat → Z) (fmt_date : Z → string) (fuel : nat) (s s' : session Daemon).
Context (Hfresh : fresh s) (Hhost : host_ok (d_fs (sh_world (sh s))))
  (Hrun : run backend sets clock fmt_date fuel s = Some s').

Lemma run_accounted : accounted (sh_world (sh s)) (sh_log (sh s')) (sh_world (sh s')).
Proof using Hfresh Hhost Hrun.
  destruct Hfresh as (b&_&Hlog).
  assert (Hs : since backend [] (sh_world (sh s)) s) by (exists []; rewrite Hlog; split; [done|constructor]).
  destruct (run_explained _ _ _ _ _ _ _ _ _ Hrun Hs) as (l&->&Hx). by apply explained_accounted.
Qed.

Lemma run_files p : w_files (d_fs (sh_world (sh s'))) !! p = w_files (d_fs (sh_world (sh s))) !! p ∨ configured_file p.
Proof using Hfresh Hhost Hrun.
  destruct (ac_files _ _ _ run_accounted p) as [?|(mb&f&sp&msg&e&Hin&Hp)]; [by left|right].
  destruct (deliveries_hosted _ _ _ _ _ _ _ Hfresh Hrun _ _ _ _ _ Hin) as (addr&_&(w&Hr)).
  apply Resolve_denotes in Hr as [Hd _]. by exists (d_ticks w), (Email mb), mb, sp.
Qed.
End session.

(** C1: port 25 is never an open relay, all the way to the machine:
    whatever a client of the inbound port sends and however often the
    configuration is reloaded, the outbound queue and the record of failed
    logins are what they were, and every file of the machine is what it
    was unless it is a file being written or delivered in the maildir, or
    its quarantine folder, that a configuration in force gives an address
    of a hosted domain. *)
Theorem inbound_end_to_end sets clock fmt_date fuel s s' :
  (∀ k, set_Mode (sets k) = ModeInbound) → fresh s → host_ok (d_fs (sh_world (sh s))) →
  run backend sets clock fmt_date fuel s = Some s' →
  let d := sh_world (sh s) in let d' := sh_world (sh s') in
  Queue.entries (d_queue d') = Queue.entries (d_queue d) ∧ d_guard d' = d_guard d ∧
  ∀ p, w_files (d_fs d') !! p = w_files (d_fs d) !! p ∨ configured_file p.
Proof.
  intros Hm Hf Hh Hrun d d'. pose proof (run_accounted _ _ _ _ _ _ Hf Hh Hrun) as [_ _ Hq Hg _].
  pose proof (inbound_no_relay _ _ _ _ _ _ _ Hm Hf Hrun) as Hall. rewrite Forall_forall in Hall. split_and!.
  - apply map_eq. intros n. destruct (Hq n) as [?|(e&f&r&msg&Hin&_)]; [done|]. by apply Hall in Hin.
  - destruct Hg as [?|(u&p&t&e&Hin)]; [done|]. by apply Hall in Hin.
  - by eapply run_files.
Qed.

(** C2: nothing leaves in another's name: every envelope that a session on
    a submission port adds to the outbound queue, or changes there, has as
    its sender the name of an account to which the client of this session
    had logged in over TLS, with a password valid in a configuration in
    force; and no file changes outside the configured maildirs. *)
Theorem submission_end_to_end sets clock fmt_date fuel s s' :
  (∀ k, set_Mode (sets k) = ModeSubmission) → fresh s → host_ok (d_fs (sh_world (sh s))) →
  run backend sets clock fmt_date fuel s = Some s' →
  let d := sh_world (sh s) in let d' := sh_world (sh s') in
  (∀ n, Queue.entries (d_queue d') !! n = Queue.entries (d_queue d) !! n ∨
    ∃ e user pass k, Queue.entries (d_queue d') !! n = Some (QEnvelope e) ∧
      From e = ToLower user ∧ From e ≠ "" ∧
      EvAuth user pass true None ∈ sh_log (sh s') ∧ valid_login (h_config k) user pass) ∧
  ∀ p, w_files (d_fs d') !! p = w_files (d_fs d) !! p ∨ configured_file p.
Proof.
  intros Hm Hf Hh Hrun d d'. pose proof (run_accounted _ _ _ _ _ _ Hf Hh Hrun) as [_ _ Hq _ Hl].
  pose proof (submission_sender _ _ _ _ _ _ _ Hm Hf Hrun) as Hord. split; [|by eapply run_files].
  intros n. destruct (Hq n) as [?|(e&f&r&msg&Hin&He&Hfrom&_)]; [by left|right].
  apply list_elem_of_split in Hin as (l1&l2&El). destruct (Hord _ _ _ El) as (Hne&user&pass&Hin&->).
  assert (Hin' : EvAuth user pass true None ∈ sh_log (sh s')) by (rewrite El; apply elem_of_app; by left).
  destruct (Hl _ _ _ Hin') as [k Hk]. exists e, user, pass, k. rewrite Hfrom, ToLower_idemp. by split_and!.
Qed.

(** ** The decision about a message *)

Definition severity (a : ScreenAction) : Z := match a with ScreenAccept => 0 | ScreenQuarantine => 1 | ScreenReject => 2 end.
Definition worst (a b : ScreenAction) : ScreenAction := if severity a <? severity b then b else a.

(** What the engine's verdict alone asks for. *)
Definition verdict_action (cfg : Config) (v : Antispam.Verdict) : ScreenAction :=
  let a := c_Antispam cfg in
  if negb (is_empty (v_Virus v)) || (negb (is_empty (v_BadAttachment v)) && RejectsExecutables a)
     || fge (v_Score v) (RejectScore a) then ScreenReject
  else if fge (v_Score v) (QuarantineScore a) then ScreenQuarantine else ScreenAccept.

(** The three checks, all of them made, and what each asks for. *)
Definition all_checks (ip helo from data : string) : D (list ScreenAction) :=
  cfg ← mgr_Get;
  out ← screen_auth cfg ip helo from data;
  l ← screen_listed cfg ip;
  en ← get d_engine;
  spam ← match en with
         | None => mret ScreenAccept
         | Some en => v ← spam_check en data; mret (verdict_action cfg v)
         end;
  mret [sr_Action out; if (l.1 : bool) then ScreenReject else ScreenAccept; spam].

Lemma apply_verdict_worst cfg out v : sr_Action out ≠ ScreenReject →
  sr_Action (apply_verdict cfg out v) = worst (sr_Action out) (verdict_action cfg v).
Proof.
  intros Ho. unfold apply_verdict, verdict_action.
  destruct (is_empty (v_Virus v)), (is_empty (v_BadAttachment v)), (RejectsExecutables (c_Antispam cfg)),
    (fge (v_Score v) (RejectScore (c_Antispam cfg))), (fge (v_Score v) (QuarantineScore (c_Antispam cfg))); simpl;
    by destruct (sr_Action out).
Qed.


(** C12: a message is treated as the strictest of its checks asks: the
    early returns, which spare a refused message the checks that remain,
    never change what becomes of it, and no check softens the verdict of
    an earlier one. *)
Theorem screen_strictest ip helo from data d :
  sr_Action (be_screen ip helo from data d).1 = foldr worst ScreenAccept (all_checks ip helo from data d).1.
Proof.
  unfold be_screen, all_checks, mgr_Get, get, mret, St_ret, mbind, St_bind. destruct (tick d) as [t d1].
  destruct (screen_auth (h_config t) ip helo from data d1) as [out d2].
  destruct (screen_listed (h_config t) ip d2) as [[listed zones] d3] eqn:E.
  assert (Hv : ∀ v, sr_Action out ≠ ScreenReject →
    sr_Action (apply_verdict (h_config t) out v) = worst (sr_Action out) (verdict_action (h_config t) v))
    by (intros; by apply apply_verdict_worst).
  destruct (sr_Action out) eqn:Ho; [| |by destruct (d_engine d3) as [en|]; [destruct (spam_check en data d3) as [v d4]|];
    cbn; rewrite Ho; destruct listed; try destruct (verdict_action _ v)].
  all: rewrite E; destruct listed; cbn [fst]; destruct (d_engine d3) as [en|];
    try (destruct (spam_check en data d3) as [v d4]; specialize (Hv v)); cbn; rewrite ?Hv, ?Ho by done; try done;
    by destruct (verdict_action _ _).
Qed.

(** ** Logins of the mail access protocols *)

(** IMAP and POP3 open exactly the mailbox of the account that logged
    in: an accepted login had the password of its address in a
    configuration in force, and the directory it is given is the one that
    a configuration in force has for that address; asking changes no file
    and nothing in the queue. *)
Lemma access_auth_sound email password ip d :
  let '(r, d') := access_auth email password ip d in
  match r with
  | Ok dir => ∃ k k' home, valid_login (h_config k) email password ∧
      denotes (h_config k') (ToLower (TrimSpace email)) home ∧ dir = place home
  | Err _ => True
  end ∧ w_files (d_fs d') = w_files (d_fs d) ∧ d_queue d' = d_queue d.
Proof.
  unfold access_auth, mbind at 1, St_bind at 1.
  assert (Hv : (be_auth email password ip d).1 = None → valid_login (h_config (d_ticks d)) email password)
    by apply Verify_accepts.
  assert (Hd : d_fs (be_auth email password ip d).2 = d_fs d ∧ d_queue (be_auth email password ip d).2 = d_queue d) by done.
  destruct (be_auth email password ip d) as [[e|] d1]; cbn in Hv, Hd; destruct Hd as [Hd1 Hd2].
  { split; [done|]. cbn. by rewrite Hd1, Hd2. }
  unfold mgr_Get, mret, St_ret, mbind, St_bind, tick. cbn.
  destruct (Resolve_now _ _) as [mb|] eqn:E; cbn; rewrite Hd1, Hd2; [|done]. split; [|done].
  apply Resolve_denotes in E as (Hden&local&domain&Hs&_&Hem). rewrite Hem in Hden.
  rewrite (Split_join _ _ _ Hs), TrimSpace_ToLower, ToLower_idemp in Hden.
  exists (d_ticks d), (d_ticks d1), (Dir mb). by split; [apply Hv|].
Qed.
End daemon.

(** ** A machine *)

(** One account on a machine where nothing fails. *)
Definition sample_host : Host := {|
  h_env := calm;
  h_io _ := no_faults;
  h_clock t := Z.of_nat t;
  h_rand _ := 7;
  h_config _ := sample_cfg;
  h_auth _ := sample_lib;
  h_LookupHost _ _ := None;
  h_clamd _ := sample_clamd;
  h_linux := true;
  h_user_Lookup _ := None;
  h_argon2 _ _ _ _ _ _ := "";
  h_bcrypt _ p := String.eqb p "secret";
  h_date _ := "now";
|}.

Definition sample_daemon : Daemon := MkDaemon 0 empty_world ∅ (NewGuard 5 Minute) None None None ["keys"].

Definition sample_port (m : Mode) (k : nat) : Settings :=
  MkSettings "mx.example.com" 10000 10 m false true (MkIdentity false "" "" "").

Definition sample_client (clear : string) (secure : option string) : session Daemon :=
  newSession (sample_port ModeInbound) "192.0.2.1" (MkConn clear secure 99 [])
    (MkShared 0 0 None None (Some zero_counters) sample_daemon []).

Definition lines_of (ls : list string) : string := Join ((λ l, l +:+ CRLF) <$> ls) "".

#[local] Instance the_host : Host := sample_host.
#[local] Instance the_keys : KeyLib := sample_keys "k".
#[local] Instance the_unicode : Unicode := ascii_unicode.
#[local] Instance the_math : MathLib := {| Log x := x; Exp x := x |}.

Definition inbound_client : session Daemon :=
  sample_client (lines_of ["EHLO a"; "MAIL FROM:<x@z.org>"; "RCPT TO:<u@z.org>"; "RCPT TO:<Bob@Example.com>"; "DATA"; "hi"; "."; "QUIT"]) None.

Definition submission_client : session Daemon :=
  sample_client (lines_of ["EHLO a"; "STARTTLS"])
    (Some (lines_of ["EHLO a"; "AUTH PLAIN AGJvYkBleGFtcGxlLmNvbQBzZWNyZXQ="; "MAIL FROM:<bob@example.com>";
                     "RCPT TO:<u@z.org>"; "DATA"; "hi"; "."; "QUIT"])).

Abbreviation sample_session_run := (λ m s, run backend (sample_port m) (λ _, 0) (λ _, "now") 60 s).

Definition delivered_mail : Fs.path := ["var"; "mail"; "example.com"; "bob"; "new"; "0.M0P1Q1R7.mx"].

Lemma inbound_files :
  match sample_session_run ModeInbound inbound_client with
  | Some s => bool_decide (w_files (d_fs (sh_world (sh s))) !! delivered_mail = None) = false
  | None => False
  end.
Proof. vm_compute. reflexivity. Qed.

Lemma submission_envelope :
  match sample_session_run ModeSubmission submission_client with
  | Some s => match (map_to_list (Queue.entries (d_queue (sh_world (sh s))))).*2 with
              | [QEnvelope e] => From e = "bob@example.com" ∧ Rcpt e = "u@z.org"
              | _ => False
              end
  | None => False
  end.
Proof. vm_compute. split; reflexivity. Qed.

Lemma sample_start clear secure :
  fresh (sample_client clear secure) ∧ host_ok (d_fs (sh_world (sh (sample_client clear secure)))).
Proof. split; [exists false; split; reflexivity|intros h [=]]. Qed.

Lemma inbound_end_to_end_witness :
  match sample_session_run ModeInbound inbound_client with
  | Some s => Queue.entries (d_queue (sh_world (sh s))) = ∅ ∧ d_guard (sh_world (sh s)) = NewGuard 5 Minute ∧
      configured_file delivered_mail
  | None => False
  end.
Proof.
  pose proof inbound_files as Hn. destruct (sample_session_run ModeInbound inbound_client) as [s|] eqn:E; [|contradiction].
  destruct (sample_start (c_in (conn inbound_client)) None) as [Hf Hh].
  destruct (inbound_end_to_end (sample_port ModeInbound) (λ _, 0) (λ _, "now") 60 inbound_client s (λ _, eq_refl) Hf Hh E) as (Hq&Hg&Hfiles).
  split; [rewrite Hq; vm_compute; reflexivity|]. split; [rewrite Hg; vm_compute; reflexivity|]. destruct (Hfiles delivered_mail) as [H|H]; [|exact H].
  apply bool_decide_eq_false in Hn. destruct Hn. rewrite H. vm_compute. reflexivity.
Defined.

Lemma submission_end_to_end_witness :
  match sample_session_run ModeSubmission submission_client with
  | Some s => ∃ n e user pass k, Queue.entries (d_queue (sh_world (sh s))) !! n = Some (QEnvelope e) ∧
      From e = ToLower user ∧ From e ≠ "" ∧
      EvAuth user pass true None ∈ sh_log (sh s) ∧ valid_login (h_config k) user pass
  | None => False
  end.
Proof.
  pose proof submission_envelope as Hn. destruct (sample_session_run ModeSubmission submission_client) as [s|] eqn:E; [|contradiction].
  destruct (sample_start (c_in (conn submission_client)) (c_tls (conn submission_client))) as [Hf Hh].
  destruct (submission_end_to_end (sample_port ModeSubmission) (λ _, 0) (λ _, "now") 60 submission_client s (λ _, eq_refl) Hf Hh E) as (Hq&_).
  destruct (map_to_list (Queue.entries (d_queue (sh_world (sh s))))) as [|[n x] rest] eqn:Em; [contradiction|].
  assert (Hin : Queue.entries (d_queue (sh_world (sh s))) !! n = Some x)
    by (apply elem_of_map_to_list; rewrite Em; apply list_elem_of_here).
  destruct (Hq n) as [H|(e&user&pass&k&H)]; [|exists n, e, user, pass, k; exact H].
  rewrite Hin in H. vm_compute in H. discriminate H.
Defined.
