(* ===== verification/Outbound.v ===== *)
(** * The outbound path: the scheduler in the daemon

    Composes [Queue] with [Daemon]: the scheduler of [queue/scheduler.go]
    with the transport and [bounceFn] that [runDaemon] gives it, as a
    machine whose steps are the calls of the code, so that what SMTP
    sessions and other processes do may come between any two of them and
    the daemon may die at any of them.  The counters and the log, which no
    call reads, are left to [Queue.attempt]. *)

From S2P Require Import Prelude GoStrings GoUtf8 GoNum GoNet GoMail RateLimit Stats Session Container Config Storage Queue Fs Maildir Auth MailAuth Reputation Blacklist Bayes Antispam Antivirus Dkim Smtp SmtpSession SmtpWorld Daemon DaemonSafety.

(** The network as the transport sees it, at each use: the answers of
    [net.LookupMX] and of the hosts. *)
Class Net := {
  n_LookupMX : nat → string → option (list (Z * string));
  n_remote : nat → string → Queue.Remote;
}.

(** Where the scheduler's goroutine is: between two rounds, before the
    next envelope of a round, before the call of [bounce], of [Remove] or
    of [Update]. *)
Inductive pc :=
  | Waiting
  | Todo (now : Z) (due : list Envelope)
  | Bouncing (now : Z) (e : Envelope) (reason : string) (due : list Envelope)
  | Removing (now : Z) (e : Envelope) (due : list Envelope)
  | Saving (now : Z) (e : Envelope) (due : list Envelope).

(** What becomes of mail, as it happens: it was queued; the attempt at this
    tick delivered it; [bounceFn] ran, from one state of the daemon to
    another. *)
Inductive fate :=
  | FAccepted (e : Envelope)
  | FSent (e : Envelope) (t : nat)
  | FNotice (e : Envelope) (reason : string) (before after : Daemon).

Section outbound.
Context {HO : Host} {NE : Net} {KL : KeyLib} {UC : Unicode} {ML : MathLib} {SS : SliceSort}.

(** ** The calls *)

(** [s.t.Deliver(e)] with the transport of [runDaemon]. *)
Definition deliver_now (e : Envelope) : D outcome :=
  t ← tick; mret (Queue.Deliver (n_LookupMX t) (n_remote t) e).

Definition due_now (now : Z) : D (list Envelope) :=
  t ← tick; state (λ d, ((Queue.Due (h_io t) (d_queue d) now).1, d)).

Definition remove_now (e : Envelope) : D unit :=
  t ← tick; state (λ d, (tt, set_queue (Queue.Remove (h_io t) (d_queue d) e) d)).

Definition update_now (e : Envelope) : D (option error) :=
  t ← tick; state (λ d, let '(q, err) := Queue.Update (h_io t) (d_queue d) e in (err, set_queue q d)).

(** The envelope once an attempt failed, [e.Attempts++] and
    [e.LastError = err.Error()]. *)
Definition failed_once (e : Envelope) (msg : string) : Envelope :=
  MkEnvelope (ID e) (From e) (Rcpt e) (Queue.Domain e) (Attempts e + 1) (NextAttempt e) (Created e) msg (Data e).

Definition exhausted (e : Envelope) : string :=
  "giving up after " +:+ dec (Attempts e) +:+ " attempts; last error: " +:+ LastError e.

(** The rest of [attempt] for an answer of the transport, up to its next
    call; a panic ends the daemon. *)
Definition after_try (maxAttempts now : Z) (e : Envelope) (due : list Envelope) (o : outcome) : pc :=
  match o with
  | Delivered => Removing now e due
  | Permanent code msg => Bouncing now e (perm_error code msg) due
  | Transient msg =>
      let e := failed_once e msg in
      if maxAttempts <=? Attempts e then Bouncing now e (exhausted e) due else
      match backoff (Attempts e) with
      | None => Waiting
      | Some d =>
          Saving now (MkEnvelope (ID e) (From e) (Rcpt e) (Queue.Domain e) (Attempts e) (now + d) (Created e) (LastError e) (Data e)) due
      end
  end.

(** The next call of the scheduler, and what it settles; a round starts
    when the ticker fires. *)
Definition advance (maxAttempts : Z) (p : pc) : D (pc * list fate) :=
  match p with
  | Waiting =>
      now ← now;
      due ← due_now now;
      mret (Todo now due, [])
  | Todo now [] => mret (Waiting, [])
  | Todo now (e :: due) =>
      before ← get id;
      o ← deliver_now e;
      mret (after_try maxAttempts now e due o, match o with Delivered => [FSent e (d_ticks before)] | _ => [] end)
  | Bouncing now e reason due =>
      before ← get id;
      bounce e reason;;
      after ← get id;
      mret (Removing now e due, [FNotice e reason before after])
  | Removing now e due =>
      remove_now e;;
      mret (Todo now due, [])
  | Saving now e due =>
      update_now e;;
      mret (Todo now due, [])
  end.

(** ** The machine *)

Record machine := Machine { m_d : Daemon; m_pc : pc; m_log : list fate }.

(** The envelope a submission queues. *)
Definition submitted (d : Daemon) (from rcpt msg : string) (e : Envelope) : Prop :=
  ∃ local domain, Storage.Split rcpt = Some (local, domain) ∧
    e = MkEnvelope (newID (h_clock (d_ticks d)) (h_rand (d_ticks d))) (ToLower from) (ToLower rcpt) domain 0
          (h_clock (d_ticks d)) (h_clock (d_ticks d)) "" msg.

(** A step: of the scheduler; of a session that submits a message, with
    or without success; of anything else in the system, which leaves the
    queue alone; the death of the daemon between two calls, or within a
    write of the queue, with a new daemon that waits for its first
    round. *)
Inductive step (maxAttempts : Z) : machine → machine → Prop :=
  | O_advance d p l p' evs d' : advance maxAttempts p d = ((p', evs), d') →
      step maxAttempts (Machine d p l) (Machine d' p' (l ++ evs))
  | O_accept d p l from rcpt msg e d' : be_enqueue from rcpt msg d = (None, d') → submitted d from rcpt msg e →
      step maxAttempts (Machine d p l) (Machine d' p (l ++ [FAccepted e]))
  | O_refuse d p l from rcpt msg err d' : be_enqueue from rcpt msg d = (Some err, d') →
      step maxAttempts (Machine d p l) (Machine d' p l)
  | O_other d p l d' : d_queue d' = d_queue d → (host_ok (d_fs d) → host_ok (d_fs d')) →
      step maxAttempts (Machine d p l) (Machine d' p l)
  | O_crash d p l : step maxAttempts (Machine d p l) (Machine d Waiting l)
  | O_crash_enqueue d p l from rcpt msg e q : submitted d from rcpt msg e →
      q ∈ (write_trace (h_io (d_ticks d)) (d_queue d) e).1 → Queue.entries q = Queue.entries (d_queue d) →
      step maxAttempts (Machine d p l) (Machine (set_queue q d) Waiting l)
  | O_crash_queued d p l from rcpt msg e q : submitted d from rcpt msg e →
      q ∈ (write_trace (h_io (d_ticks d)) (d_queue d) e).1 → Queue.entries q = <[Queue.path (ID e) := QEnvelope e]> (Queue.entries (d_queue d)) →
      step maxAttempts (Machine d p l) (Machine (set_queue q d) Waiting (l ++ [FAccepted e]))
  | O_crash_update d now e due l q : q ∈ (write_trace (h_io (d_ticks d)) (d_queue d) e).1 →
      step maxAttempts (Machine d (Saving now e due) l) (Machine (set_queue q d) Waiting l).

(** ** What is promised about mail *)

(** The same message: what an attempt changes is its schedule. *)
Definition same_mail (e e' : Envelope) : Prop :=
  ID e = ID e' ∧ From e = From e' ∧ Rcpt e = Rcpt e' ∧ Queue.Domain e = Queue.Domain e' ∧ Data e = Data e'.

Definition queued (d : Daemon) (e : Envelope) : Prop :=
  ∃ e', Queue.entries (d_queue d) !! Queue.path (ID e) = Some (QEnvelope e') ∧ same_mail e e'.

(** A host of the recipient's domain took responsibility for it, at that
    attempt. *)
Definition handed_over (e : Envelope) (t : nat) : Prop :=
  ∃ h, h ∈ mxHosts (n_LookupMX t) (Queue.Domain e) ∧ accepted (n_remote t h) e = true.

(** What the sender is told by a bounce that starts in this state of the
    daemon, and the mailbox it is told in: the configuration and the clock
    are read once the bounce is recorded. *)
Definition notice (e : Envelope) (reason : string) (before : Daemon) : option string :=
  let k := d_ticks (bounce_recorded e before).2 in
  (λ body, "Return-Path: <>" +:+ CRLF +:+ body) <$>
    BuildBounce (Config.Hostname (c_Server (h_config k))) e reason (h_date (h_clock (S k))).

Definition sender_box (e : Envelope) (before : Daemon) : option Storage.Mailbox :=
  Resolve_now (h_config (S (S (d_ticks (bounce_recorded e before).2)))) (From e).

(** The notice was delivered to the sender's mailbox, as [delivered] of
    [Maildir] says: it is a file of [new/] afterwards. *)
Definition told (e : Envelope) (reason : string) (before after : Daemon) : Prop :=
  ∃ mb text p, sender_box e before = Some mb ∧ notice e reason before = Some text ∧
    delivered h_env (place (Dir mb)) text (d_fs before) (Ok p) (d_fs after).

(** The reasons why no notice is written: nobody to tell, or the delivery
    of this notice, in the state of the disk at that moment, fails. *)
Definition untold (e : Envelope) (reason : string) (before : Daemon) : Prop :=
  From e = "" ∨ sender_box e before = None ∨
  ∃ mb text err, sender_box e before = Some mb ∧ notice e reason before = Some text ∧
    (Maildir.Deliver h_env (place (Dir mb)) text (d_fs before)).1 = Err err.

Definition known (l : list fate) (e : Envelope) : Prop := ∃ e0, FAccepted e0 ∈ l ∧ same_mail e0 e.
Definition settled (l : list fate) (e : Envelope) : Prop :=
  ∃ e', same_mail e e' ∧ ((∃ t, FSent e' t ∈ l) ∨ ∃ r d d', FNotice e' r d d' ∈ l).

(** No two submissions were given the same identifier. *)
Definition unique_ids (l : list fate) : Prop :=
  ∀ e e', FAccepted e ∈ l → FAccepted e' ∈ l → ID e = ID e' → e = e'.

(** The daemon as it finds the queue: the log has what is there. *)
Record initial (m : machine) : Prop := {
  in_waiting : m_pc m = Waiting;
  in_host : host_ok (d_fs (m_d m));
  in_entries n e : Queue.entries (d_queue (m_d m)) !! n = Some (QEnvelope e) → n = Queue.path (ID e) ∧ FAccepted e ∈ m_log m;
  in_log f : f ∈ m_log m → ∃ e, f = FAccepted e ∧ queued (m_d m) e;
}.

(** ** The invariant *)

Definition handled (p : pc) : list Envelope :=
  match p with
  | Waiting => []
  | Todo _ due => due
  | Bouncing _ e _ due | Removing _ e due | Saving _ e due => e :: due
  end.

Definition fact (l : list fate) (f : fate) : Prop :=
  match f with
  | FAccepted _ => True
  | FSent e t => known l e ∧ handed_over e t
  | FNotice e reason d d' => known l e ∧ (told e reason d d' ∨ untold e reason d)
  end.

Record sound (m : machine) : Prop := {
  so_host : host_ok (d_fs (m_d m));
  so_entries n e : Queue.entries (d_queue (m_d m)) !! n = Some (QEnvelope e) → n = Queue.path (ID e) ∧ known (m_log m) e;
  so_pc e : e ∈ handled (m_pc m) → known (m_log m) e;
  so_removing now e due : m_pc m = Removing now e due → settled (m_log m) e;
  so_fate e : FAccepted e ∈ m_log m → queued (m_d m) e ∨ settled (m_log m) e;
  so_log f : f ∈ m_log m → fact (m_log m) f;
}.

#[global] Instance same_mail_equiv : Equivalence same_mail.
Proof.
  split; [by intros e|intros e e' (?&?&?&?&?); by split_and!|].
  intros a b c (?&?&?&?&?) (?&?&?&?&?). split_and!; by etrans.
Qed.

Lemma known_mono l l' e : known l e → known (l ++ l') e.
Proof. intros (e0&?&?). exists e0. split; [apply elem_of_app; by left|done]. Qed.
Lemma settled_mono l l' e : settled l e → settled (l ++ l') e.
Proof.
  intros (e'&?&H). exists e'. split; [done|].
  destruct H as [[t ?]|(r&d&d'&?)]; [left; exists t; apply elem_of_app; by left|right]. exists r, d, d'. apply elem_of_app. by left.
Qed.
Lemma known_same l e e' : same_mail e e' → known l e → known l e'.
Proof. intros Hs (e0&?&?). exists e0. split; [done|by etrans]. Qed.
Lemma settled_same l e e' : same_mail e e' → settled l e' → settled l e.
Proof. intros Hs (e0&?&?). exists e0. split; [by etrans|done]. Qed.
Lemma fact_mono l l' f : fact l f → fact (l ++ l') f.
Proof. destruct f; cbn; intuition (by apply known_mono). Qed.
Hint Resolve known_mono settled_mono fact_mono : core.

(** An accepted message of the identifier of a known one is that one. *)
Lemma unique_known l e e0 : unique_ids l → known l e → FAccepted e0 ∈ l → ID e0 = ID e → same_mail e0 e.
Proof. intros Hu (e1&H1&Hs) H0 Hid. rewrite (Hu e0 e1 H0 H1); [done|]. rewrite Hid. symmetry. apply Hs. Qed.

Lemma unique_less l l' : unique_ids (l ++ l') → unique_ids l.
Proof. intros Hu e e' H H'. apply Hu; apply elem_of_app; by left. Qed.

(** *** The parts of a step *)

(** The queue after a change that writes at most one known envelope. *)
Definition rewritten (l : list fate) (q q' : Queue.Queue) : Prop :=
  Queue.entries q' = Queue.entries q ∨ ∃ e, known l e ∧ Queue.entries q' = <[Queue.path (ID e) := QEnvelope e]> (Queue.entries q).

Lemma rewritten_queued l d d' e : unique_ids l → FAccepted e ∈ l → rewritten l (d_queue d) (d_queue d') → queued d e → queued d' e.
Proof.
  intros Hu He [Hq|(e1&Hk&Hq)] (e'&Hl&Hs); unfold queued; rewrite Hq; [by exists e'|].
  destruct (decide (ID e = ID e1)) as [Hid|Hid].
  - exists e1. rewrite Hid, lookup_insert_eq. split; [done|]. by eapply unique_known.
  - exists e'. rewrite lookup_insert_ne by (by intros H%Queue.path_inj; apply Hid). done.
Qed.

Lemma rewritten_entries l q q' : rewritten l q q' →
  (∀ n e, Queue.entries q !! n = Some (QEnvelope e) → n = Queue.path (ID e) ∧ known l e) →
  ∀ n e, Queue.entries q' !! n = Some (QEnvelope e) → n = Queue.path (ID e) ∧ known l e.
Proof.
  intros [->|(e1&Hk&->)] Hq n e; [apply Hq|].
  destruct (decide (n = Queue.path (ID e1))) as [->|Hn]; [rewrite lookup_insert_eq; by intros [= <-]|].
  rewrite lookup_insert_ne by done. apply Hq.
Qed.

(** A step that writes at most one known envelope, with a log that only
    grows by facts. *)
Lemma sound_rewritten d p l d' p' l' : sound (Machine d p l) → unique_ids (l ++ l') → host_ok (d_fs d') →
  rewritten (l ++ l') (d_queue d) (d_queue d') →
  (∀ e, e ∈ handled p' → known (l ++ l') e) → (∀ now e due, p' = Removing now e due → settled (l ++ l') e) →
  (∀ f, f ∈ l' → fact (l ++ l') f ∧ ∀ e, f = FAccepted e → queued d' e) →
  sound (Machine d' p' (l ++ l')).
Proof.
  intros [H1 H2 H3 H4 H5 H6] Hu Hh Hq Hp Hr Hl. cbn in *. split; cbn; [done| |done|done| |].
  - eapply rewritten_entries; [done|]. intros n e He. destruct (H2 n e He). auto.
  - intros e [He|He]%elem_of_app.
    + destruct (H5 e He) as [Hqe|?]; [left|by auto]. eapply rewritten_queued; [done| |done|done]. apply elem_of_app. by left.
    + left. by apply (Hl _ He).
  - intros f [Hf|Hf]%elem_of_app; [by auto|by apply Hl].
Qed.

(** Nothing is removed but what was settled. *)
Lemma sound_removed d now e due l d' : sound (Machine d (Removing now e due) l) → unique_ids l → d_fs d' = d_fs d →
  Queue.entries (d_queue d') = Queue.entries (d_queue d) ∨ Queue.entries (d_queue d') = delete (Queue.path (ID e)) (Queue.entries (d_queue d)) →
  sound (Machine d' (Todo now due) l).
Proof.
  intros [H1 H2 H3 H4 H5 H6] Hu Hf Hq. cbn in *. assert (Hset : settled l e) by (by eapply H4). split; cbn.
  - by rewrite Hf.
  - intros n e1 He1. apply H2. destruct Hq as [<-|Hq]; [done|]. rewrite Hq in He1. by apply lookup_delete_Some in He1 as [_ ?].
  - intros e1 He1. apply H3. by right.
  - done.
  - intros e1 He1. destruct (H5 e1 He1) as [(e2&Hl&Hs)|?]; [|by right]. destruct Hq as [Hq|Hq].
    + left. exists e2. by rewrite Hq.
    + destruct (decide (ID e1 = ID e)) as [Hid|Hid].
      * right. eapply settled_same; [|exact Hset]. eapply unique_known; [done| |done|done]. apply H3. by left.
      * left. exists e2. rewrite Hq, lookup_delete_ne by (by intros H%Queue.path_inj; apply Hid). done.
  - done.
Qed.

Lemma Remove_entries io q e :
  Queue.entries (Queue.Remove io q e) = Queue.entries q ∨ Queue.entries (Queue.Remove io q e) = delete (Queue.path (ID e)) (Queue.entries q).
Proof. unfold Queue.Remove. destruct (io_remove _ _); [by left|right]. apply map_filter_delete. Qed.

Lemma Update_rewritten l io q e : known l e → rewritten l q (Queue.Update io q e).1.
Proof. intros Hk. unfold rewritten. rewrite write_entries. destruct (write io q e).2; [by left|right]. by exists e. Qed.

Lemma Due_entries io q now e : e ∈ (Queue.Due io q now).1 → ∃ n, Queue.entries q !! n = Some (QEnvelope e).
Proof.
  unfold Queue.Due, load. destruct (io_readdir io); [by intros []%elem_of_nil|]. cbn [fst].
  rewrite list_elem_of_filter, oldest_first_perm, list_elem_of_omap. intros (_&n&[Hn _]%entry_names_spec&Hr).
  exists n. apply map_lookup_filter_Some. split; [|done]. revert Hr. unfold read_entry. destruct (io_read io n); [done|].
  destruct (q !! n) as [[e'|]|]; by intros [= ->].
Qed.

Lemma try_hosts_Delivered (remote : string → Queue.Remote) e hosts err : try_hosts remote e hosts err = Queue.Delivered →
  ∃ h, h ∈ hosts ∧ accepted (remote h) e = true.
Proof.
  revert err. induction hosts as [|h hosts IH]; intros err; [done|]. cbn [try_hosts].
  destruct (trySend (remote h) e) as [|code msg|msg] eqn:E; [|done|intros (h'&?&?)%IH; exists h'; split; [by right|done]].
  intros _. exists h. split; [left|]. revert E. unfold trySend, accepted. destruct (r_dial _); [done|].
  destruct (run_steps _) eqn:Er; [|done|done]. intros _. by apply run_steps_Delivered.
Qed.

(** *** The notice to the sender *)

Lemma aside_record key ev : aside (record_event key ev).
Proof.
  unfold record_event, now. repeat (apply aside_bind; [|intros ?]); try apply aside_tick; try apply aside_ret.
  apply aside_state. intros d. cbn [snd]. by case_match.
Qed.

Lemma aside_recorded e : aside (bounce_recorded e).
Proof.
  unfold bounce_recorded. destruct (negb _); [|apply aside_ret]. apply aside_bind; [apply aside_record|intros _].
  destruct (Storage.Split _) as [[??]|]; [apply aside_record|apply aside_ret].
Qed.

Lemma record_event_fs key ev d : d_fs (record_event key ev d).2 = d_fs d.
Proof. unfold record_event, Daemon.now, tick, state, mret, St_ret, mbind, St_bind. cbn. by case_match. Qed.

Lemma D_bind {A B} (m : D A) (f : A → D B) d : (m ≫= f) d = f (m d).1 (m d).2.
Proof. unfold mbind, St_bind. by destruct (m d). Qed.

Lemma bounce_recorded_fs e d : d_fs (bounce_recorded e d).2 = d_fs d.
Proof.
  unfold bounce_recorded. destruct (negb _); [|done]. rewrite D_bind, <- (record_event_fs ("user:" +:+ From e) EventBounce d).
  destruct (Storage.Split _) as [[??]|]; [apply record_event_fs|done].
Qed.

Lemma bounce_outcome e reason d : host_ok (d_fs d) → let d' := (bounce e reason d).2 in
  d_queue d' = d_queue d ∧ host_ok (d_fs d') ∧ (told e reason d d' ∨ untold e reason d).
Proof.
  intros Hh. unfold bounce, told, untold, sender_box, notice. pose proof (aside_recorded e d) as Ha. revert Ha. rewrite D_bind.
  pose proof (bounce_recorded_fs e d) as Hw. destruct (bounce_recorded e d) as [u d1]. cbn [snd] in *. intros [_ _ Hq _]. rewrite <- Hw in Hh |- *. rewrite <- Hq.
  unfold mgr_Get, Daemon.now, mret, St_ret, mbind, St_bind, tick. cbn [d_fs d_queue d_ticks].
  set (k := d_ticks d1). destruct (BuildBounce _ _ _ _) as [body|] eqn:Eb; cbn [d_fs d_queue d_ticks snd fmap option_fmap option_map]; fold k.
  2:{ split_and!; [done..|]. right. left. unfold BuildBounce in Eb. destruct (is_empty (From e)) eqn:Ee; [|done].
      by destruct (From e). }
  destruct (Resolve_now _ (From e)) as [mb|] eqn:Er; cbn [d_fs d_queue d_ticks snd].
  2:{ split_and!; [done..|]. right. right. by left. }
  unfold in_fs. cbn [d_fs]. set (text := "Return-Path: <>" +:+ CRLF +:+ body).
  pose proof (Deliver_effect h_env (place (Dir mb)) text (d_fs d1) Hh) as He.
  pose proof (Deliver_host_ok h_env (place (Dir mb)) text (d_fs d1) Hh) as Hok.
  destruct (Maildir.Deliver h_env (place (Dir mb)) text (d_fs d1)) as [r w'] eqn:E. cbn in Hok, He |- *. split_and!; [done..|].
  destruct r as [p|err]; [left; by exists mb, text, p|right; right; right].
  exists mb, text, err. by rewrite E.
Qed.

(** *** The scheduler *)

Lemma after_try_handled mx now e due o e' : e' ∈ handled (after_try mx now e due o) → same_mail e e' ∨ e' ∈ due.
Proof.
  unfold after_try. destruct o as [|code msg|msg]; cbn; [by intros [->|?]%elem_of_cons; [left|right]..|].
  destruct (mx <=? _); cbn; [by intros [->|?]%elem_of_cons; [left|right]|].
  destruct (backoff _); cbn; [|by intros []%elem_of_nil]. by intros [->|?]%elem_of_cons; [left|right].
Qed.

Lemma after_try_removing mx now e due o now' e' due' : after_try mx now e due o = Removing now' e' due' → o = Queue.Delivered ∧ e' = e.
Proof.
  unfold after_try. destruct o as [|code msg|msg]; [by intros [= _ <- _]|done|]. destruct (mx <=? _); [done|]. by destruct (backoff _).
Qed.

Lemma rewritten_refl l q : rewritten l q q. Proof. by left. Qed.
Hint Resolve rewritten_refl : core.

Lemma advance_sound mx p d l p' evs d' : advance mx p d = ((p', evs), d') → sound (Machine d p l) → unique_ids (l ++ evs) →
  sound (Machine d' p' (l ++ evs)).
Proof.
  intros E Hs Hu. destruct p as [|now [|e due]|now e reason due|now e due|now e due].
  - unfold advance, Daemon.now, due_now, tick, state, mret, St_ret, mbind, St_bind in E. cbn in E. injection E as <- <- <-.
    apply (sound_rewritten d Waiting l); try done; [apply Hs| |by intros ? []%elem_of_nil].
    cbn. intros e (n&Hn)%Due_entries. rewrite app_nil_r. by apply (so_entries _ Hs n).
  - injection E as <- <- <-. apply (sound_rewritten d (Todo now []) l); try done; [apply Hs|by intros ? []%elem_of_nil..].
  - unfold advance, deliver_now, tick, mret, St_ret, mbind, St_bind in E. cbn in E. set (o := Queue.Deliver _ _ e) in E.
    injection E as <- <- <-. assert (Hk : known l e) by (apply (so_pc _ Hs); left).
    apply (sound_rewritten d (Todo now (e :: due)) l); try done; [apply Hs|..].
    + intros e' [He|He]%after_try_handled; apply known_mono; [by eapply known_same|apply (so_pc _ Hs); by right].
    + intros now' e' due' [-> ->]%after_try_removing. exists e. split; [done|]. left. eexists. apply elem_of_app. right. left.
    + intros f Hf. destruct o as [| |] eqn:Eo; [|by apply elem_of_nil in Hf..]. apply list_elem_of_singleton in Hf as ->.
      split; [|done]. split; [auto|]. subst o. apply try_hosts_Delivered in Eo as (h&?&?). by exists h.
  - unfold advance, get, mret, St_ret, mbind, St_bind in E. pose proof (bounce_outcome e reason d (so_host _ Hs)) as (Hq&Hh&Ht).
    destruct (bounce e reason d) as [u d1]. cbn in Hq, Hh, Ht. injection E as <- <- <-. assert (Hk : known l e) by (apply (so_pc _ Hs); left).
    apply (sound_rewritten d (Bouncing now e reason due) l); try done; [left; by rewrite Hq|..].
    + intros e' He. apply known_mono, (so_pc _ Hs), He.
    + intros now' e' due' [= _ -> _]. exists e'. split; [done|]. right. eexists _, _, _. apply elem_of_app. right. left.
    + intros f ->%list_elem_of_singleton. split; [|done]. by split; [auto|].
  - unfold advance, remove_now, tick, state, mret, St_ret, mbind, St_bind in E. cbn in E. injection E as <- <- <-.
    rewrite app_nil_r in Hu |- *. eapply sound_removed; [exact Hs|done|done|]. apply Remove_entries.
  - unfold advance, update_now, tick, state, mret, St_ret, mbind, St_bind in E. cbn in E.
    destruct (Queue.Update _ _ e) as [q err] eqn:Eu. injection E as <- <- <-. assert (Hk : known l e) by (apply (so_pc _ Hs); left).
    apply (sound_rewritten d (Saving now e due) l); try done; [apply Hs|..].
    + cbn. pose proof (Update_rewritten (l ++ []) (h_io (d_ticks d)) (d_queue d) e) as Hr. rewrite Eu in Hr. by apply Hr, known_mono.
    + cbn. intros e' He. apply known_mono, (so_pc _ Hs). by right.
    + by intros ? []%elem_of_nil.
Qed.

(** *** Submissions and crashes *)

Lemma be_enqueue_entries from rcpt msg d r d' : be_enqueue from rcpt msg d = (r, d') →
  d_fs d' = d_fs d ∧
  match r with
  | None => ∃ e, submitted d from rcpt msg e ∧ Queue.entries (d_queue d') = <[Queue.path (ID e) := QEnvelope e]> (Queue.entries (d_queue d))
  | Some _ => Queue.entries (d_queue d') = Queue.entries (d_queue d)
  end.
Proof.
  unfold be_enqueue, tick, state, mbind, St_bind. cbn. unfold Enqueue.
  destruct (Storage.Split rcpt) as [[local domain]|] eqn:Es; [|by intros [= <- <-]].
  set (e := MkEnvelope _ _ _ _ _ _ _ _ _). pose proof (write_entries (h_io (d_ticks d)) (d_queue d) e) as Hw.
  destruct (write _ _ e) as [q [x|]]; cbn [fst snd] in Hw; intros [= <- <-]; split; try done.
  exists e. split; [|done]. by exists local, domain.
Qed.

Lemma submitted_inj d from rcpt msg e e' : submitted d from rcpt msg e → submitted d from rcpt msg e' → e = e'.
Proof. intros (l&x&H1&->) (l'&x'&H2&->). rewrite H1 in H2. by simplify_eq. Qed.

Lemma step_sound mx m m' : step mx m m' → sound m → unique_ids (m_log m') → sound m'.
Proof.
  intros Hst Hs Hu. destruct Hst as [d p l p' evs d' E|d p l from rcpt msg e d' E He|d p l from rcpt msg err d' E
    |d p l d' Hq Hh|d p l|d p l from rcpt msg e q He Hq Hent|d p l from rcpt msg e q He Hq Hent|d now e due l q Hq]; cbn in Hu.
  - by eapply advance_sound.
  - apply be_enqueue_entries in E as [Hf (e1&He1&Hent)]. rewrite <- (submitted_inj _ _ _ _ _ _ He He1) in Hent. clear e1 He1.
    assert (Hk : known (l ++ [FAccepted e]) e) by (exists e; split; [apply elem_of_app; right; left|done]).
    apply (sound_rewritten d p l); try done.
    + rewrite Hf. apply Hs.
    + right. by exists e.
    + intros e' He'. by apply known_mono, (so_pc _ Hs).
    + intros now e' due ->. by eapply settled_mono, (so_removing _ Hs).
    + intros f ->%list_elem_of_singleton. split; [done|]. intros e' [= <-]. exists e. rewrite Hent, lookup_insert_eq. by split.
  - apply be_enqueue_entries in E as [Hf Hent]. rewrite <- (app_nil_r l) in Hu |- *. apply (sound_rewritten d p l); try done.
    + rewrite Hf. apply Hs.
    + by left.
    + intros e' He'. by apply known_mono, (so_pc _ Hs).
    + intros now e' due ->. by eapply settled_mono, (so_removing _ Hs).
    + by intros ? []%elem_of_nil.
  - rewrite <- (app_nil_r l) in Hu |- *. apply (sound_rewritten d p l); try done.
    + apply Hh, Hs.
    + left. by rewrite Hq.
    + intros e' He'. by apply known_mono, (so_pc _ Hs).
    + intros now e' due ->. by eapply settled_mono, (so_removing _ Hs).
    + by intros ? []%elem_of_nil.
  - rewrite <- (app_nil_r l) in Hu |- *. apply (sound_rewritten d p l); try done; [apply Hs|by intros ? []%elem_of_nil..].
  - rewrite <- (app_nil_r l) in Hu |- *.
    apply (sound_rewritten d p l); try done; [apply Hs|by left|by intros ? []%elem_of_nil..].
  - assert (Hk : known (l ++ [FAccepted e]) e) by (exists e; split; [apply elem_of_app; right; left|done]).
    apply (sound_rewritten d p l); try done; [apply Hs|right; by exists e|by intros ? []%elem_of_nil|].
    intros f ->%list_elem_of_singleton. split; [done|]. intros e' [= <-]. exists e. cbn. rewrite Hent, lookup_insert_eq. by split.
  - rewrite <- (app_nil_r l) in Hu |- *.
    assert (Hk : known (l ++ []) e) by (apply known_mono, (so_pc _ Hs); left).
    apply (sound_rewritten d (Saving now e due) l); try done; [apply Hs| |by intros ? []%elem_of_nil..].
    apply write_trace_entries in Hq as [Hq|Hq]; [by left|right]. by exists e.
Qed.

Lemma step_log mx m m' : step mx m m' → ∃ evs, m_log m' = m_log m ++ evs.
Proof. destruct 1; cbn; eauto using app_nil_r. all: by exists []; rewrite app_nil_r. Qed.

Lemma steps_sound mx m m' : rtc (step mx) m m' → sound m → unique_ids (m_log m') → sound m'.
Proof.
  intros Hr Hs. revert m' Hr. apply (rtc_ind_r (λ m', unique_ids (m_log m') → sound m')); [done|].
  intros m1 m' _ Hst IH Hu. destruct (step_log _ _ _ Hst) as [evs E].
  eapply step_sound; [done| |done]. apply IH. rewrite E in Hu. by eapply unique_less.
Qed.

Lemma initial_sound m : initial m → sound m.
Proof.
  intros [H1 H2 H3 H4]. split; [done| |by rewrite H1; intros ? []%elem_of_nil|by rewrite H1| |].
  - intros n e He. destruct (H3 n e He). split; [done|]. by exists e.
  - intros e (e'&[= <-]&?)%H4. by left.
  - by intros f (e&->&?)%H4.
Qed.

(** ** Mail is not lost *)

(** C3: mail that was accepted for another host is not lost without a
    word: at any moment, whatever the sessions, the transport, the failing
    calls and the crashes of the daemon were, every message that was
    queued is still in the queue as it was submitted; or a mail host of its
    recipient's domain took it over at an attempt of the scheduler; or the
    scheduler ran the bounce, which delivered the notice made of its reason
    into the mailbox of the sender, unless the sender was empty, had no
    mailbox in the configuration of that moment, or the delivery of that
    very notice failed on the disk as it was.  No message is delivered or
    returned that was not queued.  No two submissions may have been given
    the same identifier. *)
Theorem mail_kept mx m m' : initial m → rtc (step mx) m m' → unique_ids (m_log m') →
  (∀ e, FAccepted e ∈ m_log m' →
     queued (m_d m') e ∨
     ∃ e', same_mail e e' ∧
       ((∃ t, FSent e' t ∈ m_log m' ∧ handed_over e' t) ∨
        ∃ reason before after, FNotice e' reason before after ∈ m_log m' ∧ (told e' reason before after ∨ untold e' reason before))) ∧
  (∀ e, (∃ t, FSent e t ∈ m_log m') ∨ (∃ reason d d', FNotice e reason d d' ∈ m_log m') → known (m_log m') e).
Proof.
  intros Hi Hst Hu. apply initial_sound in Hi. apply (steps_sound _ _ _ Hst) in Hi; [|done]. destruct Hi as [_ _ _ _ H5 H6]. split.
  - intros e [?|(e'&Hs&He)]%H5; [by left|right]. exists e'. split; [done|].
    destruct He as [[t He]|(r&d&d'&He)]; [left; exists t|right; exists r, d, d']; (split; [done|apply (H6 _ He)]).
  - intros e [[t He]|(r&d&d'&He)]; apply (H6 _ He).
Qed.

(** ** Sessions are such steps *)

Lemma aside_step mx {A} (m : D A) d p l : aside m → step mx (Machine d p l) (Machine (m d).2 p l).
Proof. intros Hm. destruct (Hm d) as [_ Hh Hq _]. apply O_other; [done|]. unfold host_ok. by rewrite Hh. Qed.

(** What an SMTP session does to the daemon is a sequence of the steps of
    the machine that leave the scheduler where it is, and every message
    that it queued is accepted there. *)
Theorem session_steps mx w0 p l evs w : explains backend w0 evs w →
  ∃ l', rtc (step mx) (Machine w0 p l) (Machine w p (l ++ l')) ∧
    ∀ from rcpt msg, EvEnqueue from rcpt msg None ∈ evs →
      ∃ e, FAccepted e ∈ l' ∧ From e = ToLower from ∧ Rcpt e = ToLower rcpt ∧ Data e = msg.
Proof.
  induction 1 as [|evs w auth u pw i t _ IH Ha|evs w mb f sp msg _ IH|evs w f r msg _ IH
    |evs w dom _ IH|evs w a _ IH|evs w _ IH|evs w g i h f body _ IH Hg|evs w g dom msg _ IH Hg|evs w g u dom _ IH Hg|evs w g u dom _ IH Hg].
  { exists []. rewrite app_nil_r. split; [done|]. by intros ? ? ? ?%elem_of_nil. }
  all: destruct IH as (l'&Hr&Hin).
  - injection Ha as <-. exists l'. split; [eapply rtc_r; [exact Hr|by apply O_other]|].
    intros ? ? ? [?|?%list_elem_of_singleton]%elem_of_app; [eauto|done].
  - exists l'. split.
    + eapply rtc_r; [exact Hr|]. cbn [be_Deliver backend]. unfold be_deliver, in_fs, mbind, St_bind.
      pose proof (Deliver_host_ok h_env (box mb sp) ("Return-Path: <" +:+ f +:+ ">" +:+ CRLF +:+ msg) (d_fs w)) as Hok.
      destruct (Maildir.Deliver _ _ _ (d_fs w)) as [x w']. by apply O_other.
    + intros ? ? ? [?|?%list_elem_of_singleton]%elem_of_app; [eauto|done].
  - cbn [be_Enqueue backend]. destruct (be_enqueue f r msg w) as [[err|] w'] eqn:E; cbn [fst snd].
    + exists l'. split; [eapply rtc_r; [exact Hr|by eapply O_refuse]|].
      intros ? ? ? [?|?%list_elem_of_singleton]%elem_of_app; [eauto|done].
    + pose proof (be_enqueue_entries _ _ _ _ _ _ E) as (_&e&He&_). exists (l' ++ [FAccepted e]). split.
      * rewrite app_assoc. eapply rtc_r; [exact Hr|by eapply O_accept].
      * intros f1 r1 m1 [(e1&?&?)%Hin|H1%list_elem_of_singleton]%elem_of_app.
        -- exists e1. split; [apply elem_of_app; by left|done].
        -- injection H1 as -> -> ->. exists e. split; [apply elem_of_app; right; left|]. by destruct He as (?&?&_&->).
  - exists l'. split; [eapply rtc_r; [exact Hr|by apply O_other]|done].
  - exists l'. split; [eapply rtc_r; [exact Hr|by apply O_other]|done].
  - exists l'. split; [eapply rtc_r; [exact Hr|by apply O_other]|done].
  - injection Hg as <-. exists l'. split; [eapply rtc_r; [exact Hr|apply aside_step, aside_be_screen]|done].
  - injection Hg as <-. exists l'. split; [eapply rtc_r; [exact Hr|apply aside_step, aside_be_sign]|done].
  - injection Hg as <-. exists l'. split; [eapply rtc_r; [exact Hr|apply aside_step, aside_be_may_send]|done].
  - injection Hg as <-. exists l'. split; [eapply rtc_r; [exact Hr|apply (aside_step mx (be_sent u dom)), aside_be_sent]|done].
Qed.

(** ** A round is [Process] *)

(** The scheduler alone for [n] calls. *)
Fixpoint drive (maxAttempts : Z) (n : nat) (p : pc) : D pc :=
  match n with
  | O => mret p
  | S n => r ← advance maxAttempts p; drive maxAttempts n r.1
  end.

Lemma drive_advance mx n p d : drive mx (S n) p d = drive mx n (advance mx p d).1.1 (advance mx p d).2.
Proof. cbn [drive]. by rewrite D_bind. Qed.

Lemma drive_app mx n k p d : drive mx (n + k) p d = drive mx k (drive mx n p d).1 (drive mx n p d).2.
Proof. revert p d. induction n as [|n IH]; intros p d; [done|]. rewrite Nat.add_succ_l, !drive_advance. apply IH. Qed.
Section process.
Context (io : QueueIO) (deliver : Envelope → outcome) (mx now : Z).
Hypothesis Hio : ∀ t, h_io t = io.
Hypothesis Hdeliver : ∀ t e, Queue.Deliver (n_LookupMX t) (n_remote t) e = deliver e.

Lemma drive_attempt e due d c evs : 0 <= Attempts e → host_ok (d_fs d) → ∃ n,
  let r := drive mx n (Todo now (e :: due)) d in
  let s := attempt io mx deliver (MkSched (d_queue d) c evs) e now in
  r.1 = Todo now due ∧ d_queue r.2 = s_q s ∧ host_ok (d_fs r.2).
Proof.
  intros Ha Hh.
  assert (Hstep : ∀ n, drive mx (S n) (Todo now (e :: due)) d = drive mx n (after_try mx now e due (deliver e)) (tick d).2).
  { intros n. rewrite drive_advance. unfold advance, deliver_now, tick, mret, St_ret, mbind, St_bind. cbn. by rewrite Hdeliver. }
  assert (Hrem : ∀ e' d1, d_queue d1 = d_queue d → host_ok (d_fs d1) → ID e' = ID e →
    let r := drive mx 1 (Removing now e' due) d1 in r.1 = Todo now due ∧ d_queue r.2 = Queue.Remove io (d_queue d) e ∧ host_ok (d_fs r.2)).
  { intros e' d1 Hq Hh1 Hid. rewrite drive_advance. unfold advance, remove_now, tick, state, mret, St_ret, mbind, St_bind, drive. cbn.
    rewrite Hio, Hq. split_and!; [done| |done]. unfold Queue.Remove. by rewrite Hid. }
  assert (Hbounce : ∀ e' reason, ID e' = ID e →
    let r := drive mx 2 (Bouncing now e' reason due) (tick d).2 in
    r.1 = Todo now due ∧ d_queue r.2 = Queue.Remove io (d_queue d) e ∧ host_ok (d_fs r.2)).
  { intros e' reason Hid. rewrite drive_advance. unfold advance at 1 2, get, mret, St_ret, mbind, St_bind.
    destruct (bounce_outcome e' reason (tick d).2 Hh) as (Hq&Hh1&_). destruct (bounce e' reason (tick d).2) as [u d1]. by apply Hrem. }
  unfold attempt. cbn [s_q]. destruct (deliver e) as [|code msg|msg] eqn:E; cbn [after_try] in Hstep.
  - exists 2%nat. rewrite Hstep. by apply Hrem.
  - exists 3%nat. rewrite Hstep. by apply Hbounce.
  - change (Attempts (failed_once e msg)) with (Attempts e + 1) in Hstep.
    destruct (mx <=? Attempts e + 1); [exists 3%nat; rewrite Hstep; by apply Hbounce|].
    rewrite backoff_spec in Hstep |- * by lia. exists 2%nat. rewrite Hstep, drive_advance.
    unfold advance, update_now, tick, state, mret, St_ret, mbind, St_bind, drive. cbn. rewrite Hio.
    change (MkEnvelope _ _ _ _ _ _ _ _ _) with (deferred_env e now (Z.min (Minute * 2 ^ (Attempts e + 1 - 1)) (4 * Hour)) msg).
    by destruct (Queue.Update _ _ _).
Qed.

(** Left alone, the scheduler's round does to the queue what [Process] of
    [Queue] does. *)
Theorem round_is_Process due d c evs : Forall (λ e, 0 <= Attempts e) due → host_ok (d_fs d) → ∃ n,
  let r := drive mx n (Todo now due) d in
  r.1 = Todo now [] ∧ d_queue r.2 = s_q (foldl (λ s e, attempt io mx deliver s e now) (MkSched (d_queue d) c evs) due).
Proof.
  intros Hall. revert d c evs. induction Hall as [|e due He _ IH]; intros d c evs Hh; [by exists O|].
  destruct (drive_attempt e due d c evs He Hh) as (n&H1&H2&H3). cbn [foldl].
  destruct (attempt io mx deliver (MkSched (d_queue d) c evs) e now) as [q c' evs'] eqn:E. cbn [s_q] in H2. subst q.
  destruct (IH _ c' evs' H3) as (k&Hk). exists (n + k)%nat. rewrite drive_app, H1. exact Hk.
Qed.
End process.

(** ** Driving the machine *)

Definition proceed (mx : Z) (m : machine) : machine :=
  let '((p, evs), d) := advance mx (m_pc m) (m_d m) in Machine d p (m_log m ++ evs).

Fixpoint proceeds (mx : Z) (n : nat) (m : machine) : machine :=
  match n with O => m | S n => proceeds mx n (proceed mx m) end.

Lemma proceed_step mx m : step mx m (proceed mx m).
Proof. unfold proceed. destruct m as [d p l]. cbn. destruct (advance mx p d) as [[p' evs] d'] eqn:E. by apply O_advance. Qed.

Lemma proceeds_steps mx n m : rtc (step mx) m (proceeds mx n m).
Proof. revert m. induction n as [|n IH]; intros m; [done|]. eapply rtc_l; [apply proceed_step|apply IH]. Qed.

Lemma unique_by_id l : NoDup (ID <$> omap (λ f, match f with FAccepted e => Some e | _ => None end) l) → unique_ids l.
Proof.
  intros Hn e e' He He' Hid.
  assert (Hin : ∀ x, FAccepted x ∈ l → x ∈ omap (λ f, match f with FAccepted e => Some e | _ => None end) l)
    by (intros x Hx; apply list_elem_of_omap; by exists (FAccepted x)).
  apply Hin in He as [i Hi]%list_elem_of_lookup, He' as [j Hj]%list_elem_of_lookup. assert (i = j) as ->; [|congruence].
  rewrite NoDup_alt in Hn. apply (Hn i j (ID e)); rewrite list_lookup_fmap; [by rewrite Hi|by rewrite Hj, Hid].
Qed.
End outbound.

(** ** A message returned to its sender *)

#[local] Existing Instances the_host the_keys the_unicode the_math.

(** A host that does not know the recipient. *)
Definition unknown_user : Queue.Remote :=
  Queue.MkRemote None None None true None (λ _, None) (λ _, Some (EProto 550 "no such user")) None None None None.
#[local] Instance the_net : Net := {| n_LookupMX _ _ := Some [(10, "mx.z.org.")]; n_remote _ _ := unknown_user |}.

Definition sample_outgoing : Envelope :=
  MkEnvelope "7-7" "bob@example.com" "u@z.org" "z.org" 0 0 0 "" ("Subject: hi" +:+ CRLF +:+ CRLF +:+ "hi").
Definition sample_spool : machine :=
  Machine (set_queue {[ "7-7.json" := QEnvelope sample_outgoing ]} sample_daemon) Waiting [FAccepted sample_outgoing].
Abbreviation sample_returned := (proceeds 5 5 sample_spool).

Lemma sample_spool_initial : initial sample_spool.
Proof.
  split; [done|by intros h [=]| |].
  - intros n e He. unfold Queue.entries in He. apply map_lookup_filter_Some in He as [He _].
    unfold sample_spool in He. cbn [m_d d_queue set_queue] in He.
    apply lookup_singleton_Some in He as [<- [= <-]]. split; [done|left].
  - intros f ->%list_elem_of_singleton. exists sample_outgoing. split; [done|]. exists sample_outgoing. by split.
Qed.

Lemma sample_returned_state : m_pc sample_returned = Waiting ∧ Queue.entries (d_queue (m_d sample_returned)) = ∅ ∧
  (dom (w_files (d_fs (m_d sample_returned)))) = {[ ["var"; "mail"; "example.com"; "bob"; "new"; "0.M0P1Q1R7.mx"] ]}.
Proof.
  split_and!; [vm_compute; reflexivity..|]. apply (bool_decide_unpack _). vm_compute. exact I.
Qed.

Lemma mail_kept_witness :
  queued (m_d sample_returned) sample_outgoing ∨
  ∃ e', same_mail sample_outgoing e' ∧
    ((∃ t, FSent e' t ∈ m_log sample_returned ∧ handed_over e' t) ∨
     ∃ reason before after, FNotice e' reason before after ∈ m_log sample_returned ∧
       (told e' reason before after ∨ untold e' reason before)).
Proof.
  apply (mail_kept 5 sample_spool sample_returned).
  - exact sample_spool_initial.
  - exact (proceeds_steps 5 5 sample_spool).
  - apply unique_by_id, (bool_decide_unpack _). vm_compute. exact I.
  - vm_compute. left.
Defined.

(** A notice that cannot be written is not tried again: with a disk that
    refuses every call the message is removed from the queue (which another
    disk may hold) and nobody is told. *)
Definition refusing_disk : Host := {|
  h_env := MkEnv (λ _, true) (λ _, O) (e_clock calm) (e_rand calm) 1 "mx";
  h_io := h_io; h_clock := h_clock; h_rand := h_rand; h_config := h_config; h_auth := h_auth;
  h_LookupHost := h_LookupHost; h_clamd := h_clamd; h_linux := h_linux; h_user_Lookup := h_user_Lookup;
  h_argon2 := h_argon2; h_bcrypt := h_bcrypt; h_date := h_date;
|}.

Example notice_lost :
  let m := proceeds (HO := refusing_disk) 5 5 sample_spool in
  m_pc m = Waiting ∧ Queue.entries (d_queue (m_d m)) = ∅ ∧ w_files (d_fs (m_d m)) = ∅.
Proof. vm_compute. split_and!; reflexivity. Qed.
