(* ===== verification/MailAccess.v ===== *)
(** * Mail access: a login reaches one account

    The POP3 session of [Pop3] with the authentication of [Daemon]: what a
    session does, it does inside the maildirs of the accounts its client
    has logged in to. *)

From S2P Require Import Prelude GoStrings GoUtf8 GoNum GoNet GoIO Session Fs Maildir Mailbox MailFiles Confined Pop3 Pop3Safety Config Storage Auth MailAuth Dkim Bayes Antispam Daemon DaemonSafety.

(** ** The update of the maildrop *)

Section update.
Context `{SliceSort} (env : Env).

Lemma SetFlags_step_in mb i f w mb' e w' : mail_ok mb → SetFlags env mb i f w = (Ok (mb', e), w') →
  step_in (root mb) w w' ∧ mail_ok mb' ∧ root mb' = root mb.
Proof.
  intros Hm E. split; [|by eapply SetFlags_ok]. pose proof (SetFlags_inside env mb i f Hm w) as Hi. by rewrite E in Hi.
Qed.

Lemma mark_deleted_step_in marks ps mb w mb' n w' : mail_ok mb → mark_deleted env marks ps mb w = (Ok (mb', n), w') →
  step_in (root mb) w w' ∧ mail_ok mb' ∧ root mb' = root mb.
Proof.
  revert mb w mb' n w'. induction ps as [|i ps IH]; intros mb w mb' n w' Hm; [by intros [= <- _ <-]|]. cbn [mark_deleted].
  destruct (messages mb !! i) as [m|]; [|by apply IH]. case_bool_decide; [|by apply IH].
  intros ([mb1 e]&w1&E1%SetFlags_step_in&([mb2 n2]&w2&E2&E)%os_bind_ok)%os_bind_ok; [|done].
  destruct E1 as (S1&Hm1&Hr1). apply IH in E2 as (S2&Hm2&Hr2); [|done]. unfold mret, OS_ret in E. injection E as <- _ <-.
  rewrite Hr1 in S2. split; [by etrans|]. split; [done|congruence].
Qed.

Lemma update_step_in marks mb w mb' n r w' : mail_ok mb → update_maildrop env marks mb w = (Ok (mb', n, r), w') →
  step_in (root mb) w w'.
Proof.
  intros Hm. unfold update_maildrop.
  intros ([mb1 n1]&w1&E1%mark_deleted_step_in&([mb2 r2]&w2&E2&E)%os_bind_ok)%os_bind_ok; [|done].
  destruct E1 as (S1&Hm1&Hr1). pose proof (Expunge_inside env mb1 Hm1 w1) as S2. rewrite E2, Hr1 in S2.
  unfold mret, OS_ret in E. injection E as _ _ _ <-. by etrans.
Qed.
End update.

(** ** Sessions *)

Section sessions.
Context `{SliceSort} {A : Type} (env : Env) (Authenticate : Pop3.Backend A) (sets : nat → Pop3.Settings)
  (others : nat → World → World) (p : path).
Hypothesis Hroots : ∀ u pw i b rt, (Authenticate u pw i b).1 = Ok rt → Forall proper rt.
Hypothesis Hothers : ∀ n w, named w → named (others n w).
Hypothesis Hfile : ∀ n w, w_files (others n w) !! p = w_files w !! p.

(** A file outside all the roots that were given is as it was, and every
    check of credentials had the answer of the backend. *)
Record confined (w0 : World) (v : Pop3Safety.visible) : Prop := {
  cf_mbox mb : mbox v.1.1 = Some mb → mail_ok mb ∧ accepted_root v.1.2 (root mb);
  cf_named : named v.2;
  cf_file : (∀ rt, accepted_root v.1.2 rt → below rt p = false) → w_files v.2 !! p = w_files w0 !! p;
  cf_log : Forall (λ '(EvAuth u pw b r), answered Authenticate u pw r) v.1.2;
}.

Lemma step_confined w0 l w rt w' : accepted_root l rt → step_in rt w w' →
  ((∀ rt, accepted_root l rt → below rt p = false) → w_files w !! p = w_files w0 !! p) →
  (∀ rt, accepted_root l rt → below rt p = false) → w_files w' !! p = w_files w0 !! p.
Proof. intros Ha [Hs _] Hf Hall. rewrite Hs; [by apply Hf|by apply Hall]. Qed.

Lemma opened_confined u pw rt r w w' : answered Authenticate u pw (Ok rt) → OpenMailbox env rt Inbox w = (r, w') → named w →
  step_in rt w w' ∧ ∀ mb, r = Ok mb → mail_ok mb ∧ root mb = rt.
Proof.
  intros (i&b&Ha) Ho Hn. apply Hroots in Ha. pose proof (OpenMailbox_inside env rt Ha w) as Hs. rewrite Ho in Hs. split; [done|].
  intros mb ->. by eapply OpenMailbox_ok.
Qed.

Lemma accepted_less l e : (∀ rt, accepted_root (l ++ [e]) rt → below rt p = false) → ∀ rt, accepted_root l rt → below rt p = false.
Proof. intros Hl rt Hrt. by apply Hl, accepted_app. Qed.

(** A step inside a root of an accepted login. *)
Lemma confined_step w0 l w t rt w' : accepted_root l rt → step_in rt w w' → confined w0 (t, l, w) →
  ∀ t' : Trans, (∀ mb, mbox t' = Some mb → mail_ok mb ∧ accepted_root l (root mb)) → confined w0 (t', l, w').
Proof.
  intros Ha Hs [_ H2 H3 H4] t' Hmb. cbn in H2, H3, H4. split; cbn; [exact Hmb|by apply (si_named rt w w' Hs)| |done].
  by eapply step_confined.
Qed.

Lemma confined_login w0 l w t u pw r : answered Authenticate u pw r → confined w0 (t, l, w) →
  confined w0 (t, l ++ [EvAuth u pw true r], w).
Proof.
  intros Ha [H1 H2 H3 H4]. split; cbn in *; [|done| |].
  - intros mb Hmb. destruct (H1 mb Hmb). split; [done|by apply accepted_app].
  - intros Hl. by apply H3, (accepted_less _ _ Hl).
  - apply Forall_app. split; [done|by apply Forall_singleton].
Qed.

Lemma confined_trans w0 l w t t' : mbox t' = mbox t → confined w0 (t, l, w) → confined w0 (t', l, w).
Proof. intros E [H1 H2 H3 H4]. split; cbn in *; [by rewrite E|done..]. Qed.

Lemma move_confined w0 v v' : move env Authenticate others v v' → confined w0 v → confined w0 v'.
Proof.
  intros Hm Hc.
  destruct Hm as [n t l w| | |t l w pw e _ _ Ha|t l w pw rt e w' _ _ Ha Ho|t l w pw rt mb w' _ _ Ha Ho|t l w mb m _ Hmb
    |t l w mb i m _ Hmb _ mb' e w' Es| | ]; try solve [by eapply confined_trans, Hc].
  - destruct Hc as [H1 H2 H3 H4]. split; cbn in *; auto. intros Hl. rewrite Hfile. auto.
  - by eapply confined_trans, confined_login, Hc.
  - pose proof (cf_named _ _ Hc) as Hn. destruct (opened_confined _ _ _ _ _ _ Ha Ho Hn) as [Hs _].
    apply (confined_login _ _ _ _ _ _ _ Ha) in Hc. eapply confined_step; [|exact Hs|exact Hc|exact (cf_mbox _ _ Hc)].
    by apply accepted_snoc.
  - pose proof (cf_named _ _ Hc) as Hn. destruct (opened_confined _ _ _ _ _ _ Ha Ho Hn) as [Hs Hok].
    apply (confined_login _ _ _ _ _ _ _ Ha) in Hc. eapply confined_step; [|exact Hs|exact Hc|]; [by apply accepted_snoc|].
    cbn. intros mb1 [= <-]. destruct (Hok mb eq_refl) as [Hk ->]. split; [done|by apply accepted_snoc].
  - destruct (cf_mbox _ _ Hc mb Hmb) as [Hk Hr]. eapply confined_step; [exact Hr|apply Read_inside|exact Hc|exact (cf_mbox _ _ Hc)].
  - destruct (cf_mbox _ _ Hc mb Hmb) as [Hk Hr]. destruct (SetFlags_step_in _ _ _ _ _ _ _ _ Hk Es) as (Hs&Hk'&Hr').
    eapply confined_step; [exact Hr|exact Hs|exact Hc|]. cbn. intros mb1 [= <-]. by rewrite Hr'.
Qed.

Lemma moves_confined w0 v v' : moves env Authenticate others v v' → confined w0 v → confined w0 v'.
Proof. induction 1 as [|v v1 v2 Hm _ IH]; [done|]. intros Hc. by eapply IH, move_confined. Qed.

Lemma update_confined w0 v v' : update env v v' → confined w0 v →
  Forall (λ '(EvAuth u pw b r), answered Authenticate u pw r) v'.1.2 ∧
  ((∀ rt, accepted_root v'.1.2 rt → below rt p = false) → w_files v'.2 !! p = w_files w0 !! p).
Proof.
  intros [t l w mb mb' n r w' _ _ Hmb E] Hc. destruct (cf_mbox _ _ Hc mb Hmb) as [Hk Hr].
  split; [exact (cf_log _ _ Hc)|]. eapply step_confined; [exact Hr|by eapply update_step_in|exact (cf_file _ _ Hc)].
Qed.

Lemma run_confined fuel s s' : fresh s → named (world s) → run env Authenticate sets others fuel s = Some s' →
  Forall (λ '(EvAuth u pw b r), answered Authenticate u pw r) (log s') ∧
  ((∀ rt, accepted_root (log s') rt → below rt p = false) → w_files (world s') !! p = w_files (world s) !! p).
Proof.
  intros (b&Ht&Hl) Hn Hrun.
  assert (H0 : confined (world s) (view s)) by (unfold view; rewrite Ht, Hl; by split; cbn).
  destruct (run_turn _ _ _ _ _ _ _ Hrun) as [Hm|(_&v&Hm&Hu)]; [|exact (update_confined (world s) v (view s') Hu (moves_confined _ _ _ Hm H0))].
  apply (moves_confined _ _ _ Hm) in H0. by destruct H0.
Qed.
End sessions.

(** ** The roots of the accounts *)

Lemma place_proper dir : Forall proper (place dir).
Proof.
  unfold place, path_join. pose proof (Split_fields_avoid dir "/"%char) as Hs. revert Hs. generalize (GoStrings.Split dir "/"%char).
  assert (H0 : Forall proper ([] : path)) by constructor. revert H0. generalize ([] : path). intros q Hq l Hl.
  revert q Hq. induction Hl as [|c l Hc _ IH]; intros q Hq; [done|]. cbn. apply IH. unfold join_component.
  destruct (String.eqb_spec c "") as [|H1]; [done|]. destruct (String.eqb_spec c ".") as [|H2]; [done|]. cbn.
  destruct (String.eqb_spec c "..") as [|H3].
  - unfold parent. rewrite Forall_forall in Hq |- *. intros x Hx. apply Hq.
    destruct (decide (q = [])) as [->|Hn]; [done|]. rewrite (app_removelast_last "" Hn). apply elem_of_app. by left.
  - apply Forall_app. split; [done|]. by apply Forall_singleton.
Qed.

Section access.
Context {HO : Host} {KL : KeyLib} {UC : Unicode} {ML : MathLib} {SS : SliceSort}.

Lemma answered_sound user pass rt : answered access_auth user pass (Ok rt) →
  ∃ k k' home, valid_login (h_config k) user pass ∧ denotes (h_config k') (ToLower (TrimSpace user)) home ∧ rt = place home.
Proof.
  intros (i&d&E). pose proof (access_auth_sound user pass i d) as Hs. destruct (access_auth user pass i d) as [r d'].
  cbn in E. subst r. apply Hs.
Qed.

(** C27: a login by POP3 reaches one account, all the way to the files:
    whatever the client sends, however the configuration is reloaded and
    whatever else goes on, a file that the session changed is below the
    directory that a configuration in force gives an address whose
    password, valid in a configuration in force, the client had sent over
    TLS. *)
Theorem pop3_end_to_end env sets others fuel (s s' : session Daemon) (p : path) :
  fresh s → named (world s) → (∀ n w, named w → named (others n w)) →
  (∀ n w, w_files (others n w) !! p = w_files w !! p) →
  run env access_auth sets others fuel s = Some s' →
  w_files (world s') !! p = w_files (world s) !! p ∨
  ∃ user pass k k' home, EvAuth user pass true (Ok (place home)) ∈ log s' ∧ valid_login (h_config k) user pass ∧
    denotes (h_config k') (ToLower (TrimSpace user)) home ∧ below (place home) p = true.
Proof.
  intros Hf Hn Ho Hp Hrun.
  assert (Hroots : ∀ u pw i b rt, (access_auth u pw i b).1 = Ok rt → Forall proper rt).
  { intros u pw i b rt E. destruct (answered_sound u pw rt) as (?&?&?&_&_&->); [by do 2 eexists|]. apply place_proper. }
  destruct (run_confined env access_auth sets others p Hroots Ho Hp fuel s s' Hf Hn Hrun) as [Hl Hc].
  destruct (existsb (λ '(EvAuth _ _ b r), b && match r with Ok rt => below rt p | Err _ => false end)%bool (log s')) eqn:Ex.
  - right. apply existsb_exists in Ex as ([u pw b [rt|e]]&Hin&[Hb Hp']%andb_true_iff); [|done]. subst b.
    rewrite <- list_elem_of_In in Hin. rewrite Forall_forall in Hl.
    destruct (answered_sound u pw rt (Hl _ Hin)) as (k&k'&home&Hv&Hd&->). by exists u, pw, k, k', home.
  - left. apply Hc. intros rt (u&pw&Hin). apply not_true_iff_false. intros Hb. apply not_true_iff_false in Ex. apply Ex.
    apply existsb_exists. exists (EvAuth u pw true (Ok rt)). by rewrite <- list_elem_of_In.
Qed.
End access.

(** ** A client *)

#[local] Existing Instances the_host the_keys the_unicode the_math.

Definition sample_mail : path := ["var"; "mail"; "example.com"; "bob"; "new"; "0.M0P1Q1R7.mx"].
Definition sample_passwd : path := ["etc"; "passwd"].
Definition sample_access_world : World :=
  let f := MkFile "hello" 0 in MkWorld {[ sample_mail := f; sample_passwd := f ]} ∅ 0 0 None.

Definition sample_access : session Daemon :=
  newSession (λ _, Pop3.MkSettings "mx.example" true true) "192.0.2.1"
    (MkConn (lines_of ["USER bob@example.com"; "PASS secret"; "DELE 1"; "QUIT"]) None 20 []) 0 sample_daemon sample_access_world.

Abbreviation sample_access_run :=
  (run calm access_auth (λ _, Pop3.MkSettings "mx.example" true true) (λ _ w, w) 20 sample_access).

Lemma sample_access_files :
  match sample_access_run with Some s => is_file (world s) sample_mail = false ∧ is_file (world s) sample_passwd = true | None => False end.
Proof. vm_compute. by split. Qed.

Lemma pop3_end_to_end_witness :
  match sample_access_run with
  | Some s => ∃ user pass k k' home, EvAuth user pass true (Ok (place home)) ∈ log s ∧ valid_login (h_config k) user pass ∧
      denotes (h_config k') (ToLower (TrimSpace user)) home ∧ below (place home) sample_mail = true
  | None => False
  end.
Proof.
  pose proof sample_access_files as Hf. destruct sample_access_run as [s|] eqn:E; [|contradiction]. destruct Hf as [Hf _].
  destruct (pop3_end_to_end calm (λ _, Pop3.MkSettings "mx.example" true true) (λ _ w, w) 20 sample_access s sample_mail) as [H|H].
  - exists true. split; reflexivity.
  - apply named_decided. vm_compute. reflexivity.
  - exact (λ _ w Hw, Hw).
  - reflexivity.
  - exact E.
  - apply bool_decide_eq_false in Hf. destruct Hf. rewrite H. exists (MkFile "hello" 0). vm_compute. reflexivity.
  - exact H.
Defined.
