(* ===== verification/Logging.v ===== *)
(** * The log

    Models [logging/logging.go]: a file that is reopened in place when
    [logrotate] has renamed it.  A rename leaves an open descriptor on the
    file it was opened on, so files are numbered here (as inodes are), and
    a directory gives names to them; [Fs], where nobody keeps a file open
    across a call, has no need of that. *)

From S2P Require Import Prelude GoStrings Fs.

(** The files by number, with their lines, and their names. *)
Record disk := MkDisk { dk_names : gmap path nat; dk_lines : gmap nat (list string) }.

(** [os.OpenFile] with [O_CREATE|O_WRONLY|O_APPEND]; [fails] if the system
    refuses. *)
Definition OpenFile (fails : bool) (p : path) (k : disk) : result nat * disk :=
  if fails then (Err (EMsg "open"), k) else
  match dk_names k !! p with
  | Some i => (Ok i, k)
  | None =>
      let i := fresh (dom (dk_lines k)) in
      (Ok i, MkDisk (<[p := i]> (dk_names k)) (<[i := []]> (dk_lines k)))
  end.

Definition append (i : nat) (line : string) (k : disk) : disk :=
  MkDisk (dk_names k) (alter (λ l, l ++ [line]) i (dk_lines k)).

(** What [logrotate] does: the name goes, with its file, to another. *)
Definition rename (p q : path) (k : disk) : disk :=
  match dk_names k !! p with
  | Some i => MkDisk (<[q := i]> (delete p (dk_names k))) (dk_lines k)
  | None => k
  end.

(** ** A file that can be reopened *)

Record reopenFile := MkReopen { rf_path : path; rf_file : nat; rf_closed : bool }.

Definition openFile (fails : bool) (p : path) (k : disk) : result reopenFile * disk :=
  let '(r, k) := OpenFile fails p k in
  (match r with Ok i => Ok (MkReopen p i false) | Err e => Err e end, k).

(** A line is one [Write], whole or refused. *)
Definition Write (r : reopenFile) (line : string) (k : disk) : disk :=
  if rf_closed r then k else append (rf_file r) line k.

Definition Reopen_file (fails : bool) (r : reopenFile) (k : disk) : result reopenFile * disk :=
  let '(x, k) := OpenFile fails (rf_path r) k in
  (match x with Ok i => Ok (MkReopen (rf_path r) i false) | Err e => Err e end, k).

Definition Close_file (r : reopenFile) : reopenFile := MkReopen (rf_path r) (rf_file r) true.

(** ** The logs of the daemon *)

(** The stream, and the file behind it, which a writer given by the caller
    does not have. *)
Record Logs := MkLogs { lg_svc : option reopenFile; lg_writer : list string }.

Definition log_path (dir : path) : path := path_join dir "kavira.log".

Definition Open (mkdir_fails fails : bool) (dir : path) (k : disk) : result Logs * disk :=
  if mkdir_fails then (Err (EMsg "mkdir"), k) else
  let '(r, k) := openFile fails (log_path dir) k in
  (match r with Ok f => Ok (MkLogs (Some f) []) | Err e => Err e end, k).

Definition OpenWriter : Logs := MkLogs None [].

(** A record of the service stream. *)
Definition Info (line : string) (lk : Logs * disk) : Logs * disk :=
  match lg_svc lk.1 with
  | Some f => (lk.1, Write f line lk.2)
  | None => (MkLogs None (lg_writer lk.1 ++ [line]), lk.2)
  end.

Definition Reopen (fails : bool) (lk : Logs * disk) : option error * (Logs * disk) :=
  match lg_svc lk.1 with
  | None => (None, lk)
  | Some f =>
      let '(r, k) := Reopen_file fails f lk.2 in
      match r with
      | Ok f => (None, (MkLogs (Some f) (lg_writer lk.1), k))
      | Err e => (Some e, (lk.1, k))
      end
  end.

Definition Close (l : Logs) : Logs :=
  match lg_svc l with None => l | Some f => MkLogs (Some (Close_file f)) (lg_writer l) end.

(** What happens to a log while the daemon runs: a line, a rotation, and
    the signal, after which opening may fail. *)
Inductive happening := Line (line : string) | Rotated (p q : path) | Hup (fails : bool).

Definition happen (lk : Logs * disk) (h : happening) : Logs * disk :=
  match h with
  | Line line => Info line lk
  | Rotated p q => (lk.1, rename p q lk.2)
  | Hup fails => (Reopen fails lk).2
  end.

(** ** No line is lost *)

#[local] Arguments OpenFile : simpl never.

Definition all_lines (k : disk) : list string := concat (map_to_list (dk_lines k)).*2.
Definition written (hs : list happening) : list string :=
  omap (λ h, match h with Line l => Some l | _ => None end) hs.
Definition content (k : disk) (i : nat) : list string := default [] (dk_lines k !! i).

(** Every name is one of a file. *)
Definition named_files (k : disk) : Prop := ∀ p i, dk_names k !! p = Some i → is_Some (dk_lines k !! i).

(** The service stream writes to a file that is there. *)
Record writing (lk : Logs * disk) : Prop := {
  wr_names : named_files lk.2;
  wr_file : ∃ f, lg_svc lk.1 = Some f ∧ rf_closed f = false ∧ is_Some (dk_lines lk.2 !! rf_file f);
}.

Lemma all_lines_insert k i l names : dk_lines k !! i = None →
  all_lines (MkDisk names (<[i := l]> (dk_lines k))) ≡ₚ l ++ all_lines k.
Proof. intros Hi. unfold all_lines. cbn. by rewrite map_to_list_insert. Qed.

Lemma all_lines_append k i line : is_Some (dk_lines k !! i) → all_lines (append i line k) ≡ₚ all_lines k ++ [line].
Proof.
  intros [l Hl]. unfold append, all_lines. cbn.
  assert (E : alter (λ l, l ++ [line]) i (dk_lines k) = <[i := l ++ [line]]> (delete i (dk_lines k))).
  { rewrite insert_delete_eq. apply map_eq. intros j. destruct (decide (i = j)) as [<-|Hj].
    - by rewrite lookup_alter_eq, Hl, lookup_insert_eq.
    - by rewrite lookup_alter_ne, lookup_insert_ne. }
  rewrite E, map_to_list_insert by apply lookup_delete_eq.
  rewrite <- (insert_delete_id (dk_lines k) i l Hl) at 2. rewrite map_to_list_insert by apply lookup_delete_eq.
  cbn. rewrite <- !app_assoc. apply Permutation_app_head, Permutation_app_comm.
Qed.

Lemma OpenFile_spec fails p k r k' : OpenFile fails p k = (r, k') → named_files k →
  named_files k' ∧ all_lines k' ≡ₚ all_lines k ∧ (∀ i, content k' i = content k i) ∧
  (∀ i, is_Some (dk_lines k !! i) → is_Some (dk_lines k' !! i)) ∧
  match r with Ok i => dk_names k' !! p = Some i ∧ is_Some (dk_lines k' !! i) | Err _ => k' = k end.
Proof.
  unfold OpenFile. intros E Hk. destruct fails; [by injection E as <- <-|].
  destruct (dk_names k !! p) as [i|] eqn:Ep; injection E as <- <-; [by split_and!; eauto|].
  set (i := fresh (dom (dk_lines k))).
  assert (Hi : dk_lines k !! i = None) by (apply not_elem_of_dom, is_fresh). split_and!.
  - intros q j Hj. cbn in *. destruct (decide (j = i)) as [->|]; [rewrite lookup_insert_eq; eauto|]. rewrite lookup_insert_ne by done.
    destruct (decide (q = p)) as [->|]; [rewrite lookup_insert_eq in Hj; congruence|]. rewrite lookup_insert_ne in Hj by done. eauto.
  - by rewrite all_lines_insert.
  - intros j. unfold content. cbn. destruct (decide (j = i)) as [->|]; [by rewrite lookup_insert_eq, Hi|by rewrite lookup_insert_ne].
  - intros j Hj. cbn. rewrite lookup_insert_ne; [done|]. intros <-. rewrite Hi in Hj. by destruct Hj.
  - cbn. by rewrite lookup_insert_eq.
  - cbn. rewrite lookup_insert_eq. eauto.
Qed.

Lemma content_append k i line j : is_Some (dk_lines k !! i) →
  content (append i line k) j = content k j ++ (if decide (i = j) then [line] else []).
Proof.
  intros [l Hl]. unfold content, append. cbn. case_decide as Hij.
  - subst j. by rewrite lookup_alter_eq, Hl.
  - by rewrite lookup_alter_ne, app_nil_r.
Qed.

Lemma happen_spec lk h : writing lk → let lk' := happen lk h in
  writing lk' ∧ all_lines lk'.2 ≡ₚ all_lines lk.2 ++ written [h] ∧
  (∀ i, ∃ new, content lk'.2 i = content lk.2 i ++ new ∧ new `sublist_of` written [h]) ∧
  (∀ f', lg_svc lk'.1 = Some f' → ∃ f, lg_svc lk.1 = Some f ∧ rf_path f' = rf_path f).
Proof.
  destruct lk as [l k]. intros [Hk (f&Hf&Hc&Hi)]. destruct h as [line|p q|fails]; cbn in *.
  - unfold Info, Write. cbn. rewrite Hf, Hc. cbn. split_and!.
    + split; [|exists f; split_and!; [done..|]; cbn].
      * intros p i Hp. cbn in *. destruct (decide (i = rf_file f)) as [->|]; [rewrite lookup_alter_eq|rewrite lookup_alter_ne by done; eauto].
        destruct Hi as [x ->]. by eexists.
      * rewrite lookup_alter_eq. destruct Hi as [x ->]. by eexists.
    + by apply all_lines_append.
    + intros i. rewrite content_append by done. eexists. split; [done|]. case_decide; [done|apply sublist_nil_l].
    + intros f' Hf'. exists f. cbn in Hf'. split; congruence.
  - assert (Hl : dk_lines (rename p q k) = dk_lines k) by (unfold rename; by destruct (dk_names k !! p)).
    unfold all_lines, content. cbn [fst snd]. rewrite Hl, app_nil_r. split_and!; [|done|intros i; exists []; by rewrite app_nil_r|eauto].
    split; cbn; [|exists f; by rewrite Hl]. intros x j Hx. rewrite Hl. revert Hx. unfold rename.
    destruct (dk_names k !! p) as [i|] eqn:Ep; [|eauto]. cbn. destruct (decide (x = q)) as [->|].
    + rewrite lookup_insert_eq. intros [= <-]. eauto.
    + rewrite lookup_insert_ne by done. intros [_ Hx]%lookup_delete_Some. eauto.
  - unfold Reopen, Reopen_file. cbn. rewrite Hf. destruct (OpenFile fails (rf_path f) k) as [r k'] eqn:E.
    apply OpenFile_spec in E as (H1&H2&H3&H4&H5); [|done]. rewrite app_nil_r.
    destruct r as [i|e]; cbn; split_and!; try done.
    + split; cbn; [done|]. eexists. split; [done|]. cbn. split; [done|apply H5].
    + intros j. exists []. rewrite app_nil_r. by split; [apply H3|].
    + intros f' [= <-]. by exists f.
    + subst k'. split; [done|]. by exists f.
    + intros j. exists []. rewrite app_nil_r. by split; [apply H3|].
    + intros f' Hf'. exists f. split; congruence.
Qed.

Lemma written_app hs hs' : written (hs ++ hs') = written hs ++ written hs'.
Proof. apply omap_app. Qed.

Lemma happens_spec hs lk : writing lk → let lk' := foldl happen lk hs in
  writing lk' ∧ all_lines lk'.2 ≡ₚ all_lines lk.2 ++ written hs ∧
  (∀ i, ∃ new, content lk'.2 i = content lk.2 i ++ new ∧ new `sublist_of` written hs) ∧
  (∀ f', lg_svc lk'.1 = Some f' → ∃ f, lg_svc lk.1 = Some f ∧ rf_path f' = rf_path f).
Proof.
  intros Hw. induction hs as [|h hs (H1&H2&H3&H4)] using rev_ind; cbn.
  { split_and!; [done|by rewrite app_nil_r| |by intros f' ?; exists f']. intros i. exists []. by rewrite app_nil_r. }
  rewrite foldl_app. cbn [foldl]. destruct (happen_spec (foldl happen lk hs) h H1) as (H5&H6&H7&H8). rewrite written_app. split_and!.
  - done.
  - by rewrite H6, H2, <- app_assoc.
  - intros i. destruct (H3 i) as (n1&E1&S1), (H7 i) as (n2&E2&S2). exists (n1 ++ n2). rewrite E2, E1, <- app_assoc. split; [done|].
    by apply sublist_app.
  - intros f' (f1&Hf1&E1)%H8. destruct (H4 f1 Hf1) as (f&Hf&E2). exists f. split; [done|congruence].
Qed.

Lemma Open_writing mkdir_fails fails dir k l k' : Open mkdir_fails fails dir k = (Ok l, k') → named_files k →
  writing (l, k') ∧ all_lines k' ≡ₚ all_lines k ∧ (∀ i, content k' i = content k i) ∧
  ∃ f, lg_svc l = Some f ∧ rf_path f = log_path dir.
Proof.
  unfold Open, openFile. destruct mkdir_fails; [done|]. destruct (OpenFile fails (log_path dir) k) as [[i|e] k1] eqn:E; [|done].
  intros [= <- <-] Hk. apply OpenFile_spec in E as (H1&H2&H3&H4&H5&H6); [|done]. split_and!; [|done..|by eexists].
  split; [done|]. cbn. by eexists.
Qed.

(** C25: rotating the log loses no line: however lines, renames by
    [logrotate] and signals follow each other, and whether or not the
    reopening succeeds, the files hold what they held and every line that
    was logged, once, each file in the order of logging; and the line that
    follows a signal at which the file could be opened is in the file that
    has the log's name. *)
Theorem rotation_loses_nothing mkdir_fails fails dir k l k0 hs :
  Open mkdir_fails fails dir k = (Ok l, k0) → named_files k →
  let '(l', k') := foldl happen (l, k0) hs in
  all_lines k' ≡ₚ all_lines k ++ written hs ∧
  (∀ i, ∃ new, content k' i = content k i ++ new ∧ new `sublist_of` written hs) ∧
  (∀ before line, hs = before ++ [Hup false; Line line] →
     ∃ i earlier, dk_names k' !! log_path dir = Some i ∧ content k' i = earlier ++ [line]).
Proof.
  intros Ho Hk. destruct (Open_writing _ _ _ _ _ _ Ho Hk) as (Hw&Hp&Hc&f0&Hf0&Hpath).
  pose proof (happens_spec hs (l, k0) Hw) as (H1&H2&H3&_).
  destruct (foldl happen (l, k0) hs) as [l' k'] eqn:E. cbn in *. split_and!.
  - by rewrite H2, Hp.
  - intros i. rewrite <- Hc. apply H3.
  - intros before line ->. rewrite foldl_app in E. pose proof (happens_spec before (l, k0) Hw) as (H4&_&_&H5).
    destruct (foldl happen (l, k0) before) as [l1 k1]. cbn [foldl] in E. destruct H4 as [Hn (f&Hf&Hcl&Hi)]. cbn in *.
    destruct (H5 f Hf) as (f0'&Hf0'&Ep). assert (f0' = f0) as -> by congruence.
    unfold Reopen, Reopen_file in E. cbn in E. rewrite Hf in E. destruct (OpenFile false (rf_path f) k1) as [r k2] eqn:E2.
    pose proof (OpenFile_spec _ _ _ _ _ E2 Hn) as (_&_&_&_&H6). destruct r as [i|e]; [|by unfold OpenFile in E2; destruct (dk_names k1 !! rf_path f)].
    destruct H6 as [Hname Hsome]. unfold Info, Write in E. cbn in E.
    injection E as <- <-. exists i, (content k2 i). cbn.
    split; [congruence|]. rewrite content_append by done. by rewrite decide_True.
Qed.

(** A rotation with a reopening that fails at first. *)
Definition rotated_log : path := ["var"; "log"; "kavira"; "kavira.log.1"].
Definition a_week : list happening :=
  [Line "a"; Rotated ["var"; "log"; "kavira"; "kavira.log"] rotated_log; Line "b"; Hup true; Line "c"; Hup false; Line "d"].

Abbreviation opened_log := (Open false false ["var"; "log"; "kavira"] (MkDisk ∅ ∅)).

Example a_week_files :
  match opened_log with
  | (Ok l, k0) => let k' := (foldl happen (l, k0) a_week).2 in
      (content k' <$> dk_names k' !! rotated_log) = Some ["a"; "b"; "c"] ∧
      (content k' <$> dk_names k' !! log_path ["var"; "log"; "kavira"]) = Some ["d"]
  | _ => False
  end.
Proof. vm_compute. split; reflexivity. Qed.

Lemma rotation_loses_nothing_witness :
  match opened_log with
  | (Ok l, k0) => all_lines (foldl happen (l, k0) a_week).2 ≡ₚ ["a"; "b"; "c"; "d"]
  | _ => False
  end.
Proof.
  destruct opened_log as [[l|e] k0] eqn:E; [|vm_compute in E; discriminate E].
  assert (Hn : named_files (MkDisk ∅ ∅)) by (intros p i [=]).
  pose proof (rotation_loses_nothing false false ["var"; "log"; "kavira"] (MkDisk ∅ ∅) l k0 a_week E Hn) as Hr.
  destruct (foldl happen (l, k0) a_week) as [l' k']. exact (proj1 Hr).
Defined.
