(* ===== verification/Server.v ===== *)
(** * The servers: accepting, serving and shutting down

    Models [Server], [New], [Update], [Serve] and [Shutdown] of
    [smtp/server.go], [imap/server.go] and [pop3/pop3.go], which are the
    same but for the limit on connections of the first and the line that
    refuses a client.  The goroutines - the accepting loop, one per
    session, the caller of [Shutdown] and the one that waits for the
    sessions - take their steps in any order; an action is one operation on
    what they share: the semaphore, the wait group, the flag, the field
    [ln] and the listener. *)

From S2P Require Import Prelude GoStrings GoNet Session.

(** A session's goroutine: in [run], before the receive from the
    semaphore of its deferred function, before its [wg.Done]. *)
Inductive phase := Running | Returned | Released.

(** The accepting loop: before [s.ln = ln], in [Accept], holding a
    connection, past the semaphore, past [wg.Add], returned. *)
Inductive accepting :=
  | Entered
  | Accepting
  | Got (c : nat)
  | Taken (c : nat)
  | Added (c : nat)
  | Stopped (err : option string).

(** The caller of [Shutdown]: not called, past [s.closed.Store], past the
    close of the listener, in the [select], returned with the sessions
    drained or not. *)
Inductive stopping := NotCalled | Marked | Closed | Selecting | Over (drained : bool).

Record server := MkServer {
  sv_sem : Z;
  sv_wg : Z;
  sv_closed : bool;
  sv_known : bool;
  sv_open : bool;
  sv_accept : accepting;
  sv_stop : stopping;
  sv_waiter : option bool;
  sv_sessions : list (nat * phase);
  sv_refused : list (nat * string);
}.

(** [New], and a listener that was opened for it. *)
Definition New : server := MkServer 0 0 false false true Entered NotCalled None [] [].

(** What tells the three servers apart: the answer to a connection that
    the limits refuse, which only SMTP asks, and to one too many. *)
Record protocol := MkProtocol {
  p_limited : nat → option string;
  p_busy : nat → string;
}.

Definition smtp_server (allowed : nat → bool) (hostname : nat → string) : protocol :=
  MkProtocol
    (λ c, if allowed c then None else Some ("421 4.7.0 " +:+ hostname c +:+ " too many connections, try again later"))
    (λ c, "421 4.3.2 " +:+ hostname c +:+ " server busy, try again later").
Definition imap_server : protocol := MkProtocol (λ _, None) (λ _, "* BYE server busy, try again later").
Definition pop3_server : protocol := MkProtocol (λ _, None) (λ _, "-ERR server busy, try again later").

Inductive action :=
  | DoStore
  | DoAccept (c : nat)
  | DoFail (err : string)
  | DoAdmit
  | DoAdd
  | DoGo
  | DoReturn (i : nat)
  | DoRelease (i : nat)
  | DoDone (i : nat)
  | DoShutdown
  | DoClose
  | DoWait
  | DoWaited
  | DoDrained
  | DoTimeout.

Definition set_accept (a : accepting) (s : server) : server :=
  MkServer (sv_sem s) (sv_wg s) (sv_closed s) (sv_known s) (sv_open s) a (sv_stop s) (sv_waiter s) (sv_sessions s) (sv_refused s).
Definition set_stop (x : stopping) (s : server) : server :=
  MkServer (sv_sem s) (sv_wg s) (sv_closed s) (sv_known s) (sv_open s) (sv_accept s) x (sv_waiter s) (sv_sessions s) (sv_refused s).
Definition set_counts (sem wg : Z) (s : server) : server :=
  MkServer sem wg (sv_closed s) (sv_known s) (sv_open s) (sv_accept s) (sv_stop s) (sv_waiter s) (sv_sessions s) (sv_refused s).
Definition set_sessions (l : list (nat * phase)) (s : server) : server :=
  MkServer (sv_sem s) (sv_wg s) (sv_closed s) (sv_known s) (sv_open s) (sv_accept s) (sv_stop s) (sv_waiter s) l (sv_refused s).
Definition set_waiter (w : bool) (s : server) : server :=
  MkServer (sv_sem s) (sv_wg s) (sv_closed s) (sv_known s) (sv_open s) (sv_accept s) (sv_stop s) (Some w) (sv_sessions s) (sv_refused s).
Definition refuse (c : nat) (line : string) (s : server) : server :=
  MkServer (sv_sem s) (sv_wg s) (sv_closed s) (sv_known s) (sv_open s) Accepting (sv_stop s) (sv_waiter s) (sv_sessions s)
    (sv_refused s ++ [(c, line)]).

Section server.
Context (workers : Z) (pr : protocol).

(** The accepting loop. *)
Definition serve_step (a : action) (s : server) : option server :=
  match a, sv_accept s with
  | DoStore, Entered =>
      Some (MkServer (sv_sem s) (sv_wg s) (sv_closed s) true (sv_open s) Accepting (sv_stop s) (sv_waiter s) (sv_sessions s) (sv_refused s))
  | DoAccept c, Accepting => if sv_open s then Some (set_accept (Got c) s) else None
  | DoFail err, Accepting => Some (set_accept (Stopped (if sv_closed s then None else Some err)) s)
  | DoAdmit, Got c =>
      match p_limited pr c with
      | Some line => Some (refuse c line s)
      | None =>
          if sv_sem s <? workers then Some (set_accept (Taken c) (set_counts (sv_sem s + 1) (sv_wg s) s))
          else Some (refuse c (p_busy pr c) s)
      end
  | DoAdd, Taken c => Some (set_accept (Added c) (set_counts (sv_sem s) (sv_wg s + 1) s))
  | DoGo, Added c => Some (set_accept Accepting (set_sessions (sv_sessions s ++ [(c, Running)]) s))
  | _, _ => None
  end.

(** A session: the end of [run], then [<-s.sem], then [wg.Done]. *)
Definition session_step (a : action) (s : server) : option server :=
  match a with
  | DoReturn i =>
      match sv_sessions s !! i with
      | Some (c, Running) => Some (set_sessions (<[i := (c, Returned)]> (sv_sessions s)) s)
      | _ => None
      end
  | DoRelease i =>
      match sv_sessions s !! i with
      | Some (c, Returned) => Some (set_counts (sv_sem s - 1) (sv_wg s) (set_sessions (<[i := (c, Released)]> (sv_sessions s)) s))
      | _ => None
      end
  | DoDone i =>
      match sv_sessions s !! i with
      | Some (c, Released) => Some (set_counts (sv_sem s) (sv_wg s - 1) (set_sessions (delete i (sv_sessions s)) s))
      | _ => None
      end
  | _ => None
  end.

(** [Shutdown] and the goroutine that waits. *)
Definition shutdown_step (a : action) (s : server) : option server :=
  match a, sv_stop s with
  | DoShutdown, NotCalled =>
      Some (MkServer (sv_sem s) (sv_wg s) true (sv_known s) (sv_open s) (sv_accept s) Marked (sv_waiter s) (sv_sessions s) (sv_refused s))
  | DoClose, Marked =>
      Some (MkServer (sv_sem s) (sv_wg s) (sv_closed s) (sv_known s) (if sv_known s then false else sv_open s)
              (sv_accept s) Closed (sv_waiter s) (sv_sessions s) (sv_refused s))
  | DoWait, Closed => Some (set_waiter false (set_stop Selecting s))
  | DoDrained, Selecting => if bool_decide (sv_waiter s = Some true) then Some (set_stop (Over true) s) else None
  | DoTimeout, Selecting => Some (set_stop (Over false) s)
  | DoWaited, _ => if bool_decide (sv_waiter s = Some false) && (sv_wg s =? 0) then Some (set_waiter true s) else None
  | _, _ => None
  end.

Definition act (a : action) (s : server) : option server :=
  match serve_step a s with
  | Some s' => Some s'
  | None => match session_step a s with Some s' => Some s' | None => shutdown_step a s end
  end.

Definition step (s s' : server) : Prop := ∃ a, act a s = Some s'.

(** A run along given actions. *)
Definition acts (l : list action) (s : server) : option server := foldl (λ o a, o ≫= act a) (Some s) l.

(** ** Counting *)

Definition holds_token (p : phase) : nat := match p with Released => 0 | _ => 1 end.
Definition serving (p : phase) : nat := match p with Running => 1 | _ => 0 end.
Definition total (f : phase → nat) (l : list (nat * phase)) : nat := sum_list_with (λ x, f x.2) l.

Arguments total : simpl never.

Lemma total_snoc f l x : total f (l ++ [x]) = (total f l + f x.2)%nat.
Proof. unfold total. rewrite sum_list_with_app. cbn. lia. Qed.

Lemma total_insert f l i c p q : l !! i = Some (c, p) → (total f (<[i := (c, q)]> l) + f p = total f l + f q)%nat.
Proof.
  intros Hi. rewrite insert_take_drop by (by eapply lookup_lt_Some). rewrite <- (take_drop_middle l i _ Hi) at 3.
  unfold total. rewrite !sum_list_with_app. cbn. lia.
Qed.

Lemma total_delete f l i c p : l !! i = Some (c, p) → (total f (delete i l) + f p = total f l)%nat.
Proof.
  intros Hi. rewrite delete_take_drop. rewrite <- (take_drop_middle l i _ Hi) at 3.
  unfold total. rewrite !sum_list_with_app. cbn. lia.
Qed.

Lemma total_le f g l : (∀ p, f p <= g p)%nat → (total f l <= total g l)%nat.
Proof. intros Hfg. unfold total. induction l as [|x l IH]; cbn; [done|]. specialize (Hfg x.2). lia. Qed.

Lemma total_length l : total (λ _, 1%nat) l = length l.
Proof. unfold total. induction l; cbn; lia. Qed.

(** What the accepting loop holds. *)
Definition token (a : accepting) : nat := match a with Taken _ | Added _ => 1 | _ => 0 end.
Definition counted (a : accepting) : nat := match a with Added _ => 1 | _ => 0 end.
Definition in_hand (a : accepting) : nat := match a with Got _ | Taken _ | Added _ => 1 | _ => 0 end.

(** The connections a closed server still has to deal with. *)
Definition live (s : server) : nat := (length (sv_sessions s) + in_hand (sv_accept s))%nat.

(** ** The invariant *)

Record sound (s : server) : Prop := {
  so_sem : sv_sem s = Z.of_nat (total holds_token (sv_sessions s) + token (sv_accept s));
  so_wg : sv_wg s = Z.of_nat (length (sv_sessions s) + counted (sv_accept s));
  so_cap : sv_sem s <= Z.max workers 0;
  so_closed : sv_closed s = match sv_stop s with NotCalled => false | _ => true end;
  so_open : sv_open s = false → sv_closed s = true ∧ sv_stop s ≠ Marked;
  so_known : sv_known s = true ↔ sv_accept s ≠ Entered;
  so_waiter : match sv_stop s with Selecting | Over _ => sv_waiter s ≠ None | _ => sv_waiter s = None end;
  so_drained : sv_stop s = Over true → sv_waiter s = Some true;
  so_late : sv_waiter s = Some true → sv_open s = false → (live s <= 1)%nat;
}.

Lemma act_inv a s s' : act a s = Some s' →
  serve_step a s = Some s' ∨ session_step a s = Some s' ∨ shutdown_step a s = Some s'.
Proof. unfold act. destruct (serve_step a s); [by left|]. destruct (session_step a s); [by right; left|by right; right]. Qed.

Lemma New_sound : sound New.
Proof.
  split; cbn; try done; lia.
Qed.

(** Closes what the cases of the invariant share. *)
Ltac count := first
  [ done | lia
  | intros; congruence
  | by (match goal with H : _ ↔ _ ≠ _ |- _ ↔ _ ≠ _ => rewrite H; split; intros; congruence end)
  | intros Hw Ho; match goal with H : _ → _ → (_ <= 1)%nat |- _ => specialize (H Hw Ho) end; lia ].

Lemma serve_sound a s s' : serve_step a s = Some s' → sound s → sound s'.
Proof.
  unfold serve_step. intros E.
  destruct a; try done; destruct (sv_accept s) as [| |x|x|x|x] eqn:Ea; try done;
    repeat (case_match; try done); injection E as <-; intros [H1 H2 H3 H4 H4' H5 H6 H7 H8]; unfold live in *; rewrite Ea in *;
    reflect_bool; (split; cbn in *; unfold live; cbn; rewrite ?total_snoc, ?length_app; cbn; count).
Qed.

Lemma session_sound a s s' : session_step a s = Some s' → sound s → sound s'.
Proof.
  intros E [H1 H2 H3 H4 H4' H5 H6 H7 H8]. unfold session_step in E.
  destruct a as [| | | | | |i|i|i| | | | | |]; try done; destruct (sv_sessions s !! i) as [[c []]|] eqn:Ei; try done; injection E as <-; unfold live in *.
  - pose proof (total_insert holds_token _ _ _ _ Returned Ei) as Ht.
    split; cbn in *; unfold live; cbn; rewrite ?length_insert; count.
  - pose proof (total_insert holds_token _ _ _ _ Released Ei) as Ht.
    split; cbn in *; unfold live; cbn; rewrite ?length_insert; count.
  - pose proof (total_delete holds_token _ _ _ _ Ei) as Ht. pose proof (lookup_lt_Some _ _ _ Ei) as Hlt.
    assert (Hlen : (length (delete i (sv_sessions s)) = length (sv_sessions s) - 1)%nat) by (by rewrite length_delete).
    split; cbn in *; unfold live; cbn; rewrite ?Hlen; count.
Qed.

Lemma shutdown_sound a s s' : shutdown_step a s = Some s' → sound s → sound s'.
Proof.
  unfold shutdown_step. intros E.
  destruct a; try done; destruct (sv_stop s) eqn:Es; try done; repeat (case_match; try done); injection E as <-; reflect_bool.
  all: intros [H1 H2 H3 H4 H4' H5 H6 H7 H8]; split; unfold live in *; cbn in *; rewrite ?Es in *; try count.
  - intros [Hc _]%H4'. congruence.
  - intros _ _. destruct (sv_accept s); cbn in *; lia.
  - intros _ _. destruct (sv_accept s); cbn in *; lia.
Qed.

Lemma server_step_sound s s' : step s s' → sound s → sound s'.
Proof. intros [a [E|[E|E]]%act_inv]; [by eapply serve_sound|by eapply session_sound|by eapply shutdown_sound]. Qed.

Definition reachable (s : server) : Prop := rtc step New s.

Lemma server_steps_sound s s' : rtc step s s' → sound s → sound s'.
Proof. induction 1; eauto using server_step_sound. Qed.

Lemma reachable_sound s : reachable s → sound s.
Proof. intros H. by eapply server_steps_sound, New_sound. Qed.

Lemma total_serving s : (total serving (sv_sessions s) <= total holds_token (sv_sessions s))%nat.
Proof. apply total_le. by intros []; cbn; lia. Qed.

(** C13: whatever the interleaving of connections, sessions and a
    shutdown, no more sessions run at a time than the server has workers,
    and the semaphore and the wait group count exactly those that are
    there, so neither leaks and none is released twice. *)
Theorem sessions_capped s : reachable s →
  Z.of_nat (total serving (sv_sessions s)) <= Z.max workers 0 ∧
  0 <= sv_sem s <= Z.max workers 0 ∧
  sv_sem s = Z.of_nat (total holds_token (sv_sessions s) + token (sv_accept s)) ∧
  sv_wg s = Z.of_nat (length (sv_sessions s) + counted (sv_accept s)).
Proof. intros [H1 H2 H3 _ _ _ _ _ _]%reachable_sound. pose proof (total_serving s). split_and!; [lia..|done|done]. Qed.

(** ** Shutting down *)

Definition stop_weight (x : stopping) : nat :=
  match x with NotCalled => 5 | Marked => 4 | Closed => 3 | Selecting => 1 | Over _ => 0 end.
Definition accept_weight (a : accepting) : nat :=
  match a with Entered => 2 | Accepting => 1 | Got _ => 7 | Taken _ => 6 | Added _ => 5 | Stopped _ => 0 end.
Definition session_weight (p : phase) : nat := match p with Running => 3 | Returned => 2 | Released => 1 end.

Definition waiter_weight (w : option bool) : nat := match w with Some false => 1 | _ => 0 end.

(** The steps that are left at most once the listener is closed. *)
Definition remaining (s : server) : nat :=
  total session_weight (sv_sessions s) + accept_weight (sv_accept s) + stop_weight (sv_stop s) +
  waiter_weight (sv_waiter s).

Lemma closed_step s s' : step s s' → sound s → sv_open s = false →
  sv_open s' = false ∧ (remaining s' < remaining s)%nat ∧ (live s' <= live s)%nat.
Proof.
  unfold remaining, live. intros [a [E|[E|E]]%act_inv] Hs Ho.
  - clear Hs. unfold serve_step in E. destruct a; try done; destruct (sv_accept s) eqn:Ea; try done;
      repeat (case_match; try done); injection E as <-; cbn; rewrite ?total_snoc, ?length_app; cbn; split_and!; first [done|lia|congruence].
  - clear Hs. unfold session_step in E.
    destruct a as [| | | | | |i|i|i| | | | | |]; try done; destruct (sv_sessions s !! i) as [[c []]|] eqn:Ei; try done; injection E as <-; cbn.
    + pose proof (total_insert session_weight _ _ _ _ Returned Ei) as Ht. rewrite length_insert. cbn in Ht. split_and!; first [done|lia|congruence].
    + pose proof (total_insert session_weight _ _ _ _ Released Ei) as Ht. rewrite length_insert. cbn in Ht. split_and!; first [done|lia|congruence].
    + pose proof (total_delete session_weight _ _ _ _ Ei) as Ht. pose proof (lookup_lt_Some _ _ _ Ei) as Hlt.
      rewrite length_delete by done. cbn in Ht. split_and!; first [done|lia|congruence].
  - destruct Hs as [_ _ _ _ Hop _ Hw _ _]. destruct (Hop Ho) as [_ Hm]. revert Hw Hm. unfold shutdown_step in E.
    destruct a; try done; destruct (sv_stop s) eqn:Es; try done; repeat (case_match; try done); injection E as <-; intros Hw Hm; reflect_bool;
      cbn; rewrite ?Es; cbn; split_and!; try done; try congruence; try lia;
      (match goal with H : sv_waiter _ = _ |- _ => rewrite H end); cbn; lia.
Qed.

(** A closed server that can do no more has nothing left. *)
Lemma closed_stuck s : sound s → sv_open s = false → (∀ s', ¬ step s s') →
  sv_sessions s = [] ∧ (∃ r, sv_accept s = Stopped r) ∧ ∃ b, sv_stop s = Over b.
Proof.
  intros Hs Ho Hn. assert (Hact : ∀ a, act a s = None).
  { intros a. destruct (act a s) as [s'|] eqn:E; [|done]. destruct (Hn s'). by exists a. }
  assert (Ha : ∃ r, sv_accept s = Stopped r).
  { destruct (sv_accept s) as [| |c|c|c|r] eqn:Ea; [| | | | |by exists r]; exfalso.
    - specialize (Hact DoStore). unfold act, serve_step in Hact. by rewrite Ea in Hact.
    - specialize (Hact (DoFail "")). unfold act, serve_step in Hact. by rewrite Ea in Hact.
    - specialize (Hact DoAdmit). unfold act, serve_step in Hact. rewrite Ea in Hact.
      destruct (p_limited pr c); [done|]. by destruct (_ <? _).
    - specialize (Hact DoAdd). unfold act, serve_step in Hact. by rewrite Ea in Hact.
    - specialize (Hact DoGo). unfold act, serve_step in Hact. by rewrite Ea in Hact. }
  split_and!; [|done|].
  - destruct (sv_sessions s) as [|[c p] l] eqn:El; [done|exfalso]. destruct p.
    + specialize (Hact (DoReturn 0)). unfold act, session_step in Hact. by rewrite El in Hact.
    + specialize (Hact (DoRelease 0)). unfold act, session_step in Hact. by rewrite El in Hact.
    + specialize (Hact (DoDone 0)). unfold act, session_step in Hact. by rewrite El in Hact.
  - destruct (so_open _ Hs Ho) as [Hc Hm]. pose proof (so_closed _ Hs) as Hcl.
    destruct (sv_stop s) as [| | | |b] eqn:Es; [congruence|congruence|exfalso..|by exists b].
    + specialize (Hact DoWait). unfold act, shutdown_step in Hact. by rewrite Es in Hact.
    + specialize (Hact DoTimeout). unfold act, shutdown_step in Hact. by rewrite Es in Hact.
Qed.

(** The error that [Serve] returns. *)
Lemma closed_error s s' err : step s s' → sound s → sv_open s = false → sv_accept s' = Stopped (Some err) →
  sv_accept s = Stopped (Some err).
Proof.
  intros [a [E|[E|E]]%act_inv] Hs Ho.
  - destruct (so_open _ Hs Ho) as [Hc _]. unfold serve_step in E. destruct a; try done; destruct (sv_accept s); try done;
      repeat (case_match; try done); injection E as <-; cbn; try done; congruence.
  - unfold session_step in E. destruct a; try done; repeat (case_match; try done); by injection E as <-.
  - unfold shutdown_step in E. destruct a; try done; repeat (case_match; try done); by injection E as <-.
Qed.

Lemma closed_steps s s' : rtc step s s' → sound s → sv_open s = false →
  sound s' ∧ sv_open s' = false ∧ (live s' <= live s)%nat ∧ ∀ err, sv_accept s' = Stopped (Some err) → sv_accept s = Stopped (Some err).
Proof.
  induction 1 as [s|s s1 s' Hst _ IH]; intros Hs Ho; [by split_and!|].
  destruct (closed_step _ _ Hst Hs Ho) as (Ho1&_&Hl). destruct (IH (server_step_sound _ _ Hst Hs) Ho1) as (H1&H2&H3&H4).
  split_and!; [done|done|lia|]. intros err He. eapply closed_error; eauto.
Qed.

(** C14: once the listener is closed a server comes to an end: whatever the
    order of the steps that are left there is a bound on their number, the
    loop then has returned, without an error unless it had failed before,
    every session has ended and given back its worker, and [Shutdown] has
    returned; meanwhile at most the connection that the loop already held
    becomes a session. *)
Theorem shutdown_terminates s : reachable s → sv_open s = false →
  (∀ n s', nsteps step n s s' → (n <= remaining s)%nat) ∧
  (∀ s', rtc step s s' → (live s' <= live s)%nat ∧ (sv_waiter s = Some true → (live s' <= 1)%nat)) ∧
  (∀ s', rtc step s s' → (∀ s'', ¬ step s' s'') →
     sv_sessions s' = [] ∧ sv_sem s' = 0 ∧ sv_wg s' = 0 ∧ (∃ drained, sv_stop s' = Over drained) ∧
     ∃ r, sv_accept s' = Stopped r ∧ ∀ err, r = Some err → sv_accept s = Stopped (Some err)).
Proof.
  intros Hr%reachable_sound Ho. split_and!.
  - intros n s' Hn. revert Hr Ho. induction Hn as [s|n s s1 s' Hst _ IH]; intros Hs Ho; [lia|].
    destruct (closed_step _ _ Hst Hs Ho) as (Ho1&Hlt&_). specialize (IH (server_step_sound _ _ Hst Hs) Ho1). lia.
  - intros s' Hst. destruct (closed_steps _ _ Hst Hr Ho) as (_&_&Hl&_). split; [done|].
    intros Hw. pose proof (so_late _ Hr Hw Ho). lia.
  - intros s' Hst Hn. destruct (closed_steps _ _ Hst Hr Ho) as (Hs'&Ho'&_&He).
    destruct (closed_stuck _ Hs' Ho' Hn) as (Hl&[r Ha]&Hov).
    pose proof (so_sem _ Hs') as H1. pose proof (so_wg _ Hs') as H2. rewrite Hl, Ha in H1, H2. split_and!; [done..|].
    exists r. split; [done|]. intros err ->. by apply He.
Qed.

End server.

(** ** Runs *)

Lemma acts_steps workers pr l s s' : acts workers pr l s = Some s' → rtc (step workers pr) s s'.
Proof.
  unfold acts. revert s. induction l as [|a l IH]; intros s; cbn; [by intros [= <-]|].
  destruct (act workers pr a s) as [s1|] eqn:E; cbn.
  - intros H. eapply rtc_l; [by exists a|by apply IH].
  - assert (Hn : ∀ l, foldl (λ o a, o ≫= act workers pr a) None l = None) by (clear; induction l; done). by rewrite Hn.
Qed.

(** Two workers: the third client is refused, and served once a session
    has ended. *)
Definition busy_day : list action :=
  [DoStore; DoAccept 1; DoAdmit; DoAdd; DoGo; DoAccept 2; DoAdmit; DoAdd; DoGo; DoAccept 3; DoAdmit;
   DoReturn 0; DoRelease 0; DoAccept 3; DoAdmit; DoAdd; DoGo].

Example third_refused : (λ s, (sv_sessions s, sv_refused s)) <$> acts 2 imap_server busy_day New =
  Some ([(1%nat, Released); (2%nat, Running); (3%nat, Running)], [(3%nat, "* BYE server busy, try again later")]).
Proof. vm_compute. reflexivity. Qed.

Lemma sessions_capped_witness :
  match acts 2 imap_server busy_day New with
  | Some s => Z.of_nat (total serving (sv_sessions s)) <= 2 ∧ sv_sem s = 2
  | None => False
  end.
Proof.
  destruct (acts 2 imap_server busy_day New) as [s|] eqn:E; [|vm_compute in E; discriminate E].
  split; [exact (proj1 (sessions_capped 2 imap_server s (acts_steps _ _ _ _ _ E)))|].
  vm_compute in E. injection E as <-. reflexivity.
Defined.

Definition stop_day : list action := busy_day ++ [DoShutdown; DoClose; DoWait].

Lemma shutdown_terminates_witness :
  match acts 2 imap_server stop_day New with
  | Some s => ∀ n s', nsteps (step 2 imap_server) n s s' → (n <= 10)%nat
  | None => False
  end.
Proof.
  destruct (acts 2 imap_server stop_day New) as [s|] eqn:E; [|vm_compute in E; discriminate E].
  assert (Ho : sv_open s = false ∧ remaining s = 10%nat) by (vm_compute in E; injection E as <-; vm_compute; split; reflexivity).
  destruct Ho as [Ho <-]. exact (proj1 (shutdown_terminates 2 imap_server s (acts_steps _ _ _ _ _ E) Ho)).
Defined.

(** A connection accepted just before the shutdown becomes a session
    after [Shutdown] has returned with all sessions drained. *)
Example late_session :
  (λ s, (sv_stop s, sv_sessions s)) <$>
    acts 2 pop3_server [DoStore; DoAccept 1; DoShutdown; DoClose; DoWait; DoWaited; DoDrained; DoAdmit; DoAdd; DoGo] New =
  Some (Over true, [(1%nat, Running)]).
Proof. vm_compute. reflexivity. Qed.

(** A shutdown that comes before [Serve] stored its listener does not
    close it: the server goes on accepting. *)
Example deaf_shutdown :
  (λ s, (sv_stop s, sv_open s, sv_sessions s)) <$>
    acts 2 pop3_server [DoShutdown; DoClose; DoWait; DoWaited; DoDrained; DoStore; DoAccept 1; DoAdmit; DoAdd; DoGo] New =
  Some (Over true, true, [(1%nat, Running)]).
Proof. vm_compute. reflexivity. Qed.

(** One failed [Accept], for example for want of file descriptors, ends
    the service of that port while the daemon goes on. *)
Example accept_error_ends :
  (λ s, (sv_accept s, sv_closed s)) <$> acts 2 pop3_server [DoStore; DoFail "too many open files"] New =
  Some (Stopped (Some "too many open files"), false).
Proof. vm_compute. reflexivity. Qed.
