(* ===== verification/Runtime.v ===== *)
(** * The running daemon: listeners, reloads and shutdown

    Models the rest of [runDaemon] in [cmd/kavira/main.go]: which listeners
    start, with which settings, and the loop that refreshes certificates,
    reloads on SIGHUP or over the API and stops; and [newLimits],
    [smtpSettings], [imapSettings], [pop3Settings] and [tlsParams].  Opening
    a socket is a parameter, and so is what the certificate files hold when
    they are read. *)

From S2P Require Import Prelude GoStrings GoNum RateLimit Container Config Fs TlsStore Session Smtp Pop3 Imap.

(** The protocol a listener speaks. *)
Inductive proto := SpeaksSMTP (mode : Smtp.Mode) | SpeaksIMAP | SpeaksPOP3.
#[global] Instance proto_eq_dec : EqDecision proto.
Proof. solve_decision. Defined.

Record spec := MkSpec { sp_name : string; sp_addr : string; sp_proto : proto; sp_implicit : bool }.

(** A port that takes passwords. *)
Definition takes_credentials (p : proto) : bool :=
  match p with SpeaksSMTP Smtp.ModeInbound => false | _ => true end.

Record limitSet := MkLimits { ls_in : option RateLimit.Inbound; ls_out : option RateLimit.Outbound }.

Definition newLimits (cfg : Config) : limitSet :=
  let i := rl_Inbound (c_RateLimit cfg) in
  let o := rl_Outbound (c_RateLimit cfg) in
  MkLimits
    (if Inbound_IsEnabled i then
       Some (NewInbound (ConnectionsPerMinute (in_IP i)) (MessagesPerMinute (in_IP i)) (RecipientsPerMinute (in_IP i)))
     else None)
    (if Outbound_IsEnabled o then
       Some (NewOutbound (MessagesPerHour (out_User o)) (RecipientsPerHour (out_User o)))
     else None).

Definition tlsParams (cfg : Config) : Params :=
  MkParams (path_join [] (CertRoot (c_TLS cfg))) (Config.Hostname (c_Server cfg)) (DomainNames cfg)
    (MinVersion (c_TLS cfg)) (ExpiryWarnDays (c_TLS cfg)).

Section runtime.
(** The key pair in two files at the [k]-th load, the end of a
    certificate's validity, whether an address can be listened on. *)
Context {C : Type} (LoadX509KeyPair : nat → path → path → result C) (ParseCertificate : C → result Z).
Context (fmt_date : Z → string) (listen : string → bool) (clock : nat → Z) `{SliceSort}.

Abbreviation Certs := (Store (C := C)).

Definition load_store (k : nat) (cfg : Config) : Certs :=
  (TlsStore.Reload (LoadX509KeyPair k) ParseCertificate fmt_date (tlsParams cfg) (clock k)).1.

(** Whether any certificate is loaded. *)
Definition any_loaded (s : Certs) : bool := negb (match Loaded s with [] => true | _ => false end).

(** ** Settings *)

(** [set.TLS]: the configuration offered with STARTTLS, as its floor. *)
Definition starttls (s : Certs) (implicit : bool) : option Z :=
  if negb implicit && any_loaded s then Some (tls_MinVersion s) else None.

Definition smtpSettings (cfg : Config) (s : Certs) (mode : Smtp.Mode) (implicit : bool) : Smtp.Settings :=
  Smtp.MkSettings (Config.Hostname (c_Server cfg)) (Config.MaxSize (c_SMTP cfg)) (Config.MaxRecipients (c_SMTP cfg))
    mode implicit (bool_decide (is_Some (starttls s implicit)))
    (MkIdentity (ct_Enabled (c_Container cfg)) (Config.Hostname (c_Server cfg))
       (Config.PublicIP (c_Container cfg)) (Config.InternalIP (c_Container cfg))).

Definition imapSettings (cfg : Config) (s : Certs) (implicit : bool) : Imap.Settings :=
  Imap.MkSettings (Config.Hostname (c_Server cfg)) (bool_decide (is_Some (starttls s implicit))) implicit
    (Config.MaxSize (c_SMTP cfg)).

Definition pop3Settings (cfg : Config) (s : Certs) (implicit : bool) : Pop3.Settings :=
  Pop3.MkSettings (Config.Hostname (c_Server cfg)) (bool_decide (is_Some (starttls s implicit))) implicit.

Inductive settings :=
  | ForSMTP (s : Smtp.Settings) (limits : limitSet)
  | ForIMAP (s : Imap.Settings)
  | ForPOP3 (s : Pop3.Settings).

Definition settings_for (cfg : Config) (s : Certs) (limits : limitSet) (sp : spec) : settings :=
  match sp_proto sp with
  | SpeaksSMTP mode => ForSMTP (smtpSettings cfg s mode (sp_implicit sp)) limits
  | SpeaksIMAP => ForIMAP (imapSettings cfg s (sp_implicit sp))
  | SpeaksPOP3 => ForPOP3 (pop3Settings cfg s (sp_implicit sp))
  end.

(** A running listener: what it was started for, the floor of the TLS
    layer its socket is wrapped in, its current settings and the floor of
    the STARTTLS it offers. *)
Record running := MkRunning {
  rn_spec : spec; rn_wrapped : option Z; rn_set : settings; rn_starttls : option Z;
}.

(** ** Starting *)

Definition specs (cfg : Config) : list spec :=
  let l := c_Listeners cfg in
  [MkSpec "smtp" (l_SMTP l) (SpeaksSMTP Smtp.ModeInbound) false;
   MkSpec "submission" (l_Submission l) (SpeaksSMTP Smtp.ModeSubmission) false;
   MkSpec "smtps" (l_SMTPS l) (SpeaksSMTP Smtp.ModeSubmission) true;
   MkSpec "imap" (l_IMAP l) SpeaksIMAP false;
   MkSpec "imaps" (l_IMAPS l) SpeaksIMAP true;
   MkSpec "pop3" (l_POP3 l) SpeaksPOP3 false;
   MkSpec "pop3s" (l_POP3S l) SpeaksPOP3 true].

Definition start_one (cfg : Config) (s : Certs) (limits : limitSet) (sp : spec) : result (option running) :=
  if is_empty (sp_addr sp) then Ok None
  else if takes_credentials (sp_proto sp) && negb (any_loaded s) then Ok None
  else if negb (listen (sp_addr sp)) then Err (EMsg (sp_name sp +:+ " listener"))
  else Ok (Some (MkRunning sp (if sp_implicit sp then Some (tls_MinVersion s) else None)
                   (settings_for cfg s limits sp) (starttls s (sp_implicit sp)))).

Fixpoint start_all (cfg : Config) (s : Certs) (limits : limitSet) (sps : list spec) : result (list running) :=
  match sps with
  | [] => Ok []
  | sp :: sps =>
      match start_one cfg s limits sp with
      | Err e => Err e
      | Ok r =>
          match start_all cfg s limits sps with
          | Err e => Err e
          | Ok rs => Ok (match r with Some r => r :: rs | None => rs end)
          end
      end
  end.

(** The API server: its keys, and the floor of the TLS layer it has. *)
Record ApiServer := MkApi { api_keys : list string; api_wrapped : Z }.

Definition start_api (cfg : Config) (s : Certs) : result (option ApiServer) :=
  let a := c_API cfg in
  if negb (api_Enabled a) then Ok None
  else if negb (any_loaded s) then Ok None
  else if negb (listen (api_Address a)) then Err (EMsg "api listener")
  else Ok (Some (MkApi (api_Keys a) (tls_MinVersion s))).

(** Where the main loop is: in its [select]; in a refresh, between the read
    of the configuration for the certificates and the one for the settings;
    in a reload, between [mgr.Reload] and [mgr.Get].  Elsewhere it reads
    nothing that another goroutine writes. *)
Inductive position := AtSelect | AtSecondGet | AtGet.

(** The state of the main loop. *)
Record Runtime := MkRuntime {
  r_mgr : Manager;
  r_store : Certs;
  r_limits : limitSet;
  r_servers : list running;
  r_api : option ApiServer;
  r_loads : nat;
  r_stopped : bool;
  r_pos : position;
}.

Definition start (cfg : Config) : result Runtime :=
  let s := load_store 0 cfg in
  let limits := newLimits cfg in
  match start_all cfg s limits (specs cfg) with
  | Err e => Err e
  | Ok servers =>
      match start_api cfg s with
      | Err e => Err e
      | Ok a => Ok (MkRuntime (MkManager cfg None) s limits servers a 1 false AtSelect)
      end
  end.

(** ** The loop *)

(** The steps of the main loop, and reloads over the API, which its own
    goroutine does at any moment; [loaded] is the outcome of [config.Load]. *)
Inductive event :=
  | RefreshCerts
  | RefreshSettings
  | HupReload (loaded : result Config)
  | HupApply
  | ApiReload (loaded : result Config)
  | Terminate.

(** The whole of a refresh and of a reload on SIGHUP, undisturbed. *)
Definition refresh : list event := [RefreshCerts; RefreshSettings].
Definition hup (loaded : result Config) : list event := [HupReload loaded; HupApply].

Definition update_one (cfg : Config) (s : Certs) (limits : limitSet) (r : running) : running :=
  MkRunning (rn_spec r) (rn_wrapped r) (settings_for cfg s limits (rn_spec r)) (starttls s (sp_implicit (rn_spec r))).

Definition updateAll (cfg : Config) (s : Certs) (limits : limitSet) (rs : list running) : list running :=
  update_one cfg s limits <$> rs.

(** [store.Reload(tlsParams(cfg))] *)
Definition reload_certs (cfg : Config) (pos : position) (r : Runtime) : Runtime :=
  MkRuntime (r_mgr r) (load_store (r_loads r) cfg) (r_limits r) (r_servers r) (r_api r) (S (r_loads r)) (r_stopped r) pos.

(** [updateAll(cfg, limits)], after which the loop is in its [select]. *)
Definition update_settings (cfg : Config) (limits : limitSet) (r : Runtime) : Runtime :=
  MkRuntime (r_mgr r) (r_store r) limits (updateAll cfg (r_store r) limits (r_servers r)) (r_api r) (r_loads r) (r_stopped r) AtSelect.

(** The rest of a reload, once it has its configuration. *)
Definition apply_config (cfg : Config) (limits : limitSet) (r : Runtime) : Runtime :=
  update_settings cfg limits (reload_certs cfg (r_pos r) r).

Definition set_mgr (m : Manager) (pos : position) (r : Runtime) : Runtime :=
  MkRuntime m (r_store r) (r_limits r) (r_servers r) (r_api r) (r_loads r) (r_stopped r) pos.

(** A step; one that does not come where the loop is does not happen. *)
Definition handle (r : Runtime) (e : event) : Runtime :=
  if r_stopped r then r else
  match e, r_pos r with
  | RefreshCerts, AtSelect => reload_certs (Config.current (r_mgr r)) AtSecondGet r
  | RefreshSettings, AtSecondGet => update_settings (Config.current (r_mgr r)) (r_limits r) r
  | HupReload loaded, AtSelect =>
      let '(m, err) := Config.Reload (r_mgr r) loaded in
      set_mgr m (match err with Some _ => AtSelect | None => AtGet end) r
  | HupApply, AtGet => let cfg := Config.current (r_mgr r) in apply_config cfg (newLimits cfg) r
  | ApiReload loaded, pos =>
      match r_api r with
      | None => r
      | Some _ => set_mgr (Config.Reload (r_mgr r) loaded).1 pos r
      end
  | Terminate, AtSelect => MkRuntime (r_mgr r) (r_store r) (r_limits r) [] None (r_loads r) true AtSelect
  | _, _ => r
  end.

(** The configurations a sequence of events loads. *)
Definition loaded_by (evs : list event) : list Config :=
  omap (λ e, match e with HupReload (Ok c) | ApiReload (Ok c) => Some c | _ => None end) evs.

(** ** Invariants *)

(** All listeners serve [cfg] with the certificates loaded for [certs]. *)
Definition served (certs cfg : Config) (r : Runtime) : Prop :=
  (∃ k, r_store r = load_store k certs) ∧
  ∀ rn, rn ∈ r_servers r →
    rn_set rn = settings_for cfg (r_store r) (r_limits r) (rn_spec rn) ∧
    rn_starttls rn = starttls (r_store r) (sp_implicit (rn_spec rn)).

Definition serving (cfg : Config) (r : Runtime) : Prop := served cfg cfg r.

(** A refresh had read the certificates for [certs] when a reload over the
    API loaded [cfg], and then read [cfg] for the settings. *)
Definition torn (cfg0 : Config) (evs : list event) (certs cfg : Config) : Prop :=
  ∃ before between after, evs = before ++ RefreshCerts :: between ++ RefreshSettings :: after ∧
    certs ∈ cfg0 :: loaded_by before ∧ ApiReload (Ok cfg) ∈ between.

(** What a listener keeps from the start of the daemon. *)
Definition started_for (cfg : Config) (rn : running) : Prop :=
  let s := load_store 0 cfg in
  rn_spec rn ∈ specs cfg ∧ sp_addr (rn_spec rn) ≠ "" ∧
  (takes_credentials (sp_proto (rn_spec rn)) = true → any_loaded s = true) ∧
  rn_wrapped rn = if sp_implicit (rn_spec rn) then Some (tls_MinVersion s) else None.

Definition api_started_for (cfg : Config) (a : ApiServer) : Prop :=
  api_Enabled (c_API cfg) = true ∧ any_loaded (load_store 0 cfg) = true ∧
  a = MkApi (Config.api_Keys (c_API cfg)) (tls_MinVersion (load_store 0 cfg)).

Lemma start_all_spec cfg s limits sps rs : start_all cfg s limits sps = Ok rs →
  ∀ rn, rn ∈ rs → ∃ sp, sp ∈ sps ∧ start_one cfg s limits sp = Ok (Some rn).
Proof.
  revert rs. induction sps as [|sp sps IH]; cbn [start_all]; intros rs.
  { intros [= <-] rn []%elem_of_nil. }
  destruct (start_one cfg s limits sp) as [r|e] eqn:E1; [|done].
  destruct (start_all cfg s limits sps) as [rs'|e] eqn:E2; [|done]. intros [= <-] rn Hin.
  assert (Hrest : rn ∈ rs' → ∃ sp', sp' ∈ sp :: sps ∧ start_one cfg s limits sp' = Ok (Some rn)).
  { intros (sp'&?&?)%(IH _ eq_refl). exists sp'. split; [by right|done]. }
  destruct r as [r|]; [|by apply Hrest]. apply elem_of_cons in Hin as [->|Hin]; [|by apply Hrest].
  exists sp. split; [left|done].
Qed.

Lemma start_one_spec cfg s limits sp rn : start_one cfg s limits sp = Ok (Some rn) →
  rn_spec rn = sp ∧ sp_addr sp ≠ "" ∧ (takes_credentials (sp_proto sp) = true → any_loaded s = true) ∧
  rn_wrapped rn = (if sp_implicit sp then Some (tls_MinVersion s) else None) ∧
  rn_set rn = settings_for cfg s limits sp ∧ rn_starttls rn = starttls s (sp_implicit sp).
Proof.
  unfold start_one. destruct (is_empty (sp_addr sp)) eqn:Ea; [done|].
  destruct (takes_credentials (sp_proto sp)), (any_loaded s); simpl; try done;
    (destruct (listen (sp_addr sp)); [|done]); intros [= <-]; simpl; (split_and!; try done); by intros E; rewrite E in Ea.
Qed.

(** The parts of the state that every event keeps. *)
Definition rooted (cfg0 : Config) (r : Runtime) : Prop :=
  (∀ rn, rn ∈ r_servers r → started_for cfg0 rn) ∧ (∀ a, r_api r = Some a → api_started_for cfg0 a).

Lemma start_rooted cfg r : start cfg = Ok r → rooted cfg r ∧ serving cfg r.
Proof.
  unfold start. destruct (start_all _ _ _ _) as [rs|e] eqn:E1; [|done].
  destruct (start_api _ _) as [a|e] eqn:E2; [|done]. intros [= <-]. split; split; cbn.
  - intros rn (sp&Hsp&(Hs&?&?&?&_)%start_one_spec)%(start_all_spec _ _ _ _ _ E1). unfold started_for. by rewrite Hs.
  - intros a' ->. revert E2. unfold start_api, api_started_for. destruct (api_Enabled _); [|done].
    destruct (any_loaded _); [|done]. destruct (listen _); [|done]. by intros [= <-].
  - by exists 0%nat.
  - intros rn (sp&Hsp&(Hs&?&?&?&?&?)%start_one_spec)%(start_all_spec _ _ _ _ _ E1). by rewrite Hs.
Qed.

Lemma updated_spec cfg s limits rs rn : rn ∈ updateAll cfg s limits rs ↔ ∃ r, rn = update_one cfg s limits r ∧ r ∈ rs.
Proof. apply list_elem_of_fmap. Qed.

Lemma updated_served certs cfg limits r : (∃ k, r_store r = load_store k certs) → served certs cfg (update_settings cfg limits r).
Proof. intros Hk. split; [exact Hk|]. by intros rn (r'&->&_)%updated_spec. Qed.

Lemma applied_serving cfg limits r : serving cfg (apply_config cfg limits r).
Proof. apply updated_served. by exists (r_loads r). Qed.

(** The invariant of the loop. *)
Record sound (cfg0 : Config) (evs : list event) (r : Runtime) : Prop := {
  so_rooted : rooted cfg0 r;
  so_current : Config.current (r_mgr r) ∈ cfg0 :: loaded_by evs;
  so_settled : r_pos r ≠ AtSecondGet → ∃ certs cfg, certs ∈ cfg0 :: loaded_by evs ∧ cfg ∈ cfg0 :: loaded_by evs ∧
    served certs cfg r ∧ (certs = cfg ∨ torn cfg0 evs certs cfg);
  so_between : r_pos r = AtSecondGet → ∃ certs before between, evs = before ++ RefreshCerts :: between ∧
    certs ∈ cfg0 :: loaded_by before ∧ (∃ k, r_store r = load_store k certs) ∧
    (Config.current (r_mgr r) = certs ∨ ApiReload (Ok (Config.current (r_mgr r))) ∈ between);
}.

Lemma loaded_by_app evs evs' : loaded_by (evs ++ evs') = loaded_by evs ++ loaded_by evs'.
Proof. apply omap_app. Qed.

Lemma loaded_more cfg0 evs evs' c : c ∈ cfg0 :: loaded_by evs → c ∈ cfg0 :: loaded_by (evs ++ evs').
Proof. rewrite loaded_by_app, !elem_of_cons, elem_of_app. tauto. Qed.

Lemma loaded_last cfg0 evs e c : e = HupReload (Ok c) ∨ e = ApiReload (Ok c) → c ∈ cfg0 :: loaded_by (evs ++ [e]).
Proof. intros He. right. rewrite loaded_by_app, elem_of_app. right. destruct He as [-> | ->]; left. Qed.

Lemma torn_more cfg0 evs e certs cfg : torn cfg0 evs certs cfg → torn cfg0 (evs ++ [e]) certs cfg.
Proof.
  intros (b&m&a&->&?&?). exists b, m, (a ++ [e]). split; [|done]. by rewrite <- app_assoc, <- !app_comm_cons, <- app_assoc, <- app_comm_cons.
Qed.

(** An event that only changes the manager, if that. *)
Lemma sound_set_mgr cfg0 evs r m pos e : sound cfg0 evs r →
  (pos = r_pos r ∨ r_pos r ≠ AtSecondGet ∧ pos ≠ AtSecondGet) →
  m = r_mgr r ∨ Config.current m = Config.current (r_mgr r) ∨ e = HupReload (Ok (Config.current m)) ∨ e = ApiReload (Ok (Config.current m)) →
  (r_pos r = AtSecondGet → ∀ x, e ≠ HupReload x) →
  sound cfg0 (evs ++ [e]) (set_mgr m pos r).
Proof.
  intros [H1 H2 H3 H4] Hpos Hm He. split; cbn.
  - exact H1.
  - destruct Hm as [->|[->|Hm]]; [by apply loaded_more..|by apply loaded_last].
  - intros Hp. destruct H3 as (certs&cfg&Hc&Hg&Hs&Ht); [destruct Hpos as [->|[? _]]; done|].
    exists certs, cfg. split_and!; [by apply loaded_more..|exact Hs|]. destruct Ht as [?|?]; [by left|right]. by apply torn_more.
  - intros Hp. assert (Hr : r_pos r = AtSecondGet) by (destruct Hpos as [<-|[_ ?]]; done).
    destruct (H4 Hr) as (certs&before&between&->&Hc&Hk&Hcur). exists certs, before, (between ++ [e]).
    split_and!; [by rewrite <- app_assoc, <- app_comm_cons|done|exact Hk|]. rewrite elem_of_app, list_elem_of_singleton.
    destruct Hm as [->|[->|[->|Hm]]]; [destruct Hcur; auto..| |auto]. by destruct (He Hr (Ok (Config.current m))).
Qed.

Lemma handle_sound cfg0 evs r e : sound cfg0 evs r → sound cfg0 (evs ++ [e]) (handle r e).
Proof.
  intros Hs. assert (Hstay : (r_pos r = AtSecondGet → ∀ x, e ≠ HupReload x) → sound cfg0 (evs ++ [e]) r).
  { intros He. pose proof (sound_set_mgr cfg0 evs r (r_mgr r) (r_pos r) e Hs) as Hx. unfold set_mgr in Hx. destruct r. apply Hx; auto. }
  assert (Hskip : sound cfg0 (evs ++ [e]) r).
  { destruct (r_pos r) eqn:Hp; [apply Hstay; congruence| |apply Hstay; congruence].
    pose proof Hs as [H1 H2 H3 H4]. split; [done|by apply loaded_more|congruence|]. intros _.
    destruct (H4 Hp) as (certs&before&between&->&Hc&Hk&Hcur). exists certs, before, (between ++ [e]).
    split_and!; [by rewrite <- app_assoc, <- app_comm_cons|done|done|]. rewrite elem_of_app. tauto. }
  clear Hstay. unfold handle. destruct (r_stopped r); [done|].
  pose proof Hs as [H1 H2 H3 H4]. destruct e as [| |loaded| |loaded|], (r_pos r) eqn:Hp; try done.
  - split; cbn; [exact H1|by apply loaded_more|done|]. intros _. exists (Config.current (r_mgr r)), evs, [].
    split_and!; [done|done|by exists (r_loads r)|by left].
  - destruct (H4 eq_refl) as (certs&before&between&->&Hc&Hk&Hcur). split; cbn; [|by apply loaded_more| |done].
    { split; [|apply H1]. intros rn (r'&->&Hin)%updated_spec. exact (proj1 H1 _ Hin). }
    intros _. exists certs, (Config.current (r_mgr r)). split_and!; [by do 2 apply loaded_more|by apply loaded_more|by apply updated_served|].
    destruct Hcur as [?|Hin]; [by left|right]. exists before, between, []. by rewrite <- app_assoc, <- app_comm_cons.
  - destruct loaded as [c|x]; cbn [Config.Reload]; (apply (sound_set_mgr cfg0 evs r); [done|right; split; congruence| |congruence]); cbn; auto.
  - assert (Hcur : Config.current (r_mgr r) ∈ cfg0 :: loaded_by (evs ++ [HupApply])) by (by apply loaded_more). split; cbn.
    + split; [|apply H1]. intros rn (r'&->&Hin)%updated_spec. exact (proj1 H1 _ Hin).
    + done.
    + intros _. exists (Config.current (r_mgr r)), (Config.current (r_mgr r)). split_and!; [done..|apply applied_serving|by left].
    + done.
  - destruct (r_api r); [|done]. rewrite <- Hp. apply sound_set_mgr; [done|by left| |congruence]. destruct loaded; cbn; auto.
  - destruct (r_api r); [|done]. rewrite <- Hp. apply sound_set_mgr; [done|by left| |congruence]. destruct loaded; cbn; auto.
  - destruct (r_api r); [|done]. rewrite <- Hp. apply sound_set_mgr; [done|by left| |congruence]. destruct loaded; cbn; auto.
  - destruct (H3 ltac:(done)) as (certs&cfg&Hc&Hg&Hser&Ht). split; cbn; [split; cbn; [by intros ? ?%elem_of_nil|done]|by apply loaded_more| |done].
    intros _. exists certs, cfg. split_and!; [by apply loaded_more..| |destruct Ht; [by left|right; by apply torn_more]].
    split; [exact (proj1 Hser)|]. by intros ? ?%elem_of_nil.
Qed.

Lemma run_sound cfg0 r0 evs : start cfg0 = Ok r0 → sound cfg0 evs (foldl handle r0 evs).
Proof.
  intros Hs. induction evs as [|e evs IH] using rev_ind.
  - assert (Hr0 : Config.current (r_mgr r0) = cfg0 ∧ r_pos r0 = AtSelect).
    { revert Hs. unfold start. repeat case_match; try done. by intros [= <-]. }
    destruct Hr0 as [Hc Hp]. apply start_rooted in Hs as [H1 H2]. cbn [foldl]. split; [done|rewrite Hc; left| |congruence].
    intros _. exists cfg0, cfg0. split_and!; [left|left|done|by left].
  - rewrite foldl_app. by apply handle_sound.
Qed.

(** C16: whatever reloads and refreshes happen, in any order and however
    they end, all listeners serve one and the same configuration, which was
    loaded without error, whenever the main loop is not in the middle of a
    refresh: the listener of port 25 stays an inbound one and the others
    ask for a login, and STARTTLS is offered exactly on the plain ports and
    exactly while a certificate is loaded.  The certificates were read for
    that configuration, unless a reload over the API came between the two
    reads of the configuration by a refresh: then they were read for one
    that was in force before.  A listener that takes passwords, and the
    API, only exist when a certificate was loaded at the start. *)
Theorem runtime_invariant cfg0 r0 evs : start cfg0 = Ok r0 →
  let r := foldl handle r0 evs in
  (r_pos r ≠ AtSecondGet →
   ∃ certs cfg k, certs ∈ cfg0 :: loaded_by evs ∧ cfg ∈ cfg0 :: loaded_by evs ∧ r_store r = load_store k certs ∧
     (certs = cfg ∨ torn cfg0 evs certs cfg) ∧
     ∀ rn, rn ∈ r_servers r →
       rn_set rn = settings_for cfg (load_store k certs) (r_limits r) (rn_spec rn) ∧
       (is_Some (rn_starttls rn) ↔ sp_implicit (rn_spec rn) = false ∧ any_loaded (load_store k certs) = true)) ∧
  (∀ rn, rn ∈ r_servers r → rn_spec rn ∈ specs cfg0 ∧
     (takes_credentials (sp_proto (rn_spec rn)) = true → any_loaded (load_store 0 cfg0) = true) ∧
     (is_Some (rn_wrapped rn) ↔ sp_implicit (rn_spec rn) = true)) ∧
  (is_Some (r_api r) → api_Enabled (c_API cfg0) = true ∧ any_loaded (load_store 0 cfg0) = true).
Proof.
  intros Hs r. destruct (run_sound cfg0 r0 evs Hs) as [[Hrs Hra] _ Hset _]. fold r in Hrs, Hra, Hset. split_and!.
  - intros Hp. destruct (Hset Hp) as (certs&cfg&Hcerts&Hcfg&((k&Hk)&Hser)&Ht). exists certs, cfg, k. split_and!; [done..|].
    intros rn Hin. destruct (Hser rn Hin) as [Hset1 Htls]. rewrite <- Hk. split; [done|].
    rewrite Htls. unfold starttls. destruct (sp_implicit _), (any_loaded _); simpl; split; try (by intros []); by eexists.
  - intros rn (?&_&?&Hw)%Hrs. split_and!; [done..|]. rewrite Hw. destruct (sp_implicit _); split; try done; by intros [].
  - intros [a Ha]. by destruct (Hra a Ha) as (?&?&_).
Qed.

(** A reload reads the files of the configuration. *)
Definition from_files (loaded : result Config) : Prop :=
  ∃ decoded entries decode, loaded = Config.Load decoded entries decode.

(** Reloads over the API while the loop waits to read the manager. *)
Lemma api_reloads cfg r between : r_stopped r = false → Config.current (r_mgr r) ∈ cfg :: loaded_by [] →
  let r' := foldl handle r (ApiReload <$> between) in
  r_stopped r' = false ∧ r_pos r' = r_pos r ∧ Config.current (r_mgr r') ∈ cfg :: loaded_by (ApiReload <$> between).
Proof.
  intros Hr Hc. induction between as [|x between (H1&H2&H3)] using rev_ind; [done|].
  rewrite fmap_app, foldl_app. cbn [foldl fmap list_fmap]. set (r1 := foldl handle r (ApiReload <$> between)) in *.
  unfold handle. rewrite H1. destruct (r_api r1); [|split_and!; [done..|by apply loaded_more]].
  destruct x as [c|e]; cbn; split_and!; try done; [by apply loaded_last; right|by apply loaded_more].
Qed.

(** C34: whatever the configuration files hold when a reload is asked for,
    the configuration in force afterwards is a valid one.  Files that do
    not load leave all as it was but for the error that [kavira status]
    shows, whichever way the reload was asked for; files that load are in
    force at once, and a signal also hands them, with the certificates read
    anew for them and fresh limits, to every listener, while a reload over
    the API leaves the listeners as they are.  When reloads over the API
    come while a signal is handled, the listeners get the last of the
    configurations that were in force, with the certificates for it. *)
Theorem reload_spec r loaded : r_stopped r = false → valid_config (Config.current (r_mgr r)) → from_files loaded →
  let api := handle r (ApiReload loaded) in
  valid_config (Config.current (r_mgr api)) ∧
  (is_Some (r_api r) → api = set_mgr (Config.Reload (r_mgr r) loaded).1 (r_pos r) r) ∧
  (r_pos r = AtSelect →
   let hup := foldl handle r (hup loaded) in
   valid_config (Config.current (r_mgr hup)) ∧
   match loaded with
   | Err e => hup = set_mgr (MkManager (Config.current (r_mgr r)) (Some e)) AtSelect r ∧ (is_Some (r_api r) → api = hup)
   | Ok cfg =>
       r_mgr hup = MkManager cfg None ∧ serving cfg hup ∧ r_limits hup = newLimits cfg ∧
       (rn_spec <$> r_servers hup) = (rn_spec <$> r_servers r) ∧
       (is_Some (r_api r) → api = set_mgr (MkManager cfg None) AtSelect r) ∧
       ∀ between : list (result Config),
         let r' := foldl handle r (HupReload loaded :: (ApiReload <$> between) ++ [HupApply]) in
         let cfg' := Config.current (r_mgr r') in
         cfg' ∈ cfg :: loaded_by (ApiReload <$> between) ∧ serving cfg' r' ∧ r_limits r' = newLimits cfg'
   end).
Proof.
  intros Hr Hv (decoded&entries&decode&Hl). assert (Hc : ∀ cfg, loaded = Ok cfg → valid_config cfg)
    by (intros cfg ->; by eapply Load_valid). clear Hl.
  assert (Hapi : is_Some (r_api r) → handle r (ApiReload loaded) = set_mgr (Config.Reload (r_mgr r) loaded).1 (r_pos r) r).
  { intros [a Ha]. unfold handle. by rewrite Hr, Ha. }
  assert (Hvapi : valid_config (Config.current (r_mgr (handle r (ApiReload loaded))))).
  { unfold handle. rewrite Hr. destruct (r_api r); [|done]. destruct loaded; cbn; [by apply Hc|done]. }
  split_and!; [done..|]. intros Hp.
  assert (Hstep : handle r (HupReload loaded) =
    set_mgr (Config.Reload (r_mgr r) loaded).1 (match loaded with Ok _ => AtGet | Err _ => AtSelect end) r).
  { unfold handle. rewrite Hr, Hp. by destruct loaded. }
  cbn [foldl hup]. rewrite Hstep. destruct loaded as [cfg|e]; cbn [Config.Reload fst].
  - set (r1 := set_mgr (MkManager cfg None) AtGet r). assert (H1 : handle r1 HupApply = apply_config cfg (newLimits cfg) r1).
    { unfold handle. cbn. by rewrite Hr. }
    rewrite H1. cbn. split_and!; [by apply Hc|done|apply applied_serving|done| |intros Hx; specialize (Hapi Hx); by rewrite Hp in Hapi|].
    + unfold updateAll. rewrite <- list_fmap_compose. by apply list_fmap_ext.
    + intros between. rewrite foldl_app. cbn [foldl Config.Reload fst]. fold r1.
      assert (Hb : r_stopped (foldl handle r1 (ApiReload <$> between)) = false ∧ r_pos (foldl handle r1 (ApiReload <$> between)) = AtGet ∧
        Config.current (r_mgr (foldl handle r1 (ApiReload <$> between))) ∈ cfg :: loaded_by (ApiReload <$> between)) by (by apply api_reloads; [..|left]).
      destruct Hb as (B1&B2&B3). set (r2 := foldl handle r1 (ApiReload <$> between)) in *.
      assert (H2 : handle r2 HupApply = apply_config (Config.current (r_mgr r2)) (newLimits (Config.current (r_mgr r2))) r2).
      { unfold handle. by rewrite B1, B2. }
      rewrite H2. cbn. split_and!; [done|apply applied_serving|done].
  - assert (H1 : ∀ m, handle (set_mgr m AtSelect r) HupApply = set_mgr m AtSelect r) by (intros m; unfold handle; cbn; by rewrite Hr).
    rewrite H1. split_and!; [done..|]. intros Hx. by rewrite (Hapi Hx), Hp.
Qed.

(** what a reload does not reach: the TLS floor of the ports that speak
    TLS from the first byte, and of the API, and the keys of the API, are
    those of the configuration the daemon was started with. *)
Theorem reload_leaves cfg0 r0 evs : start cfg0 = Ok r0 →
  let r := foldl handle r0 evs in
  (∀ rn v, rn ∈ r_servers r → rn_wrapped rn = Some v → v = tls_MinVersion (load_store 0 cfg0)) ∧
  (∀ a, r_api r = Some a → a = MkApi (Config.api_Keys (c_API cfg0)) (tls_MinVersion (load_store 0 cfg0))).
Proof.
  intros Hs r. destruct (run_sound cfg0 r0 evs Hs) as [[Hrs Hra] _ _ _]. split.
  - intros rn v (_&_&_&Hw)%Hrs Hv. rewrite Hv in Hw. destruct (sp_implicit _); by simplify_eq.
  - intros a Ha. by destruct (Hra a Ha) as (_&_&?).
Qed.
End runtime.

(** ** A daemon *)

(** The files of a server for one domain with one user. *)
Definition files : result Config :=
  let c := Config.sample in
  Config.Load
    (Ok (MkConfig (c_Server c) (c_Listeners c) (c_TLS c) (c_SMTP c) (c_MailAuth c) (c_Auth c) (c_Queue c) (c_DKIM c)
           (c_Antispam c) (c_Antivirus c) (c_Blacklist c) (c_Reputation c) (c_Container c) (c_RateLimit c)
           (c_DomainsDir c) [] [] (MkAPI true "" ["0123456789abcdef"]) (c_Log c) []))
    (Ok [("example.com.yaml", false); ("notes.txt", false)])
    (λ _, Ok (MkDomainFile "" "" (MkStorage "" "" "" "" "") [MkUser "bob@example.com" "" "/var/mail/bob" "$2b$12$abc"])).

Definition running_cfg : Config := match files with Ok c => c | Err _ => defaults end.

(** The certificate appears after the first load, or is there from the start. *)
Definition late (k : nat) (chain key : path) : result string := if (k =? 0)%nat then Err ENotExist else Ok "cert".
Definition early (k : nat) (chain key : path) : result string := Ok "cert".

Definition boot (load : nat → path → path → result string) : result Runtime :=
  start load (λ _, Ok 0) (λ _, "") (λ _, true) (λ _, 0) running_cfg.

(** Without a certificate only port 25 starts. *)
Example first_start : (sp_name ∘ rn_spec <$> match boot late with Ok r => r_servers r | Err _ => [] end) = ["smtp"] ∧
  (sp_name ∘ rn_spec <$> match boot early with Ok r => r_servers r | Err _ => [] end) =
  ["smtp"; "submission"; "smtps"; "imap"; "imaps"; "pop3"; "pop3s"].
Proof. split; vm_compute; reflexivity. Qed.

(** A certificate appears, the periodic refresh finds it, and the plain
    port then offers TLS. *)
Lemma runtime_invariant_witness :
  match boot late with
  | Ok r0 => let r := foldl (handle late (λ _, Ok 0) (λ _, "") (λ _, 0)) r0 refresh in
      length (r_servers r) = 1%nat ∧ ∀ rn, rn ∈ r_servers r → is_Some (rn_starttls rn) → sp_implicit (rn_spec rn) = false
  | Err _ => False
  end.
Proof.
  destruct (boot late) as [r0|e] eqn:E; [|vm_compute in E; discriminate E]. cbv zeta.
  pose proof (runtime_invariant late (λ _, Ok 0) (λ _, "") (λ _, true) (λ _, 0) running_cfg r0 refresh E)
    as (H&_&_).
  assert (Hp : r_pos (foldl (handle late (λ _, Ok 0) (λ _, "") (λ _, 0)) r0 refresh) ≠ AtSecondGet)
    by (vm_compute in E; injection E as <-; vm_compute; discriminate).
  destruct (H Hp) as (certs&cfg&k&_&_&_&_&Hset).
  split; [vm_compute in E; injection E as <-; vm_compute; reflexivity|].
  intros rn Hin Htls. apply (Hset rn Hin). exact Htls.
Defined.

Lemma reload_spec_witness :
  match boot early with
  | Ok r0 => valid_config (Config.current (r_mgr (foldl (handle early (λ _, Ok 0) (λ _, "") (λ _, 0)) r0 (hup files)))) ∧
      r_stopped r0 = false
  | Err _ => False
  end.
Proof.
  assert (Hf : from_files files) by (do 3 eexists; reflexivity).
  destruct (boot early) as [r0|e] eqn:E; [|vm_compute in E; discriminate E].
  assert (Hs : r_stopped r0 = false) by (vm_compute in E; injection E as <-; reflexivity).
  assert (Hp : r_pos r0 = AtSelect) by (vm_compute in E; injection E as <-; reflexivity).
  assert (Hv : valid_config (Config.current (r_mgr r0))).
  { assert (Hc : Ok (Config.current (r_mgr r0)) = files) by (vm_compute in E; injection E as <-; vm_compute; reflexivity).
    eapply Load_valid. symmetry. exact Hc. }
  split; [|exact Hs].
  exact (proj1 (proj2 (proj2 (reload_spec early (λ _, Ok 0) (λ _, "") (λ _, 0) r0 files Hs Hv Hf)) Hp)).
Defined.

(** Raising the TLS floor to 1.3 reaches STARTTLS on port 587 but not the
    port that speaks TLS from the first byte. *)
Definition stricter : result Config :=
  match files with
  | Ok c => Ok (MkConfig (c_Server c) (c_Listeners c) (MkTLS (CertRoot (c_TLS c)) "1.3" (ExpiryWarnDays (c_TLS c)))
      (c_SMTP c) (c_MailAuth c) (c_Auth c) (c_Queue c) (c_DKIM c) (c_Antispam c) (c_Antivirus c) (c_Blacklist c)
      (c_Reputation c) (c_Container c) (c_RateLimit c) (c_DomainsDir c) (c_Domains c) (c_Users c) (c_API c) (c_Log c)
      (c_Warnings c))
  | Err e => Err e
  end.

Example floor_not_raised :
  match boot early with
  | Ok r0 => (λ rn, (sp_name (rn_spec rn), rn_wrapped rn, rn_starttls rn)) <$>
      take 3 (r_servers (foldl (handle early (λ _, Ok 0) (λ _, "") (λ _, 0)) r0 (hup stricter)))
      = [("smtp", None, Some VersionTLS13); ("submission", None, Some VersionTLS13); ("smtps", Some VersionTLS12, None)]
  | Err _ => False
  end.
Proof. vm_compute. reflexivity. Qed.

(** A reload over the API between the two reads of a refresh: the listeners
    get the settings of the new configuration, which asks for TLS 1.3, and
    a TLS floor read for the old one. *)
Example torn_refresh :
  match boot early with
  | Ok r0 =>
      let r := foldl (handle early (λ _, Ok 0) (λ _, "") (λ _, 0)) r0 [RefreshCerts; ApiReload stricter; RefreshSettings] in
      (MinVersion (c_TLS (Config.current (r_mgr r))), rn_starttls <$> take 2 (r_servers r))
      = ("1.3", [Some VersionTLS12; Some VersionTLS12])
  | Err _ => False
  end.
Proof. vm_compute. reflexivity. Qed.
