(* ===== verification/Api.v ===== *)
(** * The administrative API

    Models [internal/api/api.go]: the routes, the check of the key, the
    limit on attempts and the handlers.  A request is what [net/http] makes
    of it, a document is the value handed to the JSON encoder.  What a
    reload finds in the configuration files, the depth of the queue and
    the text of a duration are parameters. *)

From S2P Require Import Prelude GoStrings GoNum GoNet RateLimit Reputation Config Smtp.

(** ** Requests and responses *)

(** [rq_Get] is [r.Header.Get]. *)
Record Request := MkRequest { rq_Method : string; rq_Path : string; rq_Get : string → string; rq_RemoteAddr : string }.

Inductive json :=
  | JString (s : string)
  | JNumber (n : Z)
  | JFloat (x : f64)
  | JBool (b : bool)
  | JTime (t : Z)
  | JArray (l : list json)
  | JObject (fields : list (string * json)).

(** [MuxReply] is the multiplexer's own answer to a path without a route. *)
Inductive Response :=
  | Reply (code : Z) (header : list (string * string)) (body : json)
  | MuxReply.

Definition writeJSON (header : list (string * string)) (code : Z) (body : json) : Response :=
  Reply code (header ++ [("Content-Type", "application/json")]) body.

Definition error_body (s : string) : json := JObject [("error", JString s)].

(** ** Keys *)

(** [subtle.ConstantTimeCompare] *)
Fixpoint xor_bytes (x y : string) : Z :=
  match x, y with
  | String a x, String b y => Z.lor (Z.lxor (byte_of a) (byte_of b)) (xor_bytes x y)
  | _, _ => 0
  end.

Definition ConstantTimeByteEq (x y : Z) : Z := Z.shiftr (u32 (Z.lxor x y - 1)) 31.

Definition ConstantTimeCompare (x y : string) : Z :=
  if slen x =? slen y then ConstantTimeByteEq (xor_bytes x y) 0 else 0.

Definition presentedKey (r : Request) : string :=
  let h := rq_Get r "Authorization" in
  let other := TrimSpace (rq_Get r "X-API-Key") in
  if is_empty h then other else
  let '(after, ok) := CutPrefix h "Bearer " in
  if ok then TrimSpace after else other.

(** Every key is compared, also after a match. *)
Definition validKey (keys : list string) (presented : string) : bool :=
  if is_empty presented then false
  else foldl (λ ok k, if ConstantTimeCompare k presented =? 1 then true else ok) false keys.

Definition clientIP (r : Request) : string := remoteIP (rq_RemoteAddr r).

(** ** The server *)

(** [Deps] with the configuration manager behind [Config] and [Reload],
    the keys and the limiter. *)
Record Server := MkServer {
  s_mgr : Manager;
  s_rep : option Reputation.Store;
  s_version : string;
  s_started : Z;
  s_keys : list string;
  s_limiter : Limiter;
}.

Definition New (mgr : Manager) (rep : option Reputation.Store) (version : string) (started : Z) (keys : list string) : Server :=
  MkServer mgr rep version started keys (RateLimit.New 60 Minute).

Definition with_mgr (m : Manager) (s : Server) : Server :=
  MkServer m (s_rep s) (s_version s) (s_started s) (s_keys s) (s_limiter s).
Definition with_limiter (l : Limiter) (s : Server) : Server :=
  MkServer (s_mgr s) (s_rep s) (s_version s) (s_started s) (s_keys s) l.

Section server.
Context `{SliceSort} (fmt_uptime : Z → string).

(** What a request meets: the time, the outcome of [config.Load] and the
    number of queued messages. *)
Record Moment := MkMoment { m_now : Z; m_load : result Config; m_queue : Z }.
Context (at_ : Moment).

Definition Handler : Type := Server → Request → Response * Server.

Definition cfg (s : Server) : Config := Config.current (s_mgr s).
Definition uptime (s : Server) : json := JString (fmt_uptime (time_Sub (m_now at_) (s_started s))).

Definition handleHealth : Handler := λ s _,
  (writeJSON [] 200 (JObject [("status", JString "ok"); ("uptime", uptime s)]), s).

Definition handleStatus : Handler := λ s _,
  (writeJSON [] 200 (JObject
    [("version", JString (s_version s)); ("hostname", JString (Config.Hostname (c_Server (cfg s)))); ("uptime", uptime s);
     ("domains", JNumber (llen (c_Domains (cfg s)))); ("users", JNumber (llen (c_Users (cfg s))));
     ("queue", JNumber (m_queue at_))]), s).

Definition domainInfo (d : Domain) : json :=
  JObject ([("name", JString (d_Name d)); ("storage", JString (or_default (st_Type (d_Storage d)) StorageVirtual))]
    ++ if is_empty (d_DKIMSelector d) then [] else [("dkim_selector", JString (d_DKIMSelector d))]).

Definition handleDomains : Handler := λ s _,
  (writeJSON [] 200 (JObject [("domains", JArray (domainInfo <$> c_Domains (cfg s)))]), s).

Definition userInfo (u : User) : json :=
  JObject [("email", JString (u_Email u)); ("type", JString (u_Type u)); ("can_submit", JBool (negb (is_empty (u_PasswordHash u))))].

Definition handleUsers : Handler := λ s _,
  (writeJSON [] 200 (JObject [("users", JArray (userInfo <$> c_Users (cfg s)))]), s).

Definition statsInfo (x : Stats) : json :=
  JObject [("key", JString (st_Key x)); ("score", JFloat (st_Score x)); ("sent", JNumber (st_Sent x));
           ("bounced", JNumber (st_Bounced x)); ("reported", JNumber (st_Reported x));
           ("day_sent", JNumber (st_DaySent x)); ("first_seen", JTime (st_FirstSeen x))].

Definition handleReputation : Handler := λ s _,
  (writeJSON [] 200 (JObject [("reputation",
    JArray (match s_rep s with None => [] | Some r => statsInfo <$> Snapshot r end))]), s).

Definition error_text (e : error) : string := match e with EMsg s => s | ENotExist => "file does not exist" end.

Definition handleReload : Handler := λ s r,
  if negb (String.eqb (rq_Method r) "POST") then (writeJSON [("Allow", "POST")] 405 (error_body "use POST"), s)
  else
    let '(m, err) := Config.Reload (s_mgr s) (m_load at_) in
    match err with
    | Some e => (writeJSON [] 500 (error_body (error_text e)), with_mgr m s)
    | None => (writeJSON [] 200 (JObject [("status", JString "reloaded")]), with_mgr m s)
    end.

Definition too_many : Response := writeJSON [] 429 (error_body "too many requests").
Definition bearer_challenge : string :=
  "Bearer realm=" +:+ String DQUOTE ("kavira" +:+ String DQUOTE "").
Definition invalid_key : Response :=
  writeJSON [("WWW-Authenticate", bearer_challenge)] 401 (error_body "invalid api key").

(** [auth] *)
Definition auth (next : Handler) : Handler := λ s r,
  let '(ok, l) := Allow (s_limiter s) (clientIP r) (m_now at_) in
  let s := with_limiter l s in
  if negb ok then (too_many, s)
  else if negb (validKey (s_keys s) (presentedKey r)) then (invalid_key, s)
  else next s r.

(** The routes of [New]. *)
Definition protected_routes : list (string * Handler) :=
  [("/api/v1/status", handleStatus); ("/api/v1/domains", handleDomains); ("/api/v1/users", handleUsers);
   ("/api/v1/reputation", handleReputation); ("/api/v1/reload", handleReload)].

Definition routes : list (string * Handler) :=
  ("/health", handleHealth) :: ((λ rh, (rh.1, auth rh.2)) <$> protected_routes).

Definition serve : Handler := λ s r,
  match find (λ rh, String.eqb rh.1 (rq_Path r)) routes with
  | Some rh => rh.2 s r
  | None => (MuxReply, s)
  end.
End server.

(** ** The comparison of keys *)

Lemma lor_range n a b : 0 <= n → 0 <= a < 2 ^ n → 0 <= b < 2 ^ n → 0 <= Z.lor a b < 2 ^ n.
Proof.
  intros Hn Ha Hb. assert (H0 : 0 <= Z.lor a b) by (apply Z.lor_nonneg; lia). split; [done|].
  enough (Z.lor a b / 2 ^ n = 0) by (apply Z.div_small_iff in H; [lia|lia]).
  rewrite <- Z.shiftr_div_pow2, Z.shiftr_lor, !Z.shiftr_div_pow2, !Z.div_small by lia. done.
Qed.

Lemma lxor_range n a b : 0 <= n → 0 <= a < 2 ^ n → 0 <= b < 2 ^ n → 0 <= Z.lxor a b < 2 ^ n.
Proof.
  intros Hn Ha Hb. assert (H0 : 0 <= Z.lxor a b) by (apply Z.lxor_nonneg; lia). split; [done|].
  enough (Z.lxor a b / 2 ^ n = 0) by (apply Z.div_small_iff in H; [lia|lia]).
  rewrite <- Z.shiftr_div_pow2, Z.shiftr_lxor, !Z.shiftr_div_pow2, !Z.div_small by lia. done.
Qed.

Lemma xor_bytes_range x y : 0 <= xor_bytes x y < 2 ^ 8.
Proof.
  revert y. induction x as [|a x IH]; intros [|b y]; cbn; try lia.
  apply (lor_range 8); [lia| |apply IH]. pose proof (byte_of_range a). pose proof (byte_of_range b).
  apply (lxor_range 8); lia.
Qed.

Lemma xor_bytes_zero x y : String.length x = String.length y → xor_bytes x y = 0 ↔ x = y.
Proof.
  revert y. induction x as [|a x IH]; intros [|b y]; cbn; try done. intros [= Hl].
  rewrite Z.lor_eq_0_iff, Z.lxor_eq_0_iff, (IH y Hl). split; [intros [Hab ->]|by intros [= -> ->]].
  f_equal. rewrite <- (byte_byte_of a), <- (byte_byte_of b). by rewrite Hab.
Qed.

Lemma ConstantTimeCompare_spec x y : (ConstantTimeCompare x y =? 1) = String.eqb x y.
Proof.
  unfold ConstantTimeCompare, slen. destruct (Z.eqb_spec (Z.of_nat (String.length x)) (Z.of_nat (String.length y))) as [Hl|Hl].
  - apply Nat2Z.inj in Hl. pose proof (xor_bytes_zero x y Hl) as Hz. pose proof (xor_bytes_range x y) as Hr.
    unfold ConstantTimeByteEq. rewrite Z.lxor_0_r. destruct (String.eqb_spec x y) as [Heq|Hne].
    + by rewrite (proj2 Hz Heq).
    + assert (xor_bytes x y ≠ 0) by tauto. unfold u32.
      rewrite Z.mod_small, Z.shiftr_div_pow2, Z.div_small by lia. done.
  - destruct (String.eqb_spec x y) as [->|]; [done|]. done.
Qed.

(** The scan of the keys finds exactly a key of the list. *)
Lemma validKey_spec keys k : validKey keys k = negb (is_empty k) && existsb (λ x, String.eqb x k) keys.
Proof.
  unfold validKey. destruct (is_empty k); [done|]. cbn [negb andb].
  enough (H : ∀ b, foldl (λ ok x, if ConstantTimeCompare x k =? 1 then true else ok) b keys = b || existsb (λ x, String.eqb x k) keys)
    by apply (H false).
  induction keys as [|x keys IH]; intros b; cbn; [by rewrite orb_false_r|].
  rewrite ConstantTimeCompare_spec, IH. by destruct (String.eqb x k), b.
Qed.

(** ** Access *)

Section access.
Context `{SliceSort} (fmt_uptime : Z → string) (at_ : Moment).

(** Whether a request is within its limit and carries a key. *)
Definition authorised (s : Server) (r : Request) : bool :=
  (Allow (s_limiter s) (clientIP r) (m_now at_)).1 && negb (is_empty (presentedKey r))
  && existsb (λ k, String.eqb k (presentedKey r)) (s_keys s).

Lemma auth_spec (next : Handler) s r : auth at_ next s r =
  let s' := with_limiter (Allow (s_limiter s) (clientIP r) (m_now at_)).2 s in
  if authorised s r then next s' r
  else (if (Allow (s_limiter s) (clientIP r) (m_now at_)).1 then invalid_key else too_many, s').
Proof.
  unfold auth, authorised. destruct (Allow _ _ _) as [ok l]. cbn [fst snd]. rewrite validKey_spec. cbn [s_keys with_limiter].
  destruct ok; [|done]. cbn [negb andb]. by destruct (negb (is_empty _) && _).
Qed.

Lemma serve_route s r : serve fmt_uptime at_ s r =
  if String.eqb (rq_Path r) "/health" then handleHealth fmt_uptime at_ s r else
  match find (λ rh, String.eqb rh.1 (rq_Path r)) (protected_routes fmt_uptime at_) with
  | Some rh => auth at_ rh.2 s r
  | None => (MuxReply, s)
  end.
Proof.
  unfold serve, routes. cbn [find fst]. rewrite (String.eqb_sym "/health"). destruct (String.eqb (rq_Path r) "/health"); [done|].
  induction (protected_routes fmt_uptime at_) as [|[p h] rs IH]; [done|]. cbn [find fmap list_fmap fst].
  destruct (String.eqb p (rq_Path r)); [done|exact IH].
Qed.

(** C17: the API answers nobody without a key but for its health, and
    guesses are limited: a request to any other path that is over its
    limit, or does not carry one of the keys, gets one of two fixed answers
    or the multiplexer's own, and changes nothing but the limiter.  Only
    an authorised POST to the reload route changes the configuration, and
    no request changes the keys. *)
Theorem api_guarded s r :
  let '(resp, s') := serve fmt_uptime at_ s r in
  (rq_Path r = "/health" → (resp, s') = handleHealth fmt_uptime at_ s r) ∧
  (rq_Path r ≠ "/health" → authorised s r = false →
     (resp = MuxReply ∧ s' = s) ∨
     ((resp = too_many ∨ resp = invalid_key) ∧
      s' = with_limiter (Allow (s_limiter s) (clientIP r) (m_now at_)).2 s)) ∧
  (s_mgr s' ≠ s_mgr s → authorised s r = true ∧ rq_Path r = "/api/v1/reload" ∧ rq_Method r = "POST") ∧
  s_keys s' = s_keys s.
Proof.
  rewrite serve_route. destruct (String.eqb_spec (rq_Path r) "/health") as [Hp|Hp]; [by rewrite Hp|].
  destruct (find _ _) as [[p h]|] eqn:Hf; [|by split_and!; [intros|left|intros|]].
  apply find_some in Hf as [Hin Hpath]. cbn [fst snd] in *. apply String.eqb_eq in Hpath. rewrite auth_spec. cbv zeta.
  set (s1 := with_limiter _ s). destruct (authorised s r).
  - assert (Hh : (s_mgr (h s1 r).2 ≠ s_mgr s → rq_Path r = "/api/v1/reload" ∧ rq_Method r = "POST") ∧
      s_keys (h s1 r).2 = s_keys s).
    { revert Hin. rewrite <- Hpath. cbn [protected_routes In].
      intros [[= <- <-]|[[= <- <-]|[[= <- <-]|[[= <- <-]|[[= <- <-]|[]]]]]]; try by split.
      unfold handleReload. destruct (String.eqb_spec (rq_Method r) "POST") as [->|]; [|by split].
      cbn [negb]. destruct (Config.Reload _ _) as [m [e|]]; by split. }
    destruct (h s1 r) as [resp s'], Hh as [Hm Hk]. split_and!; [done|done| |exact Hk].
    intros Hne. destruct (Hm Hne). by split_and!.
  - split_and!; try done. intros _ _. right. split; [|done]. destruct (Allow _ _ _).1; auto.
Qed.
End access.

(** ** What the API reveals *)

(** All that a reader with a key can learn of a configuration. *)
Definition public_view (c : Config) : string * list (string * string * string) * list (string * string * bool) :=
  (Config.Hostname (c_Server c),
   (λ d, (d_Name d, st_Type (d_Storage d), d_DKIMSelector d)) <$> c_Domains c,
   (λ u, (u_Email u, u_Type u, negb (is_empty (u_PasswordHash u)))) <$> c_Users c).

Lemma fmap_view {A B C} (f : A → B) (g : B → C) (h : A → C) (l l' : list A) : (∀ x, h x = g (f x)) → f <$> l = f <$> l' → h <$> l = h <$> l'.
Proof.
  intros Hh Hl. rewrite (list_fmap_ext h (g ∘ f) l), (list_fmap_ext h (g ∘ f) l') by (intros; apply Hh).
  by rewrite !list_fmap_compose, Hl.
Qed.

(** The API hands out no secret: two servers whose configurations
    agree on the host name, on the names, kinds and selectors of the
    domains, and on the addresses and kinds of the users and on whether
    each has a password, give the same answer to every request, however
    the password hashes, the directories of the mailboxes and everything
    else differ; and without a key the whole configuration makes no
    difference. *)
Theorem api_reveals `{SliceSort} fmt_uptime at_ s m r :
  public_view (Config.current (s_mgr s)) = public_view (Config.current m) ∨ authorised at_ s r = false →
  (serve fmt_uptime at_ (with_mgr m s) r).1 = (serve fmt_uptime at_ s r).1.
Proof.
  intros Hview. rewrite !serve_route. destruct (String.eqb (rq_Path r) "/health"); [done|].
  destruct (find _ _) as [[p h]|] eqn:Hf; [|done]. apply find_some in Hf as [Hin _]. cbn [snd].
  rewrite !auth_spec. cbv zeta. change (authorised at_ (with_mgr m s) r) with (authorised at_ s r).
  destruct (authorised at_ s r) eqn:Ha; [|done]. destruct Hview as [Hview|]; [|done].
  injection Hview as Hhost Hdom Husers.
  set (l := (Allow _ _ _).2). change (s_limiter (with_mgr m s)) with (s_limiter s). fold l.
  cbn [protected_routes In] in Hin. destruct Hin as [[= <- <-]|[[= <- <-]|[[= <- <-]|[[= <- <-]|[[= <- <-]|[]]]]]].
  - unfold handleStatus, cfg. cbn. rewrite Hhost. unfold llen.
    by rewrite <- (length_fmap (λ d, (d_Name d, st_Type (d_Storage d), d_DKIMSelector d)) (c_Domains (Config.current m))), <- Hdom,
      <- (length_fmap (λ u, (u_Email u, u_Type u, negb (is_empty (u_PasswordHash u)))) (c_Users (Config.current m))), <- Husers,
      !length_fmap.
  - unfold handleDomains, cfg. cbn. do 5 f_equal. symmetry. eapply (fmap_view _ (λ '(n, t, sel),
      JObject ([("name", JString n); ("storage", JString (or_default t StorageVirtual))]
        ++ if is_empty sel then [] else [("dkim_selector", JString sel)]))); [|exact Hdom]. done.
  - unfold handleUsers, cfg. cbn. do 5 f_equal. symmetry. eapply (fmap_view _ (λ '(e, t, b),
      JObject [("email", JString e); ("type", JString t); ("can_submit", JBool b)])); [|exact Husers]. done.
  - done.
  - unfold handleReload. destruct (negb _); [done|]. by destruct (m_load at_).
Qed.

(** ** A server *)

Definition with_users (us : list User) : Manager :=
  let c := defaults in
  MkManager (MkConfig (Config.MkServer "mx.example.com" 1) (c_Listeners c) (c_TLS c) (c_SMTP c) (c_MailAuth c) (c_Auth c) (c_Queue c)
    (c_DKIM c) (c_Antispam c) (c_Antivirus c) (c_Blacklist c) (c_Reputation c) (c_Container c) (c_RateLimit c) (c_DomainsDir c)
    [MkDomain "example.com" (MkStorage "" "" "" "" "") "s1"] us (c_API c) (c_Log c) []) None.

Definition sample_server : Server :=
  New (with_users [MkUser "bob@example.com" "virtual" "/m/bob" "$2b$12$abc"; MkUser "eve@example.com" "virtual" "/m/eve" ""])
    None "dev" 0 ["0123456789abcdef"; "fedcba9876543210"].

Definition request (method p key : string) : Request :=
  MkRequest method p (λ h, if String.eqb h "Authorization" then "Bearer " +:+ key else "") "192.0.2.1:999".

Definition moment : Moment := MkMoment 0 (Err (EMsg "no such file")) 3.

Example users_listed : (serve (λ _, "0s") moment sample_server (request "GET" "/api/v1/users" "fedcba9876543210")).1 =
  Reply 200 [("Content-Type", "application/json")] (JObject [("users", JArray
    [JObject [("email", JString "bob@example.com"); ("type", JString "virtual"); ("can_submit", JBool true)];
     JObject [("email", JString "eve@example.com"); ("type", JString "virtual"); ("can_submit", JBool false)]])]).
Proof. vm_compute. reflexivity. Qed.

Example answers : (λ r, match (serve (λ _, "0s") moment sample_server r).1 with Reply c _ _ => c | MuxReply => 0 end) <$>
  [request "GET" "/health" ""; request "GET" "/api/v1/status" ""; request "GET" "/api/v1/status" "0123456789abcdeg";
   request "GET" "/api/v1/reload" "0123456789abcdef"; request "POST" "/api/v1/reload" "0123456789abcdef";
   request "GET" "/api/v1/" "0123456789abcdef"] = [200; 401; 401; 405; 500; 0].
Proof. vm_compute. reflexivity. Qed.

Lemma api_reveals_witness :
  (serve (λ _, "0s") moment (with_mgr (with_users [MkUser "bob@example.com" "virtual" "/elsewhere" "$argon2id$x";
     MkUser "eve@example.com" "virtual" "/m/eve" ""]) sample_server) (request "GET" "/api/v1/users" "fedcba9876543210")).1
  = (serve (λ _, "0s") moment sample_server (request "GET" "/api/v1/users" "fedcba9876543210")).1.
Proof. apply (api_reveals (λ _, "0s") moment sample_server). left. vm_compute. reflexivity. Defined.
