(* ===== verification/Checks.v ===== *)
(** * Diagnostics on the machine: audit and container check

    Models [internal/checks/checks.go], [audit.go] and [container.go]: the
    report with its exit code, the audit of configuration, credentials and
    file permissions, and the check of a containerised deployment.  What
    the machine answers - files and their modes, the host name, the
    container engine, the interfaces, the ports - is a parameter. *)

From S2P Require Import Prelude GoStrings GoNum GoNet Container Config Fs.

(** ** The report *)

Inductive Status := Pass | Warn | Fail_ | Skip.

#[global] Instance status_eq_dec : EqDecision Status.
Proof. solve_decision. Defined.

Definition status_text (s : Status) : string :=
  match s with Pass => "PASS" | Warn => "WARN" | Fail_ => "FAIL" | Skip => "SKIP" end.

Record Result := MkResult { re_Section : string; re_Name : string; re_Status : Status; re_Detail : string; re_Fix : string }.

Abbreviation Report := (list Result).

Definition pass (section name detail : string) : Report := [MkResult section name Pass detail ""].
Definition warn (section name detail fix_ : string) : Report := [MkResult section name Warn detail fix_].
Definition fail (section name detail fix_ : string) : Report := [MkResult section name Fail_ detail fix_].
Definition skip (section name detail : string) : Report := [MkResult section name Skip detail ""].

Definition count_of (s : Status) (r : Report) : Z := llen (filter (λ x, re_Status x = s) r).
Definition Counts (r : Report) : Z * Z * Z * Z := (count_of Pass r, count_of Warn r, count_of Fail_ r, count_of Skip r).

Definition ExitCode (r : Report) : Z := let '(_, _, f, _) := Counts r in if 0 <? f then 1 else 0.

(** The sections in the order they are first met. *)
Fixpoint sections (seen : list string) (r : Report) : list string :=
  match r with
  | [] => []
  | x :: r => if mem (re_Section x) seen then sections seen r else re_Section x :: sections (re_Section x :: seen) r
  end.

Definition NL : string := String LF "".
Definition Repeat (s : string) (n : Z) : string := Join (replicate (Z.to_nat n) s) "".

Definition print_result (x : Result) : string :=
  "  [" +:+ status_text (re_Status x) +:+ "] " +:+ re_Name x
  +:+ (if is_empty (re_Detail x) then "" else ": " +:+ re_Detail x) +:+ NL
  +:+ (if negb (is_empty (re_Fix x)) && (bool_decide (re_Status x = Warn) || bool_decide (re_Status x = Fail_))
       then "         fix: " +:+ re_Fix x +:+ NL else "").

Definition print_section (r : Report) (section : string) : string :=
  section +:+ NL +:+ Repeat "-" (slen section) +:+ NL
  +:+ Join (print_result <$> filter (λ x, re_Section x = section) r) "" +:+ NL.

Definition Print_ (r : Report) (title : string) : string :=
  title +:+ NL +:+ Repeat "=" (slen title) +:+ NL +:+ NL
  +:+ Join (print_section r <$> sections [] r) ""
  +:+ (let '(p, w, f, s) := Counts r in
       dec p +:+ " passed, " +:+ dec w +:+ " warnings, " +:+ dec f +:+ " failures, " +:+ dec s +:+ " skipped" +:+ NL
       +:+ (if 0 <? f then NL +:+ "Failures need attention: mail delivery or security is affected." +:+ NL else "")).

Definition sortedDomains (names : list string) : list string := insertion_sort String.ltb names.

(** ** The machine *)

Record DirEntry := MkEntry { de_Name : string; de_IsDir : bool; de_Mode : option Z }.

Class Machine := {
  m_windows : bool;
  m_Stat : string → result Z;
  m_ReadDir : path → result (list DirEntry);
  m_Hostname : option string;
  m_runtime : Runtime;
  m_LocalAddresses : result (list string);
  m_Dial : string → bool;
  m_error : error → string;
}.

(** [net.JoinHostPort] *)
Definition JoinHostPort (host port : string) : string :=
  if Contains host ":" || Contains host "%" then "[" +:+ host +:+ "]:" +:+ port else host +:+ ":" +:+ port.

Section checks.
Context {MA : Machine}.

(** ** The audit *)

Definition auditConfigPosture (c : Config) : Report :=
  let s := "Configuration" in
  (c_Warnings c ≫= λ w, warn s "config warning" w "review the configuration")
  ++ pass s "open relay" "port 25 accepts local recipients only; relay requires authenticated submission"
  ++ pass s "VRFY/EXPN" "permanently disabled (user enumeration)"
  ++ (if String.eqb (MinVersion (c_TLS c)) "1.2"
      then pass s "TLS floor" "TLS 1.2 minimum (SSLv3/TLS 1.0/1.1 never offered)"
      else pass s "TLS floor" ("TLS " +:+ MinVersion (c_TLS c) +:+ " minimum"))
  ++ (if MailAuth_IsEnabled (c_MailAuth c) then
        if MailAuth_IsEnforced (c_MailAuth c) then pass s "SPF/DKIM/DMARC" "enabled and enforcing DMARC policy"
        else warn s "SPF/DKIM/DMARC" "enabled but not enforcing: results are only annotated"
               "set mail_auth.enforce: true once you trust the results"
      else warn s "SPF/DKIM/DMARC" "inbound authentication is disabled" "set mail_auth.enabled: true")
  ++ (let i := rl_Inbound (c_RateLimit c) in
      if Inbound_IsEnabled i then
        pass s "inbound rate limit" (dec (ConnectionsPerMinute (in_IP i)) +:+ " conn, " +:+ dec (MessagesPerMinute (in_IP i))
          +:+ " msg, " +:+ dec (RecipientsPerMinute (in_IP i)) +:+ " rcpt per minute per IP")
      else fail s "inbound rate limit" "disabled: the server has no flood protection" "set rate_limit.inbound.enabled: true")
  ++ (let o := rl_Outbound (c_RateLimit c) in
      if Outbound_IsEnabled o then
        pass s "outbound rate limit" (dec (MessagesPerHour (out_User o)) +:+ " msg, " +:+ dec (RecipientsPerHour (out_User o))
          +:+ " rcpt per hour per user")
      else fail s "outbound rate limit" "disabled: a compromised account can send without limit"
             "set rate_limit.outbound.enabled: true")
  ++ (if Antispam_IsEnabled (c_Antispam c) then
        pass s "antispam" ("tag " +:+ fmt0 (TagScore (c_Antispam c)) +:+ ", quarantine " +:+ fmt0 (QuarantineScore (c_Antispam c))
          +:+ ", reject " +:+ fmt0 (RejectScore (c_Antispam c)))
      else warn s "antispam" "disabled" "set antispam.enabled: true")
  ++ (if av_Enabled (c_Antivirus c) then pass s "antivirus" ("ClamAV at " +:+ Socket (c_Antivirus c))
      else warn s "antivirus" "disabled: attachments are not scanned for malware"
             "install ClamAV and set antivirus.enabled: true")
  ++ (if Reputation_IsEnabled (c_Reputation c) then pass s "reputation" "outbound sender scoring enabled"
      else warn s "reputation" "disabled: no compromised-account containment" "set reputation.enabled: true")
  ++ (if 20 <? MaxFailures (c_Auth c) then
        warn s "auth lockout" (dec (MaxFailures (c_Auth c)) +:+ " failures allowed before lockout")
          "lower auth.max_failures to 10 or so"
      else pass s "auth lockout" (dec (MaxFailures (c_Auth c)) +:+ " failures, " +:+ dec (LockoutMinutes (c_Auth c))
             +:+ " minute lockout")).

Definition auditCredentials (c : Config) : Report :=
  let s := "Credentials" in
  let noHash := llen (filter (λ u, u_PasswordHash u = "") (c_Users c)) in
  let bcryptUsers := llen (filter (λ u, HasPrefix (u_PasswordHash u) "$2" = true) (c_Users c)) in
  (if llen (c_Users c) =? 0 then skip s "mailbox passwords" "no virtual users configured"
   else if 0 <? noHash then
     warn s "mailbox passwords" (dec noHash +:+ " of " +:+ dec (llen (c_Users c))
       +:+ " users have no password_hash and cannot submit or read mail") "generate one with: kavira hash-password"
   else pass s "mailbox passwords" ("all " +:+ dec (llen (c_Users c)) +:+ " users have a hashed password"))
  ++ (if 0 <? bcryptUsers then
        warn s "hash algorithm" (dec bcryptUsers +:+ " users still on bcrypt")
          "re-hash with kavira hash-password to move them to argon2id"
      else [])
  ++ (let a := c_API c in
      if negb (api_Enabled a) then skip s "api keys" "the administrative API is disabled"
      else
        let weak := llen (filter (λ k, slen k < 32) (api_Keys a)) in
        if 0 <? weak then
          warn s "api keys" (dec weak +:+ " of " +:+ dec (llen (api_Keys a)) +:+ " keys are shorter than 32 characters")
            "generate keys with: openssl rand -hex 32"
        else pass s "api keys" (dec (llen (api_Keys a)) +:+ " keys, all of adequate length")).

(** [check] of [auditPermissions]. *)
Definition check_mode (name p : string) (maxMode : Z) : Report :=
  let s := "Filesystem" in
  match m_Stat p with
  | Err ENotExist => skip s name (p +:+ " does not exist yet")
  | Err e => warn s name (m_error e) ""
  | Ok mode =>
      if negb (Z.ldiff mode maxMode =? 0) then
        fail s name (p +:+ " is mode " +:+ octal4 mode +:+ ", wider than " +:+ octal4 maxMode)
          ("chmod " +:+ octal4 maxMode +:+ " " +:+ p)
      else pass s name (p +:+ " is mode " +:+ octal4 mode)
  end.

(** The private keys under the directory of DKIM keys. *)
Definition dkim_keys (dir : path) (es : list DirEntry) : list DirEntry :=
  es ≫= λ e,
    if negb (de_IsDir e) then [] else
    match m_ReadDir (path_join dir (de_Name e)) with
    | Err _ => []
    | Ok ks => filter (λ k, HasSuffix (de_Name k) ".pem" = true) ks
    end.

(** A key that others than its owner may use; 63 is 0o077. *)
Definition key_exposed (k : DirEntry) : bool :=
  match de_Mode k with Some m => negb (Z.land m 63 =? 0) | None => false end.

Definition auditPermissions (c : Config) (cfgPath : string) : Report :=
  let s := "Filesystem" in
  if m_windows then skip s "permissions" "POSIX permissions are not meaningful on this platform" else
  check_mode "config file" cfgPath 416
  ++ check_mode "queue directory" (q_Dir (c_Queue c)) 488
  ++ check_mode "dkim directory" (dkim_Dir (c_DKIM c)) 448
  ++ match m_ReadDir (path_join [] (dkim_Dir (c_DKIM c))) with
     | Err _ => skip s "dkim keys" (dkim_Dir (c_DKIM c) +:+ " does not exist yet")
     | Ok es =>
         let keys := dkim_keys (path_join [] (dkim_Dir (c_DKIM c))) es in
         let total := llen keys in
         let bad := llen (filter (λ k, key_exposed k = true) keys) in
         if total =? 0 then skip s "dkim keys" "no keys generated yet"
         else if 0 <? bad then
           fail s "dkim keys" (dec bad +:+ " of " +:+ dec total +:+ " private keys are readable beyond their owner")
             ("chmod 600 " +:+ dkim_Dir (c_DKIM c) +:+ "/*/*.pem")
         else pass s "dkim keys" ("all " +:+ dec total +:+ " private keys are owner-only")
     end.

Definition auditIdentity (c : Config) : Report :=
  let s := "Identity" in
  let host := Hostname (c_Server c) in
  let '(leaks, why) := LeaksContainerName m_Hostname host in
  (if (leaks : bool) then
     fail s "public hostname" (host +:+ ": " +:+ why) "set server.hostname to the public FQDN of the mail server"
   else pass s "public hostname" (host +:+ " is a public fully qualified name"))
  ++ (if decide (m_runtime = RuntimeNone) then
        if ct_Enabled (c_Container c) then
          warn s "container mode" "container mode is enabled but no container runtime was detected"
            "disable the container section if this is a physical or virtual machine"
        else pass s "container mode" "not running in a container"
      else if ct_Enabled (c_Container c) then
        pass s "container mode" ("running under " +:+ runtime_name m_runtime +:+ ", container mode enabled")
      else warn s "container mode" ("running under " +:+ runtime_name m_runtime +:+ " but container.enabled is false")
             "enable the container section so internal addresses stay out of trace headers")
  ++ (if llen (c_Domains c) =? 0 then
        fail s "domains" "no domains configured: the server accepts no mail" "add at least one domain"
      else pass s "domains" (dec (llen (c_Domains c)) +:+ " configured: " +:+ Join (sortedDomains (DomainNames c)) ", ")).

Definition Audit (c : Config) (cfgPath : string) : Report :=
  auditConfigPosture c ++ auditCredentials c ++ auditPermissions c cfgPath ++ auditIdentity c.

(** ** The container check *)

Definition checkPublicIdentity (c : Config) (s : string) : Report :=
  let host := Hostname (c_Server c) in
  let '(leaks, why) := LeaksContainerName m_Hostname host in
  (if (leaks : bool) then
     fail s "public hostname" (host +:+ ": " +:+ why)
       "the SMTP banner shows this name to every peer: set it to the public FQDN"
   else pass s "public hostname" host)
  ++ pass s "SMTP banner" ("220 " +:+ host +:+ " ESMTP Kavira")
  ++ (let ct := c_Container c in
      if negb (ct_Enabled ct) then skip s "trace headers" "container mode is off, addresses are recorded as they are"
      else
        let id := MkIdentity true host (PublicIP ct) (InternalIP ct) in
        let internal := or_default (InternalIP ct) "10.1.0.20" in
        let masked := MaskIP id internal in
        (if String.eqb masked (PublicIP ct) then
           pass s "trace headers" ("internal source " +:+ internal +:+ " is recorded as " +:+ masked)
         else fail s "trace headers" ("internal source " +:+ internal +:+ " would be recorded as " +:+ masked)
                "set container.public_ip to the address the world sees")
        ++ (if negb (String.eqb (MaskIP id "198.51.100.7") "198.51.100.7") then
              fail s "inbound source addresses"
                "public sender addresses are being masked, which destroys inbound traceability" ""
            else pass s "inbound source addresses" "public sender addresses are preserved")).

Definition checkAddresses (c : Config) (s : string) : Report :=
  let ct := c_Container c in
  if negb (ct_Enabled ct) then [] else
  match m_LocalAddresses with
  | Err e => skip s "addresses" ("cannot enumerate interfaces: " +:+ m_error e)
  | Ok local =>
      (if mem (PublicIP ct) local then pass s "public address" (PublicIP ct +:+ " is bound directly on this machine")
       else pass s "public address"
              (PublicIP ct +:+ " is not bound locally: traffic arrives through forwarding (bridged/NAT)"))
      ++ (if is_empty (InternalIP ct) then skip s "internal address" "container.internal_ip is not declared"
          else if mem (InternalIP ct) local then pass s "internal address" (InternalIP ct +:+ " is bound on this machine")
          else warn s "internal address" (InternalIP ct +:+ " is declared but not bound on any interface")
                 "correct container.internal_ip, or remove it")
  end.

Definition ports (l : Listeners) : list (string * string) :=
  [("smtp", l_SMTP l); ("smtps", l_SMTPS l); ("submission", l_Submission l); ("imap", l_IMAP l);
   ("imaps", l_IMAPS l); ("pop3", l_POP3 l); ("pop3s", l_POP3S l)].

(** The address a bind address is reached at. *)
Definition dialable (host fallback : string) : string :=
  if is_empty host || String.eqb host "0.0.0.0" || String.eqb host "::" then fallback else host.

Definition answers (addr : string) : bool :=
  match SplitHostPort addr with
  | Err _ => false
  | Ok (host, port) => m_Dial (JoinHostPort (dialable host "127.0.0.1") port)
  end.

Definition checkPorts (c : Config) (s : string) : Report :=
  let declared := filter (λ p, p.2 ≠ "") (ports (c_Listeners c)) in
  let enabled := fst <$> declared in
  let reachable := fst <$> filter (λ p, answers p.2 = true) declared in
  if llen enabled =? 0 then fail s "listeners" "no listener is enabled" "configure at least the smtp listener"
  else pass s "listeners enabled" (Join enabled ", ")
    ++ (if llen reachable =? 0 then
          warn s "listeners reachable" "none answered locally: the daemon is probably not running"
            "start kavira, then run this check again"
        else if llen reachable <? llen enabled then
          warn s "listeners reachable"
            (Join reachable ", " +:+ " answered, " +:+ Join (filter (λ e, mem e reachable = false) enabled) ", " +:+ " did not")
            "a listener without a TLS certificate does not start; check the service log"
        else pass s "listeners reachable" (Join reachable ", ")).

(** The distinct elements in the order they are first met. *)
Fixpoint distinct (seen l : list string) : list string :=
  match l with
  | [] => []
  | x :: l => if mem x seen then distinct seen l else x :: distinct (x :: seen) l
  end.

Definition mail_roots (c : Config) : list string :=
  distinct [] (filter (λ p, p ≠ "") ((u_Maildir <$> c_Users c)
    ++ (MaildirPath ∘ d_Storage <$> filter (λ d, st_Type (d_Storage d) = StorageSystemUser) (c_Domains c)))).

Definition checkStorage (c : Config) (s : string) : Report :=
  let roots := mail_roots c in
  if llen roots =? 0 then skip s "mail storage" "no mailbox paths configured"
  else
    let shown := if 3 <? llen roots then take 3 roots ++ ["and " +:+ dec (llen roots - 3) +:+ " more"] else roots in
    pass s "mail storage" (Join shown ", ")
    ++ pass s "queue and keys" ("queue " +:+ q_Dir (c_Queue c) +:+ ", dkim keys " +:+ dkim_Dir (c_DKIM c))
    ++ warn s "backups" "kavira does not take backups itself"
         ("snapshot the mail storage, " +:+ q_Dir (c_Queue c) +:+ " and " +:+ dkim_Dir (c_DKIM c)
          +:+ " with LXD/ZFS snapshots, and keep a copy of the configuration").

(** The engine it runs under. *)
Definition checkRuntime (quote : string → string) (c : Config) (s : string) : Report :=
  let ct := c_Container c in
  if decide (m_runtime = RuntimeNone) then
    if negb (ct_Enabled ct) then pass s "runtime" "not running in a container, container mode off"
    else warn s "runtime" "container mode is enabled but no container runtime was detected"
           "disable the container section if this is a physical or virtual machine"
  else if negb (ct_Enabled ct) then
    fail s "runtime" ("running under " +:+ runtime_name m_runtime +:+ " but container mode is off: internal addresses may reach outgoing mail")
      "enable the container section and set public_ip"
  else pass s "runtime" ("running under " +:+ runtime_name m_runtime +:+ ", container mode enabled")
    ++ (if negb (is_empty (ct_Type ct)) && negb (EqualFold (ct_Type ct) (runtime_name m_runtime)) then
          warn s "runtime type" ("configured as " +:+ quote (ct_Type ct) +:+ " but detected " +:+ runtime_name m_runtime) ""
        else []).

Definition ContainerCheck (quote : string → string) (c : Config) : Report :=
  let s := "Container" in
  checkRuntime quote c s ++ checkPublicIdentity c s ++ checkAddresses c s ++ checkPorts c s ++ checkStorage c s.

(** ** What the exit codes mean *)

Lemma none_such {A} (P : A → Prop) `{∀ x, Decision (P x)} (l : list A) :
  (0 <? llen (filter P l)) = false ↔ Forall (λ x, ¬ P x) l.
Proof.
  rewrite Z.ltb_ge. split.
  - intros Hl. apply Forall_forall. intros x Hx Hp.
    assert (Hin : x ∈ filter P l) by (apply list_elem_of_filter; done).
    destruct (filter P l) as [|y k]; [by apply elem_of_nil in Hin|]. rewrite llen_cons in Hl. pose proof (llen_nonneg k). lia.
  - intros Hall. rewrite Forall_forall in Hall. by rewrite (filter_none P l Hall).
Qed.

Lemma ExitCode_spec r : ExitCode r = 0 ↔ Forall (λ x, re_Status x ≠ Fail_) r.
Proof.
  rewrite <- (none_such (λ x, re_Status x = Fail_)). unfold ExitCode, Counts, count_of. cbn.
  destruct (0 <? _); split; congruence.
Qed.

(** A report without failures. *)
Definition clean (r : Report) : Prop := Forall (λ x, re_Status x ≠ Fail_) r.

Lemma clean_app a b : clean (a ++ b) ↔ clean a ∧ clean b.
Proof. apply Forall_app. Qed.
Lemma clean_pass s n d : clean (pass s n d). Proof. by repeat constructor. Qed.
Lemma clean_warn s n d f : clean (warn s n d f). Proof. by repeat constructor. Qed.
Lemma clean_skip s n d : clean (skip s n d). Proof. by repeat constructor. Qed.
Lemma clean_fail s n d f : clean (fail s n d f) ↔ False.
Proof. split; [|done]. by intros [H _]%Forall_cons. Qed.
Lemma clean_nil : clean []. Proof. constructor. Qed.

(** Whether a test of the report counts. *)
Lemma clean_if (b : bool) r q : clean q → clean (if b then r else q) ↔ (b = true → clean r).
Proof. intros Hq. destruct b; split; auto; done. Qed.
Lemma clean_else (b : bool) r q : clean r → clean (if b then r else q) ↔ (b = false → clean q).
Proof. intros Hr. destruct b; split; auto; done. Qed.

(** ** The audit's verdict *)

(** A file that others may use in ways its mode should not allow. *)
Definition wider (p : string) (maxMode : Z) : Prop := ∃ mode, m_Stat p = Ok mode ∧ Z.ldiff mode maxMode ≠ 0.

Definition exposed_keys (c : Config) : Prop :=
  ∃ es k m, m_ReadDir (path_join [] (dkim_Dir (c_DKIM c))) = Ok es ∧
    k ∈ dkim_keys (path_join [] (dkim_Dir (c_DKIM c))) es ∧ de_Mode k = Some m ∧ Z.land m 63 ≠ 0.

Lemma key_exposed_spec k : key_exposed k = true ↔ ∃ m, de_Mode k = Some m ∧ Z.land m 63 ≠ 0.
Proof.
  unfold key_exposed. destruct (de_Mode k) as [m|]; [|split; [done|by intros (?&?&_)]].
  destruct (Z.eqb_spec (Z.land m 63) 0); split; try done; [by intros (?&[= <-]&?)|]. intros _. by exists m.
Qed.

Lemma check_mode_clean n p maxMode : clean (check_mode n p maxMode) ↔ ¬ wider p maxMode.
Proof.
  unfold check_mode, wider. destruct (m_Stat p) as [mode|[|m]] eqn:E.
  - destruct (Z.eqb_spec (Z.ldiff mode maxMode) 0) as [Hz|Hz]; cbn [negb].
    + split; [by intros _ (?&[= <-]&?)|]. intros _. apply clean_pass.
    + rewrite clean_fail. split; [done|]. intros H. apply H. eauto.
  - split; [by intros _ (?&?&_)|]. intros _. apply clean_skip.
  - split; [by intros _ (?&?&_)|]. intros _. apply clean_warn.
Qed.

Lemma auditPermissions_clean c p : clean (auditPermissions c p) ↔
  (m_windows = false → ¬ wider p 416 ∧ ¬ wider (q_Dir (c_Queue c)) 488 ∧ ¬ wider (dkim_Dir (c_DKIM c)) 448 ∧ ¬ exposed_keys c).
Proof.
  unfold auditPermissions. destruct m_windows; [split; [done|]; intros _; apply clean_skip|].
  rewrite !clean_app, !check_mode_clean.
  enough (Hk : ∀ r, r = match m_ReadDir (path_join [] (dkim_Dir (c_DKIM c))) with _ => _ end → clean r ↔ ¬ exposed_keys c)
    by (rewrite (Hk _ eq_refl); tauto).
  intros r ->. unfold exposed_keys. destruct (m_ReadDir _) as [es|e].
  - set (keys := dkim_keys _ es).
    assert (Hex : (¬ ∃ es0 k m, Ok es = Ok es0 ∧ k ∈ dkim_keys (path_join [] (dkim_Dir (c_DKIM c))) es0 ∧
        de_Mode k = Some m ∧ Z.land m 63 ≠ 0) ↔
      Forall (λ k, ¬ key_exposed k = true) keys).
    { rewrite Forall_forall. split.
      - intros Hn k Hin (m&Hm&Hk)%key_exposed_spec. apply Hn. by exists es, k, m.
      - intros Hall (es0&k&m&[= <-]&Hin&Hm&Hk). apply (Hall k Hin), key_exposed_spec. by exists m. }
    cbv zeta. fold keys. rewrite Hex, <- none_such. destruct (Z.eqb_spec (llen keys) 0) as [Hz|Hz].
    + split; [intros _|intros _; apply clean_skip]. apply (none_such (λ k, key_exposed k = true)).
      destruct keys as [|k l]; [constructor|]. rewrite llen_cons in Hz. pose proof (llen_nonneg l). lia.
    + destruct (0 <? _); [rewrite clean_fail; by split|]. split; [done|]. intros _. apply clean_pass.
  - split; [by intros _ (?&?&?&?&_)|]. intros _. apply clean_skip.
Qed.

Hint Resolve clean_pass clean_warn clean_skip clean_nil : core.

Lemma auditConfigPosture_clean c : clean (auditConfigPosture c) ↔
  Inbound_IsEnabled (rl_Inbound (c_RateLimit c)) = true ∧ Outbound_IsEnabled (rl_Outbound (c_RateLimit c)) = true.
Proof.
  unfold auditConfigPosture. cbv zeta. rewrite !clean_app.
  assert (Hw : clean (c_Warnings c ≫= λ w, warn "Configuration" "config warning" w "review the configuration")).
  { induction (c_Warnings c) as [|w ws IH]; [done|]. cbn [mbind list_bind]. apply clean_app. auto. }
  assert (Htls : ∀ b, clean (if (b : bool) then pass "Configuration" "TLS floor" "TLS 1.2 minimum (SSLv3/TLS 1.0/1.1 never offered)"
    else pass "Configuration" "TLS floor" ("TLS " +:+ MinVersion (c_TLS c) +:+ " minimum"))) by (intros []; auto).
  destruct (Inbound_IsEnabled _), (Outbound_IsEnabled _); rewrite ?clean_fail; split; try (intros; by destruct_and?).
  intros _. split_and!; auto; repeat case_match; auto.
Qed.

Lemma auditCredentials_clean c : clean (auditCredentials c) ↔ True.
Proof.
  split; [done|]. intros _. unfold auditCredentials. cbv zeta. rewrite !clean_app. split_and!; repeat case_match; auto.
Qed.

Lemma auditIdentity_clean c : clean (auditIdentity c) ↔
  (LeaksContainerName m_Hostname (Hostname (c_Server c))).1 = false ∧ c_Domains c ≠ [].
Proof.
  unfold auditIdentity. cbv zeta. destruct (LeaksContainerName _ _) as [leaks why]. rewrite !clean_app. cbn [fst].
  assert (Hd : (llen (c_Domains c) =? 0) = bool_decide (c_Domains c = [])).
  { destruct (c_Domains c); [done|]. rewrite llen_cons, bool_decide_false by done. apply Z.eqb_neq. pose proof (llen_nonneg l). lia. }
  rewrite Hd. destruct leaks, (bool_decide_reflect (c_Domains c = [])); rewrite ?clean_fail; split; try (intros; by destruct_and?).
  intros _. split_and!; auto. repeat case_match; auto.
Qed.

(** The audit fails, and exits with an error, exactly when the server
    is exposed: a flood limit is off, the configuration, the queue or the
    key directory is open wider than it may be, a private DKIM key can be
    used by others than its owner, the public name betrays the container,
    or no domain is served.  Everything else it finds is at most a
    warning. *)
Theorem audit_exit c cfgPath : ExitCode (Audit c cfgPath) = 0 ↔
  Inbound_IsEnabled (rl_Inbound (c_RateLimit c)) = true ∧
  Outbound_IsEnabled (rl_Outbound (c_RateLimit c)) = true ∧
  (m_windows = false → ¬ wider cfgPath 416 ∧ ¬ wider (q_Dir (c_Queue c)) 488 ∧ ¬ wider (dkim_Dir (c_DKIM c)) 448 ∧
     ¬ exposed_keys c) ∧
  (LeaksContainerName m_Hostname (Hostname (c_Server c))).1 = false ∧
  c_Domains c ≠ [].
Proof.
  rewrite ExitCode_spec. fold (clean (Audit c cfgPath)). unfold Audit. rewrite !clean_app, auditPermissions_clean.
  rewrite auditCredentials_clean, auditConfigPosture_clean, auditIdentity_clean. tauto.
Qed.

(** ** The container check's verdict *)

Lemma checkPublicIdentity_clean c s : clean (checkPublicIdentity c s) ↔
  (LeaksContainerName m_Hostname (Hostname (c_Server c))).1 = false ∧
  (ct_Enabled (c_Container c) = true →
   MaskIP (MkIdentity true (Hostname (c_Server c)) (PublicIP (c_Container c)) (InternalIP (c_Container c)))
     (or_default (InternalIP (c_Container c)) "10.1.0.20") = PublicIP (c_Container c)).
Proof.
  unfold checkPublicIdentity. cbv zeta. destruct (LeaksContainerName _ _) as [leaks why]. cbn [fst].
  set (id := MkIdentity _ _ _ _). set (internal := or_default _ _).
  assert (Hpub : MaskIP id "198.51.100.7" = "198.51.100.7").
  { unfold MaskIP. by destruct (negb _ || _). }
  rewrite Hpub, String.eqb_refl. cbn [negb]. rewrite !clean_app.
  destruct leaks, (ct_Enabled (c_Container c)); cbn [negb]; rewrite ?clean_fail; split;
    try (intros; by destruct_and?); try (intros; split_and!; by auto).
  - intros (_&_&Hm). split; [done|]. intros _. apply clean_app in Hm as [Hm _].
    destruct (String.eqb_spec (MaskIP id internal) (PublicIP (c_Container c))); [done|]. by apply clean_fail in Hm.
  - intros [_ Hm]. rewrite (Hm eq_refl), String.eqb_refl. split_and!; auto. apply clean_app. split; auto.
Qed.

Lemma checkPorts_clean c s : clean (checkPorts c s) ↔ ∃ p, p ∈ ports (c_Listeners c) ∧ p.2 ≠ "".
Proof.
  unfold checkPorts. cbv zeta. set (declared := filter _ (ports _)).
  assert (Hd : declared ≠ [] ↔ ∃ p, p ∈ ports (c_Listeners c) ∧ p.2 ≠ "").
  { unfold declared. split.
    - destruct (filter _ _) as [|p l] eqn:E; [done|]. intros _. exists p.
      assert (Hin : p ∈ filter (λ p, p.2 ≠ "") (ports (c_Listeners c))) by (rewrite E; left).
      apply list_elem_of_filter in Hin as [? ?]. by split.
    - intros (p&Hin&Hne) E. assert (Hp : p ∈ filter (λ p, p.2 ≠ "") (ports (c_Listeners c))) by by apply list_elem_of_filter.
      rewrite E in Hp. by apply elem_of_nil in Hp. }
  rewrite <- Hd. destruct declared as [|p l]; cbn [fmap list_fmap].
  - split; [|done]. cbn. by intros [Hf _]%Forall_cons.
  - rewrite llen_cons. pose proof (llen_nonneg (fst <$> l)) as Hl. destruct (Z.eqb_spec (llen (fst <$> l) + 1) 0); [lia|].
    split; [done|]. intros _. apply clean_app. split; [auto|]. repeat case_match; auto.
Qed.

Lemma checkStorage_clean c s : clean (checkStorage c s).
Proof. unfold checkStorage. cbv zeta. case_match; [auto|]. rewrite !clean_app. auto. Qed.

Lemma checkAddresses_clean c s : clean (checkAddresses c s).
Proof. unfold checkAddresses. cbv zeta. repeat case_match; rewrite ?clean_app; auto. Qed.

Lemma checkRuntime_clean quote c s : clean (checkRuntime quote c s) ↔
  (m_runtime ≠ RuntimeNone → ct_Enabled (c_Container c) = true).
Proof.
  unfold checkRuntime. cbv zeta. destruct (decide (m_runtime = RuntimeNone)) as [E|E], (ct_Enabled (c_Container c)); cbn [negb];
    rewrite ?clean_app, ?clean_fail; split; try done; try (intros; by auto).
  - intros _. split; [auto|]. case_match; auto.
  - intros Hx. by specialize (Hx E).
Qed.

(** the container check fails exactly when an address or a name of the
    container may get out, or when no listener is declared. *)
Theorem container_exit quote c : ExitCode (ContainerCheck quote c) = 0 ↔
  (m_runtime ≠ RuntimeNone → ct_Enabled (c_Container c) = true) ∧
  (LeaksContainerName m_Hostname (Hostname (c_Server c))).1 = false ∧
  (ct_Enabled (c_Container c) = true →
   MaskIP (MkIdentity true (Hostname (c_Server c)) (PublicIP (c_Container c)) (InternalIP (c_Container c)))
     (or_default (InternalIP (c_Container c)) "10.1.0.20") = PublicIP (c_Container c)) ∧
  ∃ p, p ∈ ports (c_Listeners c) ∧ p.2 ≠ "".
Proof.
  rewrite ExitCode_spec. fold (clean (ContainerCheck quote c)). unfold ContainerCheck. cbv zeta.
  rewrite !clean_app, checkPublicIdentity_clean, checkPorts_clean.
  pose proof (checkStorage_clean c "Container"). pose proof (checkAddresses_clean c "Container").
  rewrite checkRuntime_clean. tauto.
Qed.
End checks.
