(* ===== verification/SecurityCheck.v ===== *)
(** * Diagnostics on the network: the security check

    Models [internal/checks/security.go]: the certificates, the attempt to
    relay through the running server, the DNS records of every domain, the
    reverse DNS and the blacklists.  The resolver and the server at the
    other end of a connection are parameters; the certificate store, the
    DKIM keys and the blacklist client are the models of those packages. *)

From S2P Require Import Prelude GoStrings GoNum GoBase64 GoNet Config Fs TlsStore Blacklist Dkim Runtime Checks.

(** ** A conversation *)

(** A server that is connected: its state, what it sends first, and what
    it sends after a line from the client. *)
Record Peer := MkPeer {
  peer_state : Type;
  peer_start : list string * peer_state;
  peer_feed : string → peer_state → list string * peer_state;
}.

(** The lines received and not yet read; [None] once a read has failed. *)
Definition is_final (line : string) : bool :=
  (4 <=? slen line) && String.eqb (stake 1 (sdrop 3 line)) " ".

Fixpoint read_reply (buf : list string) : string * option (list string) :=
  match buf with
  | [] => ("", None)
  | line :: buf => if is_final line then (TrimSpace line, Some buf) else read_reply buf
  end.

Definition read_ (buf : option (list string)) : string * option (list string) :=
  match buf with None => ("", None) | Some buf => read_reply buf end.

Section conversation.
Context (p : Peer).

(** [send] *)
Definition send (cmd : string) (c : option (list string) * peer_state p)
    : string * (option (list string) * peer_state p) :=
  let '(buf, s) := c in
  let '(lines, s) := peer_feed p cmd s in
  let '(r, buf) := read_ (match buf with Some b => Some (b ++ lines) | None => None end) in
  (r, (buf, s)).

Definition refused_relay (reply : string) : bool :=
  HasPrefix reply "554" || HasPrefix reply "550" || HasPrefix reply "553" || HasPrefix reply "551".

Definition relay_result (s reply : string) : Report :=
  if refused_relay reply then pass s "external relay refused" reply
  else if is_empty reply then warn s "external relay" "no reply to RCPT" ""
  else fail s "OPEN RELAY" ("the server accepted a foreign recipient without authentication: " +:+ reply)
         "this server can be used to send spam; stop it and report the issue".

Definition auth_result (s reply : string) : Report :=
  if HasPrefix reply "334" || HasPrefix reply "235" then
    fail s "AUTH on port 25" ("the inbound port accepts authentication: " +:+ reply)
      "authentication belongs on submission (587/465) only"
  else pass s "AUTH on port 25" ("refused: " +:+ reply).

Definition enumeration_result (s name reply : string) : Report :=
  if HasPrefix reply "502" || HasPrefix reply "252" then pass s (name +:+ " disabled") reply
  else fail s name ("user enumeration is possible: " +:+ reply) "".

(** What [checkOpenRelay] does once it is connected; the [QUIT] at the
    end says nothing to the report. *)
Definition converse (quote : string → string) (hostname : string) : Report :=
  let s := "Open relay" in
  let '(lines, st) := peer_start p in
  let '(banner, buf) := read_ (Some lines) in
  if is_empty banner then warn s "relay test" "no banner received" "" else
  let identity :=
    if Contains banner hostname then pass s "banner" banner
    else fail s "banner" ("banner does not carry the configured hostname: " +:+ quote banner)
           "set server.hostname to the public name" in
  let '(_, c) := send "EHLO relay-test.invalid" (buf, st) in
  let '(_, c) := send "MAIL FROM:<probe@relay-test.invalid>" c in
  let '(rcpt, c) := send "RCPT TO:<victim@relay-test-external.invalid>" c in
  let '(login, c) := send ("AUTH LOGIN " +:+ EncodeToString "x") c in
  let '(vrfy, c) := send "VRFY postmaster" c in
  let '(expn, c) := send "EXPN staff" c in
  identity ++ relay_result s rcpt ++ auth_result s login ++ enumeration_result s "VRFY" vrfy ++ enumeration_result s "EXPN" expn.
End conversation.

(** ** The network *)

(** [n_dial] is the connection or the text of the error. *)
Class Network := {
  n_dial : string → string + Peer;
  n_LookupMX : string → option (list string);
  n_LookupTXT : string → option (list string);
  n_LookupHost : string → option (list string);
  n_LookupAddr : string → option (list string);
  n_dnsbl : Z → string → option (list string);
  n_quote : string → string;
}.

Section check.
Context {NW : Network} {SS : SliceSort} {KL : KeyLib}.

Definition checkOpenRelay (c : Config) (probeHost : string) : Report :=
  let s := "Open relay" in
  let addr := l_SMTP (c_Listeners c) in
  if is_empty addr then skip s "relay test" "the SMTP listener is disabled" else
  match SplitHostPort addr with
  | Err _ => warn s "relay test" ("cannot parse listener address " +:+ addr) ""
  | Ok (host, port) =>
      let target := JoinHostPort (dialable host probeHost) port in
      match n_dial target with
      | inl err => warn s "relay test" ("cannot connect to " +:+ target +:+ ": " +:+ err)
                  "start the daemon, or pass --host to probe a different address"
      | inr p => converse p n_quote (Config.Hostname (c_Server c))
      end
  end.

(** ** Certificates *)

Section certificates.
Context {C : Type} (LoadX509KeyPair : path → path → result C) (ParseCertificate : C → result Z) (fmt_date : Z → string).

Definition checkTLSCertificates (c : Config) (now : Z) : Report :=
  let s := "TLS" in
  let '(store, warns) := TlsStore.Reload LoadX509KeyPair ParseCertificate fmt_date (tlsParams c) now in
  let loaded := Loaded store in
  (if llen loaded =? 0 then
     fail s "certificates" "no certificate loaded: submission, IMAP, POP3 and the API will not start"
       ("obtain a wildcard certificate into " +:+ CertRoot (c_TLS c) +:+ "/<domain>/")
   else pass s "certificates" (dec (llen loaded) +:+ " loaded: " +:+ Join loaded ", "))
  ++ (warns ≫= λ w,
        if Contains w "EXPIRED" then fail s "certificate validity" w "renew the certificate now"
        else if Contains w "expires in" then warn s "certificate expiry" w "check that automatic renewal is working"
        else warn s "certificate" w "")
  ++ (sortedDomains (DomainNames c) ≫= λ d,
        if mem d loaded then []
        else warn s ("certificate for " +:+ d) "no certificate loaded for this domain"
               ("issue a wildcard certificate for " +:+ d +:+ " into " +:+ CertRoot (c_TLS c) +:+ "/" +:+ d +:+ "/")).
End certificates.

(** ** DNS *)

Definition check_mx (s domain hostname : string) : Report :=
  let publish := domain +:+ ". IN MX 10 " +:+ hostname +:+ "." in
  match n_LookupMX domain with
  | None | Some [] => fail s (domain +:+ " MX") "no MX record found: this domain receives no mail" ("publish: " +:+ publish)
  | Some mxs =>
      if match mxs with [h] => String.eqb h "." || is_empty h | _ => false end then
        fail s (domain +:+ " MX") "a null MX (RFC 7505) is published: the domain declares it accepts no mail"
          ("replace it with: " +:+ publish)
      else
        let hosts := filter (λ h, h ≠ "") ((λ h, TrimSuffix h ".") <$> mxs) in
        if existsb (λ h, EqualFold h hostname) hosts then pass s (domain +:+ " MX") (Join hosts ", ")
        else if llen hosts =? 0 then fail s (domain +:+ " MX") "the MX records name no usable host" ("publish: " +:+ publish)
        else warn s (domain +:+ " MX") ("MX points to " +:+ Join hosts ", " +:+ ", not to " +:+ hostname)
               "point the MX at this server, or ignore if mail arrives through a relay"
  end.

(** The last record that begins with a tag. *)
Definition tagged (tag : string) (txts : option (list string)) : string :=
  match txts with
  | None => ""
  | Some l => List.last (filter (λ t, HasPrefix (ToLower t) tag = true) l) ""
  end.

Definition check_spf (s domain : string) : Report :=
  let spf := tagged "v=spf1" (n_LookupTXT domain) in
  if is_empty spf then
    fail s (domain +:+ " SPF") "no SPF record: receivers cannot tell your mail from a forgery"
      ("publish: " +:+ domain +:+ ". IN TXT " +:+ String DQUOTE ("v=spf1 mx -all" +:+ String DQUOTE ""))
  else if Contains spf "+all" then
    fail s (domain +:+ " SPF") ("the record ends in +all, which authorizes the entire internet: " +:+ spf)
      "replace +all with -all"
  else if negb (Contains spf "-all") && negb (Contains spf "~all") then
    warn s (domain +:+ " SPF") ("the record has no -all or ~all: " +:+ spf)
      "end the record with -all once you are confident it is complete"
  else pass s (domain +:+ " SPF") spf.

Definition strip_space (s : string) : string := of_chars (filter (λ c, in_set (of_chars [" "%char; TAB; CR; LF]) c = false) (schars s)).

(** The first [p=] tag of a record. *)
Fixpoint public_part (parts : list string) : string :=
  match parts with
  | [] => ""
  | part :: parts =>
      let '(v, ok) := CutPrefix (TrimSpace part) "p=" in
      if (ok : bool) then strip_space v else public_part parts
  end.

Definition dkimPublicKey (txt : string) : string := public_part (Split txt ";").

Definition sameDKIMKey (a b : string) : bool :=
  negb (is_empty (dkimPublicKey a)) && String.eqb (dkimPublicKey a) (dkimPublicKey b).

(** [localTXT] is the answer of the key store. *)
Definition check_dkim (s domain selector : string) (localTXT : result (string * string)) : Report :=
  let dkimName := selector +:+ "._domainkey." +:+ domain in
  let published := n_LookupTXT dkimName in
  let joined := Join (default [] published) "" in
  match localTXT, published with
  | Err _, None =>
      warn s (domain +:+ " DKIM") "no local key and no published record: mail is sent unsigned"
        ("generate one with: kavira generate-dkim " +:+ domain)
  | Err _, Some _ =>
      warn s (domain +:+ " DKIM") "a record is published but no local key exists: signing is impossible"
        ("generate the key with: kavira generate-dkim " +:+ domain)
  | Ok (_, local), _ =>
      if bool_decide (published = None) || is_empty joined then
        fail s (domain +:+ " DKIM") ("a local key exists but nothing is published at " +:+ dkimName)
          ("publish: " +:+ dkimName +:+ ". IN TXT " +:+ n_quote local)
      else if negb (sameDKIMKey joined local) then
        fail s (domain +:+ " DKIM") "the published key does not match the local one: signatures will fail"
          ("republish: " +:+ dkimName +:+ ". IN TXT " +:+ n_quote local)
      else pass s (domain +:+ " DKIM") ("published key matches the local key (" +:+ selector +:+ ")")
  end.

Definition check_dmarc (s domain : string) : Report :=
  let dmarc := tagged "v=dmarc1" (n_LookupTXT ("_dmarc." +:+ domain)) in
  if is_empty dmarc then
    warn s (domain +:+ " DMARC") "no DMARC record: nobody enforces your SPF and DKIM"
      ("publish: _dmarc." +:+ domain +:+ ". IN TXT " +:+ String DQUOTE ("v=DMARC1; p=quarantine; rua=mailto:postmaster@"
        +:+ domain +:+ String DQUOTE ""))
  else if Contains (ToLower dmarc) "p=none" then
    warn s (domain +:+ " DMARC") ("policy is p=none, which asks receivers to do nothing: " +:+ dmarc)
      "move to p=quarantine, then p=reject, once the reports look clean"
  else pass s (domain +:+ " DMARC") dmarc.

Definition check_domain (env : Env) (c : Config) (s domain : string) (w : World) : Report * World :=
  let selector := or_default (DKIMSelectorFor c domain) DefaultSelector in
  let '(local, w) := TXTRecord env (path_join [] (dkim_Dir (c_DKIM c))) domain selector w in
  (check_mx s domain (Config.Hostname (c_Server c)) ++ check_spf s domain ++ check_dkim s domain selector local
   ++ check_dmarc s domain, w).

Fixpoint check_domains (env : Env) (c : Config) (s : string) (ds : list string) (w : World) : Report * World :=
  match ds with
  | [] => ([], w)
  | d :: ds =>
      let '(r, w) := check_domain env c s d w in
      let '(rs, w) := check_domains env c s ds w in (r ++ rs, w)
  end.

Definition checkDNS (env : Env) (c : Config) (w : World) : Report * World :=
  let s := "DNS" in
  if llen (c_Domains c) =? 0 then (skip s "records" "no domains configured", w)
  else check_domains env c s (sortedDomains (DomainNames c)) w.

(** ** Reverse DNS and blacklists *)

Definition check_ptr (s hostname ip : string) : Report :=
  match n_LookupAddr ip with
  | None | Some [] =>
      fail s "PTR record" ("no reverse DNS for " +:+ ip +:+ ": most large receivers will refuse your mail")
        ("ask your provider to set the PTR of " +:+ ip +:+ " to " +:+ hostname)
  | Some names =>
      let clean := (λ n, TrimSuffix n ".") <$> names in
      if negb (existsb (λ n, EqualFold n hostname) clean) then
        fail s "PTR record" (ip +:+ " reverses to " +:+ Join clean ", " +:+ ", not to " +:+ hostname)
          ("set the PTR of " +:+ ip +:+ " to " +:+ hostname +:+ " (forward-confirmed reverse DNS)")
      else if match n_LookupHost hostname with Some back => mem ip back | None => false end then
        pass s "PTR record" (ip +:+ " <-> " +:+ hostname +:+ " (forward-confirmed)")
      else warn s "PTR record" (ip +:+ " reverses to " +:+ hostname +:+ " but the name does not resolve back to it")
             "make the A record and the PTR agree"
  end.

Definition checkReverseDNS (c : Config) : Report :=
  let s := "Reverse DNS" in
  let hostname := Config.Hostname (c_Server c) in
  let ip := Config.PublicIP (c_Container c) in
  if negb (is_empty ip) then check_ptr s hostname ip
  else match n_LookupHost hostname with
       | None | Some [] =>
           fail s "hostname resolution" (hostname +:+ " does not resolve") "publish an A record for the mail hostname"
       | Some (a :: addrs) =>
           pass s "hostname resolution" (hostname +:+ " resolves to " +:+ Join (a :: addrs) ", ") ++ check_ptr s hostname a
       end.

Definition checkBlacklists (c : Config) (now now' : Z) : Report :=
  let s := "Blacklists" in
  let b := c_Blacklist c in
  if negb (Blacklist_IsEnabled b) || (llen (Config.DNSBL b) =? 0) then skip s "listing" "blacklist lookups are disabled"
  else
    let ip := Config.PublicIP (c_Container c) in
    match (if negb (is_empty ip) then Some ip
           else match n_LookupHost (Config.Hostname (c_Server c)) with Some (a :: _) => Some a | _ => None end) with
    | None => skip s "listing" "cannot determine the public IP"
    | Some ip =>
        let '(l, zones, _) := ListedIP n_dnsbl (Blacklist.New (Config.DNSBL b) [] Minute) ip now now' in
        if (l : bool) then
          fail s "sending IP" (ip +:+ " is listed on " +:+ Join zones ", ")
            "request delisting at the listing operators, and find out what caused it before you do"
        else pass s "sending IP" (ip +:+ " is not listed on " +:+ dec (llen (Config.DNSBL b)) +:+ " checked lists")
    end.

Definition SecurityCheck {C} (load : path → path → result C) (parse : C → result Z) (fmt_date : Z → string) (env : Env)
    (c : Config) (probeHost : string) (now now' : Z) (w : World) : Report * World :=
  let probeHost := or_default probeHost (Config.Hostname (c_Server c)) in
  let '(dns, w) := checkDNS env c w in
  (checkTLSCertificates load parse fmt_date c now ++ checkOpenRelay c probeHost ++ dns ++ checkReverseDNS c
   ++ checkBlacklists c now now', w).

(** ** The published key *)

Lemma avoids_sall q s : (∀ c, q c = true → avoids c s = true) → sall (λ c, negb (q c)) s = true.
Proof.
  induction s as [|d s IH]; intros Hq; [done|]. cbn [sall]. apply andb_true_iff. split.
  - destruct (q d) eqn:E; [|done]. apply Hq, avoids_cons in E as [E _]. done.
  - apply IH. intros c Hc. by apply Hq, avoids_cons in Hc as [_ Hc].
Qed.

(** Base64 has no white space. *)
Lemma encode_no_space b : sall (λ c, negb (is_space c)) (EncodeToString b) = true.
Proof.
  apply avoids_sall. intros c Hc. apply encode_go_avoids; destruct c as [[] [] [] [] [] [] [] []]; vm_compute in Hc |- *; done.
Qed.

Lemma strip_space_id s : sall (λ c, negb (is_space c)) s = true → strip_space s = s.
Proof.
  induction s as [|c s IH]; [done|]. cbn [sall]. intros [Hc Hs]%andb_true_iff. unfold strip_space in *. cbn [schars].
  rewrite filter_cons_True; [exact (f_equal (String c) (IH Hs))|].
  destruct c as [[] [] [] [] [] [] [] []]; vm_compute in Hc |- *; done.
Qed.

Lemma dkimPublicKey_record domain selector pub :
  dkimPublicKey (txt_record domain selector pub).2 = EncodeToString pub.
Proof.
  unfold dkimPublicKey, txt_record. cbn [snd]. pose proof (encode_no_space pub) as Hsp.
  assert (Hsemi : avoids ";" (EncodeToString pub) = true) by (apply encode_go_avoids; reflexivity).
  change ("v=DKIM1; k=rsa; p=" +:+ EncodeToString pub) with
    ("v=DKIM1" +:+ String ";" (" k=rsa" +:+ String ";" (" p=" +:+ EncodeToString pub))).
  rewrite !Split_app by reflexivity. rewrite Split_avoids by (apply avoids_app; by split).
  cbn [public_part]. change (CutPrefix (TrimSpace "v=DKIM1") "p=") with ("v=DKIM1", false).
  change (CutPrefix (TrimSpace " k=rsa") "p=") with ("k=rsa", false). cbv beta iota.
  assert (Ht : TrimSpace (" p=" +:+ EncodeToString pub) = "p=" +:+ EncodeToString pub).
  { unfold TrimSpace. change (trim_left is_space (" p=" +:+ EncodeToString pub)) with ("p=" +:+ EncodeToString pub).
    apply trim_right_keep. by cbn. }
  rewrite Ht. unfold CutPrefix. rewrite HasPrefix_app. cbv beta iota. change (sskip "p=" ("p=" +:+ EncodeToString pub)) with (EncodeToString pub).
  by apply strip_space_id.
Qed.

(** the DKIM part of the security check tells whether the key in the DNS
    is the one that signs: with the record that [generate-dkim] prints for
    one key published, in as many pieces as the DNS needs, and another or
    the same key in the store, the check passes exactly when the two keys
    are the same. *)
Theorem dkim_published s domain selector pub pub' chunks : pub ≠ "" →
  n_LookupTXT (txt_record domain selector pub).1 = Some chunks → Join chunks "" = (txt_record domain selector pub').2 →
  re_Status <$> check_dkim s domain selector (Ok (txt_record domain selector pub)) =
  [if decide (pub = pub') then Pass else Fail_].
Proof.
  intros Hne Hl Hj. unfold check_dkim. cbn [txt_record fst snd] in *. rewrite Hl. change (default [] (Some chunks)) with chunks.
  rewrite Hj. change ("v=DKIM1; k=rsa; p=" +:+ EncodeToString pub) with (txt_record domain selector pub).2.
  change ("v=DKIM1; k=rsa; p=" +:+ EncodeToString pub') with (txt_record domain selector pub').2.
  unfold sameDKIMKey. rewrite !dkimPublicKey_record. rewrite bool_decide_false by done.
  change (is_empty (txt_record domain selector pub').2) with false. cbn [orb].
  assert (Hinj : EncodeToString pub' = EncodeToString pub ↔ pub = pub').
  { split; [|by intros ->]. intros E. apply (f_equal DecodeString) in E. rewrite !DecodeString_Encode in E. congruence. }
  destruct (decide (pub = pub')) as [<-|Hd].
  - rewrite String.eqb_refl, andb_true_r.
    assert (He : is_empty (EncodeToString pub) = false).
    { destruct (EncodeToString pub) eqn:E; [|done]. apply (f_equal DecodeString) in E. rewrite DecodeString_Encode in E. by injection E. }
    by rewrite He.
  - destruct (String.eqb_spec (EncodeToString pub') (EncodeToString pub)) as [E|E]; [by apply Hinj in E|]. by rewrite andb_false_r.
Qed.
End check.

(** A policy for subdomains is taken for the policy of the domain. *)
Example subdomain_policy (NW : Network) :
  n_LookupTXT "_dmarc.a.org" = Some ["v=DMARC1; p=reject; sp=none"] → re_Status <$> check_dmarc "DNS" "a.org" = [Warn].
Proof. intros Hl. unfold check_dmarc. change ("_dmarc." +:+ "a.org") with "_dmarc.a.org". rewrite Hl. vm_compute. reflexivity. Qed.
