(* ===== verification/SmtpProbe.v ===== *)
(** * The security check against this server

    The conversation of [SecurityCheck] held with the SMTP session of
    [SmtpSession]: the check that looks for an open relay finds none here,
    and it finds one wherever a server takes the recipient. *)

From S2P Require Import Prelude GoStrings GoBase64 GoIO SecurityCheck Checks Session RateLimit Stats Container Auth Storage Smtp SmtpSession SmtpSafety SmtpFlow.

Section probe.
Context {W : Type} (B : Backend W) (sets : nat → Settings) (clock : nat → Z) (fmt_date : Z → string).

Definition with_input (bytes : string) (s : session W) : session W :=
  MkSession (ip s) (MkConn bytes (c_tls (conn s)) (c_writes (conn s)) (c_out (conn s))) (tr s) (sh s).

(** The lines a computation sent. *)
Definition sent_since (s s' : session W) : list string := drop (length (c_out (conn s))) (c_out (conn s')).

(** The server as a client sees it that waits for every answer: the
    greeting, and one turn of the loop for every line. *)
Definition smtp_peer (s0 : session W) : Peer := {|
  peer_state := option (session W);
  peer_start :=
    let '(st, s) := set sets s0 in
    let '(failed, s) := reply ("220 " +:+ set_Hostname st +:+ " ESMTP Kavira") s in
    (sent_since s0 s, if (failed : bool) then None else Some s);
  peer_feed line st :=
    match st with
    | None => ([], None)
    | Some s =>
        let s := with_input (line +:+ CRLF) s in
        let '(stop, s') := step B sets clock fmt_date s in
        (sent_since s s', if (stop : bool) then None else Some s')
    end;
|}.

(** ** One exchange *)

(** A computation sends these lines and goes on from here. *)
Definition sends (m : M W bool) (s : session W) (ls : list string) (s' : session W) : Prop :=
  m s = (false, s') ∧ c_out (conn s') = c_out (conn s) ++ ls.

Lemma feed_sends line s ls s' : sends (step B sets clock fmt_date) (with_input (line +:+ CRLF) s) ls s' →
  peer_feed (smtp_peer s) line (Some s) = (ls, Some s').
Proof.
  intros [Hm Ho]. cbn [peer_feed smtp_peer]. rewrite Hm. unfold sent_since. rewrite Ho. cbn [with_input conn c_out].
  by rewrite drop_app_length.
Qed.

Lemma reply_lines_ok ls (s : session W) n : c_writes (conn s) = S n →
  reply_lines ls s = (false, MkSession (ip s) (MkConn (c_in (conn s)) (c_tls (conn s)) n (c_out (conn s) ++ ls)) (tr s) (sh s)).
Proof. intros Hn. unfold reply_lines, send_lines, mbind, St_bind, get_conn. cbn. by rewrite Hn. Qed.

Lemma readLine_line line (s : session W) : read_command maxLine (line +:+ CRLF) = (Line line, "") →
  readLine (with_input (line +:+ CRLF) s) = (Some line, with_input "" s).
Proof. intros Hr. unfold readLine, mbind, St_bind, get_conn, put_conn. cbn [channel session_channel with_input conn c_in]. by rewrite Hr. Qed.

(** A session of port 25 after some commands, with room for [n] answers. *)
Definition at_ (h f : string) (fs : bool) (n : nat) (s : session W) : Prop :=
  c_writes (conn s) = n ∧ tr s = MkTrans h (tls (tr s)) "" f fs [].

Definition answers_with (line : string) (s : session W) (ls : list string) (Q : session W → Prop) : Prop :=
  ∃ s', peer_feed (smtp_peer s) line (Some s) = (ls, Some s') ∧ Q s'.
End probe.

(** Evaluates the reading and the splitting of a literal command. *)
Ltac read_literal :=
  lazymatch goal with
  | |- context [readLine (with_input (?l +:+ CRLF) ?s)] => rewrite (readLine_line l s) by (vm_compute; reflexivity)
  end;
  lazymatch goal with
  | |- context [Cut ?l " "] => let v := eval vm_compute in (Cut l " ") in change (Cut l " ") with v
  end; cbv beta iota zeta;
  repeat match goal with
  | |- context [ToUpper ?s] => let v := eval vm_compute in (ToUpper s) in change (ToUpper s) with v
  end;
  repeat match goal with
  | |- context [String.eqb ?a ?b] => let v := eval vm_compute in (String.eqb a b) in change (String.eqb a b) with v
  end;
  lazymatch goal with |- context [is_empty (String ?a ?b)] => change (is_empty (String a b)) with false end;
  cbv beta iota zeta.

Section exchanges.
Context {W : Type} (B : Backend W) (sets : nat → Settings) (clock : nat → Z) (fmt_date : Z → string).
Context (Hmode : ∀ k, set_Mode (sets k) = ModeInbound) (Hsize : ∀ k, 0 <= MaxSize (sets k))
  (Hrcpt : ∀ k, 0 < MaxRecipients (sets k)).


Ltac answer Hn :=
  unfold step, mbind, St_bind; read_literal; cbv beta iota delta [orb andb negb is_empty];
  unfold reply; erewrite reply_lines_ok by exact Hn.

Lemma vrfy_answer h f fs n (s : session W) : at_ h f fs (S n) s →
  answers_with B sets clock fmt_date "VRFY postmaster" s ["502 5.5.1 command disabled"] (at_ h f fs n).
Proof.
  intros [Hn Ht]. eexists. split; [apply feed_sends; split; [answer Hn; reflexivity|reflexivity]|by split].
Qed.

Lemma expn_answer h f fs n (s : session W) : at_ h f fs (S n) s →
  answers_with B sets clock fmt_date "EXPN staff" s ["502 5.5.1 command disabled"] (at_ h f fs n).
Proof.
  intros [Hn Ht]. eexists. split; [apply feed_sends; split; [answer Hn; reflexivity|reflexivity]|by split].
Qed.

Lemma auth_answer h f fs n (s : session W) : at_ h f fs (S n) s →
  answers_with B sets clock fmt_date "AUTH LOGIN eA==" s ["503 5.5.1 authentication not available on this port"] (at_ h f fs n).
Proof.
  intros [Hn Ht]. eexists. split; [apply feed_sends; split|].
  - unfold step, mbind, St_bind. read_literal. unfold cmdAuth, mbind, St_bind, set, with_shared. cbv beta iota zeta delta [orb andb negb is_empty get_tr].
    rewrite Hmode. unfold reply. erewrite reply_lines_ok by exact Hn. reflexivity.
  - reflexivity.
  - by split.
Qed.

Lemma mail_answer h n (s : session W) : h ≠ "" → at_ h "" false (S n) s →
  answers_with B sets clock fmt_date "MAIL FROM:<probe@relay-test.invalid>" s ["250 2.1.0 OK"]
    (at_ h "probe@relay-test.invalid" true n).
Proof.
  intros Hh [Hn Ht]. eexists. split; [apply feed_sends; split|].
  - unfold step, mbind, St_bind. read_literal. unfold cmdMail, mbind, St_bind, get_tr. cbv beta iota zeta. change (tr (with_input "" s)) with (tr s). rewrite Ht. cbn [helo fromSet].
    destruct (is_empty h) eqn:E; [by destruct h|]. cbv beta iota. unfold set, with_shared. cbv beta iota zeta. rewrite Hmode.
    lazymatch goal with |- context [parsePath ?a ?b] => let v := eval vm_compute in (parsePath a b) in change (parsePath a b) with v end.
    cbv beta iota. change (sizeParam []) with (Ok 0). cbv beta iota.
    rewrite (proj2 (Z.ltb_ge _ _) (Hsize _)). change (bool_decide (ModeInbound = ModeSubmission)) with false.
    cbv beta iota delta [andb]. unfold put_tr, reply. cbv beta iota.
    erewrite reply_lines_ok by exact Hn. reflexivity.
  - reflexivity.
  - split; [done|]. cbn. done.
Qed.

(** A question to the backend leaves the connection and the transaction. *)
Lemma ask_frame {A} (f : W → A * W) (s : session W) :
  ask f s = ((f (sh_world (sh s))).1, MkSession (ip s) (conn s) (tr s) (sh (ask f s).2)).
Proof. unfold ask, perform, with_shared. by destruct (f (sh_world (sh s))) as [a w]. Qed.

Lemma rcpt_answer h n (s : session W) :
  (∀ w, (IsLocalDomain B "relay-test-external.invalid" w).1 = false) → at_ h "probe@relay-test.invalid" true (S n) s →
  answers_with B sets clock fmt_date "RCPT TO:<victim@relay-test-external.invalid>" s ["554 5.7.1 relay access denied"]
    (at_ h "probe@relay-test.invalid" true n).
Proof.
  intros Hl [Hn Ht]. eexists. split; [apply feed_sends; split|].
  - unfold step, mbind, St_bind. read_literal. unfold cmdRcpt, mbind, St_bind, get_tr. cbv beta iota zeta. change (tr (with_input "" s)) with (tr s). rewrite Ht. cbn [fromSet rcpts negb].
    unfold set, with_shared. cbv beta iota zeta. change (llen []) with 0. rewrite (proj2 (Z.leb_gt _ _) (Hrcpt _)).
    lazymatch goal with |- context [parsePath ?a ?b] => let v := eval vm_compute in (parsePath a b) in change (parsePath a b) with v end.
    cbv beta iota. lazymatch goal with |- context [ask (Postmaster B) ?s] => rewrite (ask_frame (Postmaster B) s) end.
    cbv beta iota.
    lazymatch goal with |- context [ToLower ?a] => let v := eval vm_compute in (ToLower a) in change (ToLower a) with v end.
    lazymatch goal with |- context [String.eqb ?a ?b] => let v := eval vm_compute in (String.eqb a b) in change (String.eqb a b) with v end.
    cbv beta iota delta [andb].
    lazymatch goal with |- context [splitAddr ?a] => let v := eval vm_compute in (splitAddr a) in change (splitAddr a) with v end.
    cbv beta iota. lazymatch goal with |- context [ask (IsLocalDomain B ?d) ?s] => rewrite (ask_frame (IsLocalDomain B d) s) end.
    cbv beta iota. rewrite Hl, Hmode. cbv beta iota delta [negb get_ip]. unfold count, with_shared, reply, mret, St_ret. cbv beta iota zeta.
    erewrite reply_lines_ok by exact Hn. reflexivity.
  - reflexivity.
  - by split.
Qed.

Lemma dash_not_final x : is_final ("250-" +:+ x) = false.
Proof. unfold is_final. cbn [String.append sdrop stake]. apply andb_false_r. Qed.

Lemma ehlo_answer n (s : session W) : at_ "" "" false (S n) s →
  ∃ ls last, answers_with B sets clock fmt_date "EHLO relay-test.invalid" s ls (at_ "relay-test.invalid" "" false n) ∧
    read_reply ls = (last, Some []).
Proof.
  intros [Hn Ht]. set (st := sets (sh_sets (sh s))).
  set (caps := [set_Hostname st; "PIPELINING"; "SIZE " +:+ dec (MaxSize st); "8BITMIME"; "SMTPUTF8"]
    ++ (if set_TLS st && negb (tls (tr s)) then ["STARTTLS"] else []) ++ []).
  assert (Hread : ∃ last, read_reply (cap_lines caps) = (last, Some [])).
  { unfold caps. destruct (_ && _); cbn [app cap_lines read_reply]; rewrite !dash_not_final; eexists; reflexivity. }
  destruct Hread as [last Hread]. exists (cap_lines caps), last. split; [|done]. eexists. split; [apply feed_sends; split|].
  - unfold step, mbind, St_bind. read_literal. unfold cmdHelo, mbind, St_bind, get_tr.
    lazymatch goal with |- context [is_empty (String ?a ?b)] => change (is_empty (String a b)) with false end. cbv beta iota zeta.
    unfold put_tr, set, with_shared, mret, St_ret. cbv beta iota zeta. cbn [negb sh with_input tr sh_sets tls].
    fold st. rewrite (Hmode _ : set_Mode st = ModeInbound). change (bool_decide (ModeInbound = ModeSubmission)) with false. cbn [andb]. cbv beta iota.
    fold caps. erewrite reply_lines_ok by exact Hn. reflexivity.
  - reflexivity.
  - split; [done|]. cbn. rewrite Ht. cbn. f_equal.
Qed.

Lemma greeting (s : session W) n : c_writes (conn s) = S n →
  ∃ k s', peer_start (smtp_peer B sets clock fmt_date s) = (["220 " +:+ set_Hostname (sets k) +:+ " ESMTP Kavira"], Some s') ∧
    c_writes (conn s') = n ∧ tr s' = tr s.
Proof.
  intros Hn. exists (sh_sets (sh s)). cbn [peer_start smtp_peer]. unfold set, with_shared, reply. cbv beta iota zeta.
  erewrite reply_lines_ok by exact Hn. cbv beta iota zeta. unfold sent_since. cbn [conn c_out]. rewrite drop_app_length.
  eexists. split; [reflexivity|]. by split.
Qed.

Lemma send_answer line s ls r (Q : session W → Prop) s0 : answers_with B sets clock fmt_date line s ls Q →
  read_reply ls = (r, Some []) →
  ∃ s', send (smtp_peer B sets clock fmt_date s0) line (Some [], Some s) = (r, (Some [], Some s')) ∧ Q s'.
Proof. intros (s'&Hf&HQ) Hr. exists s'. split; [|done]. unfold send. change (peer_feed (smtp_peer B sets clock fmt_date s0)) with (peer_feed (smtp_peer B sets clock fmt_date s)). rewrite Hf. cbn [app read_]. by rewrite Hr. Qed.

(** The banner reads back as it was sent. *)
Lemma banner_read h : read_reply ["220 " +:+ h +:+ " ESMTP Kavira"] = ("220 " +:+ h +:+ " ESMTP Kavira", Some []).
Proof.
  cbn [read_reply]. assert (Hf : is_final ("220 " +:+ h +:+ " ESMTP Kavira") = true).
  { unfold is_final. rewrite andb_true_iff. split; [|done]. apply Z.leb_le. rewrite slen_app. pose proof (slen_nonneg (h +:+ " ESMTP Kavira")).
    change (slen "220 ") with 4. lia. }
  rewrite Hf. f_equal. unfold TrimSpace. change (trim_left is_space ("220 " +:+ h +:+ " ESMTP Kavira")) with ("220 " +:+ h +:+ " ESMTP Kavira").
  rewrite <- sapp_assoc. by apply trim_right_app_keep.
Qed.

Lemma Contains_middle a h b : Contains (a +:+ h +:+ b) h = true.
Proof.
  unfold Contains. apply Z.leb_le. induction a as [|c a IH].
  - change ("" +:+ h +:+ b) with (h +:+ b). destruct (h +:+ b) eqn:E; cbn [Index]; rewrite <- E, HasPrefix_app; lia.
  - rewrite sapp_cons. cbn [Index]. destruct (HasPrefix _ _); [lia|]. destruct (Z.ltb_spec (Index (a +:+ h +:+ b) h) 0); lia.
Qed.

(** Replaces the next exchange by its outcome. *)
Ltac exchange E :=
  lazymatch type of E with _ = ?v =>
    match goal with |- context [send ?p ?l ?c] => let x := constr:(send p l c) in let H := fresh in assert (H : x = v) by exact E; rewrite H; clear H end
  end; cbv beta iota zeta.

(** C35: the security check never takes this server for an open relay:
    held with a session of port 25 whose backend does not host the domain
    of the probe, every part of the conversation passes - the banner
    carries the configured name, the foreign recipient is refused, AUTH is
    not available and neither VRFY nor EXPN tells who exists. *)
Theorem probe_passes quote hostname (s : session W) :
  (∀ k, set_Hostname (sets k) = hostname) →
  (∀ w, (IsLocalDomain B "relay-test-external.invalid" w).1 = false) →
  fresh s → (7 <= c_writes (conn s))%nat →
  (λ r, (re_Name r, re_Status r)) <$> converse (smtp_peer B sets clock fmt_date s) quote hostname =
  [("banner", Pass); ("external relay refused", Pass); ("AUTH on port 25", Pass); ("VRFY disabled", Pass); ("EXPN disabled", Pass)].
Proof.
  intros Hh Hl (b&Ht&_) Hw. destruct (c_writes (conn s)) as [|[|[|[|[|[|[|n]]]]]]] eqn:Hn; try lia.
  destruct (greeting s _ Hn) as (k&s1&Hs1&Hn1&Ht1). unfold converse. rewrite Hs1, Hh. cbn [read_]. rewrite banner_read. cbn [is_empty String.append].
  change (Contains _ hostname) with (Contains ("220 " +:+ hostname +:+ " ESMTP Kavira") hostname). rewrite Contains_middle.
  assert (H1 : at_ "" "" false _ s1) by (split; [exact Hn1|]; by rewrite Ht1, Ht).
  destruct (ehlo_answer _ s1 H1) as (ls&last&Ha&Hr). destruct (send_answer _ _ _ _ _ s Ha Hr) as (s2&E2&H2); exchange E2.
  destruct (send_answer _ _ _ "250 2.1.0 OK" _ s (mail_answer "relay-test.invalid" _ s2 ltac:(done) H2) eq_refl) as (s3&E3&H3); exchange E3.
  destruct (send_answer _ _ _ "554 5.7.1 relay access denied" _ s (rcpt_answer _ _ s3 Hl H3) eq_refl) as (s4&E4&H4); exchange E4.
  change ("AUTH LOGIN " +:+ EncodeToString "x") with "AUTH LOGIN eA==".
  destruct (send_answer _ _ _ _ _ s (auth_answer _ _ _ _ s4 H4) eq_refl) as (s5&E5&H5); exchange E5.
  destruct (send_answer _ _ _ _ _ s (vrfy_answer _ _ _ _ s5 H5) eq_refl) as (s6&E6&H6); exchange E6.
  destruct (send_answer _ _ _ _ _ s (expn_answer _ _ _ _ s6 H6) eq_refl) as (s7&E7&_); exchange E7.
  reflexivity.
Qed.
End exchanges.

(** A reply that puts the client off is taken for an open relay. *)
Example false_alarm : re_Status <$> relay_result "Open relay" "450 4.7.1 try again later" = [Fail_].
Proof. vm_compute. reflexivity. Qed.

Lemma probe_passes_witness :
  (λ r, (re_Name r, re_Status r)) <$>
    converse (smtp_peer sample_backend (sample_settings ModeInbound) (λ _, 0) (λ _, "now") (sample_session "" None)) (λ s, s) "mx.y.org" =
  [("banner", Pass); ("external relay refused", Pass); ("AUTH on port 25", Pass); ("VRFY disabled", Pass); ("EXPN disabled", Pass)].
Proof.
  apply (probe_passes sample_backend (sample_settings ModeInbound) (λ _, 0) (λ _, "now")); try reflexivity.
  - discriminate.
  - apply sample_fresh.
  - cbn. lia.
Defined.
