(* ===== verification/Bootstrap.v ===== *)
(** * Installing and removing the server

    Models [internal/bootstrap] ([bootstrap.go], [service_unix.go]): the
    directories with their modes, the files that [kavira init] provides,
    the copy of the running binary, and [kavira purge].  The file system is
    that of [Fs] with the permission bits of every path beside it.  The
    embedded files, the path of the running binary, the user and what
    [systemctl] answers are parameters. *)

From S2P Require Import Prelude GoStrings GoNum Fs Config.

Definition ConfigDir : string := "/etc/kavira".
Definition ConfigFile : string := ConfigDir +:+ "/config.yaml".
Definition DomainsDir : string := ConfigDir +:+ "/domains".
Definition Binary : string := "/usr/sbin/kavira".
Definition unitPath : string := "/etc/systemd/system/kavira.service".

(** The path a text stands for. *)
Definition at_ (s : string) : path := path_join [] s.

(** 0o750 is 488, 0o700 is 448. *)
Definition layout : list (string * Z) :=
  [(ConfigDir, 488); (DomainsDir, 488); (path_LogDir, 488); (path_StateDir, 488); (path_QueueDir, 488); (path_DKIMDir, 448)].

(** ** The machine *)

(** The files, the permission bits of the paths and what was printed. *)
Record Inst := MkInst { i_world : World; i_modes : gmap path Z; i_out : string }.

Definition I_ (A : Type) : Type := Inst → result A * Inst.

#[global] Instance I_ret : MRet I_ := λ A a s, (Ok a, s).
#[global] Instance I_bind : MBind I_ := λ A B f m s,
  let '(r, s) := m s in match r with Ok a => f a s | Err e => (Err e, s) end.

Definition raise {A} (e : error) : I_ A := λ s, (Err e, s).
Definition try_ {A} (m : I_ A) : I_ (result A) := λ s, let '(r, s) := m s in (Ok r, s).
Definition call {A} (m : OS A) : I_ A := λ s, let '(r, w) := m (i_world s) in (r, MkInst w (i_modes s) (i_out s)).
Definition say (t : string) : I_ unit := λ s, (Ok tt, MkInst (i_world s) (i_modes s) (i_out s +:+ t)).
Definition sayln (t : string) : I_ unit := say (t +:+ String LF "").

(** [fmt.Errorf] with [%w], seen by nobody as an [os] error. *)
Definition context {A} (text : string) (m : I_ A) : I_ A :=
  r ← try_ m;
  match r with Ok a => mret a | Err e => raise (EMsg (text +:+ match e with EMsg t => t | ENotExist => "no such file or directory" end)) end.

Section bootstrap.
Context (env : Env) (umask : Z).

Definition present (w : World) (p : path) : bool := is_dir w p || is_file w p.

(** A call that may create some paths, with the mode they get. *)
Definition creating {A} (mode : Z) (ps : list path) (m : OS A) : I_ A := λ s,
  let '(r, w) := m (i_world s) in
  let fresh := filter (λ p, negb (present (i_world s) p) && present w p = true) ps in
  (r, MkInst w (foldr (λ p, <[p := Z.ldiff mode umask]>) (i_modes s) fresh) (i_out s)).

Definition mkdir_all (p : path) (mode : Z) : I_ unit := creating mode (ancestors p) (MkdirAll env p).
Definition write_file (p : path) (data : string) (mode : Z) : I_ unit := creating mode [p] (WriteFile env p data).

Definition chmod (p : path) (mode : Z) : I_ unit := λ s,
  let '(r, w) := fallible env (λ w, if present w p then (Ok tt, w) else (Err ENotExist, w)) (i_world s) in
  (r, MkInst w (if is_ok r then <[p := mode]> (i_modes s) else i_modes s) (i_out s)).

Definition rename (p q : path) : I_ unit := λ s,
  let '(r, w) := Rename env p q (i_world s) in
  (r, MkInst w (if is_ok r then partial_alter (λ _, i_modes s !! p) q (delete p (i_modes s)) else i_modes s) (i_out s)).

(** ** Provisioning *)

Fixpoint ensure_dirs (ds : list (string * Z)) : I_ unit :=
  match ds with
  | [] => mret tt
  | (p, mode) :: ds => mkdir_all (at_ p) mode;; chmod (at_ p) mode;; ensure_dirs ds
  end.

Definition EnsureLayout (windows : bool) (defaultConfig : string) : I_ unit :=
  if windows then raise (EMsg "the default layout is Linux-only; pass --config") else
  ensure_dirs layout;;
  st ← try_ (call (Stat env (at_ ConfigFile)));
  match st with
  | Err ENotExist =>
      write_file (at_ ConfigFile) defaultConfig 416;;
      sayln ("kavira: wrote default config to " +:+ ConfigFile)
  | _ => mret tt
  end.

(** The loop of [Init] over the directories. *)
Fixpoint make_dirs (ds : list (string * Z)) : I_ unit :=
  match ds with
  | [] => mret tt
  | (p, mode) :: ds =>
      st ← try_ (call (Stat env (at_ p)));
      mkdir_all (at_ p) mode;;
      chmod (at_ p) mode;;
      match st with Err ENotExist => sayln ("created " +:+ p +:+ " (mode " +:+ octal4 mode +:+ ")") | _ => mret tt end;;
      make_dirs ds
  end.

Definition new_binary : string := Binary +:+ ".new".

(** A step after which the temporary file is removed when it fails. *)
Definition or_remove_tmp (m : I_ unit) : I_ unit :=
  r ← try_ m;
  match r with
  | Ok _ => mret tt
  | Err e => try_ (call (Remove env (at_ new_binary)));; raise e
  end.

(** [self] is [os.Executable] with its symbolic links resolved. *)
Definition installSelf (self : result string) : I_ unit :=
  self ← context "locating the running binary: " (λ s, (self, s));
  if String.eqb self Binary then mret tt else
  context ("reading " +:+ self +:+ ": ") (call (Stat env (at_ self)));;
  context ("writing " +:+ new_binary +:+ ": ") (creating 493 [at_ new_binary] (create_file env false (at_ new_binary)));;
  or_remove_tmp (context ("writing " +:+ new_binary +:+ ": ")
    (data ← call (ReadFile env (at_ self)); call (write_data env (at_ new_binary) data)));;
  or_remove_tmp (call (fallible env (λ w, (Ok tt, w))));;
  or_remove_tmp (chmod (at_ new_binary) 493);;
  or_remove_tmp (context ("installing " +:+ Binary +:+ ": ") (rename (at_ new_binary) (at_ Binary)));;
  sayln ("installed " +:+ Binary).

Definition writeIfAbsent (p : string) (data : string) (mode : Z) : I_ unit :=
  st ← try_ (call (Stat env (at_ p)));
  match st with
  | Ok _ => sayln ("kept " +:+ p +:+ " (already exists)")
  | Err _ => write_file (at_ p) data mode;; sayln ("wrote " +:+ p)
  end.

Definition examplePath : string := DomainsDir +:+ "/example.com.yaml.example".

Definition next_steps (version : string) : string :=
  Join [""; "kavira " +:+ version +:+ " is provisioned. Next:"; "";
        "  1. edit " +:+ ConfigFile; "       set server.hostname to the public name of this server"; "";
        "  2. create your first domain";
        "       cp " +:+ examplePath +:+ " " +:+ DomainsDir +:+ "/example.com.yaml";
        "       edit it: the file name is the domain name"; "";
        "  3. add a mailbox password"; "       kavira hash-password"; "";
        "  4. obtain a wildcard certificate into /etc/letsencrypt/live/<domain>/"; "";
        "  5. check and start"; "       kavira check-config"; "       systemctl daemon-reload";
        "       systemctl enable --now kavira"; "       kavira status"; "";
        "  6. verify the deployment"; "       kavira audit"; "       kavira security-check"; ""] (String LF "").

(** The embedded files. *)
Record Skel := MkSkel { defaultConfig : string; exampleDomain : string; Unit_ : string }.

Definition Init (windows : bool) (euid : Z) (version : string) (self : result string) (k : Skel) : I_ unit :=
  if windows then raise (EMsg "kavira init is Linux-only") else
  if negb (euid =? 0) then
    raise (EMsg ("kavira init must run as root (it writes to " +:+ ConfigDir +:+ " and " +:+ path_StateDir +:+ ")")) else
  make_dirs layout;;
  installSelf self;;
  writeIfAbsent ConfigFile (defaultConfig k) 416;;
  writeIfAbsent examplePath (exampleDomain k) 416;;
  writeIfAbsent unitPath (Unit_ k) 420;;
  say (next_steps version).

(** ** Removal *)

Definition remove (p : path) : I_ unit := λ s,
  let '(r, w) := Remove env p (i_world s) in
  (r, MkInst w (if is_ok r then delete p (i_modes s) else i_modes s) (i_out s)).

Definition remove_all (p : path) : I_ unit := λ s,
  let '(r, w) := RemoveAll env p (i_world s) in
  (r, MkInst w (if is_ok r then filter (λ qm, below p qm.1 = false) (i_modes s) else i_modes s) (i_out s)).

(** [stop] is what [systemctl] answers: it is not there, it succeeds, or
    it fails with an error. *)
Definition stopService (stop : option (option string)) : I_ unit :=
  match stop with
  | None => mret tt
  | Some None => sayln "stopped and disabled the kavira service"
  | Some (Some err) => sayln ("note: systemctl [disable --now kavira]: " +:+ err)
  end.

Definition targets : list string := [ConfigDir; path_LogDir; path_StateDir; unitPath].

Fixpoint present_of (ts : list string) : I_ (list string) :=
  match ts with
  | [] => mret []
  | t :: ts =>
      st ← try_ (call (Stat env (at_ t)));
      l ← present_of ts;
      mret (if is_ok st then t :: l else l)
  end.

Fixpoint say_each (ps : list string) : I_ unit :=
  match ps with [] => mret tt | p :: ps => sayln ("  " +:+ p);; say_each ps end.

Fixpoint remove_each (ps : list string) : I_ unit :=
  match ps with
  | [] => mret tt
  | p :: ps => context ("removing " +:+ p +:+ ": ") (remove_all (at_ p));; sayln ("removed " +:+ p);; remove_each ps
  end.

(** The line a reader gets: up to its line feed, or all there is. *)
Definition typed_line (input : string) : string :=
  let '(line, _, found) := Cut input (String LF "") in if found : bool then line +:+ String LF "" else line.

Definition remove_binary : I_ unit :=
  st ← try_ (call (Stat env (at_ Binary)));
  (if is_ok st then
     r ← try_ (remove (at_ Binary));
     match r with
     | Err e => sayln ("note: could not remove " +:+ Binary +:+ ": " +:+ match e with EMsg t => t | ENotExist => "no such file or directory" end)
     | Ok _ => sayln ("removed " +:+ Binary)
     end
   else mret tt);;
  sayln (String LF "" +:+ "kavira removed.").

(** The removal, once it is confirmed. *)
Definition wipe (ps : list string) (stop : option (option string)) : I_ unit :=
  stopService stop;; remove_each ps;; remove_binary.

Definition confirm (assumeYes : bool) (input : string) : I_ unit :=
  if assumeYes then mret tt else
  say (String LF "" +:+ "Type 'purge kavira' to confirm: ");;
  if negb (String.eqb (TrimSpace (typed_line input)) "purge kavira") then raise (EMsg "aborted") else mret tt.

Definition Purge (windows : bool) (euid : Z) (assumeYes : bool) (input : string) (stop : option (option string)) : I_ unit :=
  if windows then raise (EMsg "kavira purge is Linux-only") else
  if negb (euid =? 0) then raise (EMsg "kavira purge must run as root") else
  ps ← present_of targets;
  match ps with
  | [] => sayln "nothing to remove"
  | _ =>
      sayln "This will permanently delete:";;
      say_each ps;;
      sayln (String LF "" +:+ "Including the DKIM private keys, the outbound queue and every");;
      sayln "learned spam corpus. Mailboxes outside these paths are NOT removed.";;
      confirm assumeYes input;;
      wipe ps stop
  end.

(** ** What a step leaves alone *)

Abbreviation files s := (w_files (i_world s)).
Abbreviation dirs s := (w_dirs (i_world s)).

(** All files but those of [ex] are as they were; all directories but those
    of [ex] are still there, with their mode. *)
Record mild (ex : list path) (s s' : Inst) : Prop := {
  mild_files q : q ∉ ex → files s' !! q = files s !! q;
  mild_dirs p : p ∉ ex → p ∈ dirs s → p ∈ dirs s' ∧ i_modes s' !! p = i_modes s !! p;
}.

#[global] Instance mild_preorder ex : PreOrder (mild ex).
Proof.
  split; [by split|]. intros s s1 s2 [Hf Hd] [Hf' Hd']. split.
  - intros q Hq. by rewrite Hf', Hf.
  - intros p Hp Hin. destruct (Hd p Hp Hin) as [Hin' Hm]. destruct (Hd' p Hp Hin') as [? Hm']. split; [done|congruence].
Qed.

Lemma mild_weaken ex ex' s s' : ex ⊆ ex' → mild ex s s' → mild ex' s s'.
Proof. intros Hsub [Hf Hd]. split; intros q Hq; [apply Hf|apply Hd]; intros Hx; by apply Hq, Hsub. Qed.

Definition holds (R : Inst → Inst → Prop) {A} (m : I_ A) : Prop := ∀ s, R s (m s).2.

Lemma holds_ret ex {A} (a : A) : holds (mild ex) (mret (M := I_) a). Proof. intros s. reflexivity. Qed.
Lemma holds_const ex {A} (r : result A) : holds (mild ex) (λ s, (r, s)). Proof. intros s. reflexivity. Qed.
Lemma holds_raise ex {A} (e : error) : holds (mild ex) (raise (A := A) e). Proof. intros s. reflexivity. Qed.
Lemma holds_say ex t : holds (mild ex) (say t). Proof. intros s. by split. Qed.

Lemma holds_seq (R : Inst → Inst → Prop) `{!PreOrder R} {A B} (m : I_ A) (f : A → I_ B) :
  holds R m → (∀ a, holds R (f a)) → holds R (m ≫= f).
Proof.
  intros Hm Hf s. specialize (Hm s). unfold mbind, I_bind. destruct (m s) as [[a|e] s1]; [|done]. by etrans; [|apply Hf].
Qed.

Lemma holds_bind ex {A B} (m : I_ A) (f : A → I_ B) :
  holds (mild ex) m → (∀ a, holds (mild ex) (f a)) → holds (mild ex) (m ≫= f).
Proof. apply (holds_seq (mild ex)). Qed.

Lemma holds_try (R : Inst → Inst → Prop) {A} (m : I_ A) : holds R m → holds R (try_ m).
Proof. intros Hm s. specialize (Hm s). unfold try_. by destruct (m s). Qed.

Lemma holds_context ex {A} t (m : I_ A) : holds (mild ex) m → holds (mild ex) (context t m).
Proof. intros Hm. apply holds_bind; [by apply holds_try|]. intros [a|e]; [apply holds_ret|apply holds_raise]. Qed.

(** A call of the file system that changes a few paths at most. *)
Definition touches (ex : list path) {A} (m : OS A) : Prop := ∀ w r w', m w = (r, w') →
  (∀ q, q ∉ ex → w_files w' !! q = w_files w !! q) ∧ ∀ p, p ∉ ex → p ∈ w_dirs w → p ∈ w_dirs w'.

Lemma holds_call ex {A} (m : OS A) :
  touches ex m → holds (mild ex) (call m).
Proof.
  intros Hm s. unfold call. destruct (m (i_world s)) as [r w] eqn:E. destruct (Hm _ _ _ E) as [Hf Hd]. split; [done|].
  intros p Hp Hin. cbn. auto.
Qed.

Lemma fresh_modes (mode : Z) (ps : list path) (M : gmap path Z) (w w' : World) q : present w q = true →
  foldr (λ p, <[p := mode]>) M (filter (λ p, negb (present w p) && present w' p = true) ps) !! q = M !! q.
Proof.
  intros Hq. induction ps as [|p ps IH]; [done|]. rewrite filter_cons. destruct (decide _) as [Hp|]; [|done]. cbn.
  rewrite lookup_insert_ne; [done|]. intros ->. rewrite Hq in Hp. by cbn in Hp.
Qed.

Lemma present_dir w p : p ∈ w_dirs w → present w p = true.
Proof. intros Hp. unfold present, is_dir. by rewrite bool_decide_true. Qed.

Lemma holds_creating ex {A} mode ps (m : OS A) :
  touches ex m → holds (mild ex) (creating mode ps m).
Proof.
  intros Hm s. unfold creating. destruct (m (i_world s)) as [r w] eqn:E. destruct (Hm _ _ _ E) as [Hf Hd]. split; [done|].
  intros p Hp Hin. cbn. split; [auto|]. by apply fresh_modes, present_dir.
Qed.

Ltac each_call := intros w r w'; unfold fallible; intros E; repeat (case_match; simplify_eq/=); split; try done;
  intros x Hx; rewrite ?lookup_insert_ne, ?lookup_delete_ne by (intros ->; set_solver); set_solver.

Lemma touches_Stat ex p : touches ex (Stat env p). Proof. unfold Stat. each_call. Qed.
Lemma touches_MkdirAll ex p : touches ex (MkdirAll env p). Proof. unfold MkdirAll. each_call. Qed.
Lemma touches_create excl p : touches [p] (create_file env excl p). Proof. unfold create_file. each_call. Qed.
Lemma touches_write p d : touches [p] (write_data env p d). Proof. unfold write_data. each_call. Qed.
Lemma touches_ReadFile ex p : touches ex (ReadFile env p). Proof. unfold ReadFile. each_call. Qed.
Lemma touches_Remove p : touches [p] (Remove env p). Proof. unfold Remove. each_call. Qed.
Lemma touches_Rename p q : touches [p; q] (Rename env p q). Proof. unfold Rename. each_call. Qed.
Lemma touches_nothing ex : touches ex (fallible env (λ w, (Ok tt, w))). Proof. each_call. Qed.

(** ** Provisioning *)

Lemma write_file_mild p d mode : holds (mild [p]) (write_file p d mode).
Proof.
  apply holds_creating. intros w r w'. unfold WriteFile, mbind, OS_bind. destruct (create_file env false p w) as [[a|e] w1] eqn:E.
  - intros E'. apply touches_create in E as [H1 H2]. apply touches_write in E' as [H3 H4].
    split; intros q Hq; [by rewrite H3, H1|]. intros Hin. auto.
  - intros [= <- <-]. by eapply touches_create.
Qed.

Lemma chmod_mild p mode : holds (mild [p]) (chmod p mode).
Proof.
  intros s. unfold chmod, fallible. repeat case_match; simplify_eq/=; split; cbn; try done.
  intros q Hq Hin. split; [done|]. apply lookup_insert_ne. set_solver.
Qed.

Lemma rename_mild p q : holds (mild [p; q]) (rename p q).
Proof.
  intros s. unfold rename. destruct (Rename env p q (i_world s)) as [r w] eqn:E. apply touches_Rename in E as [Hf Hd].
  split; [done|]. intros x Hx Hin. split; [by apply Hd|]. cbn. destruct (is_ok r); [|done].
  apply not_elem_of_cons in Hx as [Hx [Hx' _]%not_elem_of_cons]. by rewrite lookup_partial_alter_ne, lookup_delete_ne by congruence.
Qed.

Lemma writeIfAbsent_mild p d mode : holds (mild [at_ p]) (writeIfAbsent p d mode).
Proof.
  apply holds_bind; [apply holds_try, holds_call, touches_Stat|]. intros [a|e]; [apply holds_say|].
  apply holds_bind; [apply write_file_mild|intros _; apply holds_say].
Qed.

(** The two paths the installation of the binary works on. *)
Definition binary_paths : list path := [at_ new_binary; at_ Binary].

Lemma on_tmp {A} (m : I_ A) : holds (mild [at_ new_binary]) m → holds (mild binary_paths) m.
Proof. intros Hm s. eapply mild_weaken; [|apply Hm]. intros x ->%list_elem_of_singleton. by left. Qed.

Lemma or_remove_tmp_mild m : holds (mild binary_paths) m → holds (mild binary_paths) (or_remove_tmp m).
Proof.
  intros Hm. apply holds_bind; [by apply holds_try|]. intros [a|e]; [apply holds_ret|].
  apply holds_bind; [apply on_tmp, holds_try, holds_call, touches_Remove|intros _; apply holds_raise].
Qed.

Lemma installSelf_mild self : holds (mild binary_paths) (installSelf self).
Proof.
  apply holds_bind; [apply holds_context, holds_const|]. intros exe. destruct (String.eqb exe Binary); [apply holds_ret|].
  apply holds_bind; [apply holds_context, holds_call, touches_Stat|intros _].
  apply holds_bind; [apply on_tmp, holds_context, holds_creating, touches_create|intros _].
  apply holds_bind; [|intros _].
  { apply or_remove_tmp_mild, holds_context, holds_bind; [apply holds_call, touches_ReadFile|]. intros d.
    apply on_tmp, holds_call, touches_write. }
  apply holds_bind; [apply or_remove_tmp_mild, holds_call, touches_nothing|intros _].
  apply holds_bind; [apply or_remove_tmp_mild, on_tmp, chmod_mild|intros _].
  apply holds_bind; [apply or_remove_tmp_mild, holds_context, rename_mild|intros _; apply holds_say].
Qed.

(** ** What a step that succeeds has done *)

Lemma bind_inv {A B} (m : I_ A) (f : A → I_ B) s b s' :
  (m ≫= f) s = (Ok b, s') → ∃ a s1, m s = (Ok a, s1) ∧ f a s1 = (Ok b, s').
Proof. unfold mbind, I_bind. destruct (m s) as [[a|e] s1]; [eauto|done]. Qed.

Lemma context_inv {A} t (m : I_ A) s a s' : context t m s = (Ok a, s') → m s = (Ok a, s').
Proof.
  unfold context, try_, mbind, I_bind. destruct (m s) as [[b|e] s1]; unfold mret, I_ret, raise; [by intros [= -> ->]|done].
Qed.

Lemma or_remove_inv (m : I_ unit) s s' : or_remove_tmp m s = (Ok tt, s') → m s = (Ok tt, s').
Proof.
  unfold or_remove_tmp. intros (r&s1&E&H)%bind_inv. unfold try_ in E. destruct (m s) as [[[]|e] s2].
  - injection E as <- <-. unfold mret, I_ret in H. by injection H as <-.
  - injection E as <- <-. apply bind_inv in H as (?&?&_&H). by unfold raise in H.
Qed.

Lemma call_inv {A} (m : OS A) s a s' : call m s = (Ok a, s') →
  m (i_world s) = (Ok a, i_world s') ∧ i_modes s' = i_modes s.
Proof. unfold call. destruct (m (i_world s)) as [r w]. by intros [= -> <-]. Qed.

Lemma creating_inv {A} mode ps (m : OS A) s a s' : creating mode ps m s = (Ok a, s') → m (i_world s) = (Ok a, i_world s').
Proof. unfold creating. destruct (m (i_world s)) as [r w]. by intros [= -> <-]. Qed.

Lemma chmod_inv p mode s s' : chmod p mode s = (Ok tt, s') →
  files s' = files s ∧ dirs s' = dirs s ∧ i_modes s' = <[p := mode]> (i_modes s).
Proof.
  unfold chmod, fallible. destruct (e_fail _ _); [done|]. destruct (present _ _); [|done]. by intros [= <-].
Qed.

Lemma rename_inv p q s s' : rename p q s = (Ok tt, s') → ∃ f, files s !! p = Some f ∧ files s' = <[q := f]> (delete p (files s)).
Proof. unfold rename. destruct (Rename env p q (i_world s)) as [r w] eqn:E. intros [= -> <-]. by apply Rename_files in E. Qed.

Ltac next H x s1 E := apply bind_inv in H as (x&s1&E&H).

Lemma not_one (q p : path) : q ≠ p → q ∉ [p].
Proof. by intros ? ->%list_elem_of_singleton. Qed.

(** The binary is the running one. *)
Lemma installSelf_ok exe s s' : installSelf (Ok exe) s = (Ok tt, s') → exe ≠ Binary → at_ exe ≠ at_ new_binary →
  ∃ f, files s !! at_ exe = Some f ∧ f_data <$> files s' !! at_ Binary = Some (f_data f).
Proof.
  unfold installSelf. intros H Hne Htmp. next H a0 s1 E. apply context_inv in E. injection E as <- <-.
  rewrite (proj2 (String.eqb_neq _ _) Hne) in H.
  next H a1 s1 E1. apply context_inv, call_inv in E1 as [E1 _]. apply (touches_Stat []) in E1 as [F1 _].
  next H b s2 E2. apply context_inv, creating_inv, touches_create in E2 as [F2 _].
  next H c s3 E3. destruct c. apply or_remove_inv, context_inv, bind_inv in E3 as (d&s3'&E3&E4).
  apply call_inv in E3 as [E3 _]. apply ReadFile_files in E3 as (F3&_&Hd). apply call_inv in E4 as [E4 _].
  apply write_data_files in E4 as (t&d'&F4&->).
  next H c s4 E5. destruct c. apply or_remove_inv, call_inv in E5 as [E5 _]. apply (touches_nothing []) in E5 as [F5 _].
  next H c s5 E6. destruct c. apply or_remove_inv, chmod_inv in E6 as (F6&_).
  next H c s6 E7. destruct c. apply or_remove_inv, context_inv, rename_inv in E7 as (g&Hg&F7). injection H as <-.
  specialize (Hd d eq_refl). rewrite (F2 (at_ exe)), F1 in Hd by (by apply not_one || by apply not_elem_of_nil).
  destruct (files s !! at_ exe) as [f|]; [|done]. exists f. split; [done|]. injection Hd as <-.
  rewrite F6, F5, F4, lookup_insert_eq in Hg by apply not_elem_of_nil. injection Hg as <-.
  cbn [i_world]. by rewrite F7, lookup_insert_eq.
Qed.

Lemma mkdir_all_dir p mode s a s' : mkdir_all p mode s = (Ok a, s') → p ∈ dirs s'.
Proof.
  unfold mkdir_all. intros E%creating_inv. revert E. unfold MkdirAll, fallible.
  destruct (e_fail _ _); [done|]. destruct (existsb _ _); [done|]. intros [= _ E]. rewrite <- E.
  apply elem_of_union_l, elem_of_list_to_set, ancestors_self.
Qed.

Lemma make_dirs_cons p mode ds s s' : make_dirs ((p, mode) :: ds) s = (Ok tt, s') →
  ∃ s1, make_dirs ds s1 = (Ok tt, s') ∧ at_ p ∈ dirs s1 ∧ i_modes s1 !! at_ p = Some mode.
Proof.
  cbn [make_dirs]. intros H. next H st s1 E1. next H a s2 E2. next H b s3 E3. destruct b. apply chmod_inv in E3 as (_&Hd&Hm).
  next H c s4 E4. exists s4. split; [done|].
  assert (H34 : i_world s4 = i_world s3 ∧ i_modes s4 = i_modes s3) by (repeat case_match; by injection E4 as <- <-).
  destruct H34 as [-> ->]. rewrite Hd, Hm, lookup_insert_eq. split; [|done].
  by apply mkdir_all_dir in E2.
Qed.

Lemma make_dirs_mild ds : holds (mild (at_ ∘ fst <$> ds)) (make_dirs ds).
Proof.
  induction ds as [|[p mode] ds IH]; [apply holds_ret|]. cbn [make_dirs].
  apply holds_bind; [apply holds_try, holds_call, touches_Stat|intros st].
  apply holds_bind; [apply holds_creating, touches_MkdirAll|intros _].
  apply holds_bind; [intros s; eapply mild_weaken; [|apply chmod_mild]; intros x ->%list_elem_of_singleton; by left|intros _].
  apply holds_bind; [repeat case_match; apply holds_say || apply holds_ret|intros _].
  intros s. eapply mild_weaken; [|apply IH]. intros x Hx. by right.
Qed.

Lemma make_dirs_files ds s : files (make_dirs ds s).2 = files s.
Proof.
  revert s. induction ds as [|[p mode] ds IH]; intros s; [done|]. cbn [make_dirs].
  unfold mbind, I_bind, try_, call. destruct (Stat env (at_ p) (i_world s)) as [st w] eqn:E. apply (touches_Stat []) in E as [E _].
  assert (F : w_files w = files s) by (apply map_eq; intros q; by rewrite E by apply not_elem_of_nil).
  unfold mkdir_all, creating. destruct (MkdirAll env (at_ p) _) as [[a|e] w'] eqn:E'; apply MkdirAll_files in E'; cbn in *; rewrite F in E'; [|done].
  unfold chmod, fallible. cbn. destruct (e_fail _ _); cbn; [done|]. destruct (present _ _); cbn; [|done].
  destruct st as [[]|[|]]; cbn; unfold mret, I_ret; by rewrite IH.
Qed.

(** The directories are there, with the modes of the layout, after a loop
    that makes one after the other. *)
Lemma dirs_ok (loop : list (string * Z) → I_ unit) :
  (∀ ds, holds (mild (at_ ∘ fst <$> ds)) (loop ds)) →
  (∀ p mode ds s s', loop ((p, mode) :: ds) s = (Ok tt, s') →
     ∃ s1, loop ds s1 = (Ok tt, s') ∧ at_ p ∈ dirs s1 ∧ i_modes s1 !! at_ p = Some mode) →
  ∀ ds s s', NoDup (at_ ∘ fst <$> ds) → loop ds s = (Ok tt, s') →
  ∀ p mode, (p, mode) ∈ ds → at_ p ∈ dirs s' ∧ i_modes s' !! at_ p = Some mode.
Proof.
  intros Hmild Hcons ds. induction ds as [|[p mode] ds IH]; intros s s' Hnd H q m Hin; [by apply not_elem_of_nil in Hin|].
  cbn in Hnd. apply NoDup_cons in Hnd as [Hp Hnd]. apply Hcons in H as (s1&H&Hd&Hm).
  apply elem_of_cons in Hin as [[= -> ->]|Hin]; [|by eapply IH].
  destruct (Hmild ds s1) as [_ Hk]. rewrite H in Hk. destruct (Hk _ Hp Hd) as [? E]. split; [done|exact (eq_trans E Hm)].
Qed.

Lemma make_dirs_ok ds s s' : NoDup (at_ ∘ fst <$> ds) → make_dirs ds s = (Ok tt, s') →
  ∀ p mode, (p, mode) ∈ ds → at_ p ∈ dirs s' ∧ i_modes s' !! at_ p = Some mode.
Proof. apply (dirs_ok make_dirs make_dirs_mild make_dirs_cons). Qed.

(** [init] writes no file that is there. *)
Lemma writeIfAbsent_spec p data mode s r s' : reliable env → writeIfAbsent p data mode s = (r, s') →
  (∀ f, files s !! at_ p = Some f → files s' !! at_ p = Some f) ∧
  (r = Ok tt → present (i_world s') (at_ p) = true ∧
     (files s !! at_ p = None → ∀ f, files s' !! at_ p = Some f → f_data f = data)).
Proof.
  intros Hr. unfold writeIfAbsent, mbind, I_bind, try_, call. rewrite (Stat_reliable env (at_ p)) by done.
  destruct (is_dir _ _ || is_file _ _) eqn:Ep.
  { intros [= <- <-]. cbn. split_and!; [done|]. intros _. split; [exact Ep|]. intros E f. by rewrite E. }
  apply orb_false_iff in Ep as [_ Ef]. unfold is_file in Ef. apply bool_decide_eq_false in Ef.
  assert (Hn : files s !! at_ p = None) by by apply eq_None_not_Some.
  unfold write_file, creating. destruct (WriteFile env (at_ p) data _) as [x w] eqn:E. cbn [i_world i_modes] in *.
  intros H. split; [intros f Hf; by rewrite Hn in Hf|]. intros ->. destruct x as [[]|e]; [|done].
  injection H as <-. cbn [i_world] in *. unfold WriteFile in E. apply os_bind_ok in E as ([]&w1&_&E).
  apply write_data_files in E as (t&c&F&->). unfold present, is_file.
  rewrite F, lookup_insert_eq. split; [apply orb_true_iff; right; by apply bool_decide_eq_true|]. intros _ f. by intros [= <-].
Qed.

(** ** [kavira init] *)

(** The files [init] provides. *)
Definition provided (k : Skel) : list (string * string) :=
  [(ConfigFile, defaultConfig k); (examplePath, exampleDomain k); (unitPath, Unit_ k)].

(** Every file but those of [ex] keeps its contents. *)
Definition kept (ex : list path) (s s' : Inst) : Prop := ∀ q f, q ∉ ex → files s !! q = Some f → files s' !! q = Some f.

#[global] Instance kept_preorder ex : PreOrder (kept ex).
Proof. split; [by intros s q f|]. intros s s1 s2 H H' q f Hq Hf. by apply H', H. Qed.

Lemma kept_weaken ex s s' : kept [] s s' → kept ex s s'.
Proof. intros H q f _. apply H, not_elem_of_nil. Qed.

Lemma writeIfAbsent_kept ex p data mode : reliable env → holds (kept ex) (writeIfAbsent p data mode).
Proof.
  intros Hr s. apply kept_weaken. intros q f _ Hq. destruct (writeIfAbsent p data mode s) as [r s'] eqn:E. cbn.
  destruct (decide (q = at_ p)) as [->|Hne].
  - by apply writeIfAbsent_spec in E as [? _]; [auto|].
  - pose proof (writeIfAbsent_mild p data mode s) as [Hf _]. rewrite E in Hf. rewrite Hf; [done|by apply not_one].
Qed.

Lemma Init_kept windows euid version self k : reliable env → holds (kept binary_paths) (Init windows euid version self k).
Proof.
  intros Hr. unfold Init. destruct windows; [intros s; reflexivity|]. destruct (negb _); [intros s; reflexivity|].
  apply holds_seq; [apply _|intros s q f _; by rewrite make_dirs_files|intros _].
  apply holds_seq; [apply _|intros s q f Hq; by rewrite (mild_files _ _ _ (installSelf_mild self s))|intros _].
  do 3 (apply holds_seq; [apply _|by apply writeIfAbsent_kept|intros _]). by intros s q f.
Qed.

Lemma layout_apart : Forall (λ d, at_ d.1 ∉ binary_paths ++ (at_ ∘ fst <$> provided (MkSkel "" "" ""))) layout.
Proof. apply (bool_decide_unpack _). vm_compute. exact I. Qed.

Lemma layout_NoDup : NoDup (at_ ∘ fst <$> layout).
Proof. apply (bool_decide_unpack _). vm_compute. exact I. Qed.

Lemma provided_apart k : NoDup (binary_paths ++ (at_ ∘ fst <$> provided k)).
Proof. apply (bool_decide_unpack _). vm_compute. exact I. Qed.

Lemma Init_ok windows euid version self k s s' : Init windows euid version self k s = (Ok tt, s') →
  ∃ s1 s2 s3 s4 s5, make_dirs layout s = (Ok tt, s1) ∧ installSelf self s1 = (Ok tt, s2) ∧
    writeIfAbsent ConfigFile (defaultConfig k) 416 s2 = (Ok tt, s3) ∧
    writeIfAbsent examplePath (exampleDomain k) 416 s3 = (Ok tt, s4) ∧
    writeIfAbsent unitPath (Unit_ k) 420 s4 = (Ok tt, s5) ∧ i_world s' = i_world s5 ∧ i_modes s' = i_modes s5.
Proof.
  unfold Init. destruct windows; [done|]. destruct (negb _); [done|]. intros H.
  next H u1 s1 E1. next H u2 s2 E2. next H u3 s3 E3. next H u4 s4 E4. next H u5 s5 E5. destruct u1, u2, u3, u4, u5.
  exists s1, s2, s3, s4, s5. injection H as <-. done.
Qed.

Lemma provided_one p data mode si sj s' ex : reliable env →
  writeIfAbsent p data mode si = (Ok tt, sj) → mild ex sj s' → at_ p ∉ ex →
  present (i_world s') (at_ p) = true ∧ (files si !! at_ p = None → ∀ f, files s' !! at_ p = Some f → f_data f = data).
Proof.
  intros Hr E [Hf Hd] Hp. apply writeIfAbsent_spec in E as [_ E]; [|done]. destruct (E eq_refl) as [Hpr Hdata].
  rewrite (Hf _ Hp). split; [|done]. unfold present, is_dir, is_file in *. rewrite (Hf _ Hp).
  apply orb_true_iff in Hpr as [Hpr|Hpr]; apply orb_true_iff; [left|by right].
  apply bool_decide_eq_true in Hpr. apply bool_decide_eq_true. by apply (Hd _ Hp).
Qed.

Lemma Forall_in {A} (l : list A) (P : A → Prop) x : Forall P l → x ∈ l → P x.
Proof. rewrite Forall_forall. auto. Qed.

(** [kavira init] is safe to run twice: while the file system answers, no
    file is overwritten but the installed binary and its temporary copy,
    whether [init] succeeds or not.  After a success every directory is
    there with exactly the mode of the layout, the configuration, the
    example and the unit are there, with the embedded contents where there
    was nothing, and the installed binary is the one that ran. *)
Theorem init_spec windows euid version self k s r s' : reliable env → Init windows euid version self k s = (r, s') →
  kept binary_paths s s' ∧
  (r = Ok tt →
     (∀ p mode, (p, mode) ∈ layout → at_ p ∈ dirs s' ∧ i_modes s' !! at_ p = Some mode) ∧
     (∀ p data, (p, data) ∈ provided k → present (i_world s') (at_ p) = true ∧
        (files s !! at_ p = None → ∀ f, files s' !! at_ p = Some f → f_data f = data)) ∧
     (∀ exe, self = Ok exe → exe ≠ Binary → at_ exe ≠ at_ new_binary →
        ∃ f, files s !! at_ exe = Some f ∧ f_data <$> files s' !! at_ Binary = Some (f_data f))).
Proof.
  intros Hr H. split; [by pose proof (Init_kept windows euid version self k Hr s) as Hk; rewrite H in Hk|].
  intros ->. apply Init_ok in H as (s1&s2&s3&s4&s5&E1&E2&E3&E4&E5&Hw&Hm). rewrite Hw, Hm.
  pose proof (make_dirs_files layout s) as F1. rewrite E1 in F1. cbn in F1.
  pose proof (installSelf_mild self s1) as M2. rewrite E2 in M2.
  pose proof (writeIfAbsent_mild ConfigFile (defaultConfig k) 416 s2) as M3. rewrite E3 in M3.
  pose proof (writeIfAbsent_mild examplePath (exampleDomain k) 416 s3) as M4. rewrite E4 in M4.
  pose proof (writeIfAbsent_mild unitPath (Unit_ k) 420 s4) as M5. rewrite E5 in M5.
  cbn [snd] in *. set (c := at_ ConfigFile) in *. set (e := at_ examplePath) in *. set (u := at_ unitPath) in *.
  assert (Hnd : NoDup (binary_paths ++ [c; e; u])) by apply (provided_apart k).
  assert (Hsub : ∀ p, p ∈ [c; e; u] → p ∉ binary_paths) by (intros p Hp Hb; by apply NoDup_app in Hnd as (_&Hn&_); apply (Hn p)).
  apply NoDup_app in Hnd as (_&_&Hnd). inversion_clear Hnd as [|? ? Hc Hnd']. inversion_clear Hnd' as [|? ? He _].
  assert (M35 : mild [e; u] s3 s5) by (etrans; [eapply mild_weaken, M4|eapply mild_weaken, M5]; intros x ->%list_elem_of_singleton; set_solver+).
  assert (M25 : mild [c; e; u] s2 s5) by (etrans; [eapply mild_weaken, M3; intros x ->%list_elem_of_singleton; set_solver+|eapply mild_weaken, M35; set_solver+]).
  split_and!.
  - intros p mode Hp. destruct (make_dirs_ok layout s s1 layout_NoDup E1 p mode Hp) as [Hd Hmode].
    pose proof (Forall_in _ _ _ layout_apart Hp) as Ha. cbn [fst] in Ha. change (at_ ∘ fst <$> provided _) with [c; e; u] in Ha.
    apply not_elem_of_app in Ha as [Ha1 Ha2]. destruct (mild_dirs _ _ _ M2 _ Ha1 Hd) as [Hd2 Hm2].
    destruct (mild_dirs _ _ _ M25 _ Ha2 Hd2) as [Hd5 Hm5]. split; [done|congruence].
  - assert (F2 : ∀ q, q ∈ [c; e; u] → files s2 !! q = files s !! q) by (intros q Hq; rewrite (mild_files _ _ _ M2) by auto; congruence).
    intros p data [[= -> ->]|[[= -> ->]|[[= -> ->]|[]%elem_of_nil]%elem_of_cons]%elem_of_cons]%elem_of_cons.
    + fold c. rewrite <- (F2 c) by set_solver+. exact (provided_one _ _ _ _ _ _ _ Hr E3 M35 Hc).
    + fold e. rewrite <- (F2 e) by set_solver+. rewrite <- (mild_files _ _ _ M3) by set_solver +Hc.
      exact (provided_one _ _ _ _ _ _ _ Hr E4 M5 He).
    + fold u. rewrite <- (F2 u) by set_solver+. rewrite <- (mild_files _ _ _ M3), <- (mild_files _ _ _ M4) by set_solver +Hc He.
      exact (provided_one _ _ _ _ _ _ [] Hr E5 ltac:(reflexivity) (not_elem_of_nil _)).
  - intros exe -> Hne Htmp. apply installSelf_ok in E2 as (f&Hf&Hb); [|done..]. exists f. split; [congruence|].
    rewrite (mild_files _ _ _ M25); [done|]. intros Hin. apply (Hsub _ Hin). right; left.
Qed.

(** ** [kavira start] without a configuration *)

(** The first step of [runDaemon] in [cmd/kavira/main.go]. *)
Definition provision (windows : bool) (skel cfgPath : string) : I_ unit :=
  if negb (String.eqb cfgPath ConfigFile) then mret tt else
  st ← try_ (call (Stat env (at_ cfgPath)));
  match st with
  | Err ENotExist =>
      sayln "kavira: no config found, provisioning default layout";;
      EnsureLayout windows skel
  | _ => mret tt
  end.

Lemma ensure_dirs_files ds s : files (ensure_dirs ds s).2 = files s.
Proof.
  revert s. induction ds as [|[p mode] ds IH]; intros s; [done|]. cbn [ensure_dirs]. unfold mbind, I_bind, mkdir_all, creating.
  destruct (MkdirAll env (at_ p) _) as [[a|e] w'] eqn:E'; apply MkdirAll_files in E'; cbn in *; [|done].
  unfold chmod, fallible. cbn. destruct (e_fail _ _); cbn; [done|]. destruct (present _ _); cbn; [|done]. by rewrite IH.
Qed.

Lemma ensure_dirs_mild ds : holds (mild (at_ ∘ fst <$> ds)) (ensure_dirs ds).
Proof.
  induction ds as [|[p mode] ds IH]; [apply holds_ret|]. cbn [ensure_dirs].
  apply holds_bind; [apply holds_creating, touches_MkdirAll|intros _].
  apply holds_bind; [intros s; eapply mild_weaken; [|apply chmod_mild]; intros x ->%list_elem_of_singleton; by left|intros _].
  intros s. eapply mild_weaken; [|apply IH]. intros x Hx. by right.
Qed.

Lemma ensure_dirs_cons p mode ds s s' : ensure_dirs ((p, mode) :: ds) s = (Ok tt, s') →
  ∃ s1, ensure_dirs ds s1 = (Ok tt, s') ∧ at_ p ∈ dirs s1 ∧ i_modes s1 !! at_ p = Some mode.
Proof.
  cbn [ensure_dirs]. intros H. next H a s2 E2. next H b s3 E3. destruct b. apply chmod_inv in E3 as (_&Hd&Hm).
  exists s3. split; [done|]. rewrite Hd, Hm, lookup_insert_eq. split; [|done].
  by apply mkdir_all_dir in E2.
Qed.

Lemma ensure_dirs_ok ds s s' : NoDup (at_ ∘ fst <$> ds) → ensure_dirs ds s = (Ok tt, s') →
  ∀ p mode, (p, mode) ∈ ds → at_ p ∈ dirs s' ∧ i_modes s' !! at_ p = Some mode.
Proof. apply (dirs_ok ensure_dirs ensure_dirs_mild ensure_dirs_cons). Qed.

Lemma Stat_absent p w r w' : Stat env p w = (r, w') →
  w_files w' = w_files w ∧ w_dirs w' = w_dirs w ∧
  match r with
  | Ok _ => present w p = true
  | Err ENotExist => present w p = false
  | Err _ => ¬ reliable env
  end.
Proof.
  unfold Stat, fallible, present. destruct (e_fail env (w_tick w)) eqn:Ef.
  - intros [= <- <-]. split_and!; [done..|]. intros Hr. by rewrite Hr in Ef.
  - change (is_dir (tick w) p) with (is_dir w p). change (is_file (tick w) p) with (is_file w p).
    destruct (is_dir w p || is_file w p); intros [= <- <-]; by split_and!.
Qed.

Abbreviation at_config := (at_ ConfigFile).

Lemma write_config_spec skel s r s' : files s !! at_config = None → write_file at_config skel 416 s = (r, s') →
  (∀ q, q ≠ at_config → files s' !! q = files s !! q) ∧ (∀ p, p ≠ at_config → p ∈ dirs s → p ∈ dirs s' ∧ i_modes s' !! p = i_modes s !! p) ∧
  (r = Ok tt → f_data <$> files s' !! at_config = Some skel).
Proof.
  intros Hn E. pose proof (write_file_mild at_config skel 416 s) as [Hf Hd]. rewrite E in Hf, Hd. cbn [snd] in Hf, Hd. split_and!.
  - intros q Hq. apply Hf. by apply not_one.
  - intros p Hp. apply Hd. by apply not_one.
  - intros ->. unfold write_file in E. apply creating_inv in E. unfold WriteFile in E. apply os_bind_ok in E as ([]&w1&_&E).
    apply write_data_files in E as (t&c&->&->). by rewrite lookup_insert_eq.
Qed.

Lemma EnsureLayout_spec windows skel s r s' : EnsureLayout windows skel s = (r, s') →
  (∀ q, q ≠ at_config → files s' !! q = files s !! q) ∧
  (∀ f, files s !! at_config = Some f → files s' !! at_config = Some f) ∧
  (r = Ok tt → (∀ p mode, (p, mode) ∈ layout → at_ p ∈ dirs s' ∧ i_modes s' !! at_ p = Some mode) ∧
     (reliable env → present (i_world s') at_config = true ∧
        (files s !! at_config = None → ∀ f, files s' !! at_config = Some f → f_data f = skel))).
Proof.
  unfold EnsureLayout. destruct windows; [by intros [= <- <-]|]. unfold mbind at 1, I_bind at 1.
  pose proof (ensure_dirs_files layout s) as F1. destruct (ensure_dirs layout s) as [[[]|e] s1] eqn:E1; cbn [snd] in F1.
  2:{ intros [= <- <-]. rewrite F1. by split_and!. }
  pose proof (ensure_dirs_ok layout s s1 layout_NoDup E1) as D1.
  unfold mbind at 1, I_bind at 1, try_ at 1, call at 1.
  destruct (Stat env at_config (i_world s1)) as [x w] eqn:E. apply Stat_absent in E as (F2&D2&Hx). cbv beta iota zeta.
  set (s2 := MkInst w (i_modes s1) (i_out s1)). change (w_files w) with (files s2) in F2. change (w_dirs w) with (dirs s2) in D2.
  assert (Hstay : ∀ r s', (r, s') = (Ok tt, s2) → present (i_world s1) at_config = true ∨ ¬ reliable env →
    (∀ q, q ≠ at_config → files s' !! q = files s !! q) ∧
    (∀ f, files s !! at_config = Some f → files s' !! at_config = Some f) ∧
    (r = Ok tt → (∀ p mode, (p, mode) ∈ layout → at_ p ∈ dirs s' ∧ i_modes s' !! at_ p = Some mode) ∧
       (reliable env → present (i_world s') at_config = true ∧
          (files s !! at_config = None → ∀ f, files s' !! at_config = Some f → f_data f = skel)))).
  { intros r0 s0 [= -> ->] Hp. rewrite F2, F1, D2. split_and!; [done..|]. intros _. split; [exact D1|]. intros Hr.
    destruct Hp as [Hp|Hp]; [|done]. split; [|intros -> f [=]]. unfold present, is_dir, is_file in *. by rewrite F2, D2. }
  destruct x as [[]|[|msg]]; [intros H; symmetry in H; apply (Hstay _ _ H); by left| |intros H; symmetry in H; apply (Hstay _ _ H); by right].
  assert (Hn : files s2 !! at_config = None).
  { rewrite F2. unfold present, is_file in Hx. apply orb_false_iff in Hx as [_ Hx]. apply bool_decide_eq_false in Hx. by apply eq_None_not_Some. }
  unfold mbind, I_bind. destruct (write_file at_config skel 416 s2) as [y s3] eqn:E3.
  apply write_config_spec in E3 as (F3&D3&Hy); [|done]. intros H.
  assert (Hs : files s' = files s3 ∧ dirs s' = dirs s3 ∧ i_modes s' = i_modes s3 ∧ (r = Ok tt → y = Ok tt)).
  { destruct y as [[]|e]; by injection H as <- <-. }
  destruct Hs as (F4&D4&M4&Hr). rewrite F4. split_and!.
  - intros q Hq. by rewrite F3, F2, F1.
  - intros f Hf. rewrite <- F1, <- F2, Hn in Hf. done.
  - intros Hok. specialize (Hy (Hr Hok)). split.
    + intros p mode Hp. destruct (D1 p mode Hp) as [Hd Hm]. rewrite D4, M4.
      assert (Hne : at_ p ≠ at_config).
      { pose proof (Forall_in _ _ _ layout_apart Hp) as Ha. cbn [fst] in Ha. apply not_elem_of_app in Ha as [_ Ha].
        apply not_elem_of_cons in Ha as [Ha _]. exact Ha. }
      rewrite <- D2 in Hd. destruct (D3 _ Hne Hd) as [? Hm']. split; [done|]. by rewrite Hm'.
    + intros _. split.
      * unfold present, is_file. rewrite F4. apply orb_true_iff. right. apply bool_decide_eq_true.
        destruct (files s3 !! at_config); [by eexists|done].
      * intros _ f Hf. rewrite Hf in Hy. by injection Hy.
Qed.

(** Starting a server that has no configuration provides one, and starting
    one that has changes nothing, also when calls of the file system fail:
    no file that is there is touched, no other file is made, and with the
    configuration in place or another one named the file system stays as it
    is.  After a success on a system that answers the configuration is
    there, and the default one if there was none, and so are the
    directories, with the modes of the layout, if there was none. *)
Theorem start_provisions windows skel cfgPath s r s' : provision windows skel cfgPath s = (r, s') →
  (∀ q, q ≠ at_config → files s' !! q = files s !! q) ∧
  (∀ f, files s !! at_config = Some f → files s' !! at_config = Some f) ∧
  (cfgPath ≠ ConfigFile ∨ present (i_world s) at_config = true →
     r = Ok tt ∧ files s' = files s ∧ dirs s' = dirs s ∧ i_modes s' = i_modes s ∧ i_out s' = i_out s) ∧
  (r = Ok tt → reliable env → cfgPath = ConfigFile → present (i_world s) at_config = false →
     present (i_world s') at_config = true ∧ (∀ f, files s' !! at_config = Some f → f_data f = skel) ∧
     ∀ p mode, (p, mode) ∈ layout → at_ p ∈ dirs s' ∧ i_modes s' !! at_ p = Some mode).
Proof.
  unfold provision. destruct (String.eqb_spec cfgPath ConfigFile) as [->|Hne]; cbn [negb].
  2:{ intros [= <- <-]. by split_and!. }
  unfold mbind at 1, I_bind at 1, try_ at 1, call at 1.
  destruct (Stat env at_config (i_world s)) as [x w] eqn:E. apply Stat_absent in E as (F&D&Hx). cbv beta iota zeta.
  destruct x as [[]|[|msg]].
  - intros [= <- <-]. cbn [i_world i_modes i_out]. rewrite F, D. split_and!; try done. intros _ _ _ Hn. by rewrite Hx in Hn.
  - unfold mbind, I_bind, sayln, say. intros (H1&H2&H3)%EnsureLayout_spec. cbn [i_world i_modes] in *. rewrite F in *.
    assert (Hn : files s !! at_config = None).
    { unfold present, is_file in Hx. apply orb_false_iff in Hx as [_ Hx]. apply bool_decide_eq_false in Hx. by apply eq_None_not_Some. }
    split_and!; [done..|intros [?|?]; congruence|]. intros Hok Hr _ _. destruct (H3 Hok) as [Hd Hp].
    destruct (Hp Hr) as [Hp1 Hp2]. split_and!; [done|by apply Hp2|done].
  - intros [= <- <-]. cbn. rewrite F, D. split_and!; done.
Qed.

(** ** [kavira purge] *)

(** A path that is none of [kavira]'s own. *)
Definition foreign (q : path) : Prop := Forall (λ t, below (at_ t) q = false) targets ∧ q ≠ at_ Binary.

(** Foreign files are as they were, and no file has come up. *)
Record spares (s s' : Inst) : Prop := {
  spares_foreign q : foreign q → files s' !! q = files s !! q;
  spares_none q : files s !! q = None → files s' !! q = None;
}.

Definition same (s s' : Inst) : Prop := files s' = files s ∧ dirs s' = dirs s.

#[global] Instance spares_preorder : PreOrder spares.
Proof. split; [by split|]. intros s s1 s2 [H1 H2] [H3 H4]. split; intros q Hq; [by rewrite H3, H1|auto]. Qed.
#[global] Instance same_preorder : PreOrder same.
Proof. split; [by split|]. intros s s1 s2 [H1 H2] [H3 H4]. split; congruence. Qed.

Lemma same_spares s s' : same s s' → spares s s'.
Proof. intros [Hf _]. split; intros q; by rewrite Hf. Qed.

Lemma say_same t : holds same (say t). Proof. by intros s. Qed.

Lemma stat_same p : holds same (try_ (call (Stat env p))).
Proof. intros s. unfold try_, call, Stat, fallible. by repeat case_match; simplify_eq/=. Qed.

Lemma present_of_same ts : holds same (present_of ts).
Proof.
  induction ts as [|t ts IH]; [by intros s|]. cbn [present_of].
  apply holds_seq; [apply _|apply stat_same|intros st]. apply holds_seq; [apply _|done|]. by intros l s.
Qed.

Lemma present_of_spec ts s l s' : reliable env → present_of ts s = (Ok l, s') →
  l ⊆ ts ∧ ∀ t, t ∈ ts → t ∈ l ∨ present (i_world s) (at_ t) = false.
Proof.
  intros Hr. revert s l. induction ts as [|t ts IH]; intros s l; cbn [present_of].
  { intros [= <- <-]. split; [done|]. by intros t ?%elem_of_nil. }
  intros H. next H st s1 E1. next H l0 s2 E2. injection H as <- <-.
  unfold try_, call in E1. rewrite Stat_reliable in E1 by done. injection E1 as <- <-. apply IH in E2 as [Hsub Hin].
  change (is_ok (if (is_dir (i_world s) (at_ t) || is_file (i_world s) (at_ t))%bool then Ok tt else Err ENotExist))
    with (is_ok (if present (i_world s) (at_ t) then Ok tt else Err ENotExist)).
  destruct (present (i_world s) (at_ t)) eqn:Ep; cbn [is_ok]; split.
  - by apply list_subseteq_skip.
  - intros x [->|Hx]%elem_of_cons; [by left; left|]. destruct (Hin x Hx) as [?|?]; [by left; right|by right].
  - by apply list_subseteq_cons.
  - intros x [->|Hx]%elem_of_cons; [by right|]. by apply Hin.
Qed.

Lemma remove_all_spec p s r s' : remove_all p s = (r, s') →
  (∀ q, below p q = false → files s' !! q = files s !! q) ∧ (∀ q, files s !! q = None → files s' !! q = None) ∧
  (r = Ok tt → ∀ q, below p q = true → files s' !! q = None).
Proof.
  unfold remove_all, RemoveAll, fallible. destruct (e_fail _ _); intros [= <- <-]; [done|]. cbn. split_and!.
  - intros q Hq. apply option_eq. intros f. rewrite map_lookup_filter_Some. cbn. tauto.
  - intros q Hq. apply map_lookup_filter_None. by left.
  - intros _ q Hq. apply map_lookup_filter_None. right. intros f _. cbn. by rewrite Hq.
Qed.

Lemma remove_all_spares t : t ∈ targets → holds spares (remove_all (at_ t)).
Proof.
  intros Ht s. destruct (remove_all (at_ t) s) as [r s'] eqn:E. apply remove_all_spec in E as (H1&H2&_). split; [|done].
  intros q [Hq _]. apply H1. exact (Forall_in _ _ _ Hq Ht).
Qed.

Lemma remove_binary_spares : holds spares (remove (at_ Binary)).
Proof.
  intros s. unfold remove. destruct (Remove env (at_ Binary) (i_world s)) as [r w] eqn:E. apply Remove_files in E.
  destruct r as [[]|e]; cbn in *; split; intros q Hq; cbn; rewrite E; try done.
  - destruct Hq as [_ Hq]. by apply lookup_delete_ne.
  - apply lookup_delete_None. by right.
Qed.

Lemma remove_each_spares ps : ps ⊆ targets → holds spares (remove_each ps).
Proof.
  induction ps as [|p ps IH]; intros Hsub; [by intros s|]. cbn [remove_each].
  assert (Hp : p ∈ targets) by (apply Hsub; left).
  apply holds_seq; [apply _| |intros _].
  { apply holds_seq; [apply _|by apply holds_try, remove_all_spares|]. by intros [a|e] s. }
  apply holds_seq; [apply _|intros s; apply same_spares, say_same|intros _]. apply IH. intros x Hx. apply Hsub. by right.
Qed.

Lemma remove_each_ok ps s s' : ps ⊆ targets → remove_each ps s = (Ok tt, s') →
  ∀ p q, p ∈ ps → below (at_ p) q = true → files s' !! q = None.
Proof.
  revert s. induction ps as [|t ps IH]; intros s Hsub H p q Hp Hq; [by apply elem_of_nil in Hp|]. cbn [remove_each] in H.
  next H a s1 E1. destruct a. apply context_inv, remove_all_spec in E1 as (_&_&E1). next H b s2 E2.
  assert (F2 : files s2 = files s1) by (by injection E2 as <- <-).
  assert (Hsub' : ps ⊆ targets) by (intros x Hx; apply Hsub; by right).
  apply elem_of_cons in Hp as [->|Hp]; [|by eapply IH].
  destruct (remove_each_spares ps Hsub' s2) as [_ Hn]. rewrite H in Hn. apply Hn. rewrite F2. by apply E1.
Qed.

Lemma confirm_same b input : holds same (confirm b input).
Proof.
  destruct b; [by intros s|]. apply holds_seq; [apply _|apply say_same|intros _]. by destruct (negb _); intros s.
Qed.

Lemma say_each_same ps : holds same (say_each ps).
Proof. induction ps as [|p ps IH]; [by intros s|]. apply holds_seq; [apply _|apply say_same|done]. Qed.

Lemma stopService_same stop : holds same (stopService stop).
Proof. by destruct stop as [[err|]|]; intros s. Qed.

Lemma remove_binary_file_spares : holds spares remove_binary.
Proof.
  apply holds_seq; [apply _|intros s; apply same_spares, stat_same|intros st].
  apply holds_seq; [apply _| |intros _ s; apply same_spares, say_same]. destruct (is_ok st); [|by intros s].
  apply holds_seq; [apply _|apply holds_try, remove_binary_spares|]. intros [a|e] s; apply same_spares, say_same.
Qed.

Lemma wipe_spares ps stop : ps ⊆ targets → holds spares (wipe ps stop).
Proof.
  intros Hsub. apply holds_seq; [apply _|intros s; apply same_spares, stopService_same|intros _].
  apply holds_seq; [apply _|by apply remove_each_spares|intros _]. apply remove_binary_file_spares.
Qed.

Lemma wipe_ok ps stop s s' : ps ⊆ targets → wipe ps stop s = (Ok tt, s') →
  ∀ p q, p ∈ ps → below (at_ p) q = true → files s' !! q = None.
Proof.
  intros Hsub H p q Hp Hq. next H a s1 E1. next H b s2 E2. destruct b.
  destruct (remove_binary_file_spares s2) as [_ Hn]. rewrite H in Hn. apply Hn. by eapply remove_each_ok.
Qed.

Lemma present_of_sub ts s r s' : present_of ts s = (r, s') → ∃ l, r = Ok l ∧ l ⊆ ts.
Proof.
  revert s r s'. induction ts as [|t ts IH]; intros s r s'; cbn [present_of]; [intros [= <- <-]; by exists []|].
  unfold mbind at 1, I_bind at 1, try_, call. destruct (Stat env (at_ t) (i_world s)) as [st w]. unfold mbind, I_bind.
  destruct (present_of ts _) as [r1 s1] eqn:E. apply IH in E as (l&->&Hl). intros [= <- <-]. eexists. split; [done|].
  destruct (is_ok st); [by apply list_subseteq_skip|by apply list_subseteq_cons].
Qed.

Lemma below_snoc p k c : below p (k ++ [c]) = true → p = k ++ [c] ∨ below p k = true.
Proof.
  revert k. induction p as [|d p IH]; intros k; [by right|]. destruct k as [|e k]; cbn.
  - intros [->%String.eqb_eq Hb]%andb_true_iff. destruct p; [by left|done].
  - intros [->%String.eqb_eq Hb]%andb_true_iff. destruct (IH _ Hb) as [->|Hk]; [by left|right]. by rewrite String.eqb_refl.
Qed.

(** The course of a purge: nothing is done, or all is asked and said and
    then the targets that were found are removed. *)
Lemma Purge_run windows euid yes input stop s r s' : Purge windows euid yes input stop s = (r, s') →
  (same s s' ∧ (r = Ok tt → ∃ s1, present_of targets s = (Ok [], s1))) ∨
  ∃ ps s1 s2 s3, present_of targets s = (Ok ps, s1) ∧ ps ⊆ targets ∧ same s s2 ∧
    confirm yes input s2 = (Ok tt, s3) ∧ same s s3 ∧ wipe ps stop s3 = (r, s').
Proof.
  unfold Purge. destruct windows; [intros [= <- <-]; by left|]. destruct (negb _); [intros [= <- <-]; by left|].
  unfold mbind at 1, I_bind at 1. destruct (present_of targets s) as [r1 s1] eqn:E1.
  pose proof (present_of_same targets s) as Hs1. rewrite E1 in Hs1. apply present_of_sub in E1 as Hl. destruct Hl as (ps&->&Hl).
  destruct ps as [|p ps]; [intros [= <- <-]; left; split; [done|]; by exists s1|].
  unfold mbind at 1, I_bind at 1. cbn [sayln say]. unfold mbind at 1, I_bind at 1.
  match goal with |- context [say_each (p :: ps) ?x] => set (t1 := x) end.
  pose proof (say_each_same (p :: ps) t1) as Hs2. destruct (say_each (p :: ps) t1) as [[[]|e] s2]; [|intros [= <- <-]; left; split; [by rewrite Hs1|done]].
  unfold mbind at 1, I_bind at 1. cbn [sayln say]. unfold mbind at 1, I_bind at 1. cbn [sayln say]. unfold mbind at 1, I_bind at 1.
  match goal with |- context [confirm yes input ?x] => set (t2 := x) end.
  assert (Ht2 : same s t2) by (etrans; [exact Hs1|]; etrans; [|exact Hs2]; done).
  pose proof (confirm_same yes input t2) as Hs3. destruct (confirm yes input t2) as [[[]|e] s3] eqn:Ec.
  - intros Hw. right. exists (p :: ps), s1, t2, s3. split_and!; try done. by etrans.
  - intros [= <- <-]. left. split; [by etrans|done].
Qed.

Lemma wf_below w p q f : wf w → w_files w !! q = Some f → below p q = true → present w p = true.
Proof.
  intros Hw Hq. assert (Hd : ∀ k, k ∈ w_dirs w → below p k = true → p ∈ w_dirs w).
  { intros k. induction k as [|c k IH] using rev_ind; intros Hk Hb.
    - destruct p; [done|by cbn in Hb].
    - destruct (decide (p = k ++ [c])) as [->|Hne]; [done|]. apply IH.
      + rewrite <- (parent_snoc k c). apply (wf_up _ Hw); [done|by destruct k].
      + by apply below_snoc in Hb as [?|?]. }
  intros Hb. destruct (decide (p = q)) as [->|Hne].
  - unfold present, is_file. rewrite Hq. apply orb_true_iff. right. by apply bool_decide_eq_true.
  - apply present_dir. destruct (wf_parent _ Hw q) as [Hq0 Hp]; [by eexists|]. apply (Hd _ Hp).
    rewrite (path_snoc q Hq0) in Hb, Hne. by apply below_snoc in Hb as [?|?].
Qed.

(** C31: [kavira purge] only removes what is its own, and nothing unasked:
    whatever fails, every file outside its directories but the unit and
    the binary is as it was, mailboxes included; unless the confirmation
    was typed in full, no file and no directory changes at all; and where
    no call of the file system fails and the tree is well-formed, a purge
    that succeeds leaves no file below its directories.  Where a call can
    fail it may: a directory that cannot be examined is taken for absent,
    and the purge goes on and succeeds ([purge_overlooks]). *)
Theorem purge_spec windows euid yes input stop s r s' : Purge windows euid yes input stop s = (r, s') →
  (∀ q, foreign q → files s' !! q = files s !! q) ∧
  (yes = false → TrimSpace (typed_line input) ≠ "purge kavira" → files s' = files s ∧ dirs s' = dirs s) ∧
  (reliable env → wf (i_world s) → r = Ok tt →
     ∀ t q, t ∈ targets → below (at_ t) q = true → files s' !! q = None).
Proof.
  intros H. destruct (Purge_run _ _ _ _ _ _ _ _ H) as [[Hs Hn]|(ps&s1&s2&s3&E1&Hsub&Hs2&Ec&Hs3&Hw)]; split_and!.
  - intros q _. by destruct Hs as [-> _].
  - intros _ _. exact Hs.
  - intros Hr Hwf Hok t q Ht Hq. destruct (Hn Hok) as (s1&E1). apply present_of_spec in E1 as [_ Hin]; [|done].
    destruct Hs as [-> _]. destruct (files s !! q) as [f|] eqn:Ef; [|done].
    destruct (Hin t Ht) as [?%elem_of_nil|Hp]; [done|]. by rewrite (wf_below _ _ _ _ Hwf Ef Hq) in Hp.
  - intros q Hq. pose proof (wipe_spares ps stop Hsub s3) as [Hf _]. rewrite Hw in Hf. cbn [snd] in Hf. rewrite (Hf q Hq). by destruct Hs3 as [-> _].
  - intros -> Hline. exfalso. revert Ec. unfold confirm. intros Ec. next Ec a s4 E4.
    by rewrite (proj2 (String.eqb_neq _ _) Hline) in Ec.
  - intros Hr Hwf -> t q Ht Hq. apply present_of_spec in E1 as [_ Hin]; [|done]. destruct (Hin t Ht) as [Hp|Hp]; [by eapply wipe_ok|].
    pose proof (wipe_spares ps stop Hsub s3) as [_ Hn]. rewrite Hw in Hn. apply Hn. destruct Hs3 as [-> _].
    destruct (files s !! q) as [f|] eqn:Ef; [|done]. by rewrite (wf_below _ _ _ _ Hwf Ef Hq) in Hp.
Qed.
End bootstrap.

(** ** A machine *)

(** A fresh machine with the release unpacked, and the same with a
    configuration of its own. *)
Definition unpacked (w : World) : Inst :=
  MkInst (MkWorld (<[["root"; "kavira"] := MkFile "ELF" 0]> (w_files w))
            (list_to_set [[]; ["root"]; ["usr"]; ["usr"; "sbin"]; ["etc"]; ["etc"; "systemd"]; ["etc"; "systemd"; "system"]; ["var"]; ["var"; "mail"]] ∪ w_dirs w)
            (w_tick w) (w_seq w) (w_host w)) ∅ "".

Definition skel : Skel := MkSkel "server:" "storage:" "[Unit]".

Definition fresh_init : result unit * Inst := Init calm 18 false 0 "1.0" (Ok "/root/kavira") skel (unpacked empty_world).

Lemma init_spec_witness : fresh_init.1 = Ok tt ∧ f_data <$> w_files (i_world fresh_init.2) !! at_ Binary = Some "ELF" ∧
  i_modes fresh_init.2 !! at_ path_DKIMDir = Some 448.
Proof.
  assert (E : fresh_init.1 = Ok tt) by (vm_compute; reflexivity). split; [exact E|].
  destruct (init_spec calm 18 false 0 "1.0" (Ok "/root/kavira") skel (unpacked empty_world) fresh_init.1 fresh_init.2 calm_reliable
    (surjective_pairing fresh_init)) as [_ H]. destruct (H E) as (Hd&_&Hb). split.
  - destruct (Hb "/root/kavira" eq_refl) as (f&Hf&->); [discriminate|apply (bool_decide_unpack _); vm_compute; exact I|].
    vm_compute in Hf. by injection Hf as <-.
  - apply (Hd path_DKIMDir 448). apply (bool_decide_unpack _). vm_compute. exact I.
Defined.

Lemma wf_decided w :
  map_Forall (λ p _, p ≠ [] ∧ parent p ∈ w_dirs w ∧ p ∉ w_dirs w) (w_files w) ∧
  set_Forall (λ p, p = [] ∨ parent p ∈ w_dirs w) (w_dirs w) → wf w.
Proof.
  intros [Hf Hd]. split.
  - intros p [f Hp]. by destruct (Hf p f Hp) as (?&?&_).
  - intros p [f Hp]. by destruct (Hf p f Hp) as (_&_&?).
  - intros p Hp Hne. by destruct (Hd p Hp).
Qed.

Definition typed : string := "purge kavira" +:+ String LF "".

Definition purged : result unit * Inst := Purge calm false 0 false typed (Some None) fresh_init.2.

(** The first directory cannot be examined: the purge takes it for absent,
    succeeds, and leaves its files. *)
Definition unexamined : Env :=
  MkEnv (λ t, (t =? w_tick (i_world fresh_init.2))%nat) (e_short calm) (e_clock calm) (e_rand calm) 1 "mx".

Example purge_overlooks :
  let p := Purge unexamined false 0 false typed (Some None) fresh_init.2 in
  p.1 = Ok tt ∧ is_Some (w_files (i_world p.2) !! at_ ConfigFile).
Proof. vm_compute. split; [reflexivity|by eexists]. Qed.

Lemma purge_spec_witness : purged.1 = Ok tt ∧ w_files (i_world purged.2) !! ["root"; "kavira"] = Some (MkFile "ELF" 0) ∧
  w_files (i_world purged.2) !! at_ ConfigFile = None ∧
  w_files (i_world (Purge calm false 0 false "y" (Some None) fresh_init.2).2) = w_files (i_world fresh_init.2).
Proof.
  assert (E : purged.1 = Ok tt) by (vm_compute; reflexivity). split; [exact E|].
  destruct (purge_spec calm false 0 false typed (Some None) fresh_init.2 purged.1 purged.2 (surjective_pairing purged)) as (Hf&_&Hn).
  destruct (purge_spec calm false 0 false "y" (Some None) fresh_init.2 _ _ (surjective_pairing _)) as (_&Hy&_).
  split_and!.
  - rewrite Hf; [vm_compute; reflexivity|]. unfold foreign. apply (bool_decide_unpack _). vm_compute. exact I.
  - apply (Hn calm_reliable) with (t := ConfigDir); [|exact E| |].
    + apply wf_decided, (bool_decide_unpack _). vm_compute. exact I.
    + left.
    + vm_compute. reflexivity.
  - apply Hy; [reflexivity|]. apply (bool_decide_unpack _). vm_compute. exact I.
Defined.
