(* ===== verification/Commands.v ===== *)
(** * The commands of the operator

    Models [internal/proc] ([kavira stop] and [kavira reload]),
    [internal/status] with the report the daemon builds for it, and the
    commands [check-config], [hash-password] and [generate-dkim] of
    [cmd/kavira/main.go].  Sending a signal, the socket with its JSON and
    the text of a duration are parameters; a report that was decoded is the
    record itself. *)

From S2P Require Import Prelude GoStrings GoUtf8 GoNum Fs Persist Auth Config Dkim Stats Storage.

Definition NL : string := String LF "".

(** ** The pidfile *)

Section proc.
Context (env : Env).

Definition WritePidfile (p : path) : OS unit :=
  MkdirAll env (parent p);; WriteFile env p (dec (e_pid env) +:+ NL).

Definition readPid (p : path) : OS Z :=
  b ← os_try (ReadFile env p);
  match b with
  | Err _ => os_err (EMsg "pidfile: is the daemon running?")
  | Ok b =>
      match Atoi (TrimSpace b) with
      | Some pid => if pid <=? 0 then os_err (EMsg "pidfile: invalid content") else mret pid
      | None => os_err (EMsg "pidfile: invalid content")
      end
  end.

Inductive signal := SIGTERM | SIGHUP.

(** The signals sent, and what [kill] answers. *)
Definition signalDaemon (kill : Z → signal → result unit) (p : path) (sg : signal) : World → result unit * list (Z * signal) * World := λ w,
  match readPid p w with
  | (Err e, w) => (Err e, [], w)
  | (Ok pid, w) => (kill pid sg, [(pid, sg)], w)
  end.

Definition Stop (kill : Z → signal → result unit) (p : path) := signalDaemon kill p SIGTERM.
Definition Reload (kill : Z → signal → result unit) (p : path) := signalDaemon kill p SIGHUP.
End proc.

(** ** The status *)

Record DomainInfo := MkDomainInfo { di_Name : string; di_Storage : string; di_Mailboxes : Z; di_DKIM : bool }.
Record Listener := MkListener { ln_Protocol : string; ln_Address : string }.

Record Report := MkReport {
  rp_Schema : Z; rp_Version : string; rp_Hostname : string; rp_PID : Z; rp_Uptime : string;
  rp_Domains : list DomainInfo; rp_Mailboxes : Z; rp_Listeners : list Listener; rp_TLSLoaded : list string;
  rp_QueueDepth : Z; rp_Counters : Counters; rp_Warnings : list string; rp_ReloadError : string;
}.

Definition schemaVersion : Z := 1.

(** What the socket answers: no connection, no JSON, or a report. *)
Inductive answer := NoDaemon | Unreadable | Answered (r : Report).

Definition Query (a : answer) : result Report :=
  match a with
  | NoDaemon => Err (EMsg "cannot reach the daemon")
  | Unreadable => Err (EMsg "unreadable status reply")
  | Answered r =>
      if negb (rp_Schema r =? schemaVersion) then Err (EMsg "the running daemon is a different version than this binary")
      else Ok r
  end.

(** The users of a domain, as [check-config] and the status count them. *)
Definition mailboxes (c : Config) (d : string) : Z := llen (filter (λ u, HasSuffix (u_Email u) ("@" +:+ d) = true) (c_Users c)).

Definition storage_type (d : Domain) : string := or_default (st_Type (d_Storage d)) StorageVirtual.

Definition configured_listeners (c : Config) : list Listener :=
  let l := c_Listeners c in
  filter (λ x, ln_Address x ≠ "")
    [MkListener "smtp" (l_SMTP l); MkListener "submission" (l_Submission l); MkListener "smtps" (l_SMTPS l);
     MkListener "imap" (l_IMAP l); MkListener "imaps" (l_IMAPS l); MkListener "pop3" (l_POP3 l); MkListener "pop3s" (l_POP3S l)]
  ++ (if api_Enabled (c_API c) then [MkListener "api" (api_Address (c_API c))] else []).

Section status.
Context `{KeyLib} (env : Env) (fmt_uptime : Z → string).

Definition Build (version hostname : string) (up : Z) (domains : list DomainInfo) (n : Z) (listeners : list Listener)
    (tlsLoaded : list string) (queueDepth : Z) (counters : option Counters) (warnings : list string) (reloadErr : string) : Report :=
  MkReport schemaVersion version hostname (e_pid env) (fmt_uptime up) domains n listeners tlsLoaded queueDepth
    (Snapshot counters) warnings reloadErr.

Fixpoint domain_infos (c : Config) (ds : list Domain) : OS (list DomainInfo) :=
  match ds with
  | [] => mret []
  | d :: ds =>
      k ← Signer env (path_join [] (dkim_Dir (c_DKIM c))) (d_Name d) (DKIMSelectorFor c (d_Name d));
      l ← domain_infos c ds;
      mret (MkDomainInfo (d_Name d) (storage_type d) (mailboxes c (d_Name d)) (bool_decide (is_Some k)) :: l)
  end.

Definition LastError (m : Manager) : string :=
  match reloadErr m with None => "" | Some (EMsg t) => t | Some ENotExist => "no such file or directory" end.

(** [buildStatus]: [up] is the time since the start. *)
Definition buildStatus (version : string) (up : Z) (m : Manager) (tlsLoaded : list string) (queueDepth : Z)
    (counters : option Counters) : OS Report :=
  let c := Config.current m in
  ds ← domain_infos c (c_Domains c);
  mret (Build version (Config.Hostname (c_Server c)) up ds (llen (c_Users c)) (configured_listeners c) tlsLoaded queueDepth
          counters (c_Warnings c) (LastError m)).
End status.

(** *** Its text *)

(** [%-12s], [%3d]: widths count runes. *)
Definition spaces (n : Z) : string := of_chars (replicate (Z.to_nat n) " "%char).
Definition pad_right (width : Z) (s : string) : string := s +:+ spaces (width - llen (runes s)).
Definition pad_left (width : Z) (s : string) : string := spaces (width - llen (runes s)) +:+ s.

Definition domain_line (d : DomainInfo) : string :=
  "  " +:+ pad_right 30 (di_Name d) +:+ " " +:+ pad_right 12 (di_Storage d) +:+ " " +:+ pad_left 3 (dec (di_Mailboxes d))
  +:+ " mailbox(es)  " +:+ (if di_DKIM d then "dkim" else "unsigned") +:+ NL.

Definition by_name : DomainInfo → DomainInfo → bool := λ a b, String.ltb (di_Name a) (di_Name b).

Definition Print_ `{SliceSort} (r : Report) : string :=
  let c := rp_Counters r in
  "kavira " +:+ rp_Version r +:+ "  " +:+ rp_Hostname r +:+ NL
  +:+ "  pid " +:+ dec (rp_PID r) +:+ ", up " +:+ rp_Uptime r +:+ NL +:+ NL
  +:+ "Listeners" +:+ NL
  +:+ (match rp_Listeners r with [] => "  none" +:+ NL | _ => "" end)
  +:+ Join ((λ l, "  " +:+ pad_right 12 (ln_Protocol l) +:+ " " +:+ ln_Address l +:+ NL) <$> rp_Listeners r) ""
  +:+ NL +:+ "TLS" +:+ NL
  +:+ (match rp_TLSLoaded r with
       | [] => "  no certificate loaded (submission, IMAP, POP3 and the API do not start)" +:+ NL
       | l => "  " +:+ Join l ", " +:+ NL
       end)
  +:+ NL +:+ "Domains (" +:+ dec (llen (rp_Domains r)) +:+ ", " +:+ dec (rp_Mailboxes r) +:+ " mailboxes)" +:+ NL
  +:+ (match rp_Domains r with [] => "  none: this server accepts no mail" +:+ NL | _ => "" end)
  +:+ Join (domain_line <$> sort_slice by_name (rp_Domains r)) ""
  +:+ NL +:+ "Mail since start" +:+ NL
  +:+ "  inbound     " +:+ dec (received c) +:+ " received, " +:+ dec (rejected c) +:+ " rejected, " +:+ dec (spam c) +:+ " spam, "
      +:+ dec (relayDeny c) +:+ " relay denied" +:+ NL
  +:+ "  submission  " +:+ dec (submitted c) +:+ " accepted, " +:+ dec (authOK c) +:+ " auth ok, " +:+ dec (authFail c) +:+ " auth failed" +:+ NL
  +:+ "  outbound    " +:+ dec (delivered c) +:+ " delivered, " +:+ dec (deferred c) +:+ " deferred, " +:+ dec (bounced c) +:+ " bounced" +:+ NL
  +:+ "  queue       " +:+ dec (rp_QueueDepth r) +:+ " waiting" +:+ NL
  +:+ (if is_empty (rp_ReloadError r) then "" else
         NL +:+ "Last reload FAILED, the previous configuration is still active:" +:+ NL +:+ "  " +:+ rp_ReloadError r +:+ NL)
  +:+ Join ((λ w, NL +:+ "warning: " +:+ w +:+ NL) <$> rp_Warnings r) "".

(** ** The commands of [main] *)

(** What a command prints to its two streams and its exit code. *)
Record Exit := MkExit { x_out : string; x_err : string; x_code : Z }.

(** [fatalIf] *)
Definition fatal (t : string) : Exit := MkExit "" ("kavira: " +:+ t +:+ NL) 1.

(** [check-config], on the outcome of [config.Load]. *)
Definition config_line (c : Config) (d : Domain) : string :=
  "  " +:+ pad_right 30 (d_Name d) +:+ " " +:+ pad_right 12 (storage_type d) +:+ " " +:+ dec (mailboxes c (d_Name d)) +:+ " mailbox(es)" +:+ NL.

Definition check_config (cfgPath : string) (loaded : result Config) (show : error → string) : Exit :=
  match loaded with
  | Err e => MkExit "" ("config error: " +:+ show e +:+ NL) 1
  | Ok c =>
      MkExit
        (Join ((λ w, "warning: " +:+ w +:+ NL) <$> c_Warnings c) "" +:+ cfgPath +:+ ": config OK" +:+ NL
         +:+ "domains: " +:+ dec (llen (c_Domains c)) +:+ " from " +:+ c_DomainsDir c +:+ NL
         +:+ Join (config_line c <$> c_Domains c) "") "" 0
  end.

(** [hash-password], on what standard input holds. *)
Definition typed_password (input : string) : string :=
  let '(line, _, found) := Cut input NL in TrimRight (if found : bool then line +:+ NL else line) (of_chars [CR; LF]).

Section hash.
Context (argon2_IDKey : string → string → Z → Z → Z → Z → string) (bcrypt_ok : string → string → bool).

Definition hash_password (salt input : string) : Exit :=
  let prompt := "password: " in
  if is_empty input then MkExit "" (prompt +:+ x_err (fatal "EOF")) 1
  else if is_empty (typed_password input) then MkExit "" (prompt +:+ x_err (fatal "empty password")) 1
  else MkExit (HashArgon2id argon2_IDKey salt (typed_password input) +:+ NL) prompt 0.
End hash.

(** [generate-dkim]: the record printed, as new or as the existing one. *)
Inductive dkim_outcome :=
  | NewKey (rec : string * string)
  | ExistingKey (e : error) (rec : string * string)
  | NoKey (e : error).

Definition generate_dkim `{KeyLib} (env : Env) (dir : path) (arg selector : string) : World → dkim_outcome * World := λ w,
  let domain := ToLower arg in
  match Generate env dir domain selector w with
  | (Ok rec, w) => (NewKey rec, w)
  | (Err e, w) =>
      match TXTRecord env dir domain selector w with
      | (Ok rec, w) => (ExistingKey e rec, w)
      | (Err _, w) => (NoKey e, w)
      end
  end.

(** ** Signals *)

Lemma trim_dec z : 0 <= z → TrimSpace (dec z +:+ NL) = dec z.
Proof.
  intros Hz. assert (Hs : sall (λ c, negb (is_space c)) (dec z) = true).
  { eapply sall_impl; [|by apply dec_digits]. intros c. destruct c as [[] [] [] [] [] [] [] []]; vm_compute; done. }
  unfold TrimSpace. assert (Hl : ∀ t, trim_left is_space (dec z +:+ t) = dec z +:+ t).
  { intros t. pose proof (dec_nonempty z Hz) as Hn. destruct (dec z) as [|c s]; [done|]. rewrite sapp_cons. cbn [trim_left].
    cbn [sall] in Hs. apply andb_true_iff in Hs as [Hs _]. by apply negb_true_iff in Hs as ->. }
  rewrite Hl. assert (Hr : ∀ s, trim_right is_space (s +:+ NL) = trim_right is_space s).
  { induction s as [|c s IH]; [done|]. rewrite sapp_cons. cbn [trim_right]. by rewrite IH. }
  rewrite Hr. by apply trim_right_keep.
Qed.

(** [kavira stop] and [kavira reload] reach the daemon: with the pidfile
    the daemon wrote, exactly one signal is sent, to its process.  Whatever
    the pidfile holds, a signal is only sent to the one positive process
    number it names, never to a process group or to every process. *)
Theorem signal_spec env env' kill p sg w w1 : reliable env' → 0 < e_pid env < 2 ^ 63 → WritePidfile env p w = (Ok tt, w1) →
  signalDaemon env' kill p sg w1 = (kill (e_pid env) sg, [(e_pid env, sg)], tick w1) ∧
  ∀ w0 n g, (n, g) ∈ (signalDaemon env' kill p sg w0).1.2 →
    0 < n ∧ g = sg ∧ ∃ f, w_files w0 !! p = Some f ∧ Atoi (TrimSpace (f_data f)) = Some n.
Proof.
  intros Hr Hpid Hw. split.
  - apply os_bind_ok in Hw as ([]&w2&_&Hw). apply WriteFile_files in Hw as [_ Hs]. specialize (Hs eq_refl).
    unfold signalDaemon, readPid. rewrite (os_bind_eq _ _ _ _ _ (ReadFile_saved _ _ _ _ Hr Hs)). cbv beta iota.
    rewrite trim_dec, Atoi_dec by lia. destruct (Z.leb_spec (e_pid env) 0); [lia|]. reflexivity.
  - intros w0 n g. unfold signalDaemon, readPid, os_try, mbind, OS_bind.
    destruct (ReadFile env' p w0) as [[b|e] w2] eqn:E; [|intros []%elem_of_nil].
    apply ReadFile_files in E as (_&_&Hb). specialize (Hb b eq_refl). apply fmap_Some in Hb as (f&Hf&->).
    destruct (Atoi _) as [pid|] eqn:Ea; [|intros []%elem_of_nil]. destruct (Z.leb_spec pid 0); [intros []%elem_of_nil|].
    intros [= -> ->]%list_elem_of_singleton. split_and!; [done..|]. by exists f.
Qed.

Lemma signal_spec_witness :
  (signalDaemon calm (λ _ _, Ok tt) ["run"; "kavira"; "kavira.pid"] SIGHUP (WritePidfile calm ["run"; "kavira"; "kavira.pid"] empty_world).2).1
  = (Ok tt, [(1, SIGHUP)]).
Proof.
  destruct (signal_spec calm calm (λ _ _, Ok tt) ["run"; "kavira"; "kavira.pid"] SIGHUP empty_world
    (WritePidfile calm ["run"; "kavira"; "kavira.pid"] empty_world).2 calm_reliable) as [H _].
  - vm_compute. split; reflexivity.
  - vm_compute. reflexivity.
  - rewrite H. reflexivity.
Defined.

(** ** The DKIM record *)

(** C40: while no call of the file system fails, [kavira generate-dkim] can
    be run again: no file that was there is touched, whatever the outcome,
    and once a key was made another run,
    with the domain written in any case, shows the record of that key
    again and changes nothing.  When the key file cannot be examined an
    existing key is overwritten ([Dkim.stat_failure_overwrites]). *)
Theorem generate_dkim_spec `{KeyLibOk} env env' dir arg selector w o w' :
  reliable env → reliable env' → generate_dkim env dir arg selector w = (o, w') →
  (∀ q f, w_files w !! q = Some f → w_files w' !! q = Some f) ∧
  ∀ rec arg', o = NewKey rec → ToLower arg' = ToLower arg →
    ∃ e, (generate_dkim env' dir arg' selector w').1 = ExistingKey e rec ∧
         w_files (generate_dkim env' dir arg' selector w').2 = w_files w'.
Proof.
  intros Hr Hr' HG. unfold generate_dkim in *. destruct (Generate env dir (ToLower arg) selector w) as [r w1] eqn:E.
  pose proof (generate_spec _ _ _ _ _ _ _ _ Hr Hr' E) as [Hk Hok]. destruct r as [rec|e].
  - injection HG as <- <-. split; [done|]. intros rec' arg' [= <-] ->. destruct Hok as (_&(k&Hs)&Ht).
    assert (Hf : is_Some (w_files w1 !! keyPath dir (ToLower arg) (selector_or_default selector))).
    { rewrite Signer_reliable in Hs by done. destruct (w_files w1 !! _); [by eexists|done]. }
    assert (HG2 : Generate env' dir (ToLower arg) selector w1 = (Err (EMsg "key already exists"), tick w1)).
    { unfold Generate. cbv zeta. unfold mbind at 1, OS_bind at 1, os_try. rewrite Stat_reliable by done.
      replace (is_file w1 _) with true by (symmetry; by apply bool_decide_eq_true). by rewrite orb_true_r. }
    rewrite HG2.
    destruct (TXTRecord_same env' dir (ToLower arg) selector w1 (tick w1) Hr' eq_refl) as [Hsame Hfiles].
    destruct (TXTRecord env' dir (ToLower arg) selector (tick w1)) as [r2 w2]. cbn in *. rewrite Hsame, Ht. eauto.
  - destruct (TXTRecord_same env dir (ToLower arg) selector w1 w1 Hr eq_refl) as [_ Hf].
    destruct (TXTRecord env dir (ToLower arg) selector w1) as [[rec|e'] w2]; injection HG as <- <-; cbn in *; rewrite Hf;
      split; done.
Qed.

Definition first_key : dkim_outcome * World := generate_dkim (H := sample_keys "new") calm ["dkim"] "New.Example" "" key_home.

Lemma generate_dkim_spec_witness : ∃ rec e, first_key.1 = NewKey rec ∧
  (generate_dkim (H := sample_keys "new") calm ["dkim"] "new.example" "" first_key.2).1 = ExistingKey e rec ∧
  w_files first_key.2 !! ["dkim"; "old.example"; "default.pem"] = Some (MkFile "PEM old" 0).
Proof.
  destruct first_key.1 as [rec|e rec|e] eqn:E; [|vm_compute in E; discriminate E..].
  destruct (generate_dkim_spec (H := sample_keys "new") (H0 := sample_keys_ok "new") calm calm ["dkim"] "New.Example" "" key_home
    first_key.1 first_key.2 calm_reliable calm_reliable (surjective_pairing first_key)) as [Hk Hn].
  destruct (Hn rec "new.example" E eq_refl) as (e&He&_). exists rec, e. split; [reflexivity|]. split; [exact He|]. apply Hk. reflexivity.
Defined.

(** ** What the status says *)

Lemma domain_infos_reliable `{KeyLib} env c ds w : reliable env → ∃ l w', domain_infos env c ds w = (Ok l, w') ∧ w_files w' = w_files w ∧
  l = (λ d, MkDomainInfo (d_Name d) (storage_type d) (mailboxes c (d_Name d))
         (bool_decide (is_Some (w_files w !! keyPath (path_join [] (dkim_Dir (c_DKIM c))) (d_Name d)
            (selector_or_default (DKIMSelectorFor c (d_Name d))) ≫= λ f, decode_key (f_data f))))) <$> ds.
Proof.
  intros Hr. revert w. induction ds as [|d ds IH]; intros w; cbn [domain_infos]; [by exists [], w|].
  unfold mbind at 1, OS_bind at 1. rewrite Signer_reliable by done. destruct (IH (tick w)) as (l&w'&E&Hf&Hl).
  unfold mbind at 1, OS_bind at 1. rewrite E. eexists _, _. split; [reflexivity|]. split; [exact Hf|]. cbn [fmap list_fmap]. by rewrite Hl.
Qed.

(** The status always comes, in the form its client accepts, and changes
    no file. *)
Theorem status_answers `{KeyLib} env fmt version up m tls depth counters w : reliable env →
  ∃ rp w', buildStatus env fmt version up m tls depth counters w = (Ok rp, w') ∧ w_files w' = w_files w ∧
    Query (Answered rp) = Ok rp ∧ (di_Name <$> rp_Domains rp) = DomainNames (Config.current m) ∧
    rp_Mailboxes rp = llen (c_Users (Config.current m)) ∧ rp_ReloadError rp = LastError m.
Proof.
  intros Hr. destruct (domain_infos_reliable env (Config.current m) (c_Domains (Config.current m)) w Hr) as (l&w'&E&Hf&Hl).
  eexists _, w'. split; [unfold buildStatus; cbv zeta; unfold mbind, OS_bind; rewrite E; reflexivity|].
  split; [done|]. split; [done|]. split; [|done]. cbn. rewrite Hl, <- list_fmap_compose. reflexivity.
Qed.
