(* ===== verification/Lifecycle.v ===== *)
(** * The life of the daemon: state that outlives it

    Models the parts of [runDaemon] in [cmd/kavira/main.go] that load the
    learned corpus and the reputation records at the start, save them every
    five minutes and when the daemon is asked to stop ([saveState]), and
    what the daemon leaves on disk when it ends: the pidfile.  Both stores
    are used through one interface. *)

From S2P Require Import Prelude GoStrings GoUtf8 GoNum Fs Persist Config Storage Bayes Reputation Bootstrap Commands.

(** ** State kept in a file *)

(** A store that is loaded from a file and saved to it when it has
    changed: [Bayes] and [reputation.Store]. *)
Class Durable (S : Type) := {
  du_load : Env → option path → OS S;
  du_save : Env → S → OS S;
  du_dirty : S → bool;
  (** of the file at this path, and in a state that its operations keep *)
  du_ok : path → S → Prop;
  (** what the text of the file means; [None] is no file *)
  du_decode : path → option string → result S;
}.

Class DurableLaws (S : Type) `{Durable S} := {
  du_load_decode env (p : path) w : reliable env → p ∉ w_dirs w → (du_load env (Some p) w).1 = du_decode p (f_data <$> w_files w !! p);
  du_save_clean env s w : du_dirty s = false → du_save env s w = (Ok s, w);
  du_save_dirty env (p : path) s w r w' : p ≠ [] → du_ok p s → du_dirty s = true → du_save env s w = (r, w') →
    (∀ q : path, q ≠ p → q ≠ tmp_of p → w_files w' !! q = w_files w !! q) ∧
    match r with
    | Err _ => w_files w' !! p = w_files w !! p
    | Ok s' => du_ok p s' ∧ du_dirty s' = false ∧ du_decode p (f_data <$> w_files w' !! p) = Ok s'
    end;
}.

Section persistent.
Context {A : Type} `{DurableLaws A}.

(** The text at the path means the store [d], and a store that has not
    changed is that one. *)
Record stored (p : path) (w : World) (s d : A) : Prop := {
  sd_ok : du_ok p s;
  sd_text : du_decode p (f_data <$> w_files w !! p) = Ok d;
  sd_clean : du_dirty s = false → s = d;
}.

Lemma stored_elsewhere (p : path) w w' s d : w_files w' !! p = w_files w !! p → stored p w s d → stored p w' s d.
Proof. intros E [H1 H2 H3]. split; [done|by rewrite E|done]. Qed.

Lemma stored_changed p w s d s' : du_ok p s' → du_dirty s' = true ∨ s' = s → stored p w s d → stored p w s' d.
Proof. intros Hok Hd [H1 H2 H3]. split; [done|done|]. intros Hc. destruct Hd as [Hd| ->]; [congruence|auto]. Qed.

Lemma save_elsewhere env (p : path) s w (q : path) : p ≠ [] → du_ok p s → q ≠ p → q ≠ tmp_of p → w_files (du_save env s w).2 !! q = w_files w !! q.
Proof.
  intros Hp Hok Hq Hq'. destruct (du_dirty s) eqn:Ed; [|by rewrite du_save_clean].
  destruct (du_save env s w) as [r w'] eqn:E. by apply (du_save_dirty env p s w r w' Hp Hok Ed E).
Qed.

Lemma stored_saved env (p : path) w s d r w' : p ≠ [] → du_save env s w = (r, w') → stored p w s d →
  match r with Ok s' => stored p w' s' s' | Err _ => stored p w' s d end.
Proof.
  intros Hp E [H1 H2 H3]. destruct (du_dirty s) eqn:Ed.
  - apply (du_save_dirty env p s w r w' Hp H1 Ed) in E as [_ E]. destruct r as [s'|e]; [destruct E as (?&?&?); by split|].
    split; [done|by rewrite E|congruence].
  - rewrite du_save_clean in E by done. injection E as <- <-. split; [done|by rewrite H3|done].
Qed.
End persistent.

(** ** The two stores *)

#[global] Instance bayes_durable : Durable Bayes := {|
  du_load := NewBayes;
  du_save := Bayes.Save;
  du_dirty := Bayes.dirty;
  du_ok p b := b_path b = Some p ∧ well_formed b;
  du_decode p text := match text with None => Ok (MkBayes (Some p) ∅ 0 0 false) | Some t => load_text (Some p) t end;
|}.

#[global] Instance reputation_durable `{Codec} : Durable Reputation.Store := {|
  du_load := Reputation.Open;
  du_save := Reputation.Save;
  du_dirty := Reputation.dirty;
  du_ok p s := s_path s = Some p;
  du_decode p text := Ok (MkStore (Some p) (match text with None => ∅ | Some t => default ∅ (Unmarshal t) end) false);
|}.

(** Reading a file that is not a directory, when nothing fails. *)
Lemma ReadFile_text env (p : path) w : reliable env → p ∉ w_dirs w →
  os_try (ReadFile env p) w = (Ok (match w_files w !! p with Some f => Ok (f_data f) | None => Err ENotExist end), tick w).
Proof.
  intros Hr Hd. unfold os_try, ReadFile. rewrite fallible_reliable by done. cbn [tick w_files]. unfold is_dir. cbn [tick w_dirs].
  destruct (w_files w !! p); [done|]. by rewrite bool_decide_eq_false_2.
Qed.

#[global] Instance bayes_laws : DurableLaws Bayes.
Proof.
  split; cbn.
  - intros env p w Hr Hd. unfold NewBayes. rewrite (os_bind_eq _ _ _ _ _ (ReadFile_text env p w Hr Hd)).
    destruct (w_files w !! p) as [f|]; cbn; [|done]. by destruct (load_text _ _).
  - intros env b w Hd. unfold Bayes.Save. by rewrite Hd.
  - intros env p b w r w' Hne [Hp Hwf] Hd. unfold Bayes.Save. rewrite Hd, Hp. cbn [negb]. cbv iota. unfold mbind, OS_bind, mret, OS_ret.
    destruct (save_file env p (corpus_text b) w) as [[[]|e] w1] eqn:E; apply (save_file_atomic _ _ _ _ _ _ Hne) in E as [Ho Hs];
      intros [= <- <-]; (split; [exact Ho|]); [|exact Hs].
    split_and!; [done| |done|]; [by destruct Hwf|]. rewrite Hs. cbn. by apply load_corpus.
Qed.

#[global] Instance reputation_laws `{CodecOk} : DurableLaws Reputation.Store.
Proof.
  split; cbn.
  - intros env p w Hr Hd. unfold Reputation.Open. rewrite (os_bind_eq _ _ _ _ _ (ReadFile_text env p w Hr Hd)).
    by destruct (w_files w !! p).
  - intros env s w Hd. unfold Reputation.Save. by rewrite Hd.
  - intros env p s w r w' Hne Hp Hd. unfold Reputation.Save. rewrite Hd, Hp. cbn [negb]. cbv iota. unfold mbind, OS_bind, mret, OS_ret.
    destruct (save_file env p (Marshal (records s)) w) as [[[]|e] w1] eqn:E; apply (save_file_atomic _ _ _ _ _ _ Hne) in E as [Ho Hs];
      intros [= <- <-]; (split; [exact Ho|]); [|exact Hs].
    split_and!; [done..|]. rewrite Hs. cbn. by rewrite unmarshal_marshal.
Qed.

(** ** Loading and saving in the daemon *)

(** A path of the configuration; the empty one is no file. *)
Definition file_of (s : string) : option path := if is_empty s then None else Some (at_ s).

(** A store that is enabled is loaded; when its file cannot be read the
    daemon starts with one that has no file, so that the bad file stays as
    it is. *)
Definition load_or_empty `{Durable A} (env : Env) (empty : A) (enabled : bool) (file : string) : OS (option A) :=
  if negb enabled then mret None else
  r ← os_try (du_load env (file_of file));
  mret (Some (match r with Ok s => s | Err _ => empty end)).

Definition no_corpus : Bayes := MkBayes None ∅ 0 0 false.
Definition no_records : Reputation.Store := MkStore None ∅ false.

Section life.
Context {CO : Codec} {UC : Unicode}.

Definition load_bayes (env : Env) (cfg : Config) : OS (option Bayes) :=
  load_or_empty env no_corpus (Antispam_IsEnabled (c_Antispam cfg)) (BayesFile (c_Antispam cfg)).
Definition load_reputation (env : Env) (cfg : Config) : OS (option Reputation.Store) :=
  load_or_empty env no_records (Reputation_IsEnabled (c_Reputation cfg)) (rep_File (c_Reputation cfg)).

(** A failed save is logged and leaves the store to be saved again. *)
Definition save_one `{Durable A} (env : Env) (o : option A) : OS (option A) :=
  match o with
  | None => mret None
  | Some s => r ← os_try (du_save env s); mret (Some (match r with Ok s' => s' | Err _ => s end))
  end.

Record State := MkState { st_bayes : option Bayes; st_rep : option Reputation.Store; st_world : World }.

Definition saveState (env : Env) (s : State) : State :=
  let '(b, w) := save_one env (st_bayes s) (st_world s) in
  let '(r, w') := save_one env (st_rep s) w in
  MkState (match b with Ok b => b | Err _ => st_bayes s end) (match r with Ok r => r | Err _ => st_rep s end) w'.

(** What happens in the daemon as far as this state goes: the classifier
    is trained, sessions and the scheduler record and ask for reputation,
    the ticker or the end of the daemon saves, and the rest of the system
    uses the disk. *)
Inductive happening :=
  | Trains (data : string) (isSpam : bool)
  | Records (key : string) (e : Event) (t t' : Z)
  | Asks (key : string) (t : Z)
  | Allows (key : string) (wu : Reputation.WarmUp) (t t' : Z)
  | Saves (env : Env)
  | Elsewhere (g : World → World).

Definition with_bayes (f : Bayes → Bayes) (s : State) : State := MkState (f <$> st_bayes s) (st_rep s) (st_world s).
Definition with_rep (f : Reputation.Store → Reputation.Store) (s : State) : State := MkState (st_bayes s) (f <$> st_rep s) (st_world s).

Definition live (s : State) (h : happening) : State :=
  match h with
  | Trains data isSpam => with_bayes (λ b, Train b data isSpam) s
  | Records key e t t' => with_rep (λ r, (RecordEvent r key e t t').2) s
  | Asks key t => with_rep (λ r, (Blocked r key t).2) s
  | Allows key wu t t' => with_rep (λ r, (AllowSend r key wu t t').2) s
  | Saves env => saveState env s
  | Elsewhere g => MkState (st_bayes s) (st_rep s) (g (st_world s))
  end.

(** ** What a restart finds *)

(** What is on disk after a save: the store if that save succeeded. *)
Definition after_save `{Durable A} (env : Env) (o d : option A) (w : World) : option A :=
  match o with
  | None => d
  | Some s => match (du_save env s w).1 with Ok s' => Some s' | Err _ => d end
  end.

(** The stores as of the last saves that succeeded. *)
Fixpoint kept (s : State) (d : option Bayes * option Reputation.Store) (hs : list happening)
    : option Bayes * option Reputation.Store :=
  match hs with
  | [] => d
  | h :: hs =>
      kept (live s h)
        (match h with
         | Saves env =>
             (after_save env (st_bayes s) d.1 (st_world s),
              after_save env (st_rep s) d.2 (save_one env (st_bayes s) (st_world s)).2)
         | _ => d
         end) hs
  end.

(** Two files that do not get in each other's way. *)
Record apart (p q : path) : Prop := {
  ap_files : p ≠ q;
  ap_tmp : p ≠ tmp_of q;
  ap_name : p ≠ [];
}.

(** Nothing else writes to these files. *)
Definition leaves (ps : list path) (h : happening) : Prop :=
  match h with Elsewhere g => ∀ w (p : path), p ∈ ps → w_files (g w) !! p = w_files w !! p | _ => True end.

Lemma save_one_run `{DurableLaws A} env (s : A) w : ∃ r w', du_save env s w = (r, w') ∧
  save_one env (Some s) w = (Ok (Some (match r with Ok s' => s' | Err _ => s end)), w').
Proof.
  unfold save_one, os_try, mbind, OS_bind, mret, OS_ret. destruct (du_save env s w) as [r w']. by exists r, w'.
Qed.

(** One save, seen from the store that is saved and from another one. *)
Lemma save_one_stored `{DurableLaws A} env (p : path) (s d : A) w : p ≠ [] → stored p w s d →
  ∃ s' d' w', save_one env (Some s) w = (Ok (Some s'), w') ∧ after_save env (Some s) (Some d) w = Some d' ∧ stored p w' s' d' ∧
    ∀ q : path, apart q p → w_files w' !! q = w_files w !! q.
Proof.
  intros Hp Hs. destruct (save_one_run env s w) as (r&w'&E&Es). pose proof (stored_saved env p w s d r w' Hp E Hs) as Hst.
  assert (Ho : ∀ q : path, apart q p → w_files w' !! q = w_files w !! q).
  { intros q [H1 H2 _]. pose proof (save_elsewhere env p s w q Hp (sd_ok _ _ _ _ Hs) H1 H2) as Hq. by rewrite E in Hq. }
  unfold after_save. rewrite E. destruct r as [s'|e]; [exists s', s', w'|exists s, d, w']; by split_and!.
Qed.

Lemma get_changed p r key t : s_path r = Some p →
  s_path (get r key t).2 = Some p ∧ (Reputation.dirty (get r key t).2 = true ∨ (get r key t).2 = r ∧ records r !! key = Some (get r key t).1).
Proof.
  intros Hp. unfold get. destruct (records r !! key) as [x|] eqn:Ex; [|split; [done|by left]].
  unfold decay, roll. destruct (fge _ _); [by destruct (_ <=? _); cbn; rewrite ?orb_true_r; auto|].
  destruct (_ <=? _); [cbn; rewrite ?orb_true_r; auto|]. cbn. split; [done|right]. split; [|done].
  unfold put. rewrite insert_id by done. rewrite !orb_false_r. by destruct r.
Qed.

Lemma asks_changed p r key t : du_ok p r → let r' := (Blocked r key t).2 in du_ok p r' ∧ (du_dirty r' = true ∨ r' = r).
Proof.
  intros Hp. destruct (get_changed p r key t Hp) as [H1 H2]. unfold Blocked, ScoreOf. destruct (get r key t) as [x r'].
  split; [exact H1|]. destruct H2 as [?|[? _]]; [by left|by right].
Qed.

Lemma allows_changed p r key wu t t' : du_ok p r → let r' := (AllowSend r key wu t t').2 in du_ok p r' ∧ (du_dirty r' = true ∨ r' = r).
Proof.
  intros Hp. destruct (get_changed p r key t Hp) as [H1 H2]. unfold AllowSend. destruct (negb _); [by split; [|right]|].
  destruct (get r key t) as [x r']. destruct (_ =? 0); (split; [exact H1|]; destruct H2 as [?|[? _]]; [by left|by right]).
Qed.

Lemma records_changed p r key e t t' : du_ok p r → let r' := (RecordEvent r key e t t').2 in du_ok p r' ∧ (du_dirty r' = true ∨ r' = r).
Proof.
  intros Hp. destruct (get_changed p r key t Hp) as [H1 _]. unfold RecordEvent. destruct (get r key t) as [x r'].
  split; [exact H1|by left].
Qed.

Section survive.
Context {CK : CodecOk} {UK : UnicodeOk} (pb pr : path).
Hypotheses (Hbr : apart pb pr) (Hrb : apart pr pb).

(** Both stores of a state, with what is on disk for them. *)
Record both (s : State) (d : option Bayes * option Reputation.Store) : Prop := {
  bo_bayes : ∃ b db, st_bayes s = Some b ∧ d.1 = Some db ∧ stored pb (st_world s) b db;
  bo_rep : ∃ r dr, st_rep s = Some r ∧ d.2 = Some dr ∧ stored pr (st_world s) r dr;
}.

Lemma rep_both f s d : (∀ r, du_ok pr r → du_ok pr (f r) ∧ (du_dirty (f r) = true ∨ f r = r)) → both s d → both (with_rep f s) d.
Proof.
  intros Hf [Hb (r&dr&E&E'&Hst)]. split; [done|]. destruct (Hf r (sd_ok _ _ _ _ Hst)) as [Hok Hd].
  exists (f r), dr. cbn. rewrite E. split_and!; [done..|]. by eapply stored_changed.
Qed.

Lemma saveState_both env s d : both s d →
  both (saveState env s)
    (after_save env (st_bayes s) d.1 (st_world s), after_save env (st_rep s) d.2 (save_one env (st_bayes s) (st_world s)).2).
Proof.
  intros [(b&db&Eb&Edb&Hb) (r&dr&Er&Edr&Hr)]. unfold saveState. rewrite Eb, Er, Edb, Edr.
  destruct (save_one_stored env pb b db (st_world s) (ap_name _ _ Hbr) Hb) as (b'&db'&w1&E1&A1&S1&O1). rewrite E1. cbn [snd].
  assert (Hr1 : stored pr w1 r dr) by (eapply stored_elsewhere; [|exact Hr]; by apply O1).
  destruct (save_one_stored env pr r dr w1 (ap_name _ _ Hrb) Hr1) as (r'&dr'&w2&E2&A2&S2&O2). rewrite E2. split; cbn.
  - exists b', db'. split_and!; [done..|]. eapply stored_elsewhere; [|exact S1]. by apply O2.
  - by exists r', dr'.
Qed.

Lemma live_both h s d : leaves [pb; pr] h → both s d →
  both (live s h) (match h with
    | Saves env => (after_save env (st_bayes s) d.1 (st_world s), after_save env (st_rep s) d.2 (save_one env (st_bayes s) (st_world s)).2)
    | _ => d
    end).
Proof.
  intros Hl Hs. destruct h as [data isSpam|key e t t'|key t|key wu t t'|env|g]; cbn [live].
  - destruct Hs as [(b&db&E&E'&Hst) Hr]. split; [|done]. exists (Train b data isSpam), db. cbn. rewrite E. split_and!; [done..|].
    eapply stored_changed; [|by left|exact Hst]. destruct (sd_ok _ _ _ _ Hst). split; [done|by apply Train_well_formed].
  - apply rep_both; [|done]. intros r. apply records_changed.
  - apply rep_both; [|done]. intros r. apply asks_changed.
  - apply rep_both; [|done]. intros r. apply allows_changed.
  - by apply saveState_both.
  - destruct Hs as [(b&db&E&E'&Hst) (r&dr&F&F'&Hst')]. split; [exists b, db|exists r, dr]; (split_and!; [done..|]); cbn;
      (eapply stored_elsewhere; [|done]); apply Hl; [left|right; left].
Qed.

Lemma lives_both hs s d : Forall (leaves [pb; pr]) hs → both s d → both (foldl live s hs) (kept s d hs).
Proof.
  intros Hl. revert s d. induction Hl as [|h hs Hh _ IH]; intros s d Hs; [done|]. cbn [foldl kept]. by apply IH, live_both.
Qed.
End survive.

(** C15: what was learned survives the end of the daemon, however it comes:
    whatever was trained, recorded and asked, whichever saves failed at
    whichever call, and wherever the daemon died, a daemon that starts
    afterwards and can read its files has the corpus as of the last save of
    the corpus that succeeded, and the reputations as of the last save of
    the reputations that succeeded.  JSON gives back what it encoded, and
    the two files have paths of their own that are not directories. *)
Theorem state_survives `{CK : !CodecOk} `{UK : !UnicodeOk} env' cfg (pb pr : path) s b r db dr hs :
  reliable env' → apart pb pr → apart pr pb → Forall (leaves [pb; pr]) hs →
  Antispam_IsEnabled (c_Antispam cfg) = true → file_of (BayesFile (c_Antispam cfg)) = Some pb →
  Reputation_IsEnabled (c_Reputation cfg) = true → file_of (rep_File (c_Reputation cfg)) = Some pr →
  st_bayes s = Some b → stored pb (st_world s) b db → st_rep s = Some r → stored pr (st_world s) r dr →
  let w := st_world (foldl live s hs) in
  pb ∉ w_dirs w → pr ∉ w_dirs w →
  (load_bayes env' cfg w).1 = Ok (kept s (Some db, Some dr) hs).1 ∧
  (load_reputation env' cfg w).1 = Ok (kept s (Some db, Some dr) hs).2.
Proof.
  intros Hrel Hbr Hrb Hl Hab Hfb Har Hfr Eb Sb Er Sr w Hdb Hdr.
  assert (Hboth : both pb pr s (Some db, Some dr)) by (split; [by exists b, db|by exists r, dr]).
  pose proof (lives_both pb pr Hbr Hrb hs s _ Hl Hboth) as [(b1&db1&_&Ed1&S1) (r1&dr1&_&Ed2&S2)]. fold w in S1, S2. rewrite Ed1, Ed2.
  unfold load_bayes, load_reputation, load_or_empty. rewrite Hab, Har, Hfb, Hfr. cbn [negb].
  pose proof (du_load_decode (S := Bayes) env' pb w Hrel Hdb) as L1. rewrite (sd_text _ _ _ _ S1) in L1.
  pose proof (du_load_decode (S := Reputation.Store) env' pr w Hrel Hdr) as L2. rewrite (sd_text _ _ _ _ S2) in L2.
  unfold os_try, mbind, OS_bind, mret, OS_ret.
  destruct (du_load env' (Some pb) w) as [x1 w1], (du_load env' (Some pr) w) as [x2 w2]. cbn in L1, L2. by subst x1 x2.
Qed.
End life.

(** ** The pidfile *)

Section pidfile.
Context (env : Env).

(** [runDaemon] from [proc.WritePidfile] on; [rest] is what follows, up to
    an error of the start or to the shutdown. *)
Definition with_pidfile (pidfile : path) (rest : OS unit) : OS unit :=
  wrote ← os_try (WritePidfile env pidfile);
  r ← os_try rest;
  (match wrote with Ok _ => os_ignore (Remove env pidfile) | Err _ => mret tt end);;
  match r with Ok _ => mret tt | Err e => os_err e end.

(** A daemon that could write its pidfile leaves none, however it ends,
    and its own outcome is that of the rest. *)
Theorem pidfile_removed pidfile rest w w1 : reliable env → WritePidfile env pidfile w = (Ok tt, w1) →
  let '(r, w') := with_pidfile pidfile rest w in
  r = (rest w1).1 ∧ w_files w' !! pidfile = None.
Proof.
  intros Hr Hw. unfold with_pidfile, os_try, os_ignore, os_err, mbind, OS_bind, mret, OS_ret. rewrite Hw.
  destruct (rest w1) as [r w2] eqn:E2. cbn [fst snd].
  assert (H : w_files (Remove env pidfile w2).2 !! pidfile = None).
  { unfold Remove. rewrite fallible_reliable by done. unfold is_file. case_bool_decide as Hs; cbn in *; [apply lookup_delete_eq|].
    apply eq_None_not_Some in Hs. destruct (is_dir _ _); [|done]. by destruct (list_dir _ _). }
  destruct (Remove env pidfile w2) as [r3 w3]. by destruct r as [[]|e].
Qed.
End pidfile.

(** ** Examples *)

Definition sample_life : list happening :=
  [Trains "Subject: FREE money" true; Records "user:bob" EventBounce 0 0; Saves calm;
   Trains "Subject: lunch" false; Records "user:bob" EventBounce 1 1; Elsewhere (λ w, w)].

Definition at_bayes : path := ["var"; "lib"; "kavira"; "bayes"].
Definition at_reputation : path := ["var"; "lib"; "kavira"; "reputation.json"].
Definition sample_state : State :=
  MkState (Some (MkBayes (Some at_bayes) ∅ 0 0 false)) (Some (MkStore (Some at_reputation) ∅ false)) empty_world.

#[local] Existing Instances bit_codec bit_codec_ok ascii_unicode ascii_unicode_ok.

(** The bounce after the save is lost with the crash, the one before is
    not. *)
Example sample_kept :
  let k := kept sample_state (st_bayes sample_state, st_rep sample_state) sample_life in
  (Trained <$> k.1, (λ r, Reputation.Bounced <$> records r !! "user:bob") <$> k.2) = (Some (0, 1), Some (Some 1)).
Proof. vm_compute. reflexivity. Qed.

Lemma state_survives_witness :
  let w := st_world (foldl live sample_state sample_life) in
  let k := kept sample_state (st_bayes sample_state, st_rep sample_state) sample_life in
  (load_bayes calm sample_cfg w).1 = Ok k.1 ∧ (load_reputation calm sample_cfg w).1 = Ok k.2.
Proof.
  refine (state_survives calm sample_cfg at_bayes at_reputation sample_state
    (MkBayes (Some at_bayes) ∅ 0 0 false) (MkStore (Some at_reputation) ∅ false) _ _ sample_life calm_reliable _ _ _
    eq_refl eq_refl eq_refl eq_refl eq_refl _ eq_refl _ _ _).
  - split; discriminate.
  - split; discriminate.
  - repeat constructor.
  - split; [split; [reflexivity|split; [intros k c [=]|split; done|split; done]]|reflexivity|reflexivity].
  - split; [reflexivity|reflexivity|reflexivity].
  - apply (bool_decide_unpack _). vm_compute. exact I.
  - apply (bool_decide_unpack _). vm_compute. exact I.
Defined.

(** A second [kavira start] on a running server fails, because the ports
    are taken, and takes the pidfile of the first with it: [kavira stop]
    then finds no daemon. *)
Definition at_pidfile : path := ["run"; "kavira.pid"].
Definition second_start : World :=
  let w := (WritePidfile calm at_pidfile empty_world).2 in
  (with_pidfile calm at_pidfile (os_err (EMsg "smtp listener: address already in use")) w).2.

Example running_daemon_unregistered :
  is_file (WritePidfile calm at_pidfile empty_world).2 at_pidfile = true ∧
  (Commands.Stop calm (λ _ _, Ok tt) at_pidfile second_start).1.1 = Err (EMsg "pidfile: is the daemon running?").
Proof. vm_compute. split; reflexivity. Qed.

(** What is recorded while the servers drain, after the save of the
    shutdown, is lost. *)
Example drained_lost :
  let k := kept sample_state (st_bayes sample_state, st_rep sample_state) [Saves calm; Records "user:bob" EventBounce 0 0] in
  (λ r, Reputation.Bounced <$> records r !! "user:bob") <$> k.2 = Some None.
Proof. vm_compute. reflexivity. Qed.
