(* ===== verification/CommandLine.v ===== *)
(** * The command line

    Models [main] and [usage] of [cmd/kavira/main.go]: which command the
    arguments select and with which options, as [flag.FlagSet.Parse] of the
    standard library reads them with [ExitOnError]. *)

From S2P Require Import Prelude GoStrings Config Dkim Bootstrap Commands.

(** ** [package flag] *)

Inductive kind := StringFlag | BoolFlag.

(** The flags of a set, with their defaults. *)
Abbreviation flags := (list (string * (kind * string))).

Definition kind_of (fs : flags) (name : string) : option kind :=
  (λ x, x.2.1) <$> find (λ x, String.eqb x.1 name) fs.

Definition parse_bool (s : string) : option bool :=
  if bool_decide (s ∈ ["1"; "t"; "T"; "TRUE"; "true"; "True"]) then Some true
  else if bool_decide (s ∈ ["0"; "f"; "F"; "FALSE"; "false"; "False"]) then Some false
  else None.

(** The name and the value of [-name=value]; the name has a character. *)
Definition split_flag (s : string) : string * option string :=
  match s with
  | EmptyString => ("", None)
  | String c s => match Cut s "=" with (name, value, found) => (String c name, if (found : bool) then Some value else None) end
  end.

(** What an argument is to the parser. *)
Inductive shape := Positional | Terminator | Malformed | Flag (name : string) (value : option string).

Definition shape_of (s : string) : shape :=
  if (slen s <? 2) || negb (HasPrefix s "-") then Positional else
  if String.eqb s "--" then Terminator else
  let name := if HasPrefix s "--" then sdrop 2 s else sdrop 1 s in
  if HasPrefix name "-" || HasPrefix name "=" then Malformed else
  let '(n, v) := split_flag name in Flag n v.

(** The values, last first, and the other arguments; or the exit code. *)
Inductive parsed := Parsed (values : list (string * string)) (rest : list string) | Exits (code : Z).

Fixpoint parse_args (fs : flags) (values : list (string * string)) (args : list string) : parsed :=
  match args with
  | [] => Parsed values []
  | s :: args =>
      match shape_of s with
      | Positional => Parsed values (s :: args)
      | Terminator => Parsed values args
      | Malformed => Exits 2
      | Flag name value =>
          match kind_of fs name, value with
          | None, _ => Exits (if String.eqb name "help" || String.eqb name "h" then 0 else 2)
          | Some BoolFlag, None => parse_args fs ((name, "true") :: values) args
          | Some BoolFlag, Some v =>
              match parse_bool v with
              | Some b => parse_args fs ((name, if b then "true" else "false") :: values) args
              | None => Exits 2
              end
          | Some StringFlag, Some v => parse_args fs ((name, v) :: values) args
          | Some StringFlag, None =>
              match args with
              | [] => Exits 2
              | v :: args => parse_args fs ((name, v) :: values) args
              end
          end
      end
  end.

(** The value of a flag after parsing. *)
Definition value_of (fs : flags) (values : list (string * string)) (name : string) : string :=
  match find (λ x, String.eqb x.1 name) values with
  | Some x => x.2
  | None => match find (λ x, String.eqb x.1 name) fs with Some x => x.2.2 | None => "" end
  end.

(** ** [main] *)

Definition path_RunDir : string := "/run/kavira".
Definition path_Pidfile : string := path_RunDir +:+ "/kavira.pid".
Definition path_Socket : string := path_RunDir +:+ "/kavira.sock".

Inductive diagnostic := SecurityCheck_ | Audit_ | ContainerCheck_.

(** What [main] does. *)
Inductive run :=
  | Usage
  | UnknownCommand (cmd : string)
  | BadFlags (code : Z)
  | RunDaemon (config pidfile socket : string)
  | StopDaemon (pidfile : string)
  | ReloadDaemon (pidfile : string)
  | CheckConfig (config : string)
  | DoInit
  | DoPurge (assumeYes : bool)
  | ShowStatus (socket : string) (json : bool)
  | ShowVersion
  | HashPassword
  | GenerateDKIM (domain selector dir : string)
  | DKIMUsage
  | Diagnose (d : diagnostic) (config host : string).

Definition start_flags : flags :=
  [("config", (StringFlag, ConfigFile)); ("pidfile", (StringFlag, path_Pidfile)); ("socket", (StringFlag, path_Socket))].
Definition pid_flags : flags := [("pidfile", (StringFlag, path_Pidfile))].
Definition config_flags : flags := [("config", (StringFlag, ConfigFile))].
Definition purge_flags : flags := [("yes", (BoolFlag, "false"))].
Definition status_flags : flags := [("socket", (StringFlag, path_Socket)); ("json", (BoolFlag, "false"))].
Definition dkim_flags : flags := [("selector", (StringFlag, DefaultSelector)); ("dir", (StringFlag, path_DKIMDir))].
Definition check_flags : flags := [("config", (StringFlag, ConfigFile)); ("host", (StringFlag, ""))].

(** A command with its flags. *)
Definition with_flags (fs : flags) (args : list string) (k : (string → string) → list string → run) : run :=
  match parse_args fs [] args with
  | Exits code => BadFlags code
  | Parsed values rest => k (value_of fs values) rest
  end.

Definition among (cmd : string) (names : list string) : bool := bool_decide (cmd ∈ names).

Definition main (argv : list string) : run :=
  match argv with
  | [] => Usage
  | cmd :: args =>
      if among cmd ["start"] then with_flags start_flags args (λ v _, RunDaemon (v "config") (v "pidfile") (v "socket"))
      else if among cmd ["stop"] then with_flags pid_flags args (λ v _, StopDaemon (v "pidfile"))
      else if among cmd ["reload"] then with_flags pid_flags args (λ v _, ReloadDaemon (v "pidfile"))
      else if among cmd ["check-config"] then with_flags config_flags args (λ v _, CheckConfig (v "config"))
      else if among cmd ["init"; "--init"] then DoInit
      else if among cmd ["purge"; "--purge"] then with_flags purge_flags args (λ v _, DoPurge (String.eqb (v "yes") "true"))
      else if among cmd ["status"; "--status"] then
        with_flags status_flags args (λ v _, ShowStatus (v "socket") (String.eqb (v "json") "true"))
      else if among cmd ["version"; "--version"] then ShowVersion
      else if among cmd ["hash-password"] then HashPassword
      else if among cmd ["generate-dkim"] then
        with_flags dkim_flags args (λ v rest,
          match rest with [d] => GenerateDKIM (ToLower d) (v "selector") (v "dir") | _ => DKIMUsage end)
      else if among cmd ["security-check"; "audit"; "container-check"] then
        with_flags check_flags args (λ v _,
          Diagnose (if among cmd ["security-check"] then SecurityCheck_ else if among cmd ["audit"] then Audit_ else ContainerCheck_)
            (v "config") (v "host"))
      else UnknownCommand cmd
  end.

(** ** What the arguments give *)

(** A name as the flags of the program have it. *)
Definition flag_name (name : string) : Prop :=
  ∃ c s, name = String c s ∧ c ≠ "-"%char ∧ c ≠ "="%char ∧ avoids "="%char s = true.

Lemma HasPrefix_char c s d : HasPrefix (String c s) (String d "") = Ascii.eqb d c.
Proof. unfold HasPrefix. cbn -[Ascii.eqb]. by destruct (Ascii.eqb d c). Qed.

Lemma shape_assign name value : flag_name name → shape_of ("--" +:+ name +:+ "=" +:+ value) = Flag name (Some value).
Proof.
  intros (c&s&->&Hc1&Hc2&Hs). unfold shape_of.
  assert (Hlen : (slen ("--" +:+ String c s +:+ "=" +:+ value) <? 2) = false) by (apply Z.ltb_ge; unfold slen; cbn; lia).
  rewrite Hlen. change (sdrop 2 ("--" +:+ String c s +:+ "=" +:+ value)) with (String c (s +:+ String "=" value)).
  change (HasPrefix ("--" +:+ String c s +:+ "=" +:+ value) "--") with true.
  change (HasPrefix ("--" +:+ String c s +:+ "=" +:+ value) "-") with true.
  change (String.eqb ("--" +:+ String c s +:+ "=" +:+ value) "--") with false. cbn [negb orb].
  rewrite !HasPrefix_char. destruct (Ascii.eqb_spec "-" c); [by subst|]. destruct (Ascii.eqb_spec "=" c); [by subst|]. cbn [orb].
  unfold split_flag. by rewrite (Cut_byte s "="%char value).
Qed.

(** Options written as [--name=value], for string flags of the command,
    are read back, and the arguments after them are left. *)
Theorem flags_read_back fs l rest values : (∀ n v, (n, v) ∈ l → flag_name n ∧ kind_of fs n = Some StringFlag) →
  match rest with [] => True | s :: _ => shape_of s = Positional end →
  parse_args fs values (((λ x, "--" +:+ x.1 +:+ "=" +:+ x.2) <$> l) ++ rest) = Parsed (rev l ++ values) rest.
Proof.
  intros Hl Hr. revert values. induction l as [|[n v] l IH]; intros values.
  - destruct rest as [|s rest]; [done|]. cbn [fmap list_fmap app parse_args]. by rewrite Hr.
  - destruct (Hl n v) as [Hn Hk]; [left|]. cbn [fmap list_fmap app parse_args fst snd]. rewrite shape_assign, Hk by done.
    rewrite IH by (intros n' v' ?; apply (Hl n' v'); by right). cbn [rev]. by rewrite <- app_assoc.
Qed.

(** A value that was not given on the command line is the default. *)
Lemma parse_args_values fs args values vs rest n : parse_args fs values args = Parsed vs rest →
  (∃ v, (n, v) ∈ vs) → (∃ v, (n, v) ∈ values) ∨ ∃ arg v, arg ∈ args ∧ shape_of arg = Flag n v.
Proof.
  enough (Hgo : ∀ k args values, (length args <= k)%nat → parse_args fs values args = Parsed vs rest →
    (∃ v, (n, v) ∈ vs) → (∃ v, (n, v) ∈ values) ∨ ∃ arg v, arg ∈ args ∧ shape_of arg = Flag n v) by (intros; eapply (Hgo (length args)); eauto).
  clear args values. induction k as [|k IH]; intros args values Hlen.
  { destruct args; [|cbn in Hlen; lia]. cbn. intros [= <- _]. by left. }
  destruct args as [|s args]; cbn [parse_args]; [intros [= <- _]; by left|]. cbn in Hlen.
  assert (Hrec : ∀ m w args', (∃ v, shape_of s = Flag m v) → (length args' <= k)%nat → (∀ a, a ∈ args' → a ∈ args) →
    parse_args fs ((m, w) :: values) args' = Parsed vs rest →
    (∃ v, (n, v) ∈ vs) → (∃ v, (n, v) ∈ values) ∨ ∃ arg v, arg ∈ s :: args ∧ shape_of arg = Flag n v).
  { intros m w args' [x Hx] Hle Hsub Hp Hvs. destruct (IH args' ((m, w) :: values) Hle Hp Hvs) as [[v Hv]|(a&v&Ha&Hv)].
    - apply elem_of_cons in Hv as [[= -> ->]|Hv]; [right|left; by exists v]. exists s, x. split; [left|done].
    - right. exists a, v. split; [right; auto|done]. }
  destruct (shape_of s) as [| | |m v] eqn:Es; [by intros [= <- _]; left|by intros [= <- _]; left|done|].
  destruct (kind_of fs m) as [[]|]; [| |done].
  - destruct v as [v|]; [apply Hrec; eauto; lia|]. destruct args as [|w args]; [done|]. cbn in Hlen.
    apply Hrec; [by eexists|lia|by right].
  - destruct v as [v|]; [destruct (parse_bool v); [|done]|]; apply Hrec; eauto; lia.
Qed.

(** The confirmation of [purge] is only skipped when the command line has
    the flag that asks for it. *)
Theorem purge_asks argv : main argv = DoPurge true → ∃ cmd args arg v, argv = cmd :: args ∧ arg ∈ args ∧ shape_of arg = Flag "yes" v.
Proof.
  destruct argv as [|cmd args]; [done|]. unfold main, with_flags.
  repeat (destruct (among cmd _); [try done; (destruct (parse_args _ _ args) as [vs rest|code] eqn:E; [|done]); try done|]); [| |done].
  - intros [= Hy]. apply String.eqb_eq in Hy. exists cmd, args.
    destruct (parse_args_values purge_flags args [] vs rest "yes" E) as [[v []%elem_of_nil]|(a&v&Ha&Hv)]; [|by exists a, v].
    unfold value_of in Hy. destruct (find _ vs) as [[n v]|] eqn:Ef; [|done]. apply find_some in Ef as [Hin Hn].
    exists v. apply String.eqb_eq in Hn. cbn in Hn. subst n. by apply list_elem_of_In.
  - destruct rest as [|d []]; done.
Qed.
